(** * mufu: thermal governor and backend selector

    A shallow embedding of [app/server_monitor.py] (class [ServerMonitor]),
    [app/model_selector.py] (class [ModelSelector]) and [app/utils.py],
    followed by the properties of the three modules.

    Conventions of the embedding.
    - A Python [str] is the list of its code points ([list N]); [bytes] is
      [list byte].
    - A Python [float] is a rational number ([Q]); there is no NaN and no
      infinity. Comparisons are exact. In the thermal governor arithmetic
      is exact as well; [calculate_adaptive_delay_binary64],
      [get_system_load] and [get_memory_usage] round every operation to the
      nearest double ([Float64]).
    - Methods of [ServerMonitor] run in a state-and-exception monad over the
      object's attributes; everything the outside world decides (clock,
      SSH, subprocesses, HTTP) is read from an oracle indexed by the number
      of requests made so far, and every request is appended to a trace.
    - [log_action], [log_result], [log_error] and [log_decision] only append
      to the trace. *)

From Stdlib Require Import NArith ZArith QArith Qminmax Qabs Qround Qpower Lqa.
From Stdlib Require Import List Bool Lia String Ascii.
From Stdlib.Strings Require Import Byte.
From stdpp Require Import gmap.
Import ListNotations.
Local Open Scope bool_scope.

(* ================================================================== *)
(** * Part I: the embedding *)
(* ================================================================== *)

(** ** Python strings *)

Module Py.

Abbreviation str := (list N).
Abbreviation bytes := (list byte).

(** An ASCII literal, one code point per character. *)
Fixpoint lit (s : string) : str :=
  match s with
  | EmptyString => []
  | String c s' => N_of_ascii c :: lit s'
  end.

(** Truth value of a string: [bool(s)]. *)
Definition truthy {A} (s : list A) : bool :=
  match s with [] => false | _ => true end.

Fixpoint str_eqb (a b : str) : bool :=
  match a, b with
  | [], [] => true
  | x :: a', y :: b' => N.eqb x y && str_eqb a' b'
  | _, _ => false
  end.

Fixpoint startswith (p s : str) : bool :=
  match p, s with
  | [], _ => true
  | x :: p', y :: s' => N.eqb x y && startswith p' s'
  | _ :: _, [] => false
  end.

(** [p in s] for strings. *)
Fixpoint contains (p s : str) : bool :=
  startswith p s || match s with [] => false | _ :: s' => contains p s' end.

(** [str.isspace] on one code point: the whitespace of Unicode. *)
Definition isspace (c : N) : bool :=
  ((9 <=? c) && (c <=? 13) || (28 <=? c) && (c <=? 32) || (c =? 133)
   || (c =? 160) || (c =? 5760) || (8192 <=? c) && (c <=? 8202)
   || (c =? 8232) || (c =? 8233) || (c =? 8239) || (c =? 8287)
   || (c =? 12288))%N.

Fixpoint lstrip (s : str) : str :=
  match s with
  | c :: s' => if isspace c then lstrip s' else s
  | [] => []
  end.

Definition rstrip (s : str) : str := rev (lstrip (rev s)).

(** [s.strip()] *)
Definition strip (s : str) : str := rstrip (lstrip s).

(** [s.split(sep)] for a one-character separator: never empty. *)
Fixpoint split_on (sep : N) (s : str) : list str :=
  match s with
  | [] => [[]]
  | c :: s' =>
      if N.eqb c sep then [] :: split_on sep s'
      else match split_on sep s' with
           | w :: ws => (c :: w) :: ws
           | [] => [[c]]
           end
  end.

(** [s.split()]: the maximal runs of non-whitespace. *)
Fixpoint split_ws_aux (cur : str) (s : str) : list str :=
  match s with
  | [] => if truthy cur then [rev cur] else []
  | c :: s' =>
      if isspace c
      then (if truthy cur then rev cur :: split_ws_aux [] s'
            else split_ws_aux [] s')
      else split_ws_aux (c :: cur) s'
  end.

Definition split_ws (s : str) : list str := split_ws_aux [] s.

Definition NL : N := 10.

End Py.

Import Py.

(** ** Binary64 arithmetic *)

Module Float64.

Local Open Scope Q_scope.

(** The power of two [2^e]. *)
Definition pow2 (e : Z) : Q := (2 # 1) ^ e.

(** [floor(log2 x)] for a positive [x]. *)
Definition ilog2 (x : Q) : Z :=
  let e := (Z.log2 (Qnum x) - Z.log2 (Z.pos (Qden x)))%Z in
  if Qle_bool (pow2 e) x then e else (e - 1)%Z.

(** The integer nearest to [q], the even one of two that are equally near. *)
Definition rne (q : Q) : Z :=
  let f := Qfloor q in
  match Qcompare (q - inject_Z f) (1 # 2) with
  | Lt => f
  | Gt => (f + 1)%Z
  | Eq => if Z.even f then f else (f + 1)%Z
  end.

(** The double nearest to [x], ties to even: 53 significant bits and
    exponents from -1022, below which the spacing stays that of the
    subnormal numbers. There is no largest exponent: what Python would round
    to infinity stays finite here. *)
Definition round64 (x : Q) : Q :=
  if Qeq_bool x 0 then 0
  else
    let e := Z.max (ilog2 (Qabs x)) (-1022) in
    let ulp := pow2 (e - 52) in
    Qred (inject_Z (rne (x / ulp)) * ulp).

(** [x + y], [x - y], [x * y] and [x / y] of two doubles. *)
Definition fadd (x y : Q) : Q := round64 (x + y).
Definition fsub (x y : Q) : Q := round64 (x - y).
Definition fmul (x y : Q) : Q := round64 (x * y).
Definition fdiv (x y : Q) : Q := round64 (x / y).

End Float64.

Import Float64.

(** What the model takes from the Python runtime rather than defines:
    [float(s)] ([None] stands for [ValueError]), the format [f"{x:.1f}"],
    and the Unicode tables behind [str.isdigit], [\w] and the case folding
    of [re.IGNORECASE] (consulted for code points from 128 on). *)
Class PyRuntime := {
  py_float : str -> option Q;
  py_format_1f : Q -> str;
  uni_isdigit : N -> bool;
  uni_isalnum : N -> bool;
  uni_fold : N -> N
}.

(** ** Constants of [server_monitor.py] *)

Definition CPU_TEMP_WARNING : Q := 70.
Definition CPU_TEMP_CRITICAL : Q := 85.
Definition GPU_TEMP_WARNING : Q := 75.
Definition GPU_TEMP_CRITICAL : Q := 90.

Definition NORMAL_CHECK_INTERVAL : Q := 5.
Definition WARNING_CHECK_INTERVAL : Q := 2.
Definition CRITICAL_CHECK_INTERVAL : Q := 1.

(** Comparisons of floats. *)
Definition Qleb (x y : Q) : bool := Qle_bool x y.
Definition Qltb (x y : Q) : bool := negb (Qle_bool y x).
Definition Qgeb (x y : Q) : bool := Qle_bool y x.
Definition Qgtb (x y : Q) : bool := negb (Qle_bool x y).

(** The status strings ["normal"], ["warning"], ["critical"], ["error"]. *)
Inductive Status := Normal | Warning | Critical | Error.

Definition status_str (s : Status) : str :=
  match s with
  | Normal => lit "normal"
  | Warning => lit "warning"
  | Critical => lit "critical"
  | Error => lit "error"
  end.

Definition Status_eqb (a b : Status) : bool :=
  match a, b with
  | Normal, Normal | Warning, Warning | Critical, Critical | Error, Error => true
  | _, _ => false
  end.

(** ** Codecs: [bytes.decode(encoding)] *)

Module Codec.

Inductive Encoding := Utf8 | Cp1251 | Latin1 | Ascii.

Definition cont (b : N) : bool := ((128 <=? b) && (b <=? 191))%N.

(** Strict UTF-8: no overlong forms, no surrogates, nothing above U+10FFFF.
    [None] stands for [UnicodeDecodeError]. *)
Fixpoint utf8 (bs : list N) : option str :=
  match bs with
  | [] => Some []
  | b0 :: r0 =>
      if (b0 <? 128)%N then option_map (cons b0) (utf8 r0)
      else if ((194 <=? b0) && (b0 <=? 223))%N then
        match r0 with
        | b1 :: r1 =>
            if cont b1
            then option_map (cons ((b0 - 192) * 64 + (b1 - 128))%N) (utf8 r1)
            else None
        | _ => None
        end
      else if ((224 <=? b0) && (b0 <=? 239))%N then
        match r0 with
        | b1 :: b2 :: r2 =>
            if cont b1 && cont b2
               && (negb (b0 =? 224)%N || (160 <=? b1)%N)
               && (negb (b0 =? 237)%N || (b1 <=? 159)%N)
            then option_map
                   (cons ((b0 - 224) * 4096 + (b1 - 128) * 64 + (b2 - 128))%N)
                   (utf8 r2)
            else None
        | _ => None
        end
      else if ((240 <=? b0) && (b0 <=? 244))%N then
        match r0 with
        | b1 :: b2 :: b3 :: r3 =>
            if cont b1 && cont b2 && cont b3
               && (negb (b0 =? 240)%N || (144 <=? b1)%N)
               && (negb (b0 =? 244)%N || (b1 <=? 143)%N)
            then option_map
                   (cons ((b0 - 240) * 262144 + (b1 - 128) * 4096
                          + (b2 - 128) * 64 + (b3 - 128))%N)
                   (utf8 r3)
            else None
        | _ => None
        end
      else None
  end.

(** Windows-1251, bytes 0x80 to 0xBF; 0 marks the one undefined byte 0x98. *)
Definition cp1251_high : list N :=
  [1026; 1027; 8218; 1107; 8222; 8230; 8224; 8225; 8364; 8240; 1033; 8249;
   1034; 1036; 1035; 1039; 1106; 8216; 8217; 8220; 8221; 8226; 8211; 8212;
   0; 8482; 1113; 8250; 1114; 1116; 1115; 1119; 160; 1038; 1118; 1032; 164;
   1168; 166; 167; 1025; 169; 1028; 171; 172; 173; 174; 1031; 176; 177;
   1030; 1110; 1169; 181; 182; 183; 1105; 8470; 1108; 187; 1112; 1029;
   1109; 1111]%N.

Definition cp1251_char (b : N) : option N :=
  if (b <? 128)%N then Some b
  else if (192 <=? b)%N then Some (b - 192 + 1040)%N
  else match nth (N.to_nat (b - 128)) cp1251_high 0%N with
       | 0%N => None
       | c => Some c
       end.

Fixpoint cp1251 (bs : list N) : option str :=
  match bs with
  | [] => Some []
  | b :: r =>
      match cp1251_char b with
      | Some c => option_map (cons c) (cp1251 r)
      | None => None
      end
  end.

Definition latin1 (bs : list N) : str := bs.

Definition ascii (bs : list N) : option str :=
  if forallb (fun b => (b <? 128)%N) bs then Some bs else None.

(** [data.decode(enc)] *)
Definition decode (enc : Encoding) (data : bytes) : option str :=
  let bs := map Byte.to_N data in
  match enc with
  | Utf8 => utf8 bs
  | Cp1251 => cp1251 bs
  | Latin1 => Some (latin1 bs)
  | Ascii => ascii bs
  end.

(** [data.decode('latin1', errors='replace')]: every byte is defined in
    Latin-1, so nothing is ever replaced. *)
Definition decode_latin1_replace (data : bytes) : str :=
  latin1 (map Byte.to_N data).

(** A literal of the source that is not ASCII: the file is UTF-8. *)
Definition u8 (s : string) : str :=
  match utf8 (map Byte.to_N (list_byte_of_string s)) with
  | Some t => t
  | None => []
  end.

End Codec.

Import Codec.

(** [ENCODINGS = ['utf-8', 'cp1251', 'latin1', 'ascii']] *)
Definition ENCODINGS : list Encoding := [Utf8; Cp1251; Latin1; Ascii].

(** The loop
    [for encoding in ENCODINGS: try: if data: s = data.decode(encoding);
     break; except UnicodeDecodeError: continue], started with [s = acc]. *)
Fixpoint decode_loop (encs : list Encoding) (data : bytes) (acc : str) : str :=
  match encs with
  | [] => acc
  | enc :: rest =>
      if truthy data then
        match decode enc data with
        | Some s => s
        | None => decode_loop rest data acc
        end
      else acc
  end.

(** The loop followed by
    [if not s and data: s = data.decode('latin1', errors='replace')]. *)
Definition decode_output (data : bytes) : str :=
  let s := decode_loop ENCODINGS data [] in
  if negb (truthy s) && truthy data then decode_latin1_replace data else s.

(** The decoding of the branch taken after a reconnect:
    [data.decode('latin1', errors='replace') if data else ""]. *)
Definition decode_after_reconnect (data : bytes) : str :=
  if truthy data then decode_latin1_replace data else [].

(** ** Exceptions, attributes, the outside world *)

Inductive ExnKind :=
  ValueError | IndexError | UnicodeDecodeError | TimeoutExpired
| AttributeError | KeyError | OtherError.

(** An exception object: its class and [str(e)]. *)
Record Exn := mkExn { exn_kind : ExnKind; exn_msg : str }.

(** [except Exception] and the bare [except]. *)
Definition any_exception (e : Exn) : bool := true.

(** [except ValueError] ([UnicodeDecodeError] is a subclass). *)
Definition is_ValueError (e : Exn) : bool :=
  match exn_kind e with ValueError | UnicodeDecodeError => true | _ => false end.

(** [except (IndexError, ValueError)] *)
Definition is_IndexError_or_ValueError (e : Exn) : bool :=
  match exn_kind e with
  | IndexError | ValueError | UnicodeDecodeError => true
  | _ => false
  end.

(** [except subprocess.TimeoutExpired] *)
Definition is_TimeoutExpired (e : Exn) : bool :=
  match exn_kind e with TimeoutExpired => true | _ => false end.

(** The attributes of a [ServerMonitor]. [client] tells whether
    [self.client] is an [SSHClient] rather than [None]. *)
Record Monitor := mkMonitor {
  ssh_host : str;
  ssh_user : str;
  ssh_key_path : str;
  ssh_password : str;
  client : bool;
  is_connected : bool;
  last_check_time : Q;
  check_interval : Q;
  last_cpu_temp : Q;
  last_gpu_temp : Q
}.

(** [ServerMonitor.__init__], the four settings read from the environment. *)
Definition init_monitor (host user key password : str) : Monitor :=
  {| ssh_host := host; ssh_user := user; ssh_key_path := key;
     ssh_password := password; client := false; is_connected := false;
     last_check_time := 0; check_interval := NORMAL_CHECK_INTERVAL;
     last_cpu_temp := 0; last_gpu_temp := 0 |}.

Definition with_client (b : bool) (m : Monitor) : Monitor :=
  {| ssh_host := ssh_host m; ssh_user := ssh_user m;
     ssh_key_path := ssh_key_path m; ssh_password := ssh_password m;
     client := b; is_connected := is_connected m;
     last_check_time := last_check_time m; check_interval := check_interval m;
     last_cpu_temp := last_cpu_temp m; last_gpu_temp := last_gpu_temp m |}.

Definition with_is_connected (b : bool) (m : Monitor) : Monitor :=
  {| ssh_host := ssh_host m; ssh_user := ssh_user m;
     ssh_key_path := ssh_key_path m; ssh_password := ssh_password m;
     client := client m; is_connected := b;
     last_check_time := last_check_time m; check_interval := check_interval m;
     last_cpu_temp := last_cpu_temp m; last_gpu_temp := last_gpu_temp m |}.

Definition with_last_check_time (t : Q) (m : Monitor) : Monitor :=
  {| ssh_host := ssh_host m; ssh_user := ssh_user m;
     ssh_key_path := ssh_key_path m; ssh_password := ssh_password m;
     client := client m; is_connected := is_connected m;
     last_check_time := t; check_interval := check_interval m;
     last_cpu_temp := last_cpu_temp m; last_gpu_temp := last_gpu_temp m |}.

Definition with_check_interval (t : Q) (m : Monitor) : Monitor :=
  {| ssh_host := ssh_host m; ssh_user := ssh_user m;
     ssh_key_path := ssh_key_path m; ssh_password := ssh_password m;
     client := client m; is_connected := is_connected m;
     last_check_time := last_check_time m; check_interval := t;
     last_cpu_temp := last_cpu_temp m; last_gpu_temp := last_gpu_temp m |}.

Definition with_last_cpu_temp (t : Q) (m : Monitor) : Monitor :=
  {| ssh_host := ssh_host m; ssh_user := ssh_user m;
     ssh_key_path := ssh_key_path m; ssh_password := ssh_password m;
     client := client m; is_connected := is_connected m;
     last_check_time := last_check_time m; check_interval := check_interval m;
     last_cpu_temp := t; last_gpu_temp := last_gpu_temp m |}.

Definition with_last_gpu_temp (t : Q) (m : Monitor) : Monitor :=
  {| ssh_host := ssh_host m; ssh_user := ssh_user m;
     ssh_key_path := ssh_key_path m; ssh_password := ssh_password m;
     client := client m; is_connected := is_connected m;
     last_check_time := last_check_time m; check_interval := check_interval m;
     last_cpu_temp := last_cpu_temp m; last_gpu_temp := t |}.

(** What a run leaves behind, in order. *)
Inductive Event :=
| EvLogAction | EvLogResult | EvLogError
| EvClock                      (* time.time() *)
| EvConnect                    (* self.connect() entered *)
| EvIsFile                     (* os.path.isfile(self.ssh_key_path) *)
| EvSshConnect                 (* self.client.connect(...) *)
| EvExec (command : str)       (* self.client.exec_command and the reads *)
| EvTransport                  (* get_transport() ... is_active() *)
| EvPopen (command : str).     (* subprocess.Popen and communicate *)

(** The outside world; the [nat] is the number of requests made before. *)
Record World := mkWorld {
  is_windows : bool;                       (* platform.system() == "Windows" *)
  clock : nat -> Q;
  key_isfile : nat -> bool;
  ssh_connect : nat -> option Exn;         (* None: connected *)
  ssh_exec : nat -> str -> (bytes * bytes) + Exn;
  transport_active : nat -> bool + Exn;
  popen : nat -> str -> (bytes * bytes) + Exn
}.

Record St := mkSt { mon : Monitor; tick : nat; trace : list Event }.

(** ** The monad of the methods *)

Inductive Res (A : Type) := Ok (a : A) | Raised (e : Exn).
Arguments Ok {A} a.
Arguments Raised {A} e.

(** State [S], result or exception. *)
Definition SM (S A : Type) : Type := S -> Res A * S.

Definition ret {S A} (a : A) : SM S A := fun s => (Ok a, s).

Definition bind {S A B} (m : SM S A) (f : A -> SM S B) : SM S B :=
  fun s => match m s with
           | (Ok a, s') => f a s'
           | (Raised e, s') => (Raised e, s')
           end.

Definition raise {S A} (e : Exn) : SM S A := fun s => (Raised e, s).

(** [try: m  except <catches> as e: h e] *)
Definition try_except {S A} (m : SM S A) (catches : Exn -> bool)
    (h : Exn -> SM S A) : SM S A :=
  fun s => match m s with
           | (Raised e, s') => if catches e then h e s' else (Raised e, s')
           | r => r
           end.

(** The methods of [ServerMonitor]. *)
Abbreviation M := (SM St).

Declare Scope py_scope.
Delimit Scope py_scope with py.
Notation "x ← y ; z" := (bind y (fun x => z)) (only parsing) : py_scope.
Notation "' x ← y ; z" := (bind y (fun x => z)) (only parsing) : py_scope.
Notation "x ;; z" := (bind x (fun _ => z)) (only parsing) : py_scope.
Local Open Scope py_scope.

Definition get_mon : M Monitor := fun s => (Ok (mon s), s).

Definition modify (f : Monitor -> Monitor) : M unit :=
  fun s => (Ok tt, {| mon := f (mon s); tick := tick s; trace := trace s |}).

Definition emit (ev : Event) : M unit :=
  fun s => (Ok tt, {| mon := mon s; tick := tick s; trace := trace s ++ [ev] |}).

(** One request to the world. *)
Definition ask {A} (ev : Event) (answer : nat -> A) : M A :=
  fun s => (Ok (answer (tick s)),
            {| mon := mon s; tick := S (tick s); trace := trace s ++ [ev] |}).

Definition log_action : M unit := emit EvLogAction.
Definition log_result : M unit := emit EvLogResult.
Definition log_error : M unit := emit EvLogError.

(** An answer of the world that may be an exception. *)
Definition or_raise {S A} (r : A + Exn) : SM S A :=
  match r with inl a => ret a | inr e => raise e end.

(** [l[i]] *)
Definition index {S A} (l : list A) (i : nat) : SM S A :=
  match nth_error l i with
  | Some a => ret a
  | None => raise (mkExn IndexError (lit "list index out of range"))
  end.

(** ** [ServerMonitor] *)

Section ServerMonitor.

Context {rt : PyRuntime} (w : World).

Definition dq : str := [34%N].

(** [float(s)] *)
Definition float_ (s : str) : M Q :=
  match py_float s with
  | Some x => ret x
  | None => raise (mkExn ValueError (lit "could not convert string to float"))
  end.

Definition char_isdigit (c : N) : bool :=
  if (c <? 128)%N then ((48 <=? c) && (c <=? 57))%N else uni_isdigit c.

(** [s.isdigit()] *)
Definition isdigit (s : str) : bool := truthy s && forallb char_isdigit s.

(** [connect] *)
Definition connect : M bool :=
  emit EvConnect;;
  m ← get_mon;
  if negb (truthy (ssh_host m)) || negb (truthy (ssh_user m)) then
    log_error;; ret false
  else
    try_except
      (log_action;;
       modify (with_client true);;
       isfile ← ask EvIsFile (key_isfile w);
       if isfile then
         r ← ask EvSshConnect (ssh_connect w);
         match r with
         | Some e => raise e
         | None => modify (with_is_connected true);; log_result;; ret true
         end
       else if truthy (ssh_password m) then
         r ← ask EvSshConnect (ssh_connect w);
         match r with
         | Some e => raise e
         | None => modify (with_is_connected true);; log_result;; ret true
         end
       else
         log_error;; ret false)
      any_exception
      (fun e => log_error;; modify (with_is_connected false);; ret false).

(** [self.client.exec_command(command, timeout=5)] with the two reads. *)
Definition exec_command (command : str) : M (bytes * bytes) :=
  m ← get_mon;
  if client m then
    r ← ask (EvExec command) (fun n => ssh_exec w n command);
    or_raise r
  else raise (mkExn AttributeError (lit "'NoneType' object has no attribute 'exec_command'")).

(** [self.client.get_transport() is not None
     and self.client.get_transport().is_active()] *)
Definition get_transport_active : M bool :=
  m ← get_mon;
  if client m then
    r ← ask EvTransport (transport_active w);
    or_raise r
  else raise (mkExn AttributeError (lit "'NoneType' object has no attribute 'get_transport'")).

(** The [except] clause of [_execute_command], entered with the exception
    [e] of the first execution. *)
Definition recover_from (command : str) (e : Exn) : M (str * str) :=
  log_error;;
  alive ← try_except get_transport_active any_exception (fun _ => ret false);
  if negb alive then
    modify (with_is_connected false);;
    c ← connect;
    if c : bool then
      try_except
        ('(stdout_data, stderr_data) ← exec_command command;
         ret (decode_after_reconnect stdout_data,
              decode_after_reconnect stderr_data))
        any_exception
        (fun e2 =>
           ret ([], u8 "Ошибка после переподключения: " ++ exn_msg e2))
    else ret ([], u8 "Ошибка: " ++ exn_msg e)
  else ret ([], u8 "Ошибка: " ++ exn_msg e).

(** The [try] statement of [_execute_command]. *)
Definition execute_attempt (command : str) : M (str * str) :=
  try_except
    ('(stdout_data, stderr_data) ← exec_command command;
     ret (decode_output stdout_data, decode_output stderr_data))
    any_exception
    (recover_from command).

(** [_execute_command] *)
Definition _execute_command (command : str) : M (str * str) :=
  m ← get_mon;
  no_connection ←
    (if negb (is_connected m) then c ← connect; ret (negb c) else ret false);
  if no_connection : bool then
    ret ([], u8 "Нет подключения к серверу")
  else execute_attempt command.

(** [_execute_local_command]: both branches on [platform.system()] start
    the same [Popen]. *)
Definition _execute_local_command (command : str) : M (str * str) :=
  try_except
    (try_except
       (r ← ask (EvPopen command) (fun n => popen w n command);
        '(stdout_data, stderr_data) ← or_raise r;
        ret (decode_output stdout_data, decode_output stderr_data))
       is_TimeoutExpired
       (fun _ => ret ([], u8 "Превышен таймаут выполнения команды")))
    any_exception
    (fun e => log_error;; ret ([], u8 "Ошибка: " ++ exn_msg e)).

(** [_get_status] *)
Definition _get_status (cpu_temp gpu_temp : Q) : M Status :=
  if Qleb cpu_temp 0 || Qleb gpu_temp 0 then
    log_error;; ret Error
  else if Qgeb cpu_temp CPU_TEMP_CRITICAL || Qgeb gpu_temp GPU_TEMP_CRITICAL then
    ret Critical
  else if Qgeb cpu_temp CPU_TEMP_WARNING || Qgeb gpu_temp GPU_TEMP_WARNING then
    ret Warning
  else
    ret Normal.

(** [[line for line in s.strip().split('\n')
      if line.strip() and header not in line]] *)
Definition value_lines (header : str) (s : str) : list str :=
  List.filter (fun line => truthy (strip line) && negb (contains header line))
              (split_on NL (strip s)).

(** [_get_windows_cpu_temperature] *)
Definition _get_windows_cpu_temperature : M Q :=
  found ← try_except
    (let cmd := lit "powershell " ++ dq
          ++ lit "Get-WmiObject MSAcpi_ThermalZoneTemperature -Namespace root/wmi | Select-Object CurrentTemperature"
          ++ dq in
     '(stdout, stderr) ← _execute_local_command cmd;
     r1 ← (if negb (truthy stderr) && contains (lit "CurrentTemperature") stdout then
             match value_lines (lit "CurrentTemperature") stdout with
             | line0 :: _ =>
                 x ← float_ (strip line0);
                 let temp := (x / 10 - (27315 # 100))%Q in
                 if Qgtb temp 0
                 then modify (with_last_cpu_temp temp);; ret (Some temp)
                 else ret None
             | [] => ret None
             end
           else ret None);
     match r1 with Some temp => ret (Some temp) | None =>
     let cmd := lit "powershell " ++ dq
          ++ lit "Get-CimInstance Win32_PerfFormattedData_Counters_ThermalZoneInformation | Select-Object Temperature"
          ++ dq in
     '(stdout, stderr) ← _execute_local_command cmd;
     r2 ← (if negb (truthy stderr) && contains (lit "Temperature") stdout then
             match value_lines (lit "Temperature") stdout with
             | line0 :: _ =>
                 temp ← float_ (strip line0);
                 if Qgtb temp 0
                 then modify (with_last_cpu_temp temp);; ret (Some temp)
                 else ret None
             | [] => ret None
             end
           else ret None);
     match r2 with Some temp => ret (Some temp) | None =>
     let cmd := lit "wmic /namespace:\\root\wmi PATH MSAcpi_ThermalZoneTemperature get CurrentTemperature" in
     '(stdout, stderr) ← _execute_local_command cmd;
     r3 ← (if negb (truthy stderr) && truthy (strip stdout) then
             let lines := split_on NL (strip stdout) in
             if (1 <? length lines)%nat then
               line1 ← index lines 1;
               x ← float_ (strip line1);
               let temp := (x / 10 - (27315 # 100))%Q in
               if Qgtb temp 0
               then modify (with_last_cpu_temp temp);; ret (Some temp)
               else ret None
             else ret None
           else ret None);
     match r3 with Some temp => ret (Some temp) | None =>
     m ← get_mon;
     if Qleb (last_cpu_temp m) 0 then
       let temp := 35%Q in
       modify (with_last_cpu_temp temp);; log_action;; ret (Some temp)
     else ret None
     end end end)
    any_exception
    (fun e => log_error;; ret None);
  match found with
  | Some temp => ret temp
  | None => m ← get_mon; ret (last_cpu_temp m)
  end.

(** The [try] block that ends [get_cpu_temperature]. *)
Definition parse_cpu_temperature (stdout : str) : M Q :=
  try_except
    (temp ← (if isdigit (strip stdout) && (2 <? length (strip stdout))%nat
             then x ← float_ (strip stdout); ret (x / 1000)%Q
             else float_ (strip stdout));
     modify (with_last_cpu_temp temp);;
     ret temp)
    any_exception
    (fun e => log_error;; m ← get_mon; ret (last_cpu_temp m)).

(** [get_cpu_temperature] *)
Definition get_cpu_temperature : M Q :=
  if is_windows w then _get_windows_cpu_temperature
  else
    let command := lit "cat /sys/class/thermal/thermal_zone*/temp | head -n 1" in
    '(stdout, stderr) ← _execute_command command;
    if truthy stderr then
      log_error;;
      let command_alt :=
        lit "sensors | grep 'Core' | awk '{print $3}' | grep -Eo '[0-9]+' | head -n 1" in
      '(stdout, stderr) ← _execute_command command_alt;
      if truthy stderr then m ← get_mon; ret (last_cpu_temp m)
      else parse_cpu_temperature stdout
    else parse_cpu_temperature stdout.

Definition COLON : N := 58.
Definition EQUALS : N := 61.
Definition DOT : N := 46.

(** The loop [for line in stdout.strip().split('\n'): ...] of
    [_get_windows_gpu_temperature]; [Some temp] is its [return temp]. *)
Fixpoint amdgpu_utility_lines (lines : list str) : M (option Q) :=
  match lines with
  | [] => ret None
  | line :: rest =>
      if contains (lit "Temperature") line then
        field ← index (split_on COLON line) 1;
        let temp_str :=
          List.filter (fun c => char_isdigit c || (c =? DOT)%N) field in
        temp ← float_ temp_str;
        if Qgtb temp 0 && Qltb temp 150
        then log_action;; modify (with_last_gpu_temp temp);; ret (Some temp)
        else amdgpu_utility_lines rest
      else amdgpu_utility_lines rest
  end.

(** [_get_windows_gpu_temperature] *)
Definition _get_windows_gpu_temperature : M Q :=
  found ← try_except
    (let cmd := lit "powershell " ++ dq
          ++ lit "(Get-WmiObject -Namespace root\WMI -Class AMD_ACPI_Event).InstanceName"
          ++ dq in
     '(stdout, stderr) ← _execute_local_command cmd;
     amd ← (if negb (truthy stderr) && truthy stdout && contains (lit "AMD") stdout then
       log_action;;
       let cmd := lit "powershell " ++ dq
            ++ lit "Get-WmiObject -Namespace root\WMI -Class AMD_ACPI_ThermalZoneInfo | Select-Object CurrentTemperature"
            ++ dq in
       '(stdout, stderr) ← _execute_local_command cmd;
       r1 ← (if negb (truthy stderr) && contains (lit "CurrentTemperature") stdout then
               match value_lines (lit "CurrentTemperature") stdout with
               | line0 :: _ =>
                   try_except
                     (temp ← float_ (strip line0);
                      if Qgtb temp 0 && Qltb temp 150
                      then log_action;; modify (with_last_gpu_temp temp);;
                           ret (Some temp)
                      else ret None)
                     is_ValueError
                     (fun _ => ret None)
               | [] => ret None
               end
             else ret None);
       match r1 with Some temp => ret (Some temp) | None =>
       '(stdout, stderr) ← _execute_local_command (lit "amdgpu-utility -t");
       r2 ← (if negb (truthy stderr) && truthy (strip stdout) then
               try_except
                 (amdgpu_utility_lines (split_on NL (strip stdout)))
                 is_IndexError_or_ValueError
                 (fun _ => ret None)
             else ret None);
       match r2 with Some temp => ret (Some temp) | None =>
       let cmd := lit "powershell " ++ dq
            ++ lit "Get-Counter -Counter '\GPU Engine(*engtype_3D)\Utilization Percentage' | Select-Object -ExpandProperty CounterSamples | Select-Object CookedValue"
            ++ dq in
       '(stdout, stderr) ← _execute_local_command cmd;
       (if negb (truthy stderr) && contains (lit "CookedValue") stdout
        then log_action else ret tt);;
       ret None
       end end
     else ret None);
     match amd with Some temp => ret (Some temp) | None =>
     log_action;;
     let cmd := lit "wmic /namespace:\\root\wmi PATH MSAcpi_ThermalZoneTemperature get CurrentTemperature" in
     '(stdout, stderr) ← _execute_local_command cmd;
     r4 ← (if negb (truthy stderr) && truthy (strip stdout) then
             let lines := split_on NL (strip stdout) in
             if (1 <? length lines)%nat then
               try_except
                 (line1 ← index lines 1;
                  x ← float_ (strip line1);
                  let temp := (x / 10 - (27315 # 100))%Q in
                  if Qgtb temp 0 && Qltb temp 150
                  then log_action;; modify (with_last_gpu_temp temp);;
                       ret (Some temp)
                  else ret None)
                 is_IndexError_or_ValueError
                 (fun _ => ret None)
             else ret None
           else ret None);
     match r4 with Some temp => ret (Some temp) | None =>
     log_error;;
     m ← get_mon;
     (if Qleb (last_gpu_temp m) 0
      then log_error;; modify (with_last_gpu_temp 60)
      else ret tt);;
     m ← get_mon;
     ret (Some (last_gpu_temp m))
     end end)
    any_exception
    (fun e => log_error;; ret None);
  match found with
  | Some temp => ret temp
  | None => m ← get_mon; ret (last_gpu_temp m)
  end.

(** [get_gpu_temperature] *)
Definition get_gpu_temperature : M Q :=
  if is_windows w then _get_windows_gpu_temperature
  else
    let command := lit "nvidia-smi --query-gpu=temperature.gpu --format=csv,noheader" in
    '(stdout, stderr) ← _execute_command command;
    r1 ← (if negb (truthy stderr) && truthy (strip stdout) then
            try_except
              (temp ← float_ (strip stdout);
               modify (with_last_gpu_temp temp);;
               ret (Some temp))
              is_ValueError
              (fun _ => ret None)
          else ret None);
    match r1 with Some temp => ret temp | None =>
    let command := lit "rocm-smi --showtemp" in
    '(stdout, stderr) ← _execute_command command;
    r2 ← (if negb (truthy stderr) && contains (lit "Temperature") stdout then
            try_except
              (temp_line ← index (List.filter (contains (lit "Temperature"))
                                              (split_on NL stdout)) 0;
               field ← index (split_on COLON temp_line) 1;
               word ← index (split_ws field) 0;
               temp ← float_ word;
               modify (with_last_gpu_temp temp);;
               ret (Some temp))
              is_IndexError_or_ValueError
              (fun _ => ret None)
          else ret None);
    match r2 with Some temp => ret temp | None =>
    let command := lit "vulkaninfo | grep 'deviceTemperature'" in
    '(stdout, stderr) ← _execute_command command;
    r3 ← (if negb (truthy stderr) && contains (lit "deviceTemperature") stdout then
            try_except
              (field ← index (split_on EQUALS (strip stdout)) 1;
               temp_str ← index (split_ws field) 0;
               temp ← float_ temp_str;
               modify (with_last_gpu_temp temp);;
               ret (Some temp))
              is_IndexError_or_ValueError
              (fun _ => ret None)
          else ret None);
    match r3 with Some temp => ret temp | None =>
    m ← get_mon; ret (last_gpu_temp m)
    end end end.

(** The dictionary returned by [check_temperature]. *)
Record TempInfo := mkTempInfo {
  cpu_temp : Q;
  gpu_temp : Q;
  status : Status;
  cached : bool
}.

(** [check_temperature] *)
Definition check_temperature : M TempInfo :=
  current_time ← ask EvClock (clock w);
  m ← get_mon;
  if Qltb (current_time - last_check_time m) (check_interval m) then
    st ← _get_status (last_cpu_temp m) (last_gpu_temp m);
    ret {| cpu_temp := last_cpu_temp m; gpu_temp := last_gpu_temp m;
           status := st; cached := true |}
  else
    modify (with_last_check_time current_time);;
    cpu ← get_cpu_temperature;
    gpu ← get_gpu_temperature;
    st ← _get_status cpu gpu;
    (match st with
     | Critical => modify (with_check_interval CRITICAL_CHECK_INTERVAL)
     | Warning => modify (with_check_interval WARNING_CHECK_INTERVAL)
     | _ => modify (with_check_interval NORMAL_CHECK_INTERVAL)
     end);;
    log_action;;
    ret {| cpu_temp := cpu; gpu_temp := gpu; status := st; cached := false |}.

(** [should_pause_processing] *)
Definition should_pause_processing : M (bool * str) :=
  status_info ← check_temperature;
  match status status_info with
  | Critical =>
      let reason := u8 "Критическая температура: CPU "
                    ++ py_format_1f (cpu_temp status_info) ++ u8 "°C, GPU "
                    ++ py_format_1f (gpu_temp status_info) ++ u8 "°C" in
      ret (true, reason)
  | Error =>
      let reason := u8 "Ошибка измерения температуры: CPU "
                    ++ py_format_1f (cpu_temp status_info) ++ u8 "°C, GPU "
                    ++ py_format_1f (gpu_temp status_info) ++ u8 "°C" in
      log_error;;
      ret (false, reason)
  | _ => ret (false, [])
  end.

(** [max(a, b)] of Python: the first of the largest. *)
Definition py_max (a b : Q) : Q := if Qgtb b a then b else a.

(** [calculate_adaptive_delay] *)
Definition calculate_adaptive_delay : M Q :=
  status_info ← check_temperature;
  let st := status status_info in
  let cpu := cpu_temp status_info in
  let gpu := gpu_temp status_info in
  let base_delay := (1 # 2)%Q in
  if Status_eqb st Error then
    log_action;; ret (base_delay * 2)%Q
  else
    let cpu_factor :=
      if Qgtb cpu CPU_TEMP_WARNING
      then (1 + 4 * (cpu - CPU_TEMP_WARNING)
                / (CPU_TEMP_CRITICAL - CPU_TEMP_WARNING))%Q
      else 1%Q in
    let gpu_factor :=
      if Qgtb gpu GPU_TEMP_WARNING
      then (1 + 4 * (gpu - GPU_TEMP_WARNING)
                / (GPU_TEMP_CRITICAL - GPU_TEMP_WARNING))%Q
      else 1%Q in
    let delay_factor := py_max cpu_factor gpu_factor in
    ret (base_delay * delay_factor)%Q.

(** [calculate_adaptive_delay] with the arithmetic of the doubles: every
    operation of lines 746 to 759 is rounded, in the order in which Python
    evaluates it. *)
Definition calculate_adaptive_delay_binary64 : M Q :=
  status_info ← check_temperature;
  let st := status status_info in
  let cpu := cpu_temp status_info in
  let gpu := gpu_temp status_info in
  let base_delay := (1 # 2)%Q in
  if Status_eqb st Error then
    log_action;; ret (fmul base_delay 2)
  else
    let cpu_factor :=
      if Qgtb cpu CPU_TEMP_WARNING
      then fadd 1 (fdiv (fmul 4 (fsub cpu CPU_TEMP_WARNING))
                        (fsub CPU_TEMP_CRITICAL CPU_TEMP_WARNING))
      else 1%Q in
    let gpu_factor :=
      if Qgtb gpu GPU_TEMP_WARNING
      then fadd 1 (fdiv (fmul 4 (fsub gpu GPU_TEMP_WARNING))
                        (fsub GPU_TEMP_CRITICAL GPU_TEMP_WARNING))
      else 1%Q in
    let delay_factor := py_max cpu_factor gpu_factor in
    ret (fmul base_delay delay_factor).

End ServerMonitor.

(** ** [ServerMonitor]: the session, load and memory *)

(** [int(s)], taken from the Python runtime like [float(s)]; [None] stands
    for [ValueError]. *)
Class PyInt := { py_int : str -> option Z }.

(** The dictionary returned by [get_system_load]. *)
Record LoadInfo := mkLoadInfo {
  load_1min : Q;
  load_5min : Q;
  load_15min : Q
}.

(** The dictionary returned by [get_memory_usage]. *)
Record MemInfo := mkMemInfo {
  total_mb : Q;
  used_mb : Q;
  free_mb : Q;
  used_percent : Q
}.

(** The dictionary returned by [get_full_system_status]: the three
    dictionaries it merges, whose keys are all different, and the time
    stamp. *)
Record FullStatus := mkFullStatus {
  temperature : TempInfo;
  load : LoadInfo;
  memory : MemInfo;
  timestamp : Q
}.

Section SystemStatus.

Context {rt : PyRuntime} {ri : PyInt} (w : World).

(** [disconnect]; [self.client.close()] answers nothing and leaves no
    request behind. *)
Definition disconnect : M unit :=
  m ← get_mon;
  if client m && is_connected m then
    log_action;;
    modify (with_is_connected false);;
    log_result
  else ret tt.

(** [int(s)] *)
Definition int_ (s : str) : M Z :=
  match py_int s with
  | Some n => ret n
  | None => raise (mkExn ValueError (lit "invalid literal for int() with base 10"))
  end.

(** [x / y] for floats. *)
Definition truediv (x y : Q) : M Q :=
  if Qeq_bool y 0
  then raise (mkExn OtherError (lit "float division by zero"))
  else ret (fdiv x y).

(** [float(n)] of an integer: the nearest double, and [OverflowError] when
    that would be 2^1024 or more. *)
Definition float_of_int (n : Z) : M Q :=
  let x := round64 (inject_Z n) in
  if Qle_bool (pow2 1024) (Qabs x)
  then raise (mkExn OtherError (lit "int too large to convert to float"))
  else ret x.

(** [get_system_load] *)
Definition get_system_load : M LoadInfo :=
  if is_windows w then
    found ← try_except
      (let cmd := lit "powershell " ++ dq
            ++ lit "Get-CimInstance -ClassName win32_processor | Measure-Object -Property LoadPercentage -Average | Select-Object Average"
            ++ dq in
       '(stdout, stderr) ← _execute_local_command w cmd;
       if negb (truthy stderr) && contains (lit "Average") stdout then
         match value_lines (lit "Average") stdout with
         | line0 :: _ =>
             avg_load ← float_ (strip line0);
             ret (Some {| load_1min := fdiv avg_load 100;
                          load_5min := fdiv avg_load 100;
                          load_15min := fdiv avg_load 100 |})
         | [] => ret None
         end
       else ret None)
      any_exception
      (fun e => log_error;; ret None);
    match found with
    | Some d => ret d
    | None => ret {| load_1min := 1 # 2; load_5min := 1 # 2;
                     load_15min := 1 # 2 |}
    end
  else
    let command := lit "cat /proc/loadavg" in
    '(stdout, stderr) ← _execute_command w command;
    if truthy stderr then
      ret {| load_1min := 0; load_5min := 0; load_15min := 0 |}
    else
      try_except
        (let load_values := firstn 3 (split_ws (strip stdout)) in
         v0 ← index load_values 0;
         l1 ← float_ v0;
         v1 ← index load_values 1;
         l5 ← float_ v1;
         v2 ← index load_values 2;
         l15 ← float_ v2;
         ret {| load_1min := l1; load_5min := l5; load_15min := l15 |})
        is_IndexError_or_ValueError
        (fun _ => ret {| load_1min := 0; load_5min := 0; load_15min := 0 |}).

(** The dictionary literal that ends each branch of [get_memory_usage]:
    [used_percent] is [(used / total) * 100 if total > 0 else 0.0]. *)
Definition memory_dict (total used free : Q) : M MemInfo :=
  percent ← (if Qgtb total 0
             then q ← truediv used total; ret (fmul q 100)
             else ret 0%Q);
  ret {| total_mb := total; used_mb := used; free_mb := free;
         used_percent := percent |}.

(** [[int(s) for s in words if s.isdigit()]] *)
Fixpoint digit_words (words : list str) : M (list Z) :=
  match words with
  | [] => ret []
  | s :: rest =>
      if isdigit s then
        n ← int_ s;
        ns ← digit_words rest;
        ret (n :: ns)
      else digit_words rest
  end.

(** The first [try] block of the Windows branch of [get_memory_usage];
    [Some] is its [return]. *)
Definition memory_from_cim : M (option MemInfo) :=
  let cmd := lit "powershell " ++ dq
       ++ lit "Get-CimInstance -ClassName Win32_OperatingSystem | Select-Object TotalVisibleMemorySize, FreePhysicalMemory"
       ++ dq in
  '(stdout, stderr) ← _execute_local_command w cmd;
  if negb (truthy stderr) && contains (lit "TotalVisibleMemorySize") stdout
     && contains (lit "FreePhysicalMemory") stdout then
    let lines := List.filter (fun line => truthy (strip line))
                             (split_on NL (strip stdout)) in
    if (3 <=? length lines)%nat then
      line2 ← index lines 2;
      let data_line := strip line2 in
      values ← digit_words (split_ws data_line);
      if (2 <=? length values)%nat then
        v0 ← index values 0;
        total_kb ← float_of_int v0;
        v1 ← index values 1;
        free_kb ← float_of_int v1;
        let used_kb := fsub total_kb free_kb in
        let total := fdiv total_kb 1024 in
        let used := fdiv used_kb 1024 in
        let free := fdiv free_kb 1024 in
        d ← memory_dict total used free;
        ret (Some d)
      else ret None
    else ret None
  else ret None.

(** [float(''.join([c for c in line.split(':')[1]
                    if c.isdigit() or c == '.']).strip())] *)
Definition number_after_colon (line : str) : M Q :=
  field ← index (split_on COLON line) 1;
  float_ (strip (List.filter (fun c => char_isdigit c || (c =? DOT)%N) field)).

(** The second [try] block of the Windows branch. *)
Definition memory_from_systeminfo : M (option MemInfo) :=
  let cmd := lit "systeminfo | findstr /C:" ++ dq ++ lit "Total Physical Memory"
       ++ dq ++ lit " /C:" ++ dq ++ lit "Available Physical Memory" ++ dq in
  '(stdout, stderr) ← _execute_local_command w cmd;
  if negb (truthy stderr) && truthy stdout then
    let lines := split_on NL (strip stdout) in
    if (2 <=? length lines)%nat then
      total_line ← index lines 0;
      available_line ← index lines 1;
      total ← number_after_colon total_line;
      free ← number_after_colon available_line;
      let used := fsub total free in
      d ← memory_dict total used free;
      ret (Some d)
    else ret None
  else ret None.

(** [get_memory_usage] *)
Definition get_memory_usage : M MemInfo :=
  if is_windows w then
    r1 ← try_except memory_from_cim any_exception
           (fun e => log_error;; ret None);
    match r1 with Some d => ret d | None =>
    r2 ← try_except memory_from_systeminfo any_exception
           (fun e => log_error;; ret None);
    match r2 with Some d => ret d | None =>
    ret {| total_mb := 8192; used_mb := 4096; free_mb := 4096;
           used_percent := 50 |}
    end end
  else
    let command := lit "free -b | grep Mem" in
    '(stdout, stderr) ← _execute_command w command;
    if truthy stderr then
      ret {| total_mb := 0; used_mb := 0; free_mb := 0; used_percent := 0 |}
    else
      try_except
        (let memory_values := split_ws (strip stdout) in
         v1 ← index memory_values 1;
         x1 ← float_ v1;
         let total := fdiv x1 (1024 * 1024) in
         v2 ← index memory_values 2;
         x2 ← float_ v2;
         let used := fdiv x2 (1024 * 1024) in
         v3 ← index memory_values 3;
         x3 ← float_ v3;
         let free := fdiv x3 (1024 * 1024) in
         memory_dict total used free)
        is_IndexError_or_ValueError
        (fun _ => ret {| total_mb := 0; used_mb := 0; free_mb := 0;
                         used_percent := 0 |}).

(** [get_full_system_status] *)
Definition get_full_system_status : M FullStatus :=
  temperature ← check_temperature w;
  load ← get_system_load;
  memory ← get_memory_usage;
  timestamp ← ask EvClock (clock w);
  ret {| temperature := temperature; load := load; memory := memory;
         timestamp := timestamp |}.

(** [log_temperature_warning] *)
Definition log_temperature_warning : M unit :=
  status_info ← check_temperature w;
  log_error.

End SystemStatus.

(** ** Regular expressions: what [re.search] decides *)

Module Re.

(** What one position of a pattern accepts. *)
Inductive atom :=
| CChar (c : N)              (* a literal character *)
| CAny                       (* .  : anything but a newline *)
| CWord                      (* \w *)
| CSpace.                    (* \s *)

(** A set [[...]]: the union of its members. *)
Definition cset := list atom.

Inductive re :=
| Void
| Eps
| Chr (k : cset)
| Seq (a b : re)
| Alt (a b : re)
| Star (a : re).

Definition Plus (a : re) : re := Seq a (Star a).
Definition Opt (a : re) : re := Alt a Eps.

Fixpoint Str (s : str) : re :=
  match s with
  | [] => Eps
  | [c] => Chr [CChar c]
  | c :: s' => Seq (Chr [CChar c]) (Str s')
  end.

Fixpoint Seqs (l : list re) : re :=
  match l with
  | [] => Eps
  | [a] => a
  | a :: l' => Seq a (Seqs l')
  end.

Fixpoint Alts (l : list re) : re :=
  match l with
  | [] => Void
  | [a] => a
  | a :: l' => Alt a (Alts l')
  end.

Section Matching.

Context {rt : PyRuntime}.

(** Case folding of [re.IGNORECASE]. *)
Definition fold (c : N) : N :=
  if (c <? 128)%N
  then (if (65 <=? c) && (c <=? 90) then c + 32 else c)%N
  else uni_fold c.

Definition is_word (c : N) : bool :=
  if (c <? 128)%N
  then ((48 <=? c) && (c <=? 57) || (65 <=? c) && (c <=? 90)
        || (97 <=? c) && (c <=? 122) || (c =? 95))%N
  else uni_isalnum c.

(** [ic] is the flag [re.IGNORECASE]. *)
Definition atom_match (ic : bool) (a : atom) (c : N) : bool :=
  match a with
  | CChar p => if ic then (fold c =? fold p)%N else (c =? p)%N
  | CAny => negb (c =? NL)%N
  | CWord => is_word c
  | CSpace => isspace c
  end.

Definition cset_match (ic : bool) (k : cset) (c : N) : bool :=
  existsb (fun a => atom_match ic a c) k.

Fixpoint nullable (r : re) : bool :=
  match r with
  | Void => false
  | Eps => true
  | Chr _ => false
  | Seq a b => nullable a && nullable b
  | Alt a b => nullable a || nullable b
  | Star _ => true
  end.

Definition seq (a b : re) : re :=
  match a, b with
  | Void, _ => Void
  | _, Void => Void
  | Eps, _ => b
  | _, _ => Seq a b
  end.

Definition alt (a b : re) : re :=
  match a, b with
  | Void, _ => b
  | _, Void => a
  | _, _ => Alt a b
  end.

(** What is left of [r] after reading [c]. *)
Fixpoint deriv (ic : bool) (c : N) (r : re) : re :=
  match r with
  | Void => Void
  | Eps => Void
  | Chr k => if cset_match ic k c then Eps else Void
  | Seq a b =>
      if nullable a
      then alt (seq (deriv ic c a) b) (deriv ic c b)
      else seq (deriv ic c a) b
  | Alt a b => alt (deriv ic c a) (deriv ic c b)
  | Star a => seq (deriv ic c a) (Star a)
  end.

(** Some prefix of [s] matches [r]. *)
Fixpoint match_prefix (ic : bool) (r : re) (s : str) : bool :=
  match r with
  | Void => false
  | _ =>
      nullable r
      || match s with
         | [] => false
         | c :: s' => match_prefix ic (deriv ic c r) s'
         end
  end.

(** [re.search(r, s)] finds a match: some substring of [s] matches [r]. *)
Fixpoint search (ic : bool) (r : re) (s : str) : bool :=
  match_prefix ic r s
  || match s with
     | [] => false
     | _ :: s' => search ic r s'
     end.

End Matching.

End Re.

(** ** [ModelSelector] *)

Inductive ContentType := CONTENT_TYPE_GENERAL | CONTENT_TYPE_CODE | CONTENT_TYPE_SUMMARY.

Definition content_type_str (c : ContentType) : str :=
  match c with
  | CONTENT_TYPE_GENERAL => lit "general"
  | CONTENT_TYPE_CODE => lit "code"
  | CONTENT_TYPE_SUMMARY => lit "summary"
  end.

Definition API_TYPE_OLLAMA : str := lit "ollama".
Definition API_TYPE_LLAMACPP : str := lit "llamacpp".
Definition API_TYPE_YANDEXGPT : str := lit "yandexgpt".

Section Patterns.

Import Re.

Definition ch (s : string) : re := Str (lit s).
Definition ws : re := Chr [CSpace].
Definition word : re := Chr [CWord].
Definition any : re := Chr [CAny].

(** The seven patterns of [code_indicators], in the order of the list. *)
Definition code_indicators : list re :=
  [ (* (def|class|function)\s+\w+\s*\(.*\)\s*(\{|\:) *)
    Seqs [Alts [ch "def"; ch "class"; ch "function"]; Plus ws; Plus word;
          Star ws; ch "("; Star any; ch ")"; Star ws; Alts [ch "{"; ch ":"]];
    (* (if|for|while)\s*\(.*\)\s*(\{|\:) *)
    Seqs [Alts [ch "if"; ch "for"; ch "while"]; Star ws; ch "("; Star any;
          ch ")"; Star ws; Alts [ch "{"; ch ":"]];
    (* (var|let|const|int|float|double|string|bool)\s+\w+\s*= *)
    Seqs [Alts [ch "var"; ch "let"; ch "const"; ch "int"; ch "float";
                ch "double"; ch "string"; ch "bool"];
          Plus ws; Plus word; Star ws; ch "="];
    (* import\s+[\w\s\{\},\.]+\s+from *)
    Seqs [ch "import"; Plus ws;
          Plus (Chr [CWord; CSpace; CChar 123; CChar 125; CChar 44;
                     CChar 46]);
          Plus ws; ch "from"];
    (* #include\s+[<dq].*[>dq], dq the double quote *)
    Seqs [ch "#include"; Plus ws; Chr [CChar 60; CChar 34];
          Star any; Chr [CChar 62; CChar 34]];
    (* public\s+(static\s+)?(class|void|int|String) *)
    Seqs [ch "public"; Plus ws; Opt (Seq (ch "static") (Plus ws));
          Alts [ch "class"; ch "void"; ch "int"; ch "String"]];
    (* <\w+(\s+\w+=dq.*dq)*>.*</\w+> *)
    Seqs [ch "<"; Plus word;
          Star (Seqs [Plus ws; Plus word; ch "="; Chr [CChar 34]; Star any;
                      Chr [CChar 34]]);
          ch ">"; Star any; ch "</"; Plus word; ch ">"] ].

(** The two patterns of [summarization_indicators]. *)
Definition summarization_indicators : list re :=
  [ Alts [ch "summarize"; ch "summary"; Str (u8 "кратко");
          Str (u8 "резюме"); Str (u8 "тезисы")];
    Alts [ch "TL;DR"; ch "TLDR"] ].

End Patterns.

Section ContentClassifier.

Context {rt : PyRuntime}.

(** [for pattern in pats: if re.search(pattern, text, flags): return found],
    and [rest] when the loop ends. *)
Fixpoint for_patterns {A} (ic : bool) (pats : list Re.re) (text : str)
    (found rest : A) : A :=
  match pats with
  | [] => rest
  | pattern :: pats' =>
      if Re.search ic pattern text then found
      else for_patterns ic pats' text found rest
  end.

(** [detect_content_type] *)
Definition detect_content_type (text : str) : ContentType :=
  for_patterns false code_indicators text CONTENT_TYPE_CODE
    (if (1000 <? length text)%nat
     then for_patterns true summarization_indicators text
            CONTENT_TYPE_SUMMARY CONTENT_TYPE_GENERAL
     else CONTENT_TYPE_GENERAL).

End ContentClassifier.


(** The settings [ModelSelector.__init__] reads with [get_env]. *)
Record Settings := mkSettings {
  text_api_priority : list str;
  code_api_priority : list str;
  ollama_default_model : str;
  ollama_code_model : str;
  ollama_text_model : str;
  llamacpp_default_model : str;
  yandexgpt_model : str;
  ollama_api_base : str;
  llamacpp_api_base : str;
  yandexgpt_url : str
}.

Inductive SelEvent :=
| SelLogAction | SelLogDecision | SelLogResult | SelLogError
| SelHttp (api_type : str).    (* requests.get or requests.post *)

(** The mutable part of a [ModelSelector], with the number of HTTP requests
    made so far and the trace. *)
Record Selector := mkSelector {
  api_availability_cache : gmap str bool;
  requests : nat;
  sel_trace : list SelEvent
}.

Section ModelSelector.

Context {rt : PyRuntime} (cfg : Settings).

(** The answer to the [n]-th HTTP request, made to probe [api_type]: the
    status code, or the exception [requests] raises. *)
Variable http : nat -> str -> Z + Exn.

(** [self.default_models] *)
Definition default_models : gmap str (ContentType -> str) :=
  <[API_TYPE_OLLAMA :=
      fun c => match c with
               | CONTENT_TYPE_GENERAL => ollama_default_model cfg
               | CONTENT_TYPE_CODE => ollama_code_model cfg
               | CONTENT_TYPE_SUMMARY => ollama_text_model cfg
               end]>
  (<[API_TYPE_LLAMACPP := fun _ => llamacpp_default_model cfg]>
  (<[API_TYPE_YANDEXGPT := fun _ => yandexgpt_model cfg]> ∅)).

(** [self.api_base_urls] *)
Definition api_base_urls : gmap str str :=
  <[API_TYPE_OLLAMA := ollama_api_base cfg]>
  (<[API_TYPE_LLAMACPP := llamacpp_api_base cfg]>
  (<[API_TYPE_YANDEXGPT := yandexgpt_url cfg]> ∅)).

(** [d[k]] *)
Definition getitem {S A : Type} (d : gmap str A) (k : str) : SM S A :=
  match d !! k with
  | Some a => ret a
  | None => raise (mkExn KeyError k)
  end.

Definition sel_emit (ev : SelEvent) : SM Selector unit :=
  fun s => (Ok tt, {| api_availability_cache := api_availability_cache s;
                      requests := requests s;
                      sel_trace := sel_trace s ++ [ev] |}).

Definition get_cache : SM Selector (gmap str bool) :=
  fun s => (Ok (api_availability_cache s), s).

(** [self.api_availability_cache[api_type] = b] *)
Definition set_cache (api_type : str) (b : bool) : SM Selector unit :=
  fun s => (Ok tt, {| api_availability_cache :=
                        <[api_type := b]> (api_availability_cache s);
                      requests := requests s;
                      sel_trace := sel_trace s |}).

(** One HTTP request; [response.status_code == 200] when it returns. *)
Definition request_ok (api_type : str) : SM Selector bool :=
  r ← (fun s => (Ok (http (requests s) api_type),
                 {| api_availability_cache := api_availability_cache s;
                    requests := S (requests s);
                    sel_trace := sel_trace s ++ [SelHttp api_type] |}));
  status_code ← or_raise r;
  ret (status_code =? 200)%Z.

(** [check_api_availability]. For an [api_type] that is none of the three,
    no request is made and [response] is unbound where the error is
    logged: the [NameError] is caught like any other exception. *)
Definition check_api_availability (api_type : str) : SM Selector bool :=
  cache ← get_cache;
  match cache !! api_type with
  | Some b => ret b
  | None =>
      sel_emit SelLogAction;;
      try_except
        (known_and_ok ←
           (if str_eqb api_type API_TYPE_OLLAMA then
              url ← getitem api_base_urls api_type;
              b ← request_ok api_type; ret (true, b)
            else if str_eqb api_type API_TYPE_LLAMACPP then
              url ← getitem api_base_urls api_type;
              b ← request_ok api_type; ret (true, b)
            else if str_eqb api_type API_TYPE_YANDEXGPT then
              url ← getitem api_base_urls api_type;
              b ← request_ok api_type; ret (true, b)
            else ret (false, false));
         let response_bound := fst known_and_ok in
         let is_available := snd known_and_ok in
         set_cache api_type is_available;;
         (if is_available then sel_emit SelLogResult
          else if response_bound : bool then sel_emit SelLogError
          else raise (mkExn OtherError (lit "local variable 'response' referenced before assignment")));;
         ret is_available)
        any_exception
        (fun e => sel_emit SelLogError;; set_cache api_type false;; ret false)
  end.

(** [bool(x)] for an argument that is a string or [None]. *)
Definition given (x : option str) : bool :=
  match x with Some s => truthy s | None => false end.

(** [x in l] for a list of strings. *)
Definition in_list (x : str) (l : list str) : bool := existsb (str_eqb x) l.

(** The loop [for api_type in api_priority] of
    [select_optimal_api_and_model]; [Some] is its [return]. *)
Fixpoint select_loop (content_type : ContentType) (preferred_model : option str)
    (api_priority : list str) : SM Selector (option (str * str * str)) :=
  match api_priority with
  | [] => ret None
  | api_type :: rest =>
      is_available ← check_api_availability api_type;
      if is_available : bool then
        model_name ←
          (if given preferred_model
           then ret (default [] preferred_model)
           else models ← getitem default_models api_type;
                ret (models content_type));
        api_url ← getitem api_base_urls api_type;
        sel_emit SelLogDecision;;
        sel_emit SelLogResult;;
        ret (Some (api_type, model_name, api_url))
      else select_loop content_type preferred_model rest
  end.

(** [select_optimal_api_and_model] *)
Definition select_optimal_api_and_model (text : str)
    (preferred_api preferred_model : option str)
  : SM Selector (option str * option str * option str) :=
  sel_emit SelLogAction;;
  if given preferred_api && given preferred_model then
    sel_emit SelLogDecision;;
    ret (preferred_api, preferred_model,
         Some (default [] (api_base_urls !! default [] preferred_api)))
  else
    let content_type := detect_content_type text in
    let api_priority :=
      match content_type with
      | CONTENT_TYPE_CODE => code_api_priority cfg
      | CONTENT_TYPE_SUMMARY => text_api_priority cfg
      | CONTENT_TYPE_GENERAL => text_api_priority cfg
      end in
    let api_priority :=
      if given preferred_api && in_list (default [] preferred_api) api_priority
      then [default [] preferred_api]
           ++ List.filter (fun api => negb (str_eqb api (default [] preferred_api)))
                          api_priority
      else api_priority in
    found ← select_loop content_type preferred_model api_priority;
    match found with
    | Some (api_type, model_name, api_url) =>
        ret (Some api_type, Some model_name, Some api_url)
    | None =>
        sel_emit SelLogError;;
        ret (None, None, None)
    end.

End ModelSelector.

(** ** [ModelSelector.get_model_capabilities] *)

(** [str.lower] on a string that is not pure ASCII, and the value of a
    code point of category Nd, a decimal digit: what [\d] of [re] accepts
    and [int] reads (consulted for code points from 128 on). *)
Class PyUnicode := {
  uni_lower : str -> str;
  uni_decimal : N -> option Z;
  uni_decimal_digit : forall c d, uni_decimal c = Some d -> (0 <= d <= 9)%Z
}.

(** What [response.json()] returns. A number is its value; [JNaN] and
    [JInfinity] are the two literals beyond JSON that [json] accepts. *)
#[warnings="-register-all"]
Inductive Json :=
| JNull
| JBool (b : bool)
| JNum (x : Q)
| JNaN
| JInfinity
| JStr (s : str)
| JList (l : list Json)
| JDict (d : gmap str Json).

(** A response of [requests.post]; [json] is what [response.json()] returns
    or raises. *)
Record Response := mkResponse {
  status_code : Z;
  json : Json + Exn
}.

(** The dictionary [capabilities]. *)
Record Capabilities := mkCapabilities {
  name : str;
  api : str;
  supports_code : bool;
  supports_summarization : bool;
  max_tokens : Z;
  description : Json;
  version : Json
}.

Definition with_supports_code (b : bool) (c : Capabilities) : Capabilities :=
  {| name := name c; api := api c; supports_code := b;
     supports_summarization := supports_summarization c;
     max_tokens := max_tokens c; description := description c;
     version := version c |}.

Definition with_supports_summarization (b : bool) (c : Capabilities)
  : Capabilities :=
  {| name := name c; api := api c; supports_code := supports_code c;
     supports_summarization := b;
     max_tokens := max_tokens c; description := description c;
     version := version c |}.

Definition with_max_tokens (n : Z) (c : Capabilities) : Capabilities :=
  {| name := name c; api := api c; supports_code := supports_code c;
     supports_summarization := supports_summarization c;
     max_tokens := n; description := description c;
     version := version c |}.

Definition with_description (x : Json) (c : Capabilities) : Capabilities :=
  {| name := name c; api := api c; supports_code := supports_code c;
     supports_summarization := supports_summarization c;
     max_tokens := max_tokens c; description := x;
     version := version c |}.

Definition with_version (x : Json) (c : Capabilities) : Capabilities :=
  {| name := name c; api := api c; supports_code := supports_code c;
     supports_summarization := supports_summarization c;
     max_tokens := max_tokens c; description := description c;
     version := x |}.

(** A [ModelSelector] with its second cache. *)
Record SelectorCaps := mkSelectorCaps {
  selector : Selector;
  model_capabilities_cache : gmap str Capabilities
}.

(** A call of [get_model_capabilities] past the cache: [self] and the local
    dictionary [capabilities], which the [except] branch still sees as the
    [try] block left it. *)
Record CapFrame := mkCapFrame {
  self : SelectorCaps;
  capabilities : Capabilities
}.

(** [TypeError] and [OverflowError] *)
Definition type_error : Exn := mkExn OtherError (lit "TypeError").
Definition overflow_error : Exn := mkExn OtherError (lit "OverflowError").
Definition attribute_error : Exn := mkExn AttributeError (lit "AttributeError").

Section DynamicValues.

Context {ri : PyInt} {ru : PyUnicode} {S : Type}.

(** [k in x] for a string [k]: a key of a dictionary, an element of a
    list, a substring of a string. *)
Definition py_in (k : str) (x : Json) : SM S bool :=
  match x with
  | JDict d => ret (match d !! k with Some _ => true | None => false end)
  | JList l =>
      ret (existsb (fun y => match y with
                             | JStr s => str_eqb k s
                             | _ => false
                             end) l)
  | JStr s => ret (contains k s)
  | _ => raise type_error
  end.

(** [x[k]] for a string [k] *)
Definition py_item (x : Json) (k : str) : SM S Json :=
  match x with
  | JDict d =>
      match d !! k with
      | Some v => ret v
      | None => raise (mkExn KeyError k)
      end
  | _ => raise type_error
  end.

(** [x[0]] *)
Definition py_first (x : Json) : SM S Json :=
  match x with
  | JList (v :: _) => ret v
  | JList [] => raise (mkExn IndexError (lit "list index out of range"))
  | JStr (c :: _) => ret (JStr [c])
  | JStr [] => raise (mkExn IndexError (lit "string index out of range"))
  | JDict _ => raise (mkExn KeyError (lit "0"))
  | _ => raise type_error
  end.

(** [len(x)] *)
Definition py_len (x : Json) : SM S nat :=
  match x with
  | JDict d => ret (size d)
  | JList l => ret (length l)
  | JStr s => ret (length s)
  | _ => raise type_error
  end.

(** [x.get(k, default)] *)
Definition py_get (x : Json) (k : str) (dflt : Json) : SM S Json :=
  match x with
  | JDict d => ret (default dflt (d !! k))
  | _ => raise attribute_error
  end.

(** [isinstance(x, dict)] *)
Definition is_dict (x : Json) : bool :=
  match x with JDict _ => true | _ => false end.

(** [int(x)]: a number is truncated towards zero. *)
Definition py_int_of (x : Json) : SM S Z :=
  match x with
  | JNum q => ret (Z.quot (Qnum q) (Z.pos (Qden q)))
  | JBool b => ret (if b then 1 else 0)%Z
  | JStr s =>
      match py_int s with
      | Some n => ret n
      | None => raise (mkExn ValueError (lit "invalid literal for int()"))
      end
  | JNaN => raise (mkExn ValueError (lit "cannot convert float NaN to integer"))
  | JInfinity => raise overflow_error
  | JNull | JList _ | JDict _ => raise type_error
  end.

(** [s.lower()] for a string. *)
Definition lower (s : str) : str :=
  if forallb (fun c => c <? 128)%N s
  then map (fun c => if (65 <=? c) && (c <=? 90) then c + 32 else c)%N s
  else uni_lower s.

(** [x.lower()] *)
Definition py_lower (x : Json) : SM S str :=
  match x with
  | JStr s => ret (lower s)
  | _ => raise attribute_error
  end.

(** The subject of [re.search] has to be a string. *)
Definition re_subject (x : Json) : SM S str :=
  match x with
  | JStr s => ret s
  | _ => raise type_error
  end.

(** [a and b] *)
Definition and_then (a b : SM S bool) : SM S bool :=
  x ← a; if x : bool then b else ret false.

End DynamicValues.

Section TokenLimit.

Context {rt : PyRuntime} {ru : PyUnicode}.

(** The value of a decimal digit. *)
Definition decimal (c : N) : option Z :=
  if (c <? 128)%N
  then (if ((48 <=? c) && (c <=? 57))%N then Some (Z.of_N c - 48)%Z else None)
  else uni_decimal c.

(** [\d] *)
Definition is_decimal (c : N) : bool :=
  match decimal c with Some _ => true | None => false end.

(** [int(g)] for a string of decimal digits. *)
Definition int_of_digits (g : str) : Z :=
  fold_left (fun n c => 10 * n + default 0 (decimal c))%Z g 0%Z.

(** What follows the first group in the pattern
    [(\d{1,6})\s*(токенов|tokens)]. *)
Definition after_digits : Re.re :=
  Re.Seq (Re.Star ws) (Re.Alt (Re.Str (u8 "токенов")) (ch "tokens")).

(** Group 1 of a match that starts where [s] starts, with at most [k]
    digits: [\d{1,6}] is greedy, so the matcher tries the longest run first
    and gives back one digit at a time. *)
Fixpoint group_1 (k : nat) (s : str) : option str :=
  match k with
  | O => None
  | Datatypes.S k' =>
      let g := firstn k s in
      if (length g =? k)%nat && forallb is_decimal g
         && Re.match_prefix true after_digits (skipn k s)
      then Some g
      else group_1 k' s
  end.

(** [re.search(pattern, s, re.IGNORECASE)] and [group(1)] of the match,
    which is the leftmost one. *)
Fixpoint token_matches (s : str) : option str :=
  match group_1 6 s with
  | Some g => Some g
  | None =>
      match s with
      | [] => None
      | _ :: s' => token_matches s'
      end
  end.

End TokenLimit.

Section ModelCapabilities.

Context {rt : PyRuntime} {ri : PyInt} {ru : PyUnicode} (cfg : Settings).

(** The answer to the [n]-th HTTP request, a POST for [model_name] on
    [api_type]: the response, or the exception [requests] raises. *)
Variable post : nat -> str -> str -> Response + Exn.

Definition on_selector {A : Type} (m : SM Selector A) : SM SelectorCaps A :=
  fun s => let (r, s') := m (selector s) in
           (r, {| selector := s';
                  model_capabilities_cache := model_capabilities_cache s |}).

Definition on_self {A : Type} (m : SM SelectorCaps A) : SM CapFrame A :=
  fun f => let (r, s') := m (self f) in
           (r, {| self := s'; capabilities := capabilities f |}).

(** [capabilities[key] = value] *)
Definition assign (f : Capabilities -> Capabilities) : SM CapFrame unit :=
  fun fr => (Ok tt, {| self := self fr; capabilities := f (capabilities fr) |}).

Definition get_capabilities : SM CapFrame Capabilities :=
  fun fr => (Ok (capabilities fr), fr).

(** [self.model_capabilities_cache[cache_key] = capabilities] *)
Definition store (cache_key : str) : SM CapFrame unit :=
  fun fr =>
    (Ok tt,
     {| self := {| selector := selector (self fr);
                   model_capabilities_cache :=
                     <[cache_key := capabilities fr]>
                       (model_capabilities_cache (self fr)) |};
        capabilities := capabilities fr |}).

(** [requests.post(url, headers=headers, json=payload, timeout=10)] *)
Definition post_request (api_type model_name : str) : SM CapFrame Response :=
  r ← on_self (on_selector
         (fun s => (Ok (post (requests s) api_type model_name),
                    {| api_availability_cache := api_availability_cache s;
                       requests := Datatypes.S (requests s);
                       sel_trace := sel_trace s ++ [SelHttp api_type] |})));
  or_raise r.

Definition caps_log (ev : SelEvent) : SM CapFrame unit :=
  on_self (on_selector (sel_emit ev)).

(** [any(code_indicator in model_name.lower() for code_indicator in ...)] *)
Definition code_by_name (model_name : str) : bool :=
  existsb (fun code_indicator => contains code_indicator (lower model_name))
    [lit "code"; lit "coder"; lit "starcoder"; lit "wizard"].

(** The [capabilities] a call starts from. *)
Definition default_capabilities (api_type model_name : str) : Capabilities :=
  {| name := model_name;
     api := api_type;
     supports_code := false;
     supports_summarization := false;
     max_tokens := 2048;
     description := JStr [];
     version := JStr (u8 "Неизвестно") |}.

(** The branch [api_type == API_TYPE_OLLAMA]. Of the URL and the headers
    only the lookups that can raise are kept; [self.api_keys] has the three
    keys. *)
Definition ollama_capabilities (api_type model_name : str) : SM CapFrame unit :=
  url ← getitem (api_base_urls cfg) api_type;
  response ← post_request api_type model_name;
  if (status_code response =? 200)%Z then
    model_info ← or_raise (json response);
    dict_parameters ←
      and_then (py_in (lit "parameters") model_info)
               (parameters ← py_item model_info (lit "parameters");
                ret (is_dict parameters));
    (if dict_parameters : bool then
       parameters ← py_item model_info (lit "parameters");
       has_num_ctx ← py_in (lit "num_ctx") parameters;
       if has_num_ctx : bool then
         parameters ← py_item model_info (lit "parameters");
         num_ctx ← py_item parameters (lit "num_ctx");
         n ← py_int_of num_ctx;
         assign (with_max_tokens n)
       else ret tt
     else ret tt);;
    assign (with_supports_code (code_by_name model_name));;
    assign (with_supports_summarization true)
  else ret tt.

(** The branch [api_type == API_TYPE_LLAMACPP] *)
Definition llamacpp_capabilities (model_name : str) : SM CapFrame unit :=
  assign (with_supports_code (code_by_name model_name));;
  assign (with_supports_summarization true).

(** The branch [api_type == API_TYPE_YANDEXGPT] *)
Definition yandexgpt_capabilities (api_type model_name : str)
  : SM CapFrame unit :=
  url ← getitem (api_base_urls cfg) api_type;
  response ← post_request api_type model_name;
  if (status_code response =? 200)%Z then
    result ← or_raise (json response);
    answered ←
      and_then (py_in (lit "result") result)
        (and_then
           (r ← py_item result (lit "result"); py_in (lit "alternatives") r)
           (r ← py_item result (lit "result");
            alternatives ← py_item r (lit "alternatives");
            n ← py_len alternatives;
            ret (0 <? n)%nat));
    if answered : bool then
      r ← py_item result (lit "result");
      alternatives ← py_item r (lit "alternatives");
      first ← py_first alternatives;
      message ← py_get first (lit "message") (JDict ∅);
      response_text ← py_get message (lit "text") (JStr []);
      assign (with_description response_text);;
      lowered ← py_lower response_text;
      assign (with_supports_code
                (contains (u8 "код") lowered
                 || contains (u8 "программирован") lowered));;
      lowered ← py_lower response_text;
      assign (with_supports_summarization
                (contains (u8 "суммариз") lowered
                 || contains (u8 "резюм") lowered));;
      text ← re_subject response_text;
      match token_matches text with
      | Some group => assign (with_max_tokens (int_of_digits group))
      | None => ret tt
      end;;
      r ← py_item result (lit "result");
      model_version ← py_get r (lit "modelVersion") (JStr (u8 "Неизвестно"));
      assign (with_version model_version)
    else ret tt
  else ret tt.

(** The chain of [if] and [elif] on [api_type] inside the [try]. *)
Definition capabilities_by_api (api_type model_name : str) : SM CapFrame unit :=
  if str_eqb api_type API_TYPE_OLLAMA then
    ollama_capabilities api_type model_name
  else if str_eqb api_type API_TYPE_LLAMACPP then
    llamacpp_capabilities model_name
  else if str_eqb api_type API_TYPE_YANDEXGPT then
    yandexgpt_capabilities api_type model_name
  else ret tt.

(** [get_model_capabilities] *)
Definition get_model_capabilities (api_type model_name : str)
  : SM SelectorCaps Capabilities :=
  let cache_key := api_type ++ lit ":" ++ model_name in
  fun s =>
    match model_capabilities_cache s !! cache_key with
    | Some cached => (Ok cached, s)
    | None =>
        let (r, fr) :=
          (caps_log SelLogAction;;
           try_except
             (capabilities_by_api api_type model_name;;
              store cache_key;;
              caps_log SelLogResult;;
              get_capabilities)
             any_exception
             (fun e =>
                caps_log SelLogError;;
                store cache_key;;
                get_capabilities))
            {| self := s;
               capabilities := default_capabilities api_type model_name |} in
        (r, self fr)
    end.

End ModelCapabilities.

(** ** [utils.py] *)

(** What [load_env_vars] finds on disk: no [.env] file, the lines that
    iterating over the file yields, or the exception that opening or
    reading it raises. *)
Inductive DotEnv :=
| NoFile
| Lines (lines : list str)
| Unreadable (e : Exn).

(** The file and [os.environ]. *)
Record Environment := mkEnvironment {
  dotenv : DotEnv;
  environ : gmap str str
}.

(** The text before the first [c] and the text after it. *)
Fixpoint partition_at (c : N) (s : str) : option (str * str) :=
  match s with
  | [] => None
  | x :: s' =>
      if (x =? c)%N then Some ([], s')
      else match partition_at c s' with
           | Some (before, after) => Some (x :: before, after)
           | None => None
           end
  end.

(** What [.*] takes: everything up to the first newline. *)
Fixpoint until_newline (s : str) : str :=
  match s with
  | [] => []
  | c :: s' => if (c =? NL)%N then [] else c :: until_newline s'
  end.

(** [re.match(pattern, line)] and its [groups()], for the pattern made of
    the group [[^=]+], an [=] and the group [.*]. The greedy [[^=]+] can
    only stop in front of the first [=], so the first group is the text
    before that [=] and must not be empty. *)
Definition match_key_value (line : str) : option (str * str) :=
  match partition_at EQUALS line with
  | Some (c :: key, rest) => Some (c :: key, until_newline rest)
  | _ => None
  end.

(** The body of the loop over the lines of the file: the entry a line adds
    to [env_vars], if any. *)
Definition line_entry (line0 : str) : option (str * str) :=
  let line := strip line0 in
  if negb (truthy line) || startswith (lit "//") line
     || startswith (lit "#") line
  then None
  else match match_key_value line with
       | Some (key, value) => Some (strip key, strip value)
       | None => None
       end.

(** [for line in f: ...], started with the dictionary [env_vars]. *)
Fixpoint load_lines (lines : list str) (env_vars : gmap str str)
  : gmap str str :=
  match lines with
  | [] => env_vars
  | line :: rest =>
      match line_entry line with
      | Some (key, value) => load_lines rest (<[key := value]> env_vars)
      | None => load_lines rest env_vars
      end
  end.

(** [load_env_vars] *)
Definition load_env_vars (e : Environment) : Res (gmap str str) :=
  match dotenv e with
  | NoFile => Ok ∅
  | Lines lines => Ok (load_lines lines ∅)
  | Unreadable ex => Raised ex
  end.

(** [get_env]: [env_vars.get(key, os.environ.get(key, default))]. *)
Definition get_env (e : Environment) (key : str) (default : option str)
  : Res (option str) :=
  match load_env_vars e with
  | Ok env_vars =>
      Ok (match env_vars !! key with
          | Some value => Some value
          | None =>
              match environ e !! key with
              | Some value => Some value
              | None => default
              end
          end)
  | Raised ex => Raised ex
  end.

(** ** Sample inputs *)

(** A runtime whose [float] rejects every string. *)
Definition rt_no_float : PyRuntime :=
  {| py_float := fun _ => None;
     py_format_1f := fun _ => lit "0.0";
     uni_isdigit := fun _ => false;
     uni_isalnum := fun _ => false;
     uni_fold := fun c => c |}.

(** A world in which every command fails: SSH cannot connect and no
    subprocess can be started. Each request takes a millisecond. *)
Definition dead_world (windows : bool) : World :=
  {| is_windows := windows;
     clock := fun n => (1000 + (Z.of_nat n # 1000))%Q;
     key_isfile := fun _ => false;
     ssh_connect := fun _ => Some (mkExn OtherError (lit "timed out"));
     ssh_exec := fun _ _ => inr (mkExn OtherError (lit "timed out"));
     transport_active := fun _ => inl false;
     popen := fun _ _ => inr (mkExn OtherError (lit "not found")) |}.

(** A monitor just constructed. *)
Definition fresh_state : St :=
  {| mon := init_monitor (lit "host") (lit "user") [] (lit "secret");
     tick := 0; trace := [] |}.

(** A monitor that read 100 and 50 degrees a moment ago. *)
Definition hot_state : St :=
  {| mon := with_check_interval CRITICAL_CHECK_INTERVAL
              (with_last_check_time 1000
                 (with_last_gpu_temp 50
                    (with_last_cpu_temp 100
                       (init_monitor (lit "host") (lit "user") []
                          (lit "secret")))));
     tick := 0; trace := [] |}.

(** A monitor with a session open. *)
Definition connected_state : St :=
  {| mon := with_is_connected true
              (with_client true
                 (init_monitor (lit "host") (lit "user") [] (lit "secret")));
     tick := 0; trace := [] |}.

(** A world in which the session has just dropped: the first execution
    raises, the transport is dead, the reconnect succeeds, and the command
    then prints the two bytes D0 9F, the UTF-8 form of U+041F. *)
Definition dropped_world : World :=
  {| is_windows := false;
     clock := fun _ => 1000%Q;
     key_isfile := fun _ => false;
     ssh_connect := fun _ => None;
     ssh_exec := fun n _ =>
       if (n <? 1)%nat then inr (mkExn OtherError (lit "Socket is closed"))
       else inl ([xd0; x9f]%byte, []);
     transport_active := fun _ => inl false;
     popen := fun _ _ => inl ([], []) |}.

(** The same command in a world where nothing drops. *)
Definition steady_world : World :=
  {| is_windows := false;
     clock := fun _ => 1000%Q;
     key_isfile := fun _ => false;
     ssh_connect := fun _ => None;
     ssh_exec := fun _ _ => inl ([xd0; x9f]%byte, []);
     transport_active := fun _ => inl true;
     popen := fun _ _ => inl ([], []) |}.

(** Three backends in the default order. *)
Definition sample_settings : Settings :=
  {| text_api_priority := [API_TYPE_OLLAMA; API_TYPE_LLAMACPP; API_TYPE_YANDEXGPT];
     code_api_priority := [API_TYPE_OLLAMA; API_TYPE_LLAMACPP; API_TYPE_YANDEXGPT];
     ollama_default_model := lit "llama3";
     ollama_code_model := lit "codellama";
     ollama_text_model := lit "llama3";
     llamacpp_default_model := lit "mistral";
     yandexgpt_model := lit "yandexgpt";
     ollama_api_base := lit "http://localhost:11434";
     llamacpp_api_base := lit "http://localhost:8080/v1";
     yandexgpt_url := lit "https://llm.api.cloud.yandex.net/foundationModels/v1/completion" |}.

(** The cache of the example: the first backend is known to be down, the
    second to be up. *)
Definition sample_selector : Selector :=
  {| api_availability_cache :=
       <[API_TYPE_OLLAMA := false]> (<[API_TYPE_LLAMACPP := true]> ∅);
     requests := 0;
     sel_trace := [] |}.

(** Every request is refused. *)
Definition no_http : nat -> str -> Z + Exn :=
  fun _ _ => inr (mkExn OtherError (lit "connection refused")).

(** A world whose clock stands at 1000 s. *)
Definition still_world : World :=
  {| is_windows := false;
     clock := fun _ => 1000%Q;
     key_isfile := fun _ => false;
     ssh_connect := fun _ => None;
     ssh_exec := fun _ _ => inl ([], []);
     transport_active := fun _ => inl true;
     popen := fun _ _ => inl ([], []) |}.

(** A monitor that read 72 and 50 degrees a moment ago. *)
Definition warm_state : St :=
  {| mon := with_check_interval WARNING_CHECK_INTERVAL
              (with_last_check_time 1000
                 (with_last_gpu_temp 50
                    (with_last_cpu_temp 72
                       (init_monitor (lit "host") (lit "user") []
                          (lit "secret")))));
     tick := 0; trace := [] |}.

(** An unsigned decimal integer. *)
Fixpoint decimal_value (acc : Z) (s : str) : option Z :=
  match s with
  | [] => Some acc
  | c :: s' =>
      if ((48 <=? c) && (c <=? 57))%N
      then decimal_value (10 * acc + Z.of_N (c - 48)) s'
      else None
  end.


(** A runtime without [int]. *)
Definition ri_no_int : PyInt := {| py_int := fun _ => None |}.


(** An unsigned decimal number with at most one point. *)
Definition fixed_point_value (s : str) : option Q :=
  match split_on DOT s with
  | [a] =>
      match a with
      | [] => None
      | _ => option_map inject_Z (decimal_value 0 a)
      end
  | [a; b] =>
      match a ++ b with
      | [] => None
      | digits =>
          option_map (fun n => (n # Z.to_pos (10 ^ Z.of_nat (length b)))%Q)
                     (decimal_value 0 digits)
      end
  | _ => None
  end.

(** A runtime whose [float] reads such numbers and gives the nearest
    double. *)
Definition rt_float64 : PyRuntime :=
  {| py_float := fun s => option_map round64 (fixed_point_value s);
     py_format_1f := fun _ => lit "0.0";
     uni_isdigit := fun _ => false;
     uni_isalnum := fun _ => false;
     uni_fold := fun c => c |}.

(** A runtime whose [int] reads unsigned decimal integers. *)
Definition ri_decimal : PyInt :=
  {| py_int := fun s => match s with
                        | [] => None
                        | _ => decimal_value 0 s
                        end |}.

(** A Linux server on which every command prints a line of
    [/proc/loadavg]. *)
Definition loadavg_world : World :=
  {| is_windows := false;
     clock := fun _ => 1000%Q;
     key_isfile := fun _ => false;
     ssh_connect := fun _ => None;
     ssh_exec := fun _ _ =>
       inl (list_byte_of_string "0.52 0.58 0.59 1/257 12345" ++ [x0a]%byte, []);
     transport_active := fun _ => inl true;
     popen := fun _ _ => inl ([], []) |}.

(** A Linux server on which every command prints a line of [free -b]. *)
Definition free_world : World :=
  {| is_windows := false;
     clock := fun _ => 1000%Q;
     key_isfile := fun _ => false;
     ssh_connect := fun _ => None;
     ssh_exec := fun _ _ =>
       inl (list_byte_of_string "Mem: 3221225472 1073741824 2147483648"
              ++ [x0a]%byte, []);
     transport_active := fun _ => inl true;
     popen := fun _ _ => inl ([], []) |}.

(** The table PowerShell prints for the memory sizes [total] and [free],
    given in decimal. *)
Definition cim_table (total free : list byte) : list byte :=
  list_byte_of_string "TotalVisibleMemorySize FreePhysicalMemory" ++ [x0a]%byte
  ++ list_byte_of_string "---------------------- ------------------" ++ [x0a]%byte
  ++ list_byte_of_string "  " ++ total ++ list_byte_of_string "  " ++ free
  ++ [x0a]%byte.

(** A Windows machine on which PowerShell prints [table] and no other
    program can be started. *)
Definition cim_world (table : list byte) : World :=
  {| is_windows := true;
     clock := fun _ => 1000%Q;
     key_isfile := fun _ => false;
     ssh_connect := fun _ => Some (mkExn OtherError (lit "timed out"));
     ssh_exec := fun _ _ => inr (mkExn OtherError (lit "timed out"));
     transport_active := fun _ => inl false;
     popen := fun _ command =>
       if startswith (lit "powershell") command
       then inl (table, [])
       else inr (mkExn OtherError (lit "not found")) |}.

(** A Windows machine on which PowerShell prints the header [Average] and,
    under it, a load of 37 percent. *)
Definition average_world : World :=
  cim_world (list_byte_of_string "Average" ++ [x0a]%byte
             ++ list_byte_of_string "     37" ++ [x0a]%byte).

(** A world in which the command fails although the session is alive: the
    execution raises and the transport is active. *)
Definition stalled_world : World :=
  {| is_windows := false;
     clock := fun _ => 1000%Q;
     key_isfile := fun _ => false;
     ssh_connect := fun _ => None;
     ssh_exec := fun _ _ => inr (mkExn OtherError (lit "Timeout opening channel."));
     transport_active := fun _ => inl true;
     popen := fun _ _ => inl ([], []) |}.

(** A selector that has probed nothing yet. *)
Definition new_selector : Selector :=
  {| api_availability_cache := ∅; requests := 0; sel_trace := [] |}.

(** The first backend refuses the connection, the second answers with
    status 200, any other with 503. *)
Definition second_answers : nat -> str -> Z + Exn :=
  fun _ api_type =>
    if str_eqb api_type API_TYPE_OLLAMA
    then inr (mkExn OtherError (lit "connection refused"))
    else if str_eqb api_type API_TYPE_LLAMACPP then inl 200%Z
    else inl 503%Z.

(** An environment whose [.env] holds the lines [lines]. *)
Definition env_of_lines (lines : list str) (vars : gmap str str) : Environment :=
  {| dotenv := Lines lines; environ := vars |}.

(** A runtime that knows no Unicode beyond ASCII. *)
Definition ru_ascii : PyUnicode :=
  {| uni_lower := fun s => s;
     uni_decimal := fun _ => None;
     uni_decimal_digit := fun c d (H : None = Some d) =>
       match H in _ = o return match o with
                               | Some _ => (0 <= d <= 9)%Z
                               | None => True
                               end
       with eq_refl => I end |}.

(** The selector of the example, nothing known about any model. *)
Definition sample_caps : SelectorCaps :=
  {| selector := sample_selector; model_capabilities_cache := ∅ |}.

(** Every POST is refused. *)
Definition no_post : nat -> str -> str -> Response + Exn :=
  fun _ _ _ => inr (mkExn OtherError (lit "connection refused")).

(** Every POST is answered with status 200 and the body [body]. *)
Definition post_answers (body : Json) : nat -> str -> str -> Response + Exn :=
  fun _ _ _ => inl {| status_code := 200; json := inl body |}.

(** The body with which a model answers [text]. *)
Definition completion (text : str) : Json :=
  JDict (<[lit "result" :=
             JDict (<[lit "alternatives" :=
                        JList [JDict (<[lit "message" :=
                                          JDict (<[lit "text" := JStr text]> ∅)]>
                                        ∅)]]> ∅)]> ∅).

(** ** The vocabulary of the properties *)

(** The state after [emit ev]. *)
Definition logged (ev : Event) (s : St) : St :=
  {| mon := mon s; tick := tick s; trace := trace s ++ [ev] |}.

(** The status [_get_status] returns; it does not depend on the state. *)
Definition status_of (cpu gpu : Q) : Status :=
  match _get_status cpu gpu fresh_state with
  | (Ok st, _) => st
  | (Raised _, _) => Error
  end.

(** [m], run from [s], returns [a]. *)
Definition returns {S A} (m : SM S A) (s : S) (a : A) : Prop :=
  exists s', m s = (Ok a, s').

(** [m] run from [s] ends in [Q] when it returns and in [E] when it raises. *)
Definition wp {S A} (m : SM S A) (s : S)
    (Q : A -> S -> Prop) (E : Exn -> S -> Prop) : Prop :=
  match m s with
  | (Ok a, s') => Q a s'
  | (Raised e, s') => E e s'
  end.

(** The postcondition of a run that must not raise. *)
Definition no_exn {S} : Exn -> S -> Prop := fun _ _ => False.

(** The attributes of the governor are the same in [s'] as in [s]. *)
Definition same_governor (s s' : St) : Prop :=
  last_check_time (mon s') = last_check_time (mon s)
  /\ check_interval (mon s') = check_interval (mon s)
  /\ last_cpu_temp (mon s') = last_cpu_temp (mon s)
  /\ last_gpu_temp (mon s') = last_gpu_temp (mon s).

(** Everything but the log and the clock: the requests that probe. *)
Definition is_probe (ev : Event) : bool :=
  match ev with
  | EvLogAction | EvLogResult | EvLogError | EvClock => false
  | _ => true
  end.

(** The probing requests of a trace, in order. *)
Definition probes (tr : list Event) : list Event := List.filter is_probe tr.

(** The interval [check_temperature] sets for a status. *)
Definition interval_for (st : Status) : Q :=
  match st with
  | Critical => CRITICAL_CHECK_INTERVAL
  | Warning => WARNING_CHECK_INTERVAL
  | Normal | Error => NORMAL_CHECK_INTERVAL
  end.

(** The state in which the readers start when the throttle lets the call
    through: the clock was read and [last_check_time] set. *)
Definition probing_state (w : World) (s : St) : St :=
  {| mon := with_last_check_time (clock w (tick s)) (mon s);
     tick := S (tick s);
     trace := trace s ++ [EvClock] |}.

(** The factor of one metric as the specification words it: 1 up to the
    warning threshold, a linear interpolation above it. *)
Definition spec_factor (reading warning critical : Q) : Q :=
  if Qlt_le_dec warning reading
  then (1 + 4 * (reading - warning) / (critical - warning))%Q
  else 1%Q.

(** The multiplier in the words of the specification: the larger of the
    two factors. *)
Definition spec_multiplier (cpu gpu : Q) : Q :=
  Qmax (spec_factor cpu CPU_TEMP_WARNING CPU_TEMP_CRITICAL)
       (spec_factor gpu GPU_TEMP_WARNING GPU_TEMP_CRITICAL).

(** The delay in the words of the specification: the base of half a second
    times the multiplier clamped to the range from 1 to 5. *)
Definition spec_clamped_delay (cpu gpu : Q) : Q :=
  ((1 # 2) * Qmin 5 (Qmax 1 (spec_multiplier cpu gpu)))%Q.

(** Calls of [connect] and executions of the command on a trace. *)
Definition is_connect_event (ev : Event) : bool :=
  match ev with EvConnect => true | _ => false end.

Definition is_exec_event (ev : Event) : bool :=
  match ev with EvExec _ => true | _ => false end.

Definition count (p : Event -> bool) (evs : list Event) : nat :=
  length (List.filter p evs).

(** What happened after the first execution of the command. *)
Fixpoint after_first_exec (evs : list Event) : list Event :=
  match evs with
  | [] => []
  | EvExec _ :: rest => rest
  | _ :: rest => after_first_exec rest
  end.

(** [self.is_connected = False] *)
Definition disconnected (s : St) : St :=
  {| mon := with_is_connected false (mon s); tick := tick s; trace := trace s |}.

(** The state in which [_execute_command], called in [s], enters its [try]
    statement: [s] itself when the session is marked open, and otherwise
    the state a successful [connect] leaves. *)
Definition reaches_try (w : World) (s s0 : St) : Prop :=
  if is_connected (mon s) then s0 = s else connect w s = (Ok true, s0).

(** The three backends [check_api_availability] knows how to probe. *)
Definition known_api (api_type : str) : bool :=
  str_eqb api_type API_TYPE_OLLAMA || str_eqb api_type API_TYPE_LLAMACPP
  || str_eqb api_type API_TYPE_YANDEXGPT.

(** The HTTP requests of a trace. *)
Fixpoint http_requests (tr : list SelEvent) : list str :=
  match tr with
  | [] => []
  | SelHttp api_type :: rest => api_type :: http_requests rest
  | _ :: rest => http_requests rest
  end.

(** Only a backend that can be probed is ever cached as available: true of
    the empty cache and kept by every method. *)
Definition cache_ok (cache : gmap str bool) : Prop :=
  forall api_type, cache !! api_type = Some true -> known_api api_type = true.

(** Equality of strings is decidable. *)
Definition str_eq_dec (a b : str) : {a = b} + {a <> b} := decide (a = b).

(** The order in which the backends are tried, in the words of the
    specification: the priority list of the content class, a preferred
    backend that occurs in it moved to the front, the rest in its order. *)
Definition walk_order (cfg : Settings) (content_type : ContentType)
    (preferred_api : option str) : list str :=
  let priority :=
    match content_type with
    | CONTENT_TYPE_CODE => code_api_priority cfg
    | _ => text_api_priority cfg
    end in
  match preferred_api with
  | Some p =>
      if truthy p && (if in_dec str_eq_dec p priority then true else false)
      then p :: List.remove str_eq_dec p priority
      else priority
  | None => priority
  end.

Section ReadingVocabulary.

Context {rt : PyRuntime} (w : World).

(** The value came out of [float]: as it is, as millidegrees, or as tenths
    of a kelvin. *)
Definition parsed (v : Q) : Prop :=
  exists t x, py_float t = Some x
              /\ (v = x \/ v = (x / 1000)%Q \/ v = (x / 10 - (27315 # 100))%Q).

(** What a call of the CPU reader from [s] may end in: it returns [v] in
    [s']. *)
Definition cpu_reading (s : St) (v : Q) (s' : St) : Prop :=
  last_check_time (mon s') = last_check_time (mon s)
  /\ check_interval (mon s') = check_interval (mon s)
  /\ last_gpu_temp (mon s') = last_gpu_temp (mon s)
  /\ last_cpu_temp (mon s') = v
  /\ (v = last_cpu_temp (mon s)
      \/ (is_windows w = true /\ (last_cpu_temp (mon s) <= 0)%Q /\ v = 35%Q)
      \/ parsed v).

(** The same for the GPU reader. *)
Definition gpu_reading (s : St) (v : Q) (s' : St) : Prop :=
  last_check_time (mon s') = last_check_time (mon s)
  /\ check_interval (mon s') = check_interval (mon s)
  /\ last_cpu_temp (mon s') = last_cpu_temp (mon s)
  /\ last_gpu_temp (mon s') = v
  /\ (v = last_gpu_temp (mon s)
      \/ (is_windows w = true /\ (last_gpu_temp (mon s) <= 0)%Q /\ v = 60%Q)
      \/ parsed v).

End ReadingVocabulary.

Section ProvenanceVocabulary.

Context {rt : PyRuntime} (w : World).






End ProvenanceVocabulary.

Section SelectionVocabulary.

Context (cfg : Settings).

(** What the loop over [api_priority], started in [s], may end in. *)
Definition selection (s : Selector) (api_priority : list str)
    (content_type : ContentType) (preferred_model : option str)
    (found : option (str * str * str)) (s' : Selector) : Prop :=
  (forall a b, api_availability_cache s !! a = Some b ->
               api_availability_cache s' !! a = Some b)
  /\ cache_ok (api_availability_cache s')
  /\ (exists probed,
        http_requests (sel_trace s') = http_requests (sel_trace s) ++ probed
        /\ List.NoDup probed
        /\ forall a, In a probed ->
                     api_availability_cache s !! a = None /\ In a api_priority)
  /\ match found with
     | Some (api_type, model_name, api_url) =>
         (exists before after,
            api_priority = before ++ api_type :: after
            /\ Forall (fun a => api_availability_cache s' !! a = Some false) before)
         /\ api_availability_cache s' !! api_type = Some true
         /\ (if given preferred_model
             then Some model_name = preferred_model
             else exists models,
                    default_models cfg !! api_type = Some models
                    /\ model_name = models content_type)
         /\ api_base_urls cfg !! api_type = Some api_url
     | None =>
         Forall (fun a => api_availability_cache s' !! a = Some false) api_priority
     end.

End SelectionVocabulary.

(** The backend [api_type] answers the [n]-th request: it is one of the
    three that can be probed and the status of the response is 200. *)
Definition answers_ok (http : nat -> str -> Z + Exn) (n : nat)
    (api_type : str) : bool :=
  known_api api_type
  && match http n api_type with
     | inl code => (code =? 200)%Z
     | inr _ => false
     end.

(** The outcome of a walk: the backend chosen, the cache left behind and
    the backends to which a request was sent, in order. *)
Record Walk := mkWalk {
  walk_backend : option str;
  walk_cache : gmap str bool;
  walk_probes : list str
}.

(** The walk in the words of the specification: the backends are taken in
    order; one that the cache knows is not probed, and is chosen if the
    cache says it is available; one that the cache does not know is probed
    once, the answer is cached, and it is chosen if it answers. The first
    backend chosen ends the walk. [n] is the number of requests made
    before. *)
Fixpoint first_available (http : nat -> str -> Z + Exn)
    (cache : gmap str bool) (n : nat) (walk : list str) : Walk :=
  match walk with
  | [] => mkWalk None cache []
  | a :: rest =>
      match cache !! a with
      | Some true => mkWalk (Some a) cache []
      | Some false => first_available http cache n rest
      | None =>
          let probe := if known_api a then [a] else [] in
          if answers_ok http n a
          then mkWalk (Some a) (<[a := true]> cache) probe
          else
            let r := first_available http (<[a := false]> cache)
                       (n + length probe) rest in
            mkWalk (walk_backend r) (walk_cache r) (probe ++ walk_probes r)
      end
  end.

Section LanguageVocabulary.

Context {rt : PyRuntime}.

(** [matches ic r s]: the string [s] as a whole is matched by [r]. *)
Inductive matches (ic : bool) : Re.re -> str -> Prop :=
| MEps : matches ic Re.Eps []
| MChr k c : Re.cset_match ic k c = true -> matches ic (Re.Chr k) [c]
| MSeq a b s1 s2 :
    matches ic a s1 -> matches ic b s2 -> matches ic (Re.Seq a b) (s1 ++ s2)
| MAltL a b s : matches ic a s -> matches ic (Re.Alt a b) s
| MAltR a b s : matches ic b s -> matches ic (Re.Alt a b) s
| MStar0 a : matches ic (Re.Star a) []
| MStarS a s1 s2 :
    matches ic a s1 -> matches ic (Re.Star a) s2 ->
    matches ic (Re.Star a) (s1 ++ s2).

(** Some substring of [s] is matched by [r]: what [re.search] looks for. *)
Definition found_in (ic : bool) (r : Re.re) (s : str) : Prop :=
  exists before mid after, s = before ++ mid ++ after /\ matches ic r mid.

End LanguageVocabulary.


(** [self.is_connected] is only set on a client that exists. *)
Definition session_ok (m : Monitor) : Prop :=
  is_connected m = true -> client m = true.

(** Host, user and one credential are configured: a key file that exists
    when [connect] asks, or a password. *)
Definition credentials (w : World) (s : St) : bool :=
  truthy (ssh_host (mon s)) && truthy (ssh_user (mon s))
  && (key_isfile w (tick s) || truthy (ssh_password (mon s))).

(** What [_execute_command], run from [s] to [s'], promises about the pair
    it returns: an empty error text comes from an execution that wrote
    nothing to stderr, and without an execution that returned there is an
    error text and no output. *)
Definition ran_on_server (w : World) (command : str) (s s' : St)
    (out err : str) : Prop :=
  (err = [] ->
   exists n o,
     (tick s <= n < tick s')%nat
     /\ ssh_exec w n command = inl (o, [])
     /\ (out = decode_output o \/ out = decode_after_reconnect o))
  /\ ((forall n o e, (tick s <= n < tick s')%nat ->
                     ssh_exec w n command <> inl (o, e)) ->
      out = [] /\ err <> []).

(** The interval in force is the one of the readings in store. *)
Definition governor_ok (m : Monitor) : Prop :=
  check_interval m
  = interval_for (status_of (last_cpu_temp m) (last_gpu_temp m)).

(** What the Windows GPU reader leaves: the value it returns, positive, and
    either inside the sanity bounds or the one stored before. *)
Definition gpu_value_ok (s : St) (v : Q) (s' : St) : Prop :=
  last_gpu_temp (mon s') = v
  /\ last_cpu_temp (mon s') = last_cpu_temp (mon s)
  /\ (0 < v)%Q
  /\ ((v < 150)%Q \/ v = last_gpu_temp (mon s)).

(** The same for the Windows CPU reader, which has no upper bound and may
    return a stored value that is not positive. *)
Definition cpu_value_ok (s : St) (v : Q) (s' : St) : Prop :=
  last_cpu_temp (mon s') = v
  /\ last_gpu_temp (mon s') = last_gpu_temp (mon s)
  /\ ((0 < v)%Q \/ v = last_cpu_temp (mon s)).



(** The commands of the Linux branches of [get_system_load] and
    [get_memory_usage], and the dictionaries they answer on failure. *)
Definition LOADAVG_COMMAND : str := lit "cat /proc/loadavg".
Definition FREE_COMMAND : str := lit "free -b | grep Mem".

Definition zero_load : LoadInfo :=
  {| load_1min := 0; load_5min := 0; load_15min := 0 |}.

Definition zero_memory : MemInfo :=
  {| total_mb := 0; used_mb := 0; free_mb := 0; used_percent := 0 |}.

(** The spacing of the doubles around [x]. *)
Definition ulp_of (x : Q) : Q :=
  pow2 (Z.max (ilog2 (Qabs x)) (-1022) - 52).

(** [x] is a double: rounding leaves it as it is. *)
Definition binary64 (x : Q) : Prop := (round64 x == x)%Q.

(** The command of the Windows branch of [get_system_load], and the
    dictionaries the Windows branches answer when nothing could be read. *)
Definition AVERAGE_COMMAND : str :=
  lit "powershell " ++ dq
  ++ lit "Get-CimInstance -ClassName win32_processor | Measure-Object -Property LoadPercentage -Average | Select-Object Average"
  ++ dq.

Definition half_load : LoadInfo :=
  {| load_1min := 1 # 2; load_5min := 1 # 2; load_15min := 1 # 2 |}.

Definition default_memory : MemInfo :=
  {| total_mb := 8192; used_mb := 4096; free_mb := 4096; used_percent := 50 |}.

(** The percentage as the doubles give it: the quotient is rounded, then
    the product; 0 when there is no total. *)
Definition percent_of (used total : Q) : Q :=
  if Qgtb total 0 then fmul (fdiv used total) 100 else 0%Q.

(** [used_percent] is the share of [used_mb] in [total_mb]. *)
Definition percent_ok (r : MemInfo) : Prop :=
  used_percent r = percent_of (used_mb r) (total_mb r).

(** What [float] returns is a double. *)
Definition float_returns_doubles {rt : PyRuntime} : Prop :=
  forall t x, py_float t = Some x -> binary64 x.

(** What every branch of [get_memory_usage] returns; on Windows the used
    part is the total less the free part, rounded. *)
Definition memory_ok {rt : PyRuntime} (windows : bool) (r : MemInfo) : Prop :=
  percent_ok r
  /\ (windows = true ->
      (used_mb r == fsub (total_mb r) (free_mb r))%Q
      /\ (float_returns_doubles -> binary64 (total_mb r))).

(** Every string the pattern matches, case not ignored, holds the
    character [c]: a sufficient test, by the shape of the pattern. *)
Fixpoint requires (c : N) (r : Re.re) : bool :=
  match r with
  | Re.Void => true
  | Re.Eps => false
  | Re.Chr k =>
      forallb (fun a => match a with
                        | Re.CChar p => (p =? c)%N
                        | _ => false
                        end) k
  | Re.Seq a b => requires c a || requires c b
  | Re.Alt a b => requires c a && requires c b
  | Re.Star _ => false
  end.

(** [c in s] for a character. *)
Definition has_char (c : N) (s : str) : bool := existsb (N.eqb c) s.

(** A key as [load_env_vars] stores it: not empty, no [=], no white space
    around it, no [#] in front. *)
Definition stored_key (k : str) : Prop :=
  k <> [] /\ strip k = k /\ ~ In EQUALS k /\ startswith (lit "#") k = false.

(** The key of [model_capabilities_cache]. *)
Definition cache_key (api_type model_name : str) : str :=
  api_type ++ lit ":" ++ model_name.

(** Every record of the cache is stored under the key its own fields
    spell, and its [api] has no colon: true of the empty cache. *)
Definition cache_named (cache : gmap str Capabilities) : Prop :=
  forall k c, cache !! k = Some c ->
    k = cache_key (api c) (name c) /\ has_char COLON (api c) = false.

(** The state of a selector after a log line. *)
Definition sel_logged (ev : SelEvent) (s : Selector) : Selector :=
  {| api_availability_cache := api_availability_cache s;
     requests := requests s;
     sel_trace := sel_trace s ++ [ev] |}.

(** The frame in which the [try] block of [get_model_capabilities] starts. *)
Definition first_frame (api_type model_name : str) (s : SelectorCaps) : CapFrame :=
  {| self := {| selector := sel_logged SelLogAction (selector s);
                model_capabilities_cache := model_capabilities_cache s |};
     capabilities := default_capabilities api_type model_name |}.

(** The record of a model judged by its name alone. *)
Definition named_capabilities {ru : PyUnicode} (api_type model_name : str)
  : Capabilities :=
  with_supports_summarization true
    (with_supports_code (code_by_name model_name)
       (default_capabilities api_type model_name)).

(** The state of a selector after an HTTP request for [api_type]. *)
Definition sel_requested (api_type : str) (s : Selector) : Selector :=
  {| api_availability_cache := api_availability_cache s;
     requests := Datatypes.S (requests s);
     sel_trace := sel_trace s ++ [SelHttp api_type] |}.

(** The selector of a frame after an HTTP request for [api_type]. *)
Definition requested (api_type : str) (s : SelectorCaps) : SelectorCaps :=
  {| selector := sel_requested api_type (selector s);
     model_capabilities_cache := model_capabilities_cache s |}.

(** [int(x)] returns [n]. *)
Definition int_is {ri : PyInt} (x : Json) (n : Z) : Prop :=
  py_int_of (S := unit) x tt = (Ok n, tt).

(** What the Ollama branch makes of a body: the flags by name, and
    [num_ctx] as the limit when the body gives one. *)
Definition ollama_reading {ri : PyInt} {ru : PyUnicode}
    (api_type model_name : str) (body : Json) (c : Capabilities) : Prop :=
  c = named_capabilities api_type model_name
  \/ exists d p v n,
       body = JDict d
       /\ d !! lit "parameters" = Some (JDict p)
       /\ p !! lit "num_ctx" = Some v
       /\ int_is v n
       /\ c = with_max_tokens n (named_capabilities api_type model_name).

(** The text mentions code, or summaries, the way the YandexGPT branch
    looks for them. *)
Definition mentions_code {ru : PyUnicode} (t : str) : bool :=
  contains (u8 "код") (lower t) || contains (u8 "программирован") (lower t).

Definition mentions_summaries {ru : PyUnicode} (t : str) : bool :=
  contains (u8 "суммариз") (lower t) || contains (u8 "резюм") (lower t).

(** Whatever a record of the YandexGPT branch claims, its description
    bears out. *)
Definition described {rt : PyRuntime} {ru : PyUnicode} (c : Capabilities)
  : Prop :=
  (supports_code c = true ->
   exists t, description c = JStr t /\ mentions_code t = true)
  /\ (supports_summarization c = true ->
      exists t, description c = JStr t /\ mentions_summaries t = true)
  /\ (max_tokens c = 2048%Z
      \/ exists t g, description c = JStr t /\ token_matches t = Some g
                     /\ max_tokens c = int_of_digits g)
  /\ (version c = JStr (u8 "Неизвестно")
      \/ exists t, description c = JStr t).

(** The record the YandexGPT branch makes of an answer [t] of the model. *)
Definition answer_capabilities {rt : PyRuntime} {ru : PyUnicode}
    (api_type model_name t : str) (model_version : Json) : Capabilities :=
  {| name := model_name;
     api := api_type;
     supports_code := mentions_code t;
     supports_summarization := mentions_summaries t;
     max_tokens := match token_matches t with
                   | Some g => int_of_digits g
                   | None => 2048%Z
                   end;
     description := JStr t;
     version := model_version |}.

(** One of the ten digits of ASCII. *)
Definition ascii_digit (c : N) : bool := ((48 <=? c) && (c <=? 57))%N.

(** The Cyrillic letter the word [токенов] starts with. *)
Definition CYRILLIC_TE : N := 1090.


(* ================================================================== *)
(** * Part II: properties *)
(* ================================================================== *)

(** ** Comparisons *)

Lemma Qleb_true x y : Qleb x y = true <-> (x <= y)%Q.
Proof. apply Qle_bool_iff. Qed.

Lemma Qleb_false x y : Qleb x y = false <-> (y < x)%Q.
Proof.
  unfold Qleb. rewrite <- not_true_iff_false, Qle_bool_iff.
  split; [apply Qnot_le_lt | apply Qlt_not_le].
Qed.

Lemma Qgeb_true x y : Qgeb x y = true <-> (y <= x)%Q.
Proof. apply Qle_bool_iff. Qed.

Lemma Qgeb_false x y : Qgeb x y = false <-> (x < y)%Q.
Proof. apply (Qleb_false y x). Qed.

Lemma Qltb_true x y : Qltb x y = true <-> (x < y)%Q.
Proof. unfold Qltb. rewrite negb_true_iff. apply (Qleb_false y x). Qed.

Lemma Qltb_false x y : Qltb x y = false <-> (y <= x)%Q.
Proof. unfold Qltb. rewrite negb_false_iff. apply Qle_bool_iff. Qed.

Lemma Qgtb_true x y : Qgtb x y = true <-> (y < x)%Q.
Proof. unfold Qgtb. rewrite negb_true_iff. apply Qleb_false. Qed.

Lemma Qgtb_false x y : Qgtb x y = false <-> (x <= y)%Q.
Proof. unfold Qgtb. rewrite negb_false_iff. apply Qle_bool_iff. Qed.

(** Turns every comparison of the code in the context into an order fact. *)
Ltac cmp_facts :=
  repeat match goal with
  | H : Qleb _ _ = true |- _ => apply Qleb_true in H
  | H : Qleb _ _ = false |- _ => apply Qleb_false in H
  | H : Qgeb _ _ = true |- _ => apply Qgeb_true in H
  | H : Qgeb _ _ = false |- _ => apply Qgeb_false in H
  | H : Qltb _ _ = true |- _ => apply Qltb_true in H
  | H : Qltb _ _ = false |- _ => apply Qltb_false in H
  | H : Qgtb _ _ = true |- _ => apply Qgtb_true in H
  | H : Qgtb _ _ = false |- _ => apply Qgtb_false in H
  | H : (_ || _) = true |- _ => apply orb_true_iff in H; destruct H
  | H : (_ || _) = false |- _ => apply orb_false_iff in H; destruct H
  | H : (_ && _) = true |- _ => apply andb_true_iff in H; destruct H
  | H : (_ && _) = false |- _ => apply andb_false_iff in H; destruct H
  end.

(** ** Rounding to binary64 *)

Section Rounding.

Local Open Scope Q_scope.

Lemma pow2_pos e : 0 < pow2 e.
Proof. apply Qpower_0_lt. reflexivity. Qed.

Lemma pow2_plus a b : pow2 (a + b) == pow2 a * pow2 b.
Proof. apply Qpower_plus. discriminate. Qed.

Lemma pow2_succ a : pow2 (a + 1) == 2 * pow2 a.
Proof. rewrite pow2_plus. unfold pow2 at 2. rewrite Qpower_1_r. ring. Qed.

Lemma pow2_le a b : (a <= b)%Z -> pow2 a <= pow2 b.
Proof. intros H. apply Qpower_le_compat_l; [exact H | discriminate]. Qed.

Lemma pow2_lt a b : (a < b)%Z -> pow2 a < pow2 b.
Proof. intros H. apply Qpower_lt_compat_l; [exact H | reflexivity]. Qed.

Lemma pow2_lt_inv a b : pow2 a < pow2 b -> (a < b)%Z.
Proof.
  intros H. destruct (Z_lt_le_dec a b) as [L|L]; [exact L|].
  apply pow2_le in L. lra.
Qed.

Lemma pow2_Z k : (0 <= k)%Z -> inject_Z (2 ^ k) == pow2 k.
Proof. intros H. unfold pow2. rewrite Zpower_Qpower by exact H. reflexivity. Qed.

Lemma ilog2_spec x : 0 < x -> pow2 (ilog2 x) <= x /\ x < pow2 (ilog2 x + 1).
Proof.
  intros Hx. destruct x as [n d]. unfold ilog2. cbn [Qnum Qden].
  assert (Hn : (0 < n)%Z).
  { unfold Qlt in Hx. cbn in Hx. lia. }
  set (a := Z.log2 n). set (b := Z.log2 (Z.pos d)).
  assert (Ha0 : (0 <= a)%Z) by apply Z.log2_nonneg.
  assert (Hb0 : (0 <= b)%Z) by apply Z.log2_nonneg.
  destruct (Z.log2_spec n Hn) as [Ha1 Ha2]. fold a in Ha1, Ha2.
  destruct (Z.log2_spec (Z.pos d) eq_refl) as [Hb1 Hb2]. fold b in Hb1, Hb2.
  rewrite Zle_Qle, pow2_Z in Ha1, Hb1 by assumption.
  rewrite Zlt_Qlt, pow2_Z in Ha2, Hb2 by lia.
  replace (Z.succ a) with (a + 1)%Z in Ha2 by lia.
  replace (Z.succ b) with (b + 1)%Z in Hb2 by lia.
  rewrite pow2_succ in Ha2, Hb2.
  pose proof (pow2_pos a) as PA. pose proof (pow2_pos b) as PB.
  assert (Ex : n # d == inject_Z n / inject_Z (Z.pos d)) by apply Qmake_Qdiv.
  assert (PD : 0 < inject_Z (Z.pos d)) by reflexivity.
  set (N := inject_Z n) in *. set (D := inject_Z (Z.pos d)) in *.
  set (x := n # d) in *.
  assert (ExD : x * D == N) by (rewrite Ex; field; lra).
  assert (Eab : pow2 (a - b) * pow2 b == pow2 a).
  { rewrite <- pow2_plus. replace (a - b + b)%Z with a by lia. reflexivity. }
  pose proof (pow2_pos (a - b)) as PL.
  assert (E1 : pow2 (a - b + 1) == 2 * pow2 (a - b)) by apply pow2_succ.
  assert (E2 : 2 * pow2 (a - b - 1) == pow2 (a - b)).
  { rewrite <- pow2_succ. replace (a - b - 1 + 1)%Z with (a - b)%Z by lia.
    reflexivity. }
  assert (E3 : pow2 (a - b - 1 + 1) == pow2 (a - b)).
  { replace (a - b - 1 + 1)%Z with (a - b)%Z by lia. reflexivity. }
  pose proof (pow2_pos (a - b - 1)) as PL'.
  set (L := pow2 (a - b)) in *. set (A := pow2 a) in *. set (B := pow2 b) in *.
  set (L1 := pow2 (a - b + 1)) in *. set (L0 := pow2 (a - b - 1)) in *.
  set (L2 := pow2 (a - b - 1 + 1)) in *.
  destruct (Qle_bool L x) eqn:E;
    [apply Qle_bool_iff in E
    |assert (E' : x < L)
       by (apply Qnot_le_lt; intros Hc; apply Qle_bool_iff in Hc; congruence);
     clear E];
    cbv iota;
    change (pow2 (a - b)) with L;
    change (pow2 (a - b + 1)) with L1;
    change (pow2 (a - b - 1)) with L0;
    change (pow2 (a - b - 1 + 1)) with L2;
    clearbody N D x L A B L1 L0 L2.
  - assert (Hup : x < 2 * L).
    { apply Qnot_le_lt. intros Hc.
      assert (2 * L * D <= x * D) by (apply Qmult_le_compat_r; lra).
      assert (L * B <= L * D) by (apply Qmult_le_l; lra).
      lra. }
    split; lra.
  - assert (Hlow : L < 2 * x).
    { apply Qnot_le_lt. intros Hc.
      assert (2 * x * D <= L * D) by (apply Qmult_le_compat_r; lra).
      assert (L * D < L * (2 * B)) by (apply Qmult_lt_l; lra).
      lra. }
    split; lra.
Qed.


Lemma ilog2_unique x e :
  pow2 e <= x -> x < pow2 (e + 1) -> ilog2 x = e.
Proof.
  intros H1 H2.
  assert (Hx : 0 < x) by (pose proof (pow2_pos e); lra).
  destruct (ilog2_spec x Hx) as [S1 S2].
  assert (ilog2 x < e + 1)%Z by (apply pow2_lt_inv; lra).
  assert (e < ilog2 x + 1)%Z by (apply pow2_lt_inv; lra).
  lia.
Qed.

Lemma ilog2_comp x y : 0 < x -> x == y -> ilog2 x = ilog2 y.
Proof.
  intros Hx E. destruct (ilog2_spec x Hx) as [S1 S2].
  symmetry. apply ilog2_unique; rewrite <- E; assumption.
Qed.

Lemma ilog2_le x y : 0 < x -> x <= y -> (ilog2 x <= ilog2 y)%Z.
Proof.
  intros Hx H. destruct (ilog2_spec x Hx) as [S1 _].
  destruct (ilog2_spec y ltac:(lra)) as [_ T2].
  assert (ilog2 x < ilog2 y + 1)%Z by (apply pow2_lt_inv; lra).
  lia.
Qed.

Lemma rne_comp q q' : q == q' -> rne q = rne q'.
Proof.
  intros E. unfold rne. rewrite (Qfloor_comp _ _ E).
  assert (E' : q - inject_Z (Qfloor q') == q' - inject_Z (Qfloor q'))
    by (rewrite E; reflexivity).
  rewrite (Qcompare_comp _ _ E' _ _ (Qeq_refl (1 # 2))). reflexivity.
Qed.

Lemma rne_error q :
  - (1 # 2) <= inject_Z (rne q) - q /\ inject_Z (rne q) - q <= 1 # 2.
Proof.
  unfold rne. pose proof (Qfloor_le q) as H1. pose proof (Qlt_floor q) as H2.
  rewrite inject_Z_plus in H2. change (inject_Z 1) with 1 in H2.
  destruct (Qcompare_spec (q - inject_Z (Qfloor q)) (1 # 2)) as [E|E|E].
  - destruct (Z.even (Qfloor q)); rewrite ?inject_Z_plus;
      change (inject_Z 1) with 1; split; lra.
  - split; lra.
  - rewrite inject_Z_plus. change (inject_Z 1) with 1. split; lra.
Qed.

Lemma rne_Z z : rne (inject_Z z) = z.
Proof.
  unfold rne. rewrite Qfloor_Z.
  destruct (Qcompare_spec (inject_Z z - inject_Z z) (1 # 2)) as [E|E|E].
  - exfalso. lra.
  - reflexivity.
  - exfalso. lra.
Qed.

Lemma rne_mono q1 q2 : q1 <= q2 -> (rne q1 <= rne q2)%Z.
Proof.
  intros H. pose proof (Qfloor_resp_le _ _ H) as Hf.
  pose proof (Qfloor_le q1) as A1. pose proof (Qlt_floor q1) as A2.
  pose proof (Qfloor_le q2) as B1. pose proof (Qlt_floor q2) as B2.
  rewrite inject_Z_plus in A2, B2. change (inject_Z 1) with 1 in A2, B2.
  assert (U1 : (Qfloor q1 <= rne q1 <= Qfloor q1 + 1)%Z).
  { unfold rne. destruct (Qcompare _ _); [destruct (Z.even _)| |]; lia. }
  assert (U2 : (Qfloor q2 <= rne q2 <= Qfloor q2 + 1)%Z).
  { unfold rne. destruct (Qcompare _ _); [destruct (Z.even _)| |]; lia. }
  destruct (Z.eq_dec (Qfloor q1) (Qfloor q2)) as [Ef|Nf]; [|lia].
  unfold rne. rewrite <- Ef.
  destruct (Qcompare_spec (q1 - inject_Z (Qfloor q1)) (1 # 2)) as [E|E|E];
    destruct (Qcompare_spec (q2 - inject_Z (Qfloor q1)) (1 # 2)) as [F|F|F];
    try destruct (Z.even (Qfloor q1)); try lia; exfalso; lra.
Qed.

Lemma Qfloor_opp_frac q :
  ~ q == inject_Z (Qfloor q) -> Qfloor (- q) = (- Qfloor q - 1)%Z.
Proof.
  intros Hn. pose proof (Qfloor_le q) as A1. pose proof (Qlt_floor q) as A2.
  rewrite inject_Z_plus in A2. change (inject_Z 1) with 1 in A2.
  pose proof (Qfloor_le (- q)) as B1. pose proof (Qlt_floor (- q)) as B2.
  rewrite inject_Z_plus in B2. change (inject_Z 1) with 1 in B2.
  assert (H1 : inject_Z (Qfloor (- q)) < inject_Z (- Qfloor q)).
  { rewrite inject_Z_opp. destruct (Qlt_le_dec q (inject_Z (Qfloor q))); [lra|].
    assert (inject_Z (Qfloor q) < q).
    { apply Qnot_le_lt. intros Hc. apply Hn. lra. }
    lra. }
  assert (H2 : inject_Z (- Qfloor q - 2) < inject_Z (Qfloor (- q))).
  { unfold Zminus. rewrite !inject_Z_plus, !inject_Z_opp.
    change (inject_Z 2) with 2. lra. }
  rewrite <- Zlt_Qlt in H1, H2. lia.
Qed.

Lemma rne_opp q : rne (- q) = (- rne q)%Z.
Proof.
  destruct (Qeq_dec q (inject_Z (Qfloor q))) as [E|N].
  - rewrite (rne_comp q _ E), rne_Z.
    assert (E' : - q == inject_Z (- Qfloor q)) by (rewrite inject_Z_opp, <- E; reflexivity).
    rewrite (rne_comp _ _ E'), rne_Z. reflexivity.
  - pose proof (Qfloor_opp_frac q N) as Ef.
    pose proof (Qfloor_le q) as A1. pose proof (Qlt_floor q) as A2.
    rewrite inject_Z_plus in A2. change (inject_Z 1) with 1 in A2.
    unfold rne. rewrite Ef.
    assert (Ei : inject_Z (- Qfloor q - 1) == - inject_Z (Qfloor q) - 1).
    { unfold Zminus. rewrite inject_Z_plus, !inject_Z_opp. reflexivity. }
    destruct (Qcompare_spec (q - inject_Z (Qfloor q)) (1 # 2)) as [E|E|E];
      destruct (Qcompare_spec (- q - inject_Z (- Qfloor q - 1)) (1 # 2))
        as [F|F|F]; rewrite Ei in F; try (exfalso; lra); try lia.
    replace (- Qfloor q - 1)%Z with (- (Qfloor q) - 1)%Z by lia.
    rewrite Z.even_sub, Z.even_opp. cbn [Z.even].
    destruct (Z.even (Qfloor q)); cbn; lia.
Qed.

Lemma round64_zero x : x == 0 -> round64 x = 0.
Proof.
  intros E. unfold round64.
  destruct (Qeq_bool x 0) eqn:B; [reflexivity|].
  apply Qeq_bool_neq in B. contradiction.
Qed.

Lemma round64_form x :
  ~ x == 0 -> round64 x == inject_Z (rne (x / ulp_of x)) * ulp_of x.
Proof.
  intros N. unfold round64, ulp_of.
  destruct (Qeq_bool x 0) eqn:B.
  - apply Qeq_bool_iff in B. contradiction.
  - cbv zeta. apply Qred_correct.
Qed.

Lemma Qabs_pos_nonzero x : ~ x == 0 -> 0 < Qabs x.
Proof.
  intros N. apply Qabs_case; intros H.
  - apply Qnot_le_lt. intros Hc. apply N. lra.
  - apply Qnot_le_lt. intros Hc. apply N. lra.
Qed.

Lemma ulp_of_comp x y : ~ x == 0 -> x == y -> ulp_of x = ulp_of y.
Proof.
  intros N E. unfold ulp_of.
  rewrite (ilog2_comp (Qabs x) (Qabs y)); [reflexivity | |].
  - apply Qabs_pos_nonzero, N.
  - rewrite E. reflexivity.
Qed.

Lemma round64_comp x y : x == y -> round64 x = round64 y.
Proof.
  intros E. destruct (Qeq_dec x 0) as [Z|N].
  - rewrite (round64_zero x Z), (round64_zero y); [reflexivity|].
    rewrite <- E. exact Z.
  - assert (N' : ~ y == 0) by (rewrite <- E; exact N).
    unfold round64.
    destruct (Qeq_bool x 0) eqn:B; [apply Qeq_bool_iff in B; contradiction|].
    destruct (Qeq_bool y 0) eqn:B'; [apply Qeq_bool_iff in B'; contradiction|].
    cbv zeta. fold (ulp_of x). fold (ulp_of y).
    rewrite (ulp_of_comp x y N E).
    rewrite (rne_comp (x / ulp_of y) (y / ulp_of y)); [reflexivity|].
    rewrite E. reflexivity.
Qed.

Lemma ulp_of_pos x : 0 < ulp_of x.
Proof. apply pow2_pos. Qed.

(** A double is within half a spacing of what it rounds. *)
Lemma round64_half_ulp x :
  - ((1 # 2) * ulp_of x) <= round64 x - x
  /\ round64 x - x <= (1 # 2) * ulp_of x.
Proof.
  destruct (Qeq_dec x 0) as [Z|N].
  - rewrite (round64_zero x Z). pose proof (ulp_of_pos x). split; lra.
  - rewrite (round64_form x N). pose proof (ulp_of_pos x) as P.
    destruct (rne_error (x / ulp_of x)) as [E1 E2].
    set (r := inject_Z (rne (x / ulp_of x))) in *.
    set (u := ulp_of x) in *.
    assert (Ex : x == x / u * u) by (field; lra).
    set (q := x / u) in *. clearbody r q u.
    assert (A : (r - q) * u <= (1 # 2) * u) by (apply Qmult_le_compat_r; lra).
    assert (B : - (1 # 2) * u <= (r - q) * u).
    { apply Qmult_le_compat_r; lra. }
    split; lra.
Qed.

Lemma ulp_of_bound x :
  ~ x == 0 ->
  ulp_of x <= Qabs x * pow2 (-52) \/ ulp_of x == pow2 (-1074).
Proof.
  intros N. unfold ulp_of.
  destruct (Z_le_gt_dec (-1022) (ilog2 (Qabs x))) as [L|G].
  - left. rewrite Z.max_l by lia.
    destruct (ilog2_spec (Qabs x) (Qabs_pos_nonzero x N)) as [S1 _].
    replace (ilog2 (Qabs x) - 52)%Z with (ilog2 (Qabs x) + (-52))%Z by lia.
    rewrite pow2_plus. apply Qmult_le_compat_r; [exact S1|].
    apply Qlt_le_weak, pow2_pos.
  - right. rewrite Z.max_r by lia. reflexivity.
Qed.

(** The error of one rounding: relative [2^-53], or absolute [2^-1075]
    among the subnormal numbers. *)
Lemma round64_near x :
  Qabs (round64 x - x) <= Qabs x * pow2 (-53) + pow2 (-1075).
Proof.
  assert (E53 : pow2 (-52) == 2 * pow2 (-53)) by reflexivity.
  assert (E75 : pow2 (-1074) == 2 * pow2 (-1075)) by (vm_compute; reflexivity).
  pose proof (pow2_pos (-53)) as P53. pose proof (pow2_pos (-1075)) as P75.
  pose proof (Qabs_nonneg x) as Pa.
  assert (0 <= Qabs x * pow2 (-53)) by (apply Qmult_le_0_compat; lra).
  apply Qabs_Qle_condition.
  destruct (Qeq_dec x 0) as [Z|N].
  { rewrite (round64_zero x Z). split; lra. }
  destruct (round64_half_ulp x) as [H1 H2].
  destruct (ulp_of_bound x N) as [B|B].
  - assert (Qabs x * pow2 (-52) == 2 * (Qabs x * pow2 (-53)))
      by (rewrite E53; ring).
    split; lra.
  - split; lra.
Qed.

Lemma round64_nonneg x : 0 <= x -> 0 <= round64 x.
Proof.
  intros H. destruct (Qeq_dec x 0) as [Z|N].
  - rewrite (round64_zero x Z). lra.
  - rewrite (round64_form x N). pose proof (ulp_of_pos x) as P.
    apply Qmult_le_0_compat; [|lra].
    change 0 with (inject_Z 0). rewrite <- Zle_Qle.
    rewrite <- (rne_Z 0). apply rne_mono. change (inject_Z 0) with 0.
    apply Qle_shift_div_l; lra.
Qed.

Lemma ulp_of_opp x : ulp_of (- x) = ulp_of x.
Proof.
  destruct (Qeq_dec x 0) as [Z|N].
  - unfold ulp_of. destruct x as [n d]. unfold Qeq in Z. cbn in Z.
    assert (n = 0%Z) by lia. subst n. reflexivity.
  - unfold ulp_of. rewrite (ilog2_comp (Qabs (- x)) (Qabs x)); [reflexivity| |].
    + apply Qabs_pos_nonzero. intros E. apply N. lra.
    + apply Qabs_opp.
Qed.

Lemma round64_opp x : round64 (- x) == - round64 x.
Proof.
  destruct (Qeq_dec x 0) as [Z|N].
  - rewrite (round64_zero x Z), (round64_zero (- x)); [reflexivity|]. lra.
  - assert (N' : ~ - x == 0) by (intros E; apply N; lra).
    rewrite (round64_form x N), (round64_form _ N'), ulp_of_opp.
    pose proof (ulp_of_pos x) as P.
    assert (E : - x / ulp_of x == - (x / ulp_of x)) by (field; lra).
    rewrite (rne_comp _ _ E), rne_opp, inject_Z_opp. ring.
Qed.

Lemma round64_mono_pos x y : 0 < x -> x <= y -> round64 x <= round64 y.
Proof.
  intros Hx H.
  assert (Nx : ~ x == 0) by lra. assert (Ny : ~ y == 0) by lra.
  rewrite (round64_form x Nx), (round64_form y Ny).
  assert (Ax : Qabs x == x) by (apply Qabs_pos; lra).
  assert (Ay : Qabs y == y) by (apply Qabs_pos; lra).
  unfold ulp_of.
  rewrite (ilog2_comp _ _ (Qabs_pos_nonzero x Nx) Ax).
  rewrite (ilog2_comp _ _ (Qabs_pos_nonzero y Ny) Ay).
  pose proof (ilog2_le x y Hx H) as Hl.
  destruct (ilog2_spec x Hx) as [X1 X2].
  destruct (ilog2_spec y ltac:(lra)) as [Y1 Y2].
  set (ex := Z.max (ilog2 x) (-1022)). set (ey := Z.max (ilog2 y) (-1022)).
  assert (Hle : (ex <= ey)%Z) by (unfold ex, ey; lia).
  pose proof (pow2_pos (ex - 52)) as Px. pose proof (pow2_pos (ey - 52)) as Py.
  destruct (Z.eq_dec ex ey) as [E|NE].
  - rewrite <- E. apply Qmult_le_compat_r; [|lra].
    rewrite <- Zle_Qle. apply rne_mono.
    apply Qmult_le_compat_r; [exact H|].
    apply Qlt_le_weak, Qinv_lt_0_compat, Px.
  - assert (Hlt : (ex < ey)%Z) by lia.
    assert (Ey : ey = ilog2 y) by (unfold ex, ey in *; lia).
    (* the rounding of x stays below the next power of two *)
    assert (Bx : inject_Z (rne (x / pow2 (ex - 52))) * pow2 (ex - 52)
                 <= pow2 (ex + 1)).
    { assert (Hq : x / pow2 (ex - 52) <= inject_Z (2 ^ 53)).
      { apply Qle_shift_div_r; [exact Px|].
        rewrite pow2_Z by lia. rewrite <- pow2_plus.
        replace (53 + (ex - 52))%Z with (ex + 1)%Z by lia.
        assert (pow2 (ilog2 x + 1) <= pow2 (ex + 1))
          by (apply pow2_le; unfold ex; lia).
        lra. }
      apply rne_mono in Hq. rewrite rne_Z in Hq.
      rewrite Zle_Qle in Hq. rewrite pow2_Z in Hq by lia.
      assert (E1 : pow2 (ex + 1) == pow2 53 * pow2 (ex - 52)).
      { rewrite <- pow2_plus. replace (53 + (ex - 52))%Z with (ex + 1)%Z by lia.
        reflexivity. }
      rewrite E1. apply Qmult_le_compat_r; lra. }
    assert (By : pow2 ey
                 <= inject_Z (rne (y / pow2 (ey - 52))) * pow2 (ey - 52)).
    { assert (Hq : inject_Z (2 ^ 52) <= y / pow2 (ey - 52)).
      { apply Qle_shift_div_l; [exact Py|].
        rewrite pow2_Z by lia. rewrite <- pow2_plus.
        replace (52 + (ey - 52))%Z with ey by lia.
        rewrite Ey. exact Y1. }
      apply rne_mono in Hq. rewrite rne_Z in Hq.
      rewrite Zle_Qle in Hq. rewrite pow2_Z in Hq by lia.
      assert (E1 : pow2 ey == pow2 52 * pow2 (ey - 52)).
      { rewrite <- pow2_plus. replace (52 + (ey - 52))%Z with ey by lia.
        reflexivity. }
      rewrite E1. apply Qmult_le_compat_r; lra. }
    assert (pow2 (ex + 1) <= pow2 ey) by (apply pow2_le; lia).
    lra.
Qed.

(** Rounding keeps the order. *)
Lemma round64_mono x y : x <= y -> round64 x <= round64 y.
Proof.
  intros H.
  destruct (Qlt_le_dec 0 x) as [Px|Nx].
  - apply round64_mono_pos; assumption.
  - destruct (Qlt_le_dec y 0) as [Ny|Py].
    + assert (H' : round64 (- y) <= round64 (- x)).
      { apply round64_mono_pos; lra. }
      rewrite !round64_opp in H'. lra.
    + assert (round64 x <= 0).
      { assert (0 <= round64 (- x)) by (apply round64_nonneg; lra).
        rewrite round64_opp in H0. lra. }
      assert (0 <= round64 y) by (apply round64_nonneg; exact Py).
      lra.
Qed.

(** ** The doubles *)

Lemma ilog2_scale x k : 0 < x -> ilog2 (x * pow2 k) = (ilog2 x + k)%Z.
Proof.
  intros Hx. destruct (ilog2_spec x Hx) as [S1 S2].
  pose proof (pow2_pos k) as Pk.
  apply ilog2_unique.
  - rewrite pow2_plus. apply Qmult_le_compat_r; lra.
  - replace (ilog2 x + k + 1)%Z with ((ilog2 x + 1) + k)%Z by lia.
    rewrite pow2_plus. apply Qmult_lt_r; lra.
Qed.

Lemma Qabs_inject_Z m : Qabs (inject_Z m) = inject_Z (Z.abs m).
Proof. reflexivity. Qed.

(** A number with a mantissa of at most 53 bits and an exponent in range
    is a double. *)
Lemma binary64_repr_lt m k :
  (Z.abs m < 2 ^ 53)%Z -> (-1074 <= k)%Z -> binary64 (inject_Z m * pow2 k).
Proof.
  intros Hm Hk. unfold binary64.
  set (y := inject_Z m * pow2 k).
  destruct (Qeq_dec y 0) as [Z|N].
  { rewrite (round64_zero y Z). symmetry. exact Z. }
  rewrite (round64_form y N).
  pose proof (pow2_pos k) as Pk.
  assert (Hy : Qabs y == inject_Z (Z.abs m) * pow2 k).
  { unfold y. rewrite Qabs_Qmult, (Qabs_pos (pow2 k)) by lra.
    rewrite Qabs_inject_Z. reflexivity. }
  assert (Hlt : Qabs y < pow2 (53 + k)).
  { rewrite Hy, pow2_plus. apply Qmult_lt_r; [exact Pk|].
    rewrite <- pow2_Z by lia. rewrite <- Zlt_Qlt. exact Hm. }
  destruct (ilog2_spec (Qabs y) (Qabs_pos_nonzero y N)) as [S1 _].
  assert (Hl : (ilog2 (Qabs y) < 53 + k)%Z) by (apply pow2_lt_inv; lra).
  unfold ulp_of.
  set (e := Z.max (ilog2 (Qabs y)) (-1022)).
  assert (He : (e <= 52 + k)%Z) by (unfold e; lia).
  pose proof (pow2_pos (e - 52)) as Pe.
  assert (Hq : y / pow2 (e - 52) == inject_Z (m * 2 ^ (k + 52 - e))).
  { assert (Ey : y == inject_Z (m * 2 ^ (k + 52 - e)) * pow2 (e - 52)).
    { rewrite inject_Z_mult, pow2_Z by lia. unfold y.
      rewrite <- Qmult_assoc, <- pow2_plus.
      replace (k + 52 - e + (e - 52))%Z with k by lia. reflexivity. }
    rewrite Ey at 1. field. lra. }
  rewrite (rne_comp _ _ Hq), rne_Z, <- Hq. field. lra.
Qed.

Lemma binary64_repr m k :
  (Z.abs m <= 2 ^ 53)%Z -> (-1074 <= k)%Z -> binary64 (inject_Z m * pow2 k).
Proof.
  intros Hm Hk.
  destruct (Z_lt_le_dec (Z.abs m) (2 ^ 53)) as [L|L];
    [apply binary64_repr_lt; assumption|].
  assert (E : (Z.abs m = 2 ^ 53)%Z) by lia.
  assert (Em : m = (2 * (m / 2))%Z).
  { destruct (Z.abs_spec m) as [[_ A]|[_ A]]; rewrite A in E.
    - rewrite E. reflexivity.
    - replace m with (- 2 ^ 53)%Z by lia. reflexivity. }
  assert (Hh : (Z.abs (m / 2) < 2 ^ 53)%Z).
  { destruct (Z.abs_spec m) as [[_ A]|[_ A]]; rewrite A in E.
    - rewrite E. reflexivity.
    - replace m with (- 2 ^ 53)%Z by lia. reflexivity. }
  pose proof (binary64_repr_lt (m / 2) (k + 1) Hh ltac:(lia)) as B.
  unfold binary64 in *.
  assert (Ey : inject_Z m * pow2 k == inject_Z (m / 2) * pow2 (k + 1)).
  { rewrite pow2_succ. rewrite Em at 1. rewrite inject_Z_mult.
    change (inject_Z 2) with 2. ring. }
  rewrite (round64_comp _ _ Ey), B. symmetry. exact Ey.
Qed.

(** The mantissa of a rounded number has at most 53 bits. *)
Lemma round64_mantissa x :
  ~ x == 0 -> (Z.abs (rne (x / ulp_of x)) <= 2 ^ 53)%Z.
Proof.
  intros N. pose proof (ulp_of_pos x) as P.
  destruct (ilog2_spec (Qabs x) (Qabs_pos_nonzero x N)) as [_ S2].
  assert (Hu : pow2 (ilog2 (Qabs x) + 1) <= pow2 53 * ulp_of x).
  { unfold ulp_of. rewrite <- pow2_plus. apply pow2_le. lia. }
  assert (Hx : Qabs x <= pow2 53 * ulp_of x) by lra.
  apply Qabs_Qle_condition in Hx. destruct Hx as [X1 X2].
  assert (Q1 : inject_Z (- 2 ^ 53) <= x / ulp_of x).
  { apply Qle_shift_div_l; [exact P|].
    rewrite inject_Z_opp, pow2_Z by lia. lra. }
  assert (Q2 : x / ulp_of x <= inject_Z (2 ^ 53)).
  { apply Qle_shift_div_r; [exact P|]. rewrite pow2_Z by lia. lra. }
  apply rne_mono in Q1, Q2. rewrite rne_Z in Q1, Q2. lia.
Qed.

(** What rounding gives is a double. *)
Lemma round64_binary64 x : binary64 (round64 x).
Proof.
  destruct (Qeq_dec x 0) as [Z|N].
  { rewrite (round64_zero x Z). reflexivity. }
  unfold binary64. pose proof (round64_form x N) as F.
  assert (B : binary64 (inject_Z (rne (x / ulp_of x)) * ulp_of x)).
  { unfold ulp_of at 2. apply binary64_repr; [apply round64_mantissa, N | lia]. }
  unfold binary64 in B.
  rewrite (round64_comp _ _ F), B. symmetry. exact F.
Qed.

Lemma ulp_of_scale x k :
  ~ x == 0 ->
  (-1022 <= ilog2 (Qabs x))%Z -> (-1022 <= ilog2 (Qabs x) + k)%Z ->
  ulp_of (x * pow2 k) == ulp_of x * pow2 k.
Proof.
  intros N H1 H2. unfold ulp_of. pose proof (pow2_pos k) as Pk.
  assert (E : Qabs (x * pow2 k) == Qabs x * pow2 k).
  { rewrite Qabs_Qmult, (Qabs_pos (pow2 k)) by lra. reflexivity. }
  assert (Px : 0 < Qabs (x * pow2 k)).
  { rewrite E. apply Qmult_lt_0_compat; [apply Qabs_pos_nonzero, N | exact Pk]. }
  rewrite (ilog2_comp _ _ Px E), ilog2_scale by (apply Qabs_pos_nonzero, N).
  rewrite !Z.max_l by lia. rewrite <- pow2_plus.
  replace (ilog2 (Qabs x) + k - 52)%Z with (ilog2 (Qabs x) - 52 + k)%Z by lia.
  reflexivity.
Qed.

(** Among the normal numbers, rounding commutes with a power of two. *)
Lemma round64_scale x k :
  ~ x == 0 ->
  (-1022 <= ilog2 (Qabs x))%Z -> (-1022 <= ilog2 (Qabs x) + k)%Z ->
  round64 (x * pow2 k) == round64 x * pow2 k.
Proof.
  intros N H1 H2. pose proof (pow2_pos k) as Pk.
  assert (N' : ~ x * pow2 k == 0).
  { intros E. apply N. apply Qmult_integral in E. destruct E; [assumption|lra]. }
  rewrite (round64_form _ N'), (round64_form x N).
  pose proof (ulp_of_scale x k N H1 H2) as U.
  pose proof (ulp_of_pos x) as P. pose proof (ulp_of_pos (x * pow2 k)) as P'.
  assert (Eq : x * pow2 k / ulp_of (x * pow2 k) == x / ulp_of x).
  { rewrite U. field. split; lra. }
  rewrite (rne_comp _ _ Eq), U. ring.
Qed.

(** The double nearest to an integer is an integer. *)
Lemma round64_integer z : exists z', round64 (inject_Z z) == inject_Z z'.
Proof.
  destruct (Z.eq_dec z 0%Z) as [->|Nz]; [exists 0%Z; reflexivity|].
  assert (N : ~ inject_Z z == 0).
  { change 0 with (inject_Z 0). rewrite inject_Z_injective. exact Nz. }
  assert (A : 1 <= Qabs (inject_Z z)).
  { rewrite Qabs_inject_Z. change 1 with (inject_Z 1). rewrite <- Zle_Qle. lia. }
  assert (L : (0 <= ilog2 (Qabs (inject_Z z)))%Z).
  { replace 0%Z with (ilog2 1) by reflexivity. apply ilog2_le; [reflexivity | exact A]. }
  pose proof (round64_form _ N) as F. unfold ulp_of in F.
  rewrite Z.max_l in F by lia.
  set (l := ilog2 (Qabs (inject_Z z))) in *.
  destruct (Z_le_gt_dec 52 l) as [G|G].
  - exists (rne (inject_Z z / pow2 (l - 52)) * 2 ^ (l - 52))%Z.
    rewrite F, inject_Z_mult, pow2_Z by lia. reflexivity.
  - exists z. pose proof (pow2_pos (l - 52)) as P.
    assert (Hq : inject_Z z / pow2 (l - 52) == inject_Z (z * 2 ^ (52 - l))).
    { assert (Ey : inject_Z z == inject_Z (z * 2 ^ (52 - l)) * pow2 (l - 52)).
      { rewrite inject_Z_mult, pow2_Z by lia.
        rewrite <- Qmult_assoc, <- pow2_plus.
        replace (52 - l + (l - 52))%Z with 0%Z by lia.
        change (pow2 0) with 1. ring. }
      rewrite Ey at 1. field. lra. }
    rewrite F, (rne_comp _ _ Hq), rne_Z, <- Hq. field. lra.
Qed.

(** Dividing a double that is an integer by a power of two is exact. *)
Lemma fdiv_pow2_exact x z k :
  binary64 x -> x == inject_Z z -> (0 <= k <= 1000)%Z ->
  fdiv x (pow2 k) == x / pow2 k.
Proof.
  intros B E Hk. unfold fdiv. pose proof (pow2_pos k) as Pk.
  assert (Ed : x / pow2 k == x * pow2 (- k)).
  { assert (Ek : pow2 (- k) == / pow2 k).
    { apply Qmult_inj_r with (z := pow2 k); [lra|].
      rewrite <- pow2_plus. replace (- k + k)%Z with 0%Z by lia.
      change (pow2 0) with 1. field. lra. }
    rewrite Ek. reflexivity. }
  rewrite (round64_comp _ _ Ed), Ed.
  destruct (Qeq_dec x 0) as [Z|N].
  { rewrite (round64_zero (x * pow2 (- k))) by (rewrite Z; ring).
    rewrite Z. ring. }
  assert (Nz : z <> 0%Z).
  { intros ->. apply N. exact E. }
  assert (A : 1 <= Qabs x).
  { rewrite E, Qabs_inject_Z. change 1 with (inject_Z 1).
    rewrite <- Zle_Qle. lia. }
  assert (L : (0 <= ilog2 (Qabs x))%Z).
  { replace 0%Z with (ilog2 1) by reflexivity.
    apply ilog2_le; [reflexivity | exact A]. }
  rewrite round64_scale by (try exact N; lia).
  unfold binary64 in B. rewrite B. reflexivity.
Qed.

End Rounding.

(** ** The status function *)

Lemma get_status_run cpu gpu s :
  _get_status cpu gpu s
  = (Ok (status_of cpu gpu),
     match status_of cpu gpu with Error => logged EvLogError s | _ => s end).
Proof.
  unfold status_of, _get_status.
  destruct (Qleb cpu 0 || Qleb gpu 0); [reflexivity|].
  destruct (Qgeb cpu CPU_TEMP_CRITICAL || Qgeb gpu GPU_TEMP_CRITICAL);
    [reflexivity|].
  destruct (Qgeb cpu CPU_TEMP_WARNING || Qgeb gpu GPU_TEMP_WARNING);
    reflexivity.
Qed.

Lemma status_of_cases cpu gpu :
  status_of cpu gpu =
  if Qleb cpu 0 || Qleb gpu 0 then Error
  else if Qgeb cpu CPU_TEMP_CRITICAL || Qgeb gpu GPU_TEMP_CRITICAL then Critical
  else if Qgeb cpu CPU_TEMP_WARNING || Qgeb gpu GPU_TEMP_WARNING then Warning
  else Normal.
Proof.
  unfold status_of, _get_status.
  destruct (Qleb cpu 0 || Qleb gpu 0); [reflexivity|].
  destruct (Qgeb cpu CPU_TEMP_CRITICAL || Qgeb gpu GPU_TEMP_CRITICAL);
    [reflexivity|].
  destruct (Qgeb cpu CPU_TEMP_WARNING || Qgeb gpu GPU_TEMP_WARNING);
    reflexivity.
Qed.

Ltac status_cases :=
  rewrite status_of_cases;
  unfold CPU_TEMP_CRITICAL, GPU_TEMP_CRITICAL, CPU_TEMP_WARNING,
    GPU_TEMP_WARNING;
  repeat match goal with
  | |- context [if ?b then _ else _] => destruct b eqn:?
  end;
  cmp_facts;
  (split; [try discriminate; intros _; repeat split; auto; lra
          | try reflexivity; intros; exfalso; intuition lra]).

Lemma status_error_iff cpu gpu :
  status_of cpu gpu = Error <-> (cpu <= 0 \/ gpu <= 0)%Q.
Proof. status_cases. Qed.

Lemma status_critical_iff cpu gpu :
  status_of cpu gpu = Critical <->
  (0 < cpu /\ 0 < gpu /\ (CPU_TEMP_CRITICAL <= cpu \/ GPU_TEMP_CRITICAL <= gpu))%Q.
Proof. status_cases. Qed.

Lemma status_warning_iff cpu gpu :
  status_of cpu gpu = Warning <->
  (0 < cpu /\ 0 < gpu /\ cpu < CPU_TEMP_CRITICAL /\ gpu < GPU_TEMP_CRITICAL
   /\ (CPU_TEMP_WARNING <= cpu \/ GPU_TEMP_WARNING <= gpu))%Q.
Proof. status_cases. Qed.

Lemma status_normal_iff cpu gpu :
  status_of cpu gpu = Normal <->
  (0 < cpu /\ 0 < gpu /\ cpu < CPU_TEMP_WARNING /\ gpu < GPU_TEMP_WARNING)%Q.
Proof. status_cases. Qed.

(** C1. [_get_status] gives [Error] as soon as one reading is not
    positive, whatever the thresholds say; otherwise [Critical] from 85 (CPU)
    or 90 (GPU) on, otherwise [Warning] from 70 (CPU) or 75 (GPU) on,
    otherwise [Normal]. The critical comparison is inclusive: with a valid
    GPU reading the status at exactly [CPU_TEMP_CRITICAL] is [Critical], and
    with a GPU reading below its critical threshold no CPU reading strictly
    between the CPU thresholds gives [Critical]. *)
Theorem get_status_thresholds (cpu gpu : Q) (s : St) :
  ((cpu <= 0 \/ gpu <= 0)%Q -> returns (_get_status cpu gpu) s Error)
  /\ ((0 < cpu)%Q -> (0 < gpu)%Q ->
      (CPU_TEMP_CRITICAL <= cpu \/ GPU_TEMP_CRITICAL <= gpu)%Q ->
      returns (_get_status cpu gpu) s Critical)
  /\ ((0 < cpu)%Q -> (0 < gpu)%Q ->
      (cpu < CPU_TEMP_CRITICAL)%Q -> (gpu < GPU_TEMP_CRITICAL)%Q ->
      (CPU_TEMP_WARNING <= cpu \/ GPU_TEMP_WARNING <= gpu)%Q ->
      returns (_get_status cpu gpu) s Warning)
  /\ ((0 < cpu)%Q -> (0 < gpu)%Q ->
      (cpu < CPU_TEMP_WARNING)%Q -> (gpu < GPU_TEMP_WARNING)%Q ->
      returns (_get_status cpu gpu) s Normal)
  /\ ((0 < gpu)%Q -> returns (_get_status CPU_TEMP_CRITICAL gpu) s Critical)
  /\ ((0 < gpu)%Q -> (gpu < GPU_TEMP_CRITICAL)%Q ->
      (CPU_TEMP_WARNING < cpu)%Q -> (cpu < CPU_TEMP_CRITICAL)%Q ->
      ~ returns (_get_status cpu gpu) s Critical).
Proof.
  unfold returns. repeat split.
  - intros H. apply status_error_iff in H.
    rewrite get_status_run, H. eauto.
  - intros H1 H2 H3.
    assert (H : status_of cpu gpu = Critical) by (apply status_critical_iff; auto).
    rewrite get_status_run, H. eauto.
  - intros H1 H2 H3 H4 H5.
    assert (H : status_of cpu gpu = Warning) by (apply status_warning_iff; auto).
    rewrite get_status_run, H. eauto.
  - intros H1 H2 H3 H4.
    assert (H : status_of cpu gpu = Normal) by (apply status_normal_iff; auto).
    rewrite get_status_run, H. eauto.
  - intros H1.
    assert (H : status_of CPU_TEMP_CRITICAL gpu = Critical).
    { apply status_critical_iff. unfold CPU_TEMP_CRITICAL. repeat split; auto; lra. }
    rewrite get_status_run, H. eauto.
  - intros H1 H2 H3 H4 [s' H].
    rewrite get_status_run in H.
    assert (Hc : status_of cpu gpu = Critical) by congruence.
    apply status_critical_iff in Hc. lra.
Qed.

Lemma get_status_thresholds_witness :
  (0 < 50)%Q /\ returns (_get_status CPU_TEMP_CRITICAL 50) fresh_state Critical.
Proof.
  split; [reflexivity|].
  apply (get_status_thresholds 85 50 fresh_state). reflexivity.
Defined.

(** ** Weakest preconditions for the monad *)

Lemma wp_ret {S A} (a : A) (s : S) Q E : Q a s -> wp (ret a) s Q E.
Proof. exact (fun H => H). Qed.

Lemma wp_raise {S A} (e : Exn) (s : S) (Q : A -> S -> Prop) E :
  E e s -> wp (raise e) s Q E.
Proof. exact (fun H => H). Qed.

Lemma wp_bind {S A B} (m : SM S A) (f : A -> SM S B) (s : S) Q E :
  wp m s (fun a s' => wp (f a) s' Q E) E -> wp (bind m f) s Q E.
Proof. unfold wp, bind. destruct (m s) as [[a|e] s']; auto. Qed.

Lemma wp_try {S A} (m : SM S A) (catches : Exn -> bool)
    (h : Exn -> SM S A) (s : S) Q E :
  wp m s Q (fun e s' => if catches e then wp (h e) s' Q E else E e s') ->
  wp (try_except m catches h) s Q E.
Proof.
  unfold wp, try_except. destruct (m s) as [[a|e] s']; auto.
  destruct (catches e); auto.
Qed.

Lemma wp_mono {S A} (m : SM S A) (s : S) (Q Q' : A -> S -> Prop) (E E' : Exn -> S -> Prop) :
  wp m s Q E ->
  (forall a s', Q a s' -> Q' a s') ->
  (forall e s', E e s' -> E' e s') ->
  wp m s Q' E'.
Proof. unfold wp. destruct (m s) as [[a|e] s']; auto. Qed.

Lemma wp_returns {S A} (m : SM S A) (s : S) Q :
  wp m s Q no_exn <-> exists a s', m s = (Ok a, s') /\ Q a s'.
Proof.
  unfold wp, no_exn. destruct (m s) as [[a|e] s']; split.
  - eauto.
  - intros (a' & s'' & Heq & H). congruence.
  - contradiction.
  - intros (a' & s'' & Heq & _). discriminate.
Qed.

Lemma bind_ok {S A B} (m : SM S A) (f : A -> SM S B) s a s' :
  m s = (Ok a, s') -> bind m f s = f a s'.
Proof. unfold bind. intros ->. reflexivity. Qed.

Lemma wp_get_mon s (Q : Monitor -> St -> Prop) E :
  Q (mon s) s -> wp get_mon s Q E.
Proof. exact (fun H => H). Qed.

Lemma wp_modify f s (Q : unit -> St -> Prop) E :
  Q tt {| mon := f (mon s); tick := tick s; trace := trace s |} ->
  wp (modify f) s Q E.
Proof. exact (fun H => H). Qed.

Lemma wp_emit ev s (Q : unit -> St -> Prop) E :
  Q tt (logged ev s) -> wp (emit ev) s Q E.
Proof. exact (fun H => H). Qed.

Lemma wp_ask {A} ev (answer : nat -> A) s (Q : A -> St -> Prop) E :
  Q (answer (tick s))
    {| mon := mon s; tick := S (tick s); trace := trace s ++ [ev] |} ->
  wp (ask ev answer) s Q E.
Proof. exact (fun H => H). Qed.

Lemma wp_or_raise {S A} (r : A + Exn) (s : S) Q E :
  match r with inl a => Q a s | inr e => E e s end -> wp (or_raise r) s Q E.
Proof. destruct r; exact (fun H => H). Qed.

Lemma wp_index {S A} (l : list A) i (s : S) (Q : A -> S -> Prop) (E : Exn -> S -> Prop) :
  (forall a, Q a s) -> (forall e, exn_kind e = IndexError -> E e s) ->
  wp (index l i) s Q E.
Proof.
  intros HQ HE. unfold index. destruct (nth_error l i).
  - apply wp_ret, HQ.
  - apply wp_raise, HE. reflexivity.
Qed.

Lemma wp_float {rt : PyRuntime} t s (Q : Q -> St -> Prop) (E : Exn -> St -> Prop) :
  (forall x, py_float t = Some x -> Q x s) ->
  (forall e, exn_kind e = ValueError -> E e s) ->
  wp (float_ t) s Q E.
Proof.
  intros HQ HE. unfold float_. destruct (py_float t).
  - apply wp_ret, HQ. reflexivity.
  - apply wp_raise, HE. reflexivity.
Qed.

(** One step of symbolic execution. *)
Ltac wp_step :=
  lazymatch goal with
  | |- wp (bind _ _) _ _ _ => apply wp_bind
  | |- wp (ret _) _ _ _ => apply wp_ret
  | |- wp (raise _) _ _ _ => apply wp_raise
  | |- wp (try_except _ _ _) _ _ _ => apply wp_try
  | |- wp get_mon _ _ _ => apply wp_get_mon
  | |- wp (modify _) _ _ _ => apply wp_modify
  | |- wp (emit _) _ _ _ => apply wp_emit
  | |- wp log_action _ _ _ => apply wp_emit
  | |- wp log_result _ _ _ => apply wp_emit
  | |- wp log_error _ _ _ => apply wp_emit
  | |- wp (ask _ _) _ _ _ => apply wp_ask
  | |- wp (or_raise _) _ _ _ => apply wp_or_raise
  | |- wp (if ?b then _ else _) _ _ _ => destruct b eqn:?
  | |- wp (match ?x with _ => _ end) _ _ _ => destruct x eqn:?
  | |- wp (let _ := _ in _) _ _ _ => cbv zeta
  | |- match ?x with _ => _ end => destruct x eqn:?
  | |- if ?b then _ else _ => destruct b eqn:?
  end.

(** ** The command channel leaves the governor's attributes alone *)

Lemma same_governor_refl s : same_governor s s.
Proof. repeat split. Qed.

Lemma same_governor_trans s1 s2 s3 :
  same_governor s1 s2 -> same_governor s2 s3 -> same_governor s1 s3.
Proof. unfold same_governor. intuition congruence. Qed.

Ltac wp_catch :=
  match goal with
  | |- context [any_exception ?e] =>
      change (any_exception e) with true; cbv iota
  end.

Ltac wp_run := repeat ((wp_catch || wp_step); cbn [mon tick trace logged]).

Ltac frame_leaf :=
  try contradiction;
  unfold same_governor in *; cbn in *; intuition congruence.

Ltac wp_call lem :=
  eapply wp_mono; [apply lem | intros ? ? ? | intros ? ? []].

Section ChannelFrame.

Context {rt : PyRuntime} (w : World).

Lemma connect_frame s :
  wp (connect w) s (fun _ s' => same_governor s s') no_exn.
Proof. unfold connect. wp_run; frame_leaf. Qed.

Lemma execute_local_command_frame command s :
  wp (_execute_local_command w command) s (fun _ s' => same_governor s s') no_exn.
Proof.
  unfold _execute_local_command. wp_run; try solve [frame_leaf].
Qed.

Lemma execute_command_frame command s :
  wp (_execute_command w command) s (fun _ s' => same_governor s s') no_exn.
Proof.
  unfold _execute_command, execute_attempt, recover_from, exec_command,
    get_transport_active.
  repeat (first [ wp_catch | wp_step
                | lazymatch goal with
                  | |- wp (connect _) _ _ _ => wp_call connect_frame
                  end ];
          cbn [mon tick trace logged]).
  all: frame_leaf.
Qed.

End ChannelFrame.

(** ** The temperature readers *)

Ltac wp_prim :=
  lazymatch goal with
  | |- wp (float_ _) _ _ _ => apply wp_float; [intros ? ? | intros ? ?]
  | |- wp (index _ _) _ _ _ => apply wp_index; [intros ? | intros ? ?]
  end.

Lemma is_ValueError_value e : exn_kind e = ValueError -> is_ValueError e = true.
Proof. unfold is_ValueError. intros ->. reflexivity. Qed.

Lemma is_IndexError_or_ValueError_value e :
  exn_kind e = ValueError -> is_IndexError_or_ValueError e = true.
Proof. unfold is_IndexError_or_ValueError. intros ->. reflexivity. Qed.

Lemma is_IndexError_or_ValueError_index e :
  exn_kind e = IndexError -> is_IndexError_or_ValueError e = true.
Proof. unfold is_IndexError_or_ValueError. intros ->. reflexivity. Qed.

Ltac wp_kind :=
  match goal with
  | H : exn_kind ?e = ValueError |- context [is_ValueError ?e] =>
      rewrite (is_ValueError_value e H)
  | H : exn_kind ?e = ValueError
    |- context [is_IndexError_or_ValueError ?e] =>
      rewrite (is_IndexError_or_ValueError_value e H)
  | H : exn_kind ?e = IndexError
    |- context [is_IndexError_or_ValueError ?e] =>
      rewrite (is_IndexError_or_ValueError_index e H)
  end.

Section Readers.

Context {rt : PyRuntime} (w : World).

Ltac wp_reader :=
  repeat (first
    [ wp_catch | wp_kind | wp_prim | wp_step
    | lazymatch goal with
      | |- wp (_execute_command _ _) _ _ _ => wp_call execute_command_frame
      | |- wp (_execute_local_command _ _) _ _ _ =>
          wp_call execute_local_command_frame
      end ];
    cbn [mon tick trace logged]).

Ltac reading_leaf :=
  try contradiction;
  unfold cpu_reading, gpu_reading, same_governor, parsed in *;
  cbn [mon tick trace logged with_last_cpu_temp with_last_gpu_temp
       last_check_time check_interval last_cpu_temp last_gpu_temp] in *;
  cmp_facts;
  repeat match goal with H : _ /\ _ |- _ => destruct H end;
  repeat match goal with |- _ /\ _ => split end;
  try congruence;
  first [ left; congruence
        | right; left; repeat split; solve [auto | congruence]
        | right; right; eauto 8 ].

Lemma parse_cpu_temperature_reading stdout s0 s :
  same_governor s0 s ->
  wp (parse_cpu_temperature stdout) s (cpu_reading w s0) no_exn.
Proof.
  intros Hs. unfold parse_cpu_temperature. wp_reader; reading_leaf.
Qed.

Lemma windows_cpu_reading s :
  is_windows w = true ->
  wp (_get_windows_cpu_temperature w) s (cpu_reading w s) no_exn.
Proof.
  intros Hw. unfold _get_windows_cpu_temperature, value_lines.
  wp_reader; reading_leaf.
Qed.

Lemma linux_cpu_reading s :
  is_windows w = false ->
  wp (get_cpu_temperature w) s (cpu_reading w s) no_exn.
Proof.
  intros Hw. unfold get_cpu_temperature. rewrite Hw.
  repeat (first
    [ lazymatch goal with
      | |- wp (parse_cpu_temperature _) _ _ _ =>
          apply parse_cpu_temperature_reading
      end
    | wp_reader ]).
  all: try solve [reading_leaf].
  all: eapply same_governor_trans; eassumption.
Qed.

(** [get_cpu_temperature] always returns; what it returns is what it leaves
    in [last_cpu_temp], and that is the value stored before, the
    placeholder of the Windows reader, or a reading that was parsed. *)
Lemma get_cpu_temperature_reading s :
  wp (get_cpu_temperature w) s (cpu_reading w s) no_exn.
Proof.
  destruct (is_windows w) eqn:Hw.
  - unfold get_cpu_temperature. rewrite Hw. apply windows_cpu_reading, Hw.
  - apply linux_cpu_reading, Hw.
Qed.

Lemma amdgpu_utility_lines_reading lines s :
  wp (amdgpu_utility_lines lines) s
     (fun r s' => match r with
                  | Some v => gpu_reading w s v s'
                  | None => same_governor s s'
                  end)
     (fun e s' => same_governor s s'
                  /\ (exn_kind e = IndexError \/ exn_kind e = ValueError)).
Proof.
  induction lines as [|line rest IH]; cbn [amdgpu_utility_lines].
  - wp_reader. apply same_governor_refl.
  - wp_reader; try exact IH.
    all: try solve [reading_leaf].
    all: split; [apply same_governor_refl | auto].
Qed.

Lemma windows_gpu_reading s :
  is_windows w = true ->
  wp (_get_windows_gpu_temperature w) s (gpu_reading w s) no_exn.
Proof.
  intros Hw. unfold _get_windows_gpu_temperature, value_lines.
  repeat (first
    [ lazymatch goal with
      | |- wp (amdgpu_utility_lines _) _ _ _ =>
          eapply wp_mono;
          [ apply amdgpu_utility_lines_reading
          | intros [?|] ? ?
          | intros ? ? [? [?|?]] ]
      end
    | wp_reader ]).
  all: try solve [reading_leaf].
  all: try match goal with
    | H : Some _ = Some _ |- _ => injection H as <-
    end.
  all: try match goal with
    | H : gpu_reading _ _ _ _ |- _ =>
        destruct H as (? & ? & ? & ? & [?|[(? & ? & ?)|?]])
    end.
  all: reading_leaf.
Qed.

Lemma linux_gpu_reading s :
  is_windows w = false ->
  wp (get_gpu_temperature w) s (gpu_reading w s) no_exn.
Proof.
  intros Hw. unfold get_gpu_temperature. rewrite Hw.
  wp_reader; reading_leaf.
Qed.

(** The same for [get_gpu_temperature] and [last_gpu_temp]. *)
Lemma get_gpu_temperature_reading s :
  wp (get_gpu_temperature w) s (gpu_reading w s) no_exn.
Proof.
  destruct (is_windows w) eqn:Hw.
  - unfold get_gpu_temperature. rewrite Hw. apply windows_gpu_reading, Hw.
  - apply linux_gpu_reading, Hw.
Qed.

End Readers.

(** ** [check_temperature] *)

Lemma probes_app tr ev :
  probes (tr ++ [ev]) = probes tr ++ (if is_probe ev then [ev] else []).
Proof. unfold probes. rewrite List.filter_app. reflexivity. Qed.

Section CheckTemperature.

Context {rt : PyRuntime} (w : World).

(** Inside the window: the stored pair, its status, nothing probed, no
    attribute changed. *)
Lemma check_temperature_cached s :
  Qltb (clock w (tick s) - last_check_time (mon s)) (check_interval (mon s))
  = true ->
  exists s',
    check_temperature w s
    = (Ok {| cpu_temp := last_cpu_temp (mon s);
             gpu_temp := last_gpu_temp (mon s);
             status := status_of (last_cpu_temp (mon s)) (last_gpu_temp (mon s));
             cached := true |}, s')
    /\ mon s' = mon s
    /\ probes (trace s') = probes (trace s).
Proof.
  intros Hc. unfold check_temperature, bind, ask, get_mon. cbn [mon tick trace].
  rewrite Hc. cbv beta iota. rewrite get_status_run. unfold ret.
  eexists. split; [reflexivity|].
  destruct (status_of _ _); cbn [mon trace logged];
    (split; [reflexivity|]);
    repeat rewrite probes_app; cbn [is_probe]; repeat rewrite app_nil_r;
    reflexivity.
Qed.

(** Outside the window: both readers run, the status is computed from what
    they return, and the attributes are updated. *)
Lemma check_temperature_fresh s :
  Qltb (clock w (tick s) - last_check_time (mon s)) (check_interval (mon s))
  = false ->
  exists cpu gpu s1 s2 s',
    get_cpu_temperature w (probing_state w s) = (Ok cpu, s1)
    /\ get_gpu_temperature w s1 = (Ok gpu, s2)
    /\ check_temperature w s
       = (Ok {| cpu_temp := cpu; gpu_temp := gpu;
                status := status_of cpu gpu; cached := false |}, s')
    /\ last_check_time (mon s') = clock w (tick s)
    /\ check_interval (mon s') = interval_for (status_of cpu gpu)
    /\ last_cpu_temp (mon s') = cpu
    /\ last_gpu_temp (mon s') = gpu.
Proof.
  intros Hc.
  destruct (proj1 (wp_returns _ _ _) (get_cpu_temperature_reading w (probing_state w s)))
    as (cpu & s1 & Hcpu & Rc).
  destruct (proj1 (wp_returns _ _ _) (get_gpu_temperature_reading w s1))
    as (gpu & s2 & Hgpu & Rg).
  exists cpu, gpu, s1, s2.
  unfold cpu_reading, gpu_reading in *.
  destruct Rc as (Rc1 & Rc2 & Rc3 & Rc4 & _).
  destruct Rg as (Rg1 & Rg2 & Rg3 & Rg4 & _).
  unfold check_temperature, bind, ask, get_mon, modify. cbn [mon tick trace].
  rewrite Hc. cbv beta iota. unfold modify. cbn [mon tick trace].
  fold (probing_state w s). rewrite Hcpu, Hgpu, get_status_run.
  destruct (status_of cpu gpu); cbn; unfold ret; eexists;
    (split; [reflexivity|]); (split; [reflexivity|]);
    (split; [reflexivity|]); cbn; repeat split; try congruence.
  all: rewrite Rg1, Rc1; reflexivity.
Qed.

End CheckTemperature.

(** C4. A call of [check_temperature] made less than [check_interval] after
    a call that went through returns the readings and the status of that
    call with [cached = true], probes nothing and changes no attribute;
    a call outside the window runs both readers, computes the status of
    what they return, and sets the interval for the next check to 1 s for
    [Critical], 2 s for [Warning] and 5 s for [Normal] and [Error]. *)
Theorem check_temperature_throttle {rt : PyRuntime} (w : World) (s : St) :
  (forall r1 s1,
     check_temperature w s = (Ok r1, s1) -> cached r1 = false ->
     forall s2,
       mon s2 = mon s1 ->
       (clock w (tick s2) - last_check_time (mon s1) < check_interval (mon s1))%Q ->
       exists r2 s3,
         check_temperature w s2 = (Ok r2, s3)
         /\ cached r2 = true
         /\ cpu_temp r2 = cpu_temp r1
         /\ gpu_temp r2 = gpu_temp r1
         /\ status r2 = status r1
         /\ mon s3 = mon s2
         /\ probes (trace s3) = probes (trace s2))
  /\ (~ (clock w (tick s) - last_check_time (mon s) < check_interval (mon s))%Q ->
      exists r s1 s2 s',
        get_cpu_temperature w (probing_state w s) = (Ok (cpu_temp r), s1)
        /\ get_gpu_temperature w s1 = (Ok (gpu_temp r), s2)
        /\ check_temperature w s = (Ok r, s')
        /\ cached r = false
        /\ (forall s0, returns (_get_status (cpu_temp r) (gpu_temp r)) s0 (status r))
        /\ last_check_time (mon s') = clock w (tick s)
        /\ check_interval (mon s')
           = match status r with
             | Critical => 1%Q
             | Warning => 2%Q
             | Normal | Error => 5%Q
             end).
Proof.
  split.
  - intros r1 s1 H1 Hc1 s2 Hm Hwin.
    destruct (Qltb (clock w (tick s) - last_check_time (mon s))
                   (check_interval (mon s))) eqn:Hc.
    + destruct (check_temperature_cached w s Hc) as (s' & Heq & _).
      rewrite Heq in H1. injection H1 as <- <-. discriminate.
    + destruct (check_temperature_fresh w s Hc)
        as (cpu & gpu & sa & sb & s' & _ & _ & Heq & _ & _ & Hcpu & Hgpu).
      rewrite Heq in H1. injection H1 as <- <-.
      assert (Hc2 : Qltb (clock w (tick s2) - last_check_time (mon s2))
                         (check_interval (mon s2)) = true).
      { apply Qltb_true. rewrite Hm. exact Hwin. }
      destruct (check_temperature_cached w s2 Hc2) as (s3 & Heq2 & Hm3 & Hp3).
      eexists; exists s3. split; [exact Heq2|].
      cbn [cached cpu_temp gpu_temp status]. rewrite Hm, Hcpu, Hgpu.
      repeat split; congruence.
  - intros Hout.
    assert (Hc : Qltb (clock w (tick s) - last_check_time (mon s))
                      (check_interval (mon s)) = false).
    { apply not_true_iff_false. rewrite Qltb_true. exact Hout. }
    destruct (check_temperature_fresh w s Hc)
      as (cpu & gpu & s1 & s2 & s' & H1 & H2 & Heq & Ht & Hi & _).
    exists {| cpu_temp := cpu; gpu_temp := gpu;
              status := status_of cpu gpu; cached := false |}, s1, s2, s'.
    cbn [cached cpu_temp gpu_temp status].
    split; [exact H1|]. split; [exact H2|]. split; [exact Heq|].
    split; [reflexivity|]. split.
    { intros s0. eexists. apply get_status_run. }
    split; [exact Ht|]. rewrite Hi. destruct (status_of cpu gpu); reflexivity.
Qed.

Lemma check_temperature_throttle_witness :
  exists r2 s3,
    @check_temperature rt_no_float (dead_world false)
      (snd (@check_temperature rt_no_float (dead_world false) fresh_state))
    = (Ok r2, s3)
    /\ cached r2 = true
    /\ cpu_temp r2 = 0%Q
    /\ gpu_temp r2 = 0%Q
    /\ status r2 = Error.
Proof.
  destruct (@check_temperature_throttle rt_no_float (dead_world false) fresh_state)
    as [H _].
  destruct (H {| cpu_temp := 0; gpu_temp := 0; status := Error; cached := false |}
              (snd (@check_temperature rt_no_float (dead_world false) fresh_state)))
    with (s2 := snd (@check_temperature rt_no_float (dead_world false) fresh_state))
    as (r2 & s3 & Heq & Hc & Hcpu & Hgpu & Hst & _).
  - vm_compute. reflexivity.
  - reflexivity.
  - reflexivity.
  - vm_compute. reflexivity.
  - exists r2, s3. auto.
Defined.

(** [check_temperature] always returns, with the status of the pair it
    returns. *)
Lemma check_temperature_returns {rt : PyRuntime} (w : World) (s : St) :
  exists r s',
    check_temperature w s = (Ok r, s')
    /\ status r = status_of (cpu_temp r) (gpu_temp r).
Proof.
  destruct (Qltb (clock w (tick s) - last_check_time (mon s))
                 (check_interval (mon s))) eqn:Hc.
  - destruct (check_temperature_cached w s Hc) as (s' & Heq & _).
    eexists; exists s'. split; [exact Heq | reflexivity].
  - destruct (check_temperature_fresh w s Hc)
      as (cpu & gpu & s1 & s2 & s' & _ & _ & Heq & _).
    eexists; exists s'. split; [exact Heq | reflexivity].
Qed.

(** C10. Every dictionary [check_temperature] returns, cached or not,
    carries the status [_get_status] gives for the two temperatures of that
    same dictionary. *)
Theorem check_temperature_status_consistent {rt : PyRuntime} (w : World) (s : St) :
  exists r s',
    check_temperature w s = (Ok r, s')
    /\ forall s0, returns (_get_status (cpu_temp r) (gpu_temp r)) s0 (status r).
Proof.
  destruct (check_temperature_returns w s) as (r & s' & Heq & Hst).
  exists r, s'. split; [exact Heq|].
  intros s0. eexists. rewrite Hst. apply get_status_run.
Qed.

(** ** [should_pause_processing] and [calculate_adaptive_delay] *)

Lemma u8_app_nonempty (a b c d e : str) :
  a <> [] -> a ++ b ++ c ++ d ++ e <> [].
Proof. destruct a; [congruence | discriminate]. Qed.

(** C5. [should_pause_processing] answers [true] exactly when the status
    [check_temperature] reports is [Critical]. When it is [Error], which is
    when one of the two readings is not positive, the answer is [false]
    with a reason that is not empty, and the fault is logged; when it is
    [Normal] or [Warning] the answer is [false] with the empty reason. *)
Theorem should_pause_only_when_critical {rt : PyRuntime} (w : World) (s : St) :
  exists info s1 pause reason s2,
    check_temperature w s = (Ok info, s1)
    /\ should_pause_processing w s = (Ok (pause, reason), s2)
    /\ (pause = true <-> status info = Critical)
    /\ (status info = Error <->
        (cpu_temp info <= 0 \/ gpu_temp info <= 0)%Q)
    /\ (status info = Error ->
        pause = false /\ reason <> [] /\ s2 = logged EvLogError s1)
    /\ (status info = Normal \/ status info = Warning ->
        pause = false /\ reason = [] /\ s2 = s1).
Proof.
  destruct (check_temperature_returns w s) as (info & s1 & Heq & Hs).
  exists info, s1.
  unfold should_pause_processing, bind. rewrite Heq. cbv beta iota.
  destruct (status info) eqn:E; cbv beta iota zeta;
    unfold bind, ret, log_error, emit; cbv beta iota;
    do 3 eexists; (split; [reflexivity|]); (split; [reflexivity|]).
  all: rewrite <- status_error_iff, <- Hs.
  all: repeat split; try congruence;
    try match goal with H : _ \/ _ |- _ => destruct H; congruence end.
  apply u8_app_nonempty. vm_compute. discriminate.
Qed.

Lemma should_pause_only_when_critical_witness :
  exists reason s2,
    @should_pause_processing rt_no_float (dead_world false) fresh_state
    = (Ok (false, reason), s2)
    /\ reason <> [].
Proof.
  destruct (@should_pause_only_when_critical rt_no_float (dead_world false)
              fresh_state)
    as (info & s1 & pause & reason & s2 & H1 & H2 & _ & _ & He & _).
  assert (Hst : status info = Error).
  { vm_compute in H1. injection H1 as <- _. reflexivity. }
  destruct (He Hst) as (-> & Hr & _).
  exists reason, s2. split; assumption.
Defined.

(** C2, as stated, fails: with 100 degrees on the CPU and 50 on the GPU the
    status is [Critical], not [Error], the factor of the CPU is 9, and the
    delay is 4.5 s, not the 2.5 s of a multiplier clamped to 5. Every value
    on the way (30, 120, 8, 9, 4.5) is a binary float, so rounding plays no
    part in it. *)
Lemma adaptive_delay_exceeds_clamp :
  exists d s',
    @calculate_adaptive_delay rt_no_float still_world hot_state = (Ok d, s')
    /\ (d == 9 # 2)%Q
    /\ (spec_clamped_delay 100 50 == 5 # 2)%Q
    /\ ~ (d == spec_clamped_delay 100 50)%Q.
Proof.
  eexists. eexists. split; [vm_compute; reflexivity|].
  split; [reflexivity|]. split; [reflexivity|].
  vm_compute. discriminate.
Qed.

Lemma py_max_Qmax a b : (py_max a b == Qmax a b)%Q.
Proof.
  unfold py_max. destruct (Qgtb b a) eqn:E; cmp_facts.
  - symmetry. apply Q.max_r. lra.
  - symmetry. apply Q.max_l. exact E.
Qed.

Lemma code_factor_spec reading warning critical :
  (if Qgtb reading warning
   then (1 + 4 * (reading - warning) / (critical - warning))%Q
   else 1%Q)
  = spec_factor reading warning critical.
Proof.
  unfold spec_factor.
  destruct (Qgtb reading warning) eqn:E, (Qlt_le_dec warning reading);
    cmp_facts; try reflexivity; exfalso; lra.
Qed.

Lemma cpu_factor_bounds cpu :
  let f := spec_factor cpu CPU_TEMP_WARNING CPU_TEMP_CRITICAL in
  (1 <= f)%Q
  /\ ((cpu <= CPU_TEMP_CRITICAL)%Q -> (f <= 5)%Q)
  /\ ((CPU_TEMP_CRITICAL < cpu)%Q -> (5 < f)%Q).
Proof.
  unfold spec_factor, CPU_TEMP_WARNING, CPU_TEMP_CRITICAL.
  destruct (Qlt_le_dec 70 cpu) as [H|H]; cbv zeta.
  - assert (E : (1 + 4 * (cpu - 70) / (85 - 70) == 1 + (4 # 15) * (cpu - 70))%Q)
      by field.
    rewrite E. repeat split; intros; lra.
  - repeat split; intros; lra.
Qed.

Lemma gpu_factor_bounds gpu :
  let f := spec_factor gpu GPU_TEMP_WARNING GPU_TEMP_CRITICAL in
  (1 <= f)%Q
  /\ ((gpu <= GPU_TEMP_CRITICAL)%Q -> (f <= 5)%Q)
  /\ ((GPU_TEMP_CRITICAL < gpu)%Q -> (5 < f)%Q).
Proof.
  unfold spec_factor, GPU_TEMP_WARNING, GPU_TEMP_CRITICAL.
  destruct (Qlt_le_dec 75 gpu) as [H|H]; cbv zeta.
  - assert (E : (1 + 4 * (gpu - 75) / (90 - 75) == 1 + (4 # 15) * (gpu - 75))%Q)
      by field.
    rewrite E. repeat split; intros; lra.
  - repeat split; intros; lra.
Qed.

(** ** The delay in the arithmetic of the doubles *)

Section DelayRounding.

Local Open Scope Q_scope.

(** One rounding of a number that is not negative, with the constants
    written out: a relative error of [2^-53] and an absolute one far below
    anything that matters here. *)
Lemma round64_bounds x :
  0 <= x ->
  0 <= round64 x
  /\ x - x * (1 # 9007199254740992) - (1 # 1267650600228229401496703205376)
     <= round64 x
  /\ round64 x
     <= x + x * (1 # 9007199254740992) + (1 # 1267650600228229401496703205376).
Proof.
  intros Hx. split; [apply round64_nonneg, Hx|].
  pose proof (round64_near x) as H.
  rewrite (Qabs_pos x Hx) in H.
  assert (E53 : pow2 (-53) == 1 # 9007199254740992) by reflexivity.
  assert (E75 : pow2 (-1075) <= 1 # 1267650600228229401496703205376).
  { change (1 # 1267650600228229401496703205376) with (pow2 (-100)).
    apply pow2_le. lia. }
  rewrite E53 in H. apply Qabs_Qle_condition in H. destruct H as [H1 H2].
  split; lra.
Qed.

(** The factor of one metric as the code computes it, for thresholds 15
    degrees apart: within [3 * 2^-52] of the exact one. *)
Lemma factor_binary64 reading warning critical :
  fsub critical warning == 15 ->
  warning < reading ->
  let exact := 1 + (4 # 15) * (reading - warning) in
  let f := fadd 1 (fdiv (fmul 4 (fsub reading warning))
                        (fsub critical warning)) in
  exact - exact * (3 # 4503599627370496) <= f
  /\ f <= exact + exact * (3 # 4503599627370496).
Proof.
  intros H15 Hr. cbv zeta. unfold fadd, fdiv, fmul.
  set (x := reading - warning).
  assert (Hx : 0 <= x) by (unfold x; lra).
  change (fsub reading warning) with (round64 x).
  destruct (round64_bounds x Hx) as (A0 & A1 & A2).
  set (a := round64 x) in *.
  assert (Ha : 0 <= 4 * a) by lra.
  destruct (round64_bounds (4 * a) Ha) as (B0 & B1 & B2).
  set (b := round64 (4 * a)) in *.
  assert (Eq : b / fsub critical warning == (1 # 15) * b).
  { rewrite H15. field. }
  rewrite (round64_comp _ _ Eq).
  assert (Hb : 0 <= (1 # 15) * b) by lra.
  destruct (round64_bounds ((1 # 15) * b) Hb) as (C0 & C1 & C2).
  set (c := round64 ((1 # 15) * b)) in *.
  assert (Hc : 0 <= 1 + c) by lra.
  destruct (round64_bounds (1 + c) Hc) as (D0 & D1 & D2).
  set (f := round64 (1 + c)) in *.
  clearbody a b c f x. split; lra.
Qed.

Lemma threshold_gap_cpu : fsub CPU_TEMP_CRITICAL CPU_TEMP_WARNING == 15.
Proof. vm_compute. reflexivity. Qed.

Lemma threshold_gap_gpu : fsub GPU_TEMP_CRITICAL GPU_TEMP_WARNING == 15.
Proof. vm_compute. reflexivity. Qed.

Lemma spec_factor_linear reading warning :
  spec_factor reading warning (warning + 15)
  == if Qlt_le_dec warning reading
     then 1 + (4 # 15) * (reading - warning) else 1.
Proof.
  unfold spec_factor. destruct (Qlt_le_dec warning reading); [|reflexivity].
  field. lra.
Qed.

(** The factor of one metric in the code with rounding, next to the factor
    of the specification. *)
Lemma code_factor_binary64 reading warning critical :
  critical = warning + 15 ->
  fsub critical warning == 15 ->
  let exact := spec_factor reading warning critical in
  let f := if Qgtb reading warning
           then fadd 1 (fdiv (fmul 4 (fsub reading warning))
                             (fsub critical warning))
           else 1 in
  1 <= exact
  /\ exact - exact * (3 # 4503599627370496) <= f
  /\ f <= exact + exact * (3 # 4503599627370496)
  /\ (reading <= warning -> f = 1).
Proof.
  intros -> H15. cbv zeta. rewrite spec_factor_linear.
  destruct (Qgtb reading warning) eqn:E; cmp_facts;
    destruct (Qlt_le_dec warning reading) as [L|L]; try (exfalso; lra).
  - destruct (factor_binary64 reading warning _ H15 E) as [F1 F2].
    cbv zeta in F1, F2.
    split; [lra|]. split; [exact F1|]. split; [exact F2|].
    intros. exfalso. lra.
  - split; [lra|]. split; [lra|]. split; [lra|]. reflexivity.
Qed.

(** The delay of [calculate_adaptive_delay_binary64], next to the product
    of the specification. *)
Lemma delay_binary64 fc fg ec eg :
  1 <= ec -> 1 <= eg ->
  ec - ec * (3 # 4503599627370496) <= fc ->
  fc <= ec + ec * (3 # 4503599627370496) ->
  eg - eg * (3 # 4503599627370496) <= fg ->
  fg <= eg + eg * (3 # 4503599627370496) ->
  Qabs (fmul (1 # 2) (py_max fc fg) - (1 # 2) * Qmax ec eg)
  <= (1 # 2) * Qmax ec eg * pow2 (-50).
Proof.
  intros E1 E2 C1 C2 G1 G2.
  change (pow2 (-50)) with (1 # 1125899906842624).
  set (m := py_max fc fg).
  assert (Hm : Qmax ec eg - Qmax ec eg * (3 # 4503599627370496) <= m
               /\ m <= Qmax ec eg + Qmax ec eg * (3 # 4503599627370496)).
  { unfold m, py_max.
    destruct (Qgtb fg fc) eqn:E; cmp_facts;
      destruct (Q.max_spec ec eg) as [[L ->]|[L ->]]; split; lra. }
  assert (HM : 1 <= Qmax ec eg) by (apply Q.max_le_iff; left; exact E1).
  destruct Hm as [M1 M2].
  assert (Hpos : 0 <= (1 # 2) * m) by lra.
  destruct (round64_bounds _ Hpos) as (D0 & D1 & D2).
  unfold fmul. set (d := round64 ((1 # 2) * m)) in *.
  set (M := Qmax ec eg) in *. clearbody d m M.
  apply Qabs_Qle_condition. split; lra.
Qed.

End DelayRounding.

(** C2, amended, in the arithmetic of the doubles. When the status is
    [Error] the delay is twice the base, exactly 1 s. Otherwise, for
    readings of at most 2^1000 degrees (beyond them the operations of
    Python overflow), the delay is the base of 0.5 s times the larger of
    the two factors, a factor being 1 up to the warning threshold and
    [1 + 4 * (reading - warning) / (critical - warning)] above it, up to
    the rounding of the five operations: a relative error of at most
    [2^-50]. With both readings at or below their warning thresholds it is
    exactly 0.5 s. The multiplier is never below 1; it stays within 5 as
    long as no reading is above its critical threshold and exceeds 5 as
    soon as one is: there is no clamp. *)
Theorem adaptive_delay_formula {rt : PyRuntime} (w : World) (s : St) :
  exists info s1 d s2,
    check_temperature w s = (Ok info, s1)
    /\ calculate_adaptive_delay_binary64 w s = (Ok d, s2)
    /\ (status info = Error -> (d == 1)%Q)
    /\ (status info <> Error ->
        (cpu_temp info <= pow2 1000)%Q -> (gpu_temp info <= pow2 1000)%Q ->
        let m := spec_multiplier (cpu_temp info) (gpu_temp info) in
        (Qabs (d - (1 # 2) * m) <= (1 # 2) * m * pow2 (-50))%Q
        /\ ((cpu_temp info <= CPU_TEMP_WARNING)%Q ->
            (gpu_temp info <= GPU_TEMP_WARNING)%Q -> (d == 1 # 2)%Q)
        /\ (1 <= m)%Q
        /\ ((cpu_temp info <= CPU_TEMP_CRITICAL)%Q ->
            (gpu_temp info <= GPU_TEMP_CRITICAL)%Q -> (m <= 5)%Q)
        /\ ((CPU_TEMP_CRITICAL < cpu_temp info
             \/ GPU_TEMP_CRITICAL < gpu_temp info)%Q -> (5 < m)%Q)).
Proof.
  destruct (check_temperature_returns w s) as (info & s1 & Heq & _).
  exists info, s1.
  unfold calculate_adaptive_delay_binary64, bind. rewrite Heq.
  cbv beta iota zeta.
  destruct (code_factor_binary64 (cpu_temp info) CPU_TEMP_WARNING
              CPU_TEMP_CRITICAL eq_refl threshold_gap_cpu)
    as (Ec & C1 & C2 & C3).
  destruct (code_factor_binary64 (gpu_temp info) GPU_TEMP_WARNING
              GPU_TEMP_CRITICAL eq_refl threshold_gap_gpu)
    as (Eg & G1 & G2 & G3).
  cbv zeta in *.
  destruct (cpu_factor_bounds (cpu_temp info)) as (_ & B2 & B3).
  destruct (gpu_factor_bounds (gpu_temp info)) as (_ & B5 & B6).
  cbv zeta in *.
  set (fc := if Qgtb (cpu_temp info) CPU_TEMP_WARNING then _ else _) in *.
  set (fg := if Qgtb (gpu_temp info) GPU_TEMP_WARNING then _ else _) in *.
  assert (Hd : forall d,
             d = fmul (1 # 2) (py_max fc fg) ->
             let m := spec_multiplier (cpu_temp info) (gpu_temp info) in
             (Qabs (d - (1 # 2) * m) <= (1 # 2) * m * pow2 (-50))%Q
             /\ ((cpu_temp info <= CPU_TEMP_WARNING)%Q ->
                 (gpu_temp info <= GPU_TEMP_WARNING)%Q -> (d == 1 # 2)%Q)
             /\ (1 <= m)%Q
             /\ ((cpu_temp info <= CPU_TEMP_CRITICAL)%Q ->
                 (gpu_temp info <= GPU_TEMP_CRITICAL)%Q -> (m <= 5)%Q)
             /\ ((CPU_TEMP_CRITICAL < cpu_temp info
                  \/ GPU_TEMP_CRITICAL < gpu_temp info)%Q -> (5 < m)%Q)).
  { intros d ->. cbv zeta. unfold spec_multiplier.
    split; [apply delay_binary64; assumption|].
    split.
    { intros Hc Hg. rewrite (C3 Hc), (G3 Hg). vm_compute. reflexivity. }
    split; [apply Q.max_le_iff; left; exact Ec|].
    split; [intros; apply Q.max_lub; auto|].
    intros [H|H]; apply Q.max_lt_iff; [left|right]; auto. }
  destruct (status info) eqn:E; cbn [Status_eqb]; cbv beta iota;
    unfold bind, ret, log_action, emit; cbv beta iota;
    do 2 eexists; (split; [reflexivity|]); (split; [reflexivity|]).
  all: split; [intros; try congruence; vm_compute; reflexivity|].
  all: intros Hne; try congruence.
  all: intros _ _; apply Hd; reflexivity.
Qed.

Lemma adaptive_delay_formula_witness :
  exists d s2,
    @calculate_adaptive_delay_binary64 rt_no_float still_world warm_state
    = (Ok d, s2)
    /\ (d == 863189928579345 # 1125899906842624)%Q
    /\ ((1 # 2) * spec_multiplier 72 50 == 23 # 30)%Q
    /\ ~ (d == 23 # 30)%Q
    /\ (Qabs (d - (1 # 2) * spec_multiplier 72 50)
        <= (1 # 2) * spec_multiplier 72 50 * pow2 (-50))%Q.
Proof.
  destruct (@adaptive_delay_formula rt_no_float still_world warm_state)
    as (info & s1 & d & s2 & H1 & H2 & _ & H).
  assert (Hi : info = {| cpu_temp := 72; gpu_temp := 50; status := Warning;
                         cached := true |}).
  { vm_compute in H1. congruence. }
  subst info. cbn [status cpu_temp gpu_temp] in H.
  destruct H as (Hd & _); [discriminate | vm_compute; discriminate
                          | vm_compute; discriminate |].
  exists d, s2. split; [exact H2|].
  assert (Ev : d = (863189928579345 # 1125899906842624)%Q).
  { vm_compute in H2. congruence. }
  split; [rewrite Ev; reflexivity|].
  split; [vm_compute; reflexivity|].
  split; [rewrite Ev; vm_compute; discriminate|].
  exact Hd.
Defined.

(** ** The command channel: recovery and decoding *)

Section Channel.

Context {rt : PyRuntime} (w : World).

Lemma connect_total s : exists c s', connect w s = (Ok c, s').
Proof.
  destruct (proj1 (wp_returns _ _ _) (connect_frame w s)) as (c & s' & H & _).
  eauto.
Qed.

Lemma transport_check_total s :
  exists alive s',
    try_except (get_transport_active w) any_exception (fun _ => ret false) s
    = (Ok alive, s').
Proof.
  unfold try_except, get_transport_active, bind, get_mon, ask, or_raise.
  destruct (client (mon s)); cbn; [|eauto].
  destruct (transport_active w (tick s)); cbn; eauto.
Qed.

(** [_execute_command] and [_execute_local_command] never raise. *)
Lemma execute_command_total command s :
  exists r s', _execute_command w command s = (Ok r, s').
Proof.
  destruct (proj1 (wp_returns _ _ _) (execute_command_frame w command s))
    as (r & s' & H & _).
  eauto.
Qed.

Lemma execute_local_command_total command s :
  exists r s', _execute_local_command w command s = (Ok r, s').
Proof.
  destruct (proj1 (wp_returns _ _ _) (execute_local_command_frame w command s))
    as (r & s' & H & _).
  eauto.
Qed.

Lemma execute_attempt_raised command s e s1 :
  exec_command w command s = (Raised e, s1) ->
  execute_attempt w command s = recover_from w command e s1.
Proof.
  intros H. unfold execute_attempt, try_except, bind at 1. rewrite H.
  reflexivity.
Qed.

Ltac trace_leaf :=
  eexists; split;
  [ repeat rewrite <- app_assoc; reflexivity
  | cbn [app after_first_exec count List.filter is_connect_event
         is_exec_event length]; lia ].

Lemma execute_command_events command s :
  wp (_execute_command w command) s
     (fun _ s' =>
        exists evs,
          trace s' = trace s ++ evs
          /\ (count is_connect_event (after_first_exec evs) <= 1
              /\ count is_exec_event (after_first_exec evs) <= 1
              /\ count is_exec_event (after_first_exec evs)
                 <= count is_connect_event (after_first_exec evs))%nat)
     no_exn.
Proof.
  unfold _execute_command, execute_attempt, recover_from, exec_command,
    get_transport_active, connect.
  wp_run.
  all: try contradiction.
  all: cbn [mon tick trace logged]; trace_leaf.
Qed.

End Channel.

(** [_execute_command] goes on with its [try] statement. *)
Lemma execute_command_enters (w : World) command s s0 :
  reaches_try w s s0 ->
  _execute_command w command s = execute_attempt w command s0.
Proof.
  unfold reaches_try, _execute_command, bind, get_mon.
  destruct (is_connected (mon s)); cbn [negb].
  - intros ->. reflexivity.
  - intros ->. reflexivity.
Qed.

(** C7. Let the [try] statement of [_execute_command] be entered, the
    session being marked open or just opened. When the execution returns,
    its output is the result and nothing else happens. When it raises, the
    transport is asked whether it is alive. If it is, [_execute_command]
    returns the error as it is and nothing else happens. If it is not,
    [is_connected] is cleared and [connect] is called once; if that fails
    [_execute_command] returns the error, and if it succeeds the command is
    executed once more and [_execute_command] returns its output, or its
    exception as an error string. In every call, whatever the world does,
    at most one [connect] and at most one execution follow the first
    execution, and a second execution only follows a reconnect. *)
Theorem execute_command_recovery (w : World) (command : str) (s s0 : St) :
  reaches_try w s s0 ->
  (forall o er s1,
     exec_command w command s0 = (Ok (o, er), s1) ->
     _execute_command w command s
     = (Ok (decode_output o, decode_output er), s1))
  /\ (forall e s1,
        exec_command w command s0 = (Raised e, s1) ->
        exists alive s2,
          try_except (get_transport_active w) any_exception (fun _ => ret false)
            (logged EvLogError s1) = (Ok alive, s2)
          /\ (alive = true ->
              _execute_command w command s
              = (Ok ([], u8 "Ошибка: " ++ exn_msg e), s2))
          /\ (alive = false ->
              exists c s3,
                connect w (disconnected s2) = (Ok c, s3)
                /\ (c = false ->
                    _execute_command w command s
                    = (Ok ([], u8 "Ошибка: " ++ exn_msg e), s3))
                /\ (c = true ->
                    forall out s4,
                      exec_command w command s3 = (out, s4) ->
                      _execute_command w command s
                      = (Ok match out with
                            | Ok (o, er) =>
                                (decode_after_reconnect o,
                                 decode_after_reconnect er)
                            | Raised e2 =>
                                ([], u8 "Ошибка после переподключения: "
                                     ++ exn_msg e2)
                            end, s4))))
  /\ (exists r s' evs,
        _execute_command w command s = (Ok r, s')
        /\ trace s' = trace s ++ evs
        /\ (count is_connect_event (after_first_exec evs) <= 1)%nat
        /\ (count is_exec_event (after_first_exec evs) <= 1)%nat
        /\ (count is_exec_event (after_first_exec evs)
            <= count is_connect_event (after_first_exec evs))%nat).
Proof.
  intros Hentry. rewrite (execute_command_enters w command s s0 Hentry).
  split; [|split].
  - intros o er s1 Hex. unfold execute_attempt, try_except, bind at 1.
    rewrite Hex. reflexivity.
  - intros e s1 Hex.
    destruct (transport_check_total w (logged EvLogError s1))
      as (alive & s2 & Ht).
    exists alive, s2. split; [exact Ht|].
    rewrite (execute_attempt_raised w command s0 e s1 Hex).
    unfold recover_from.
    erewrite bind_ok by reflexivity.
    erewrite bind_ok by exact Ht.
    split.
    + intros ->. reflexivity.
    + intros ->. cbn [negb].
      destruct (connect_total w (disconnected s2)) as (c & s3 & Hc).
      exists c, s3. split; [exact Hc|].
      erewrite bind_ok by reflexivity.
      erewrite bind_ok by exact Hc.
      split; intros ->; [reflexivity|].
      intros out s4 Hex2. unfold try_except, bind. rewrite Hex2.
      destruct out as [[o er]|e2]; reflexivity.
  - rewrite <- (execute_command_enters w command s s0 Hentry).
    destruct (proj1 (wp_returns _ _ _) (execute_command_events w command s))
      as (r & s' & H & evs & Htr & Hb).
    exists r, s', evs. tauto.
Qed.

Lemma execute_command_recovery_witness :
  (exists s',
     _execute_command dropped_world (lit "uptime") connected_state
     = (Ok ([208; 159]%N, []), s')
     /\ count is_connect_event (trace s') = 1%nat
     /\ count is_exec_event (trace s') = 2%nat)
  /\ (exists s',
        _execute_command stalled_world (lit "uptime") connected_state
        = (Ok ([], u8 "Ошибка: " ++ lit "Timeout opening channel."), s')
        /\ count is_connect_event (trace s') = 0%nat
        /\ count is_exec_event (trace s') = 1%nat).
Proof.
  split.
  - destruct (execute_command_recovery dropped_world (lit "uptime")
                connected_state connected_state eq_refl) as (_ & H & _).
    destruct (H (mkExn OtherError (lit "Socket is closed"))
                (snd (exec_command dropped_world (lit "uptime") connected_state)))
      as (alive & s2 & Ht & _ & Hdead); [vm_compute; reflexivity|].
    assert (Ha : alive = false) by (vm_compute in Ht; congruence).
    destruct (Hdead Ha) as (c & s3 & Hc & _ & Hretry).
    assert (Hs2 : s2 = snd (try_except (get_transport_active dropped_world)
                              any_exception (fun _ => ret false)
                              (logged EvLogError
                                 (snd (exec_command dropped_world (lit "uptime")
                                         connected_state)))))
      by (rewrite Ht; reflexivity).
    subst s2.
    assert (Hs3 : s3 = snd (connect dropped_world (disconnected (snd
                       (try_except (get_transport_active dropped_world)
                          any_exception (fun _ => ret false)
                          (logged EvLogError
                             (snd (exec_command dropped_world (lit "uptime")
                                     connected_state))))))))
      by (rewrite Hc; reflexivity).
    assert (Hct : c = true) by (vm_compute in Hc; congruence).
    subst s3.
    specialize (Hretry Hct _ _ (surjective_pairing _)).
    eexists. split.
    + rewrite Hretry. vm_compute. reflexivity.
    + vm_compute. split; reflexivity.
  - destruct (execute_command_recovery stalled_world (lit "uptime")
                connected_state connected_state eq_refl) as (_ & H & _).
    destruct (H (mkExn OtherError (lit "Timeout opening channel."))
                (snd (exec_command stalled_world (lit "uptime") connected_state)))
      as (alive & s2 & Ht & Halive & _); [vm_compute; reflexivity|].
    assert (Ha : alive = true) by (vm_compute in Ht; congruence).
    assert (Hs2 : s2 = snd (try_except (get_transport_active stalled_world)
                              any_exception (fun _ => ret false)
                              (logged EvLogError
                                 (snd (exec_command stalled_world (lit "uptime")
                                         connected_state)))))
      by (rewrite Ht; reflexivity).
    subst s2.
    eexists. split.
    + rewrite (Halive Ha). vm_compute. reflexivity.
    + vm_compute. split; reflexivity.
Defined.

Lemma utf8_nonempty bs t : Codec.utf8 bs = Some t -> bs <> [] -> t <> [].
Proof.
  destruct bs as [|b0 r0]; [congruence|]. intros H _. cbn [Codec.utf8] in H.
  repeat match type of H with
  | (if ?b then _ else _) = _ => destruct b
  | match ?l with [] => _ | _ :: _ => _ end = _ => destruct l
  | option_map _ ?o = _ => destruct o; cbn [option_map] in H
  | None = Some _ => discriminate H
  | Some _ = Some _ => injection H as <-; discriminate
  end.
Qed.

Lemma cp1251_nonempty bs t : Codec.cp1251 bs = Some t -> bs <> [] -> t <> [].
Proof.
  destruct bs as [|b r]; [congruence|]. intros H _. cbn [Codec.cp1251] in H.
  destruct (cp1251_char b); [|discriminate].
  destruct (Codec.cp1251 r); cbn [option_map] in H; [|discriminate].
  injection H as <-. discriminate.
Qed.

(** On the first attempt, and for a local command, the output is decoded
    by the first of utf-8, cp1251 and latin1 that accepts it; latin1
    accepts everything, so ascii and the lossy fallback are never reached. *)
Lemma decode_output_chain (data : bytes) :
  decode_output data =
  match data with
  | [] => []
  | _ =>
      match decode Utf8 data with
      | Some t => t
      | None =>
          match decode Cp1251 data with
          | Some t => t
          | None => decode_latin1_replace data
          end
      end
  end.
Proof.
  unfold decode_output, ENCODINGS, decode_loop.
  destruct data as [|b data]; [reflexivity|].
  cbn [truthy].
  destruct (decode Utf8 (b :: data)) as [t|] eqn:E1.
  { assert (t <> []) by (apply (utf8_nonempty _ _ E1); discriminate).
    destruct t; [congruence | reflexivity]. }
  destruct (decode Cp1251 (b :: data)) as [t|] eqn:E2.
  { assert (t <> []) by (apply (cp1251_nonempty _ _ E2); discriminate).
    destruct t; [congruence | reflexivity]. }
  reflexivity.
Qed.

(** C8 at the failing input. The command prints the bytes D0 9F. When the
    first execution succeeds they are decoded as UTF-8, to U+041F; when they
    come from the execution that follows a reconnect they are decoded as
    latin1, to U+00D0 U+009F, and utf-8 is never tried. Neither call
    raises. *)
Theorem retry_output_decoded_as_latin1 :
  decode_output [xd0; x9f]%byte = [1055%N]
  /\ (exists s',
        _execute_command steady_world (lit "uptime") connected_state
        = (Ok ([1055%N], []), s'))
  /\ (exists s',
        _execute_command dropped_world (lit "uptime") connected_state
        = (Ok ([208%N; 159%N], []), s')).
Proof.
  split; [vm_compute; reflexivity|].
  split; eexists; vm_compute; reflexivity.
Qed.

(** ** The selector *)

Lemma str_eqb_eq a b : str_eqb a b = true <-> a = b.
Proof.
  revert b. induction a as [|x a IH]; intros [|y b]; cbn [str_eqb];
    try (split; [discriminate | congruence]); [tauto|].
  rewrite andb_true_iff, N.eqb_eq, IH. split; [intros [-> ->]; reflexivity|].
  intros H. injection H as -> ->. auto.
Qed.

Lemma http_requests_app tr1 tr2 :
  http_requests (tr1 ++ tr2) = http_requests tr1 ++ http_requests tr2.
Proof.
  induction tr1 as [|ev tr1 IH]; [reflexivity|].
  destruct ev; cbn; rewrite IH; reflexivity.
Qed.

Section SelectorFacts.

Context {rt : PyRuntime} (cfg : Settings) (http : nat -> str -> Z + Exn).

Lemma known_api_default_models api_type :
  known_api api_type = true ->
  exists models, default_models cfg !! api_type = Some models.
Proof.
  unfold known_api. rewrite !orb_true_iff, !str_eqb_eq.
  intros [[-> | ->] | ->]; eexists; vm_compute; reflexivity.
Qed.

Lemma known_api_base_url api_type :
  known_api api_type = true ->
  exists url, api_base_urls cfg !! api_type = Some url.
Proof.
  unfold known_api. rewrite !orb_true_iff, !str_eqb_eq.
  intros [[-> | ->] | ->]; eexists; vm_compute; reflexivity.
Qed.

(** A cached answer is returned as it is. *)
Lemma check_api_availability_cached api_type b s :
  api_availability_cache s !! api_type = Some b ->
  check_api_availability cfg http api_type s = (Ok b, s).
Proof.
  intros H. unfold check_api_availability, bind, get_cache. rewrite H.
  reflexivity.
Qed.

(** A backend that is not cached is probed with at most one request, none
    if it is not one of the three, and the answer is cached. *)
Lemma check_api_availability_probe api_type s :
  api_availability_cache s !! api_type = None ->
  exists b s',
    check_api_availability cfg http api_type s = (Ok b, s')
    /\ api_availability_cache s' = <[api_type := b]> (api_availability_cache s)
    /\ http_requests (sel_trace s')
       = http_requests (sel_trace s)
         ++ (if known_api api_type then [api_type] else [])
    /\ (b = true -> known_api api_type = true).
Proof.
  intros H. unfold check_api_availability. erewrite bind_ok by reflexivity.
  rewrite H. unfold known_api.
  destruct (known_api_base_url API_TYPE_OLLAMA eq_refl) as [u1 Hu1].
  destruct (known_api_base_url API_TYPE_LLAMACPP eq_refl) as [u2 Hu2].
  destruct (known_api_base_url API_TYPE_YANDEXGPT eq_refl) as [u3 Hu3].
  unfold getitem.
  destruct (str_eqb api_type API_TYPE_OLLAMA) eqn:E1;
    [apply str_eqb_eq in E1; subst api_type; rewrite Hu1|].
  2: destruct (str_eqb api_type API_TYPE_LLAMACPP) eqn:E2;
    [apply str_eqb_eq in E2; subst api_type; rewrite Hu2|].
  3: destruct (str_eqb api_type API_TYPE_YANDEXGPT) eqn:E3;
    [apply str_eqb_eq in E3; subst api_type; rewrite Hu3|].
  all: unfold bind, try_except, sel_emit, request_ok, bind, or_raise, ret,
         raise, set_cache;
       cbn [api_availability_cache requests sel_trace fst snd orb];
       try match goal with
           | |- context [http ?n ?a] => destruct (http n a) as [code|e]
           end;
       cbn [api_availability_cache requests sel_trace fst snd any_exception];
       try match goal with
           | |- context [(?code =? 200)%Z] => destruct (code =? 200)%Z
           end;
       cbn [api_availability_cache requests sel_trace fst snd any_exception];
       do 2 eexists; (split; [reflexivity|]);
       cbn [api_availability_cache requests sel_trace];
       rewrite ?insert_insert_eq, !http_requests_app; cbn [http_requests];
       rewrite ?app_nil_r;
       repeat split; try reflexivity; try congruence.
Qed.

End SelectorFacts.

Lemma in_list_In x l : in_list x l = true <-> In x l.
Proof.
  unfold in_list. rewrite existsb_exists. split.
  - intros (y & Hy & E). apply str_eqb_eq in E. congruence.
  - intros H. exists x. split; [exact H | apply str_eqb_eq; reflexivity].
Qed.

Lemma filter_remove p l :
  List.filter (fun api => negb (str_eqb api p)) l = List.remove str_eq_dec p l.
Proof.
  induction l as [|x l IH]; [reflexivity|]. cbn [List.filter List.remove].
  destruct (str_eq_dec p x) as [->|Hne].
  - replace (str_eqb x x) with true by (symmetry; apply str_eqb_eq; reflexivity).
    exact IH.
  - destruct (str_eqb x p) eqn:E.
    + apply str_eqb_eq in E. congruence.
    + cbn [negb]. rewrite IH. reflexivity.
Qed.

Section Selection.

Context {rt : PyRuntime} (cfg : Settings) (http : nat -> str -> Z + Exn).

Lemma cache_ok_empty : cache_ok ∅.
Proof. intros a H. rewrite lookup_empty in H. discriminate. Qed.

Lemma cache_ok_insert cache a b :
  cache_ok cache -> (b = true -> known_api a = true) ->
  cache_ok (<[a := b]> cache).
Proof.
  intros Hok Hb x Hx. destruct (decide (a = x)) as [->|Hne].
  - rewrite lookup_insert_eq in Hx. apply Hb. congruence.
  - rewrite lookup_insert_ne in Hx by exact Hne. apply Hok, Hx.
Qed.

(** The tail of the loop body when [api_type] is available. *)
Lemma select_available content_type preferred_model api_type (s : Selector) :
  known_api api_type = true ->
  exists model_name api_url s',
    (model_name ←
       (if given preferred_model
        then ret (default [] preferred_model)
        else models ← getitem (default_models cfg) api_type;
             ret (models content_type));
     api_url ← getitem (api_base_urls cfg) api_type;
     sel_emit SelLogDecision;;
     sel_emit SelLogResult;;
     ret (Some (api_type, model_name, api_url))) s
    = (Ok (Some (api_type, model_name, api_url)), s')
    /\ api_availability_cache s' = api_availability_cache s
    /\ http_requests (sel_trace s') = http_requests (sel_trace s)
    /\ (if given preferred_model
        then Some model_name = preferred_model
        else exists models,
               default_models cfg !! api_type = Some models
               /\ model_name = models content_type)
    /\ api_base_urls cfg !! api_type = Some api_url.
Proof.
  intros Hk.
  destruct (known_api_default_models cfg api_type Hk) as [models Hm].
  destruct (known_api_base_url cfg api_type Hk) as [url Hu].
  unfold getitem. rewrite Hm, Hu.
  destruct preferred_model as [[|c pm]|]; cbn [given truthy default];
    unfold bind, ret, sel_emit; cbn [api_availability_cache requests sel_trace];
    do 3 eexists; (split; [reflexivity|]);
    cbn [api_availability_cache requests sel_trace];
    rewrite !http_requests_app; cbn [http_requests]; rewrite !app_nil_r;
    repeat split; eauto.
Qed.

Lemma select_loop_spec content_type preferred_model api_priority s :
  cache_ok (api_availability_cache s) ->
  exists found s',
    select_loop cfg http content_type preferred_model api_priority s
    = (Ok found, s')
    /\ selection cfg s api_priority content_type preferred_model found s'.
Proof.
  revert s. induction api_priority as [|a rest IH]; intros s Hok.
  - exists None, s. split; [reflexivity|]. unfold selection.
    split; [auto|]. split; [exact Hok|]. split; [|constructor].
    exists []. rewrite app_nil_r. split; [reflexivity|].
    split; [constructor | intros ? []].
  - cbn [select_loop].
    destruct (api_availability_cache s !! a) as [[|]|] eqn:Hc.
    + (* cached as available *)
      erewrite bind_ok by (apply check_api_availability_cached; exact Hc).
      destruct (select_available content_type preferred_model a s (Hok a Hc))
        as (model & url & s' & Hrun & Hcache & Hreq & Hmodel & Hurl).
      exists (Some (a, model, url)), s'. split; [exact Hrun|].
      unfold selection. rewrite Hcache, Hreq.
      split; [auto|]. split; [exact Hok|]. split.
      { exists []. rewrite app_nil_r. split; [reflexivity|].
        split; [constructor | intros ? []]. }
      split; [exists [], rest; split; [reflexivity | constructor]|].
      auto.
    + (* cached as unavailable *)
      erewrite bind_ok by (apply check_api_availability_cached; exact Hc).
      destruct (IH s Hok) as (found & s' & Hrun & Hmono & Hok' & Hprobe & Hfound).
      exists found, s'. split; [exact Hrun|]. unfold selection.
      split; [exact Hmono|]. split; [exact Hok'|]. split.
      { destruct Hprobe as (probed & H1 & H2 & H3). exists probed.
        split; [exact H1|]. split; [exact H2|].
        intros x Hx. destruct (H3 x Hx). split; [assumption | right; assumption]. }
      destruct found as [[[api model] url]|].
      * destruct Hfound as ((before & after & -> & Hb) & Hrest).
        split; [|exact Hrest].
        exists (a :: before), after. split; [reflexivity|].
        constructor; [apply Hmono, Hc | exact Hb].
      * constructor; [apply Hmono, Hc | exact Hfound].
    + (* not cached: probed *)
      destruct (check_api_availability_probe cfg http a s Hc)
        as (b & s1 & Hrun1 & Hcache1 & Hreq1 & Hknown).
      erewrite bind_ok by exact Hrun1.
      assert (Hok1 : cache_ok (api_availability_cache s1)).
      { rewrite Hcache1. apply cache_ok_insert; assumption. }
      assert (Hmono1 : forall x y, api_availability_cache s !! x = Some y ->
                                   api_availability_cache s1 !! x = Some y).
      { intros x y Hx. rewrite Hcache1, lookup_insert_ne; [exact Hx|].
        intros ->. congruence. }
      assert (Ha1 : api_availability_cache s1 !! a = Some b).
      { rewrite Hcache1. apply lookup_insert_eq. }
      destruct b.
      * destruct (select_available content_type preferred_model a s1 (Hknown eq_refl))
          as (model & url & s' & Hrun & Hcache & Hreq & Hmodel & Hurl).
        exists (Some (a, model, url)), s'. split; [exact Hrun|].
        unfold selection. rewrite Hcache, Hreq, Hreq1, (Hknown eq_refl).
        split; [exact Hmono1|]. split; [exact Hok1|]. split.
        { exists [a]. split; [reflexivity|]. split.
          - constructor; [intros [] | constructor].
          - intros x [<-|[]]. split; [exact Hc | left; reflexivity]. }
        split; [exists [], rest; split; [reflexivity | constructor]|].
        auto.
      * destruct (IH s1 Hok1)
          as (found & s' & Hrun & Hmono & Hok' & Hprobe & Hfound).
        exists found, s'. split; [exact Hrun|]. unfold selection.
        split; [intros x y Hx; apply Hmono, Hmono1, Hx|].
        split; [exact Hok'|]. split.
        { destruct Hprobe as (probed & H1 & H2 & H3).
          exists ((if known_api a then [a] else []) ++ probed).
          rewrite H1, Hreq1, app_assoc. split; [reflexivity|]. split.
          - destruct (known_api a); [|exact H2].
            constructor; [|exact H2].
            intros Hin. destruct (H3 a Hin) as [Hn _]. congruence.
          - intros x Hx. apply in_app_or in Hx. destruct Hx as [Hx|Hx].
            + destruct (known_api a); [|destruct Hx].
              destruct Hx as [<-|[]]. split; [exact Hc | left; reflexivity].
            + destruct (H3 x Hx) as [Hn Hin]. split; [|right; exact Hin].
              destruct (api_availability_cache s !! x) eqn:E; [|reflexivity].
              rewrite (Hmono1 _ _ E) in Hn. discriminate. }
        destruct found as [[[api model] url]|].
        -- destruct Hfound as ((before & after & -> & Hb) & Hrest).
           split; [|exact Hrest].
           exists (a :: before), after. split; [reflexivity|].
           constructor; [apply Hmono, Ha1 | exact Hb].
        -- constructor; [apply Hmono, Ha1 | exact Hfound].
Qed.

Lemma walk_order_code content_type preferred_api :
  (let api_priority :=
     match content_type with
     | CONTENT_TYPE_CODE => code_api_priority cfg
     | CONTENT_TYPE_SUMMARY => text_api_priority cfg
     | CONTENT_TYPE_GENERAL => text_api_priority cfg
     end in
   if given preferred_api && in_list (default [] preferred_api) api_priority
   then [default [] preferred_api]
        ++ List.filter (fun api => negb (str_eqb api (default [] preferred_api)))
                       api_priority
   else api_priority)
  = walk_order cfg content_type preferred_api.
Proof.
  unfold walk_order. cbv zeta.
  set (priority := match content_type with
                   | CONTENT_TYPE_CODE => code_api_priority cfg
                   | _ => text_api_priority cfg
                   end).
  replace (match content_type with
           | CONTENT_TYPE_CODE => code_api_priority cfg
           | CONTENT_TYPE_SUMMARY => text_api_priority cfg
           | CONTENT_TYPE_GENERAL => text_api_priority cfg
           end) with priority by (destruct content_type; reflexivity).
  destruct preferred_api as [p|]; cbn [given]; [|reflexivity].
  change (default [] (Some p)) with p.
  destruct (in_dec str_eq_dec p priority) as [Hin|Hnin].
  - replace (in_list p priority) with true
      by (symmetry; apply in_list_In; exact Hin).
    destruct (truthy p); cbn [andb app]; [|reflexivity].
    rewrite filter_remove. reflexivity.
  - replace (in_list p priority) with false; [rewrite !andb_false_r; reflexivity|].
    symmetry. apply not_true_iff_false. rewrite in_list_In. exact Hnin.
Qed.

End Selection.

Section Walk.

Context {rt : PyRuntime} (cfg : Settings) (http : nat -> str -> Z + Exn).

(** The probe of a backend that is not cached: the answer, the cache, the
    requests. *)
Lemma check_api_availability_run api_type s :
  api_availability_cache s !! api_type = None ->
  exists s',
    check_api_availability cfg http api_type s
    = (Ok (answers_ok http (requests s) api_type), s')
    /\ api_availability_cache s'
       = <[api_type := answers_ok http (requests s) api_type]>
           (api_availability_cache s)
    /\ http_requests (sel_trace s')
       = http_requests (sel_trace s)
         ++ (if known_api api_type then [api_type] else [])
    /\ requests s'
       = (requests s + length (if known_api api_type then [api_type] else []))%nat.
Proof.
  intros H. unfold check_api_availability. erewrite bind_ok by reflexivity.
  rewrite H. unfold answers_ok, known_api.
  destruct (known_api_base_url cfg API_TYPE_OLLAMA eq_refl) as [u1 Hu1].
  destruct (known_api_base_url cfg API_TYPE_LLAMACPP eq_refl) as [u2 Hu2].
  destruct (known_api_base_url cfg API_TYPE_YANDEXGPT eq_refl) as [u3 Hu3].
  unfold getitem.
  destruct (str_eqb api_type API_TYPE_OLLAMA) eqn:E1;
    [apply str_eqb_eq in E1; subst api_type; rewrite Hu1|].
  2: destruct (str_eqb api_type API_TYPE_LLAMACPP) eqn:E2;
    [apply str_eqb_eq in E2; subst api_type; rewrite Hu2|].
  3: destruct (str_eqb api_type API_TYPE_YANDEXGPT) eqn:E3;
    [apply str_eqb_eq in E3; subst api_type; rewrite Hu3|].
  all: unfold bind, try_except, sel_emit, request_ok, bind, or_raise, ret,
         raise, set_cache;
       cbn [api_availability_cache requests sel_trace fst snd orb andb];
       try match goal with
           | |- context [http ?n ?a] => destruct (http n a) as [code|e]
           end;
       cbn [api_availability_cache requests sel_trace fst snd any_exception];
       try match goal with
           | |- context [(?code =? 200)%Z] => destruct (code =? 200)%Z
           end;
       cbn [api_availability_cache requests sel_trace fst snd any_exception];
       eexists; (split; [reflexivity|]);
       cbn [api_availability_cache requests sel_trace length];
       rewrite ?insert_insert_eq, !http_requests_app; cbn [http_requests];
       rewrite ?app_nil_r;
       repeat split; try reflexivity; lia.
Qed.

(** The tail of the loop body sends no request. *)
Lemma select_available_requests content_type preferred_model api_type
    (s : Selector) found s' :
  (model_name ←
     (if given preferred_model
      then ret (default [] preferred_model)
      else models ← getitem (default_models cfg) api_type;
           ret (models content_type));
   api_url ← getitem (api_base_urls cfg) api_type;
   sel_emit SelLogDecision;;
   sel_emit SelLogResult;;
   ret (Some (api_type, model_name, api_url))) s
  = (Ok found, s') ->
  requests s' = requests s.
Proof.
  unfold bind, getitem, ret, raise, sel_emit.
  destruct (given preferred_model);
    repeat match goal with
           | |- context [match ?d !! ?k with _ => _ end] => destruct (d !! k)
           end;
    intros [= <- <-]; reflexivity.
Qed.

(** The loop of the code walks as the specification says. *)
Lemma select_loop_walk content_type preferred_model api_priority s :
  cache_ok (api_availability_cache s) ->
  exists found s',
    select_loop cfg http content_type preferred_model api_priority s
    = (Ok found, s')
    /\ let walk := first_available http (api_availability_cache s)
                     (requests s) api_priority in
       option_map (fun f => fst (fst f)) found = walk_backend walk
       /\ api_availability_cache s' = walk_cache walk
       /\ http_requests (sel_trace s')
          = http_requests (sel_trace s) ++ walk_probes walk
       /\ requests s' = (requests s + length (walk_probes walk))%nat.
Proof.
  revert s. induction api_priority as [|a rest IH]; intros s Hok.
  - exists None, s. split; [reflexivity|]. cbn.
    rewrite app_nil_r. repeat split; lia.
  - cbn [select_loop first_available].
    destruct (api_availability_cache s !! a) as [[|]|] eqn:Hc.
    + erewrite bind_ok by (apply check_api_availability_cached; exact Hc).
      destruct (select_available cfg content_type preferred_model a s (Hok a Hc))
        as (model & url & s' & Hrun & Hcache & Hreq & _).
      exists (Some (a, model, url)), s'. split; [exact Hrun|].
      cbn. rewrite Hcache, Hreq, app_nil_r,
        (select_available_requests _ _ _ _ _ _ Hrun).
      repeat split; lia.
    + erewrite bind_ok by (apply check_api_availability_cached; exact Hc).
      apply IH, Hok.
    + destruct (check_api_availability_run a s Hc)
        as (s1 & Hrun1 & Hcache1 & Hreq1 & Hn1).
      erewrite bind_ok by exact Hrun1.
      destruct (answers_ok http (requests s) a) eqn:Ha.
      * assert (Hk : known_api a = true).
        { unfold answers_ok in Ha. apply andb_true_iff in Ha. tauto. }
        destruct (select_available cfg content_type preferred_model a s1 Hk)
          as (model & url & s' & Hrun & Hcache & Hreq & _).
        exists (Some (a, model, url)), s'. split; [exact Hrun|].
        cbn. rewrite Hcache, Hreq, Hcache1, Hreq1,
          (select_available_requests _ _ _ _ _ _ Hrun), Hn1.
        repeat split.
      * assert (Hok1 : cache_ok (api_availability_cache s1)).
        { rewrite Hcache1. apply cache_ok_insert; [exact Hok | discriminate]. }
        destruct (IH s1 Hok1) as (found & s' & Hrun & Hw).
        exists found, s'. split; [exact Hrun|].
        cbv zeta in Hw. rewrite Hcache1, Hn1 in Hw.
        destruct Hw as (W1 & W2 & W3 & W4).
        cbn [walk_backend walk_cache walk_probes].
        rewrite W3, W4, Hreq1, length_app, app_assoc.
        repeat split; try assumption; lia.
Qed.

End Walk.

(** C3. With a backend and a model both given, [select_optimal_api_and_model]
    returns that pair, with the base URL of the backend, and neither the
    cache nor the network is touched. Otherwise it walks the priority list
    of the content class of the text, a preferred backend that occurs in it
    first and the rest in their order, as [first_available] does: a backend
    found in the cache is not probed, one that is not is sent one request,
    whose answer decides and is cached, and answers in the cache stay as
    they are. The result is the first backend of the walk that is
    available, with the given model or else the default model of that
    backend for the content class; if every backend of the walk is
    unavailable the result is [(None, None, None)], and no exception is
    raised. The backend returned, the cache left behind and the requests
    sent are those of [first_available]. *)
Theorem select_optimal_api_and_model_algorithm {rt : PyRuntime}
    (cfg : Settings) (http : nat -> str -> Z + Exn) (text : str)
    (preferred_api preferred_model : option str) (s : Selector) :
  (given preferred_api = true -> given preferred_model = true ->
   exists s',
     select_optimal_api_and_model cfg http text preferred_api preferred_model s
     = (Ok (preferred_api, preferred_model,
            Some (default [] (api_base_urls cfg !! default [] preferred_api))),
        s')
     /\ api_availability_cache s' = api_availability_cache s
     /\ requests s' = requests s
     /\ http_requests (sel_trace s') = http_requests (sel_trace s))
  /\ (given preferred_api && given preferred_model = false ->
      cache_ok (api_availability_cache s) ->
      exists found s',
        select_optimal_api_and_model cfg http text preferred_api preferred_model s
        = (Ok match found with
              | Some (api_type, model_name, api_url) =>
                  (Some api_type, Some model_name, Some api_url)
              | None => (None, None, None)
              end, s')
        /\ selection cfg s
             (walk_order cfg (detect_content_type text) preferred_api)
             (detect_content_type text) preferred_model found s'
        /\ let walk :=
             first_available http (api_availability_cache s) (requests s)
               (walk_order cfg (detect_content_type text) preferred_api) in
           option_map (fun f => fst (fst f)) found = walk_backend walk
           /\ api_availability_cache s' = walk_cache walk
           /\ http_requests (sel_trace s')
              = http_requests (sel_trace s) ++ walk_probes walk
           /\ requests s' = (requests s + length (walk_probes walk))%nat).
Proof.
  split.
  - intros Ha Hm. unfold select_optimal_api_and_model.
    erewrite bind_ok by reflexivity. rewrite Ha, Hm. cbn [andb].
    unfold bind, sel_emit, ret. cbn [api_availability_cache requests sel_trace].
    eexists. split; [reflexivity|].
    cbn [api_availability_cache requests sel_trace].
    rewrite !http_requests_app. cbn [http_requests]. rewrite !app_nil_r. auto.
  - intros Hg Hok. unfold select_optimal_api_and_model.
    erewrite bind_ok by reflexivity. rewrite Hg. cbv zeta.
    rewrite walk_order_code.
    set (s0 := {| api_availability_cache := api_availability_cache s;
                  requests := requests s;
                  sel_trace := sel_trace s ++ [SelLogAction] |}).
    destruct (select_loop_spec cfg http (detect_content_type text) preferred_model
                (walk_order cfg (detect_content_type text) preferred_api) s0 Hok)
      as (found & s1 & Hrun & Hmono & Hok1 & (probed & Hp1 & Hp2 & Hp3) & Hfound).
    destruct (select_loop_walk cfg http (detect_content_type text) preferred_model
                (walk_order cfg (detect_content_type text) preferred_api) s0 Hok)
      as (found' & s1' & Hrun' & W1 & W2 & W3 & W4).
    rewrite Hrun in Hrun'. injection Hrun' as <- <-.
    assert (Hreq0 : http_requests (sel_trace s0) = http_requests (sel_trace s)).
    { unfold s0. cbn [sel_trace]. rewrite http_requests_app. apply app_nil_r. }
    rewrite Hreq0 in W3.
    change (api_availability_cache s0) with (api_availability_cache s)
      in W1, W2, W3, W4.
    change (requests s0) with (requests s) in W1, W2, W3, W4.
    erewrite bind_ok by exact Hrun.
    destruct found as [[[api model] url]|].
    + exists (Some (api, model, url)), s1. split; [reflexivity|].
      split.
      { unfold selection. split; [exact Hmono|]. split; [exact Hok1|].
        split; [|exact Hfound].
        exists probed. rewrite Hp1, Hreq0. auto. }
      cbv zeta. auto.
    + exists None. eexists. split; [reflexivity|].
      split.
      { unfold selection. cbn [api_availability_cache sel_trace].
        split; [exact Hmono|]. split; [exact Hok1|]. split; [|exact Hfound].
        exists probed. rewrite http_requests_app, Hp1, Hreq0.
        cbn [http_requests]. rewrite app_nil_r. auto. }
      cbv zeta. cbn [api_availability_cache sel_trace requests].
      rewrite http_requests_app, W3. cbn [http_requests].
      rewrite app_nil_r. auto.
Qed.

Lemma sample_cache_ok : cache_ok (api_availability_cache sample_selector).
Proof.
  intros a. cbn [api_availability_cache sample_selector].
  destruct (decide (API_TYPE_OLLAMA = a)) as [<-|H1].
  { rewrite lookup_insert_eq. discriminate. }
  rewrite lookup_insert_ne by exact H1.
  destruct (decide (API_TYPE_LLAMACPP = a)) as [<-|H2].
  { intros _. reflexivity. }
  rewrite lookup_insert_ne by exact H2. rewrite lookup_empty. discriminate.
Qed.

Lemma select_optimal_api_and_model_algorithm_witness :
  exists s',
    @select_optimal_api_and_model rt_no_float sample_settings second_answers
      (lit "The cat sat on the mat.") None None new_selector
    = (Ok (Some API_TYPE_LLAMACPP, Some (lit "mistral"),
           Some (lit "http://localhost:8080/v1")), s')
    /\ api_availability_cache s'
       = <[API_TYPE_LLAMACPP := true]> (<[API_TYPE_OLLAMA := false]> ∅)
    /\ http_requests (sel_trace s') = [API_TYPE_OLLAMA; API_TYPE_LLAMACPP]
    /\ requests s' = 2%nat.
Proof.
  destruct (@select_optimal_api_and_model_algorithm rt_no_float sample_settings
              second_answers (lit "The cat sat on the mat.") None None
              new_selector)
    as [_ H].
  destruct (H eq_refl cache_ok_empty) as (found & s' & Hrun & _ & Hw).
  cbv zeta in Hw. destruct Hw as (_ & W2 & W3 & W4).
  exists s'. split.
  - vm_compute in Hrun.
    destruct found as [[[api model] url]|]; [|discriminate Hrun].
    injection Hrun as <- <- <- <-. reflexivity.
  - rewrite W2, W3, W4. repeat split; vm_compute; reflexivity.
Defined.

(** ** The content classifier *)

Section SearchFacts.

Context {rt : PyRuntime}.

Lemma match_prefix_nil ic r :
  Re.match_prefix ic r [] = true -> Re.nullable r = true /\ r <> Re.Void.
Proof.
  destruct r; cbn [Re.match_prefix Re.nullable]; rewrite ?orb_false_r;
    intros H; split; congruence.
Qed.

Lemma match_prefix_unfold ic r s :
  r <> Re.Void ->
  Re.match_prefix ic r s
  = Re.nullable r
    || match s with
       | [] => false
       | c :: s' => Re.match_prefix ic (Re.deriv ic c r) s'
       end.
Proof. destruct r, s; intros H; try reflexivity; congruence. Qed.

Lemma match_prefix_void ic s : Re.match_prefix ic Re.Void s = false.
Proof. destruct s; reflexivity. Qed.

(** A match is not lost when the text goes on. *)
Lemma match_prefix_app ic r s after :
  Re.match_prefix ic r s = true -> Re.match_prefix ic r (s ++ after) = true.
Proof.
  revert r. induction s as [|c s IH]; intros r H.
  - apply match_prefix_nil in H. destruct H as [Hn Hv].
    rewrite match_prefix_unfold by exact Hv. rewrite Hn. reflexivity.
  - assert (Hv : r <> Re.Void).
    { intros ->. rewrite match_prefix_void in H. discriminate. }
    rewrite match_prefix_unfold in H by exact Hv.
    cbn [app]. rewrite match_prefix_unfold by exact Hv.
    apply orb_true_iff in H. apply orb_true_iff.
    destruct H as [H|H]; [left; exact H | right; apply IH, H].
Qed.

Lemma search_app_r ic r s after :
  Re.search ic r s = true -> Re.search ic r (s ++ after) = true.
Proof.
  induction s as [|c s IH]; cbn [Re.search app]; intros H.
  - rewrite orb_false_r in H.
    pose proof (match_prefix_app ic r [] after H) as H'. cbn [app] in H'.
    destruct after; cbn [Re.search]; rewrite H'; reflexivity.
  - apply orb_true_iff in H. apply orb_true_iff. destruct H as [H|H].
    + left. exact (match_prefix_app ic r (c :: s) after H).
    + right. apply IH, H.
Qed.

Lemma search_app_l ic r before s :
  Re.search ic r s = true -> Re.search ic r (before ++ s) = true.
Proof.
  intros H. induction before as [|c before IH]; [exact H|].
  cbn [app Re.search]. rewrite IH. apply orb_true_r.
Qed.

(** The loop over the patterns answers [found] exactly when one of them is
    found in the text. *)
Lemma for_patterns_existsb {A} ic pats text (found rest : A) :
  for_patterns ic pats text found rest
  = if existsb (fun p => Re.search ic p text) pats then found else rest.
Proof.
  induction pats as [|p pats IH]; [reflexivity|].
  cbn [for_patterns existsb]. destruct (Re.search ic p text); [reflexivity|].
  exact IH.
Qed.

Lemma existsb_Exists ic pats text :
  existsb (fun p => Re.search ic p text) pats = true
  <-> List.Exists (fun p => Re.search ic p text = true) pats.
Proof.
  rewrite existsb_exists, List.Exists_exists. reflexivity.
Qed.

End SearchFacts.

Lemma Re_void_dec (r : Re.re) : {r = Re.Void} + {r <> Re.Void}.
Proof. destruct r; (left; reflexivity) || (right; discriminate). Qed.
(** ** What the matcher decides *)

Section Language.

Context {rt : PyRuntime}.

Ltac inv_matches H := inversion H; subst; clear H.

Lemma nullable_matches ic r : Re.nullable r = true <-> matches ic r [].
Proof.
  induction r as [| |k|a IHa b IHb|a IHa b IHb|a IHa]; cbn [Re.nullable];
    split; intros H.
  - discriminate.
  - inv_matches H.
  - constructor.
  - reflexivity.
  - discriminate.
  - inv_matches H.
  - apply andb_true_iff in H. destruct H as [H1 H2].
    change (@nil N) with (@nil N ++ []). constructor; tauto.
  - inv_matches H.
    match goal with E : _ ++ _ = [] |- _ =>
      apply app_eq_nil in E; destruct E; subst end.
    apply andb_true_iff. tauto.
  - apply orb_true_iff in H. destruct H; [apply MAltL | apply MAltR]; tauto.
  - apply orb_true_iff. inv_matches H; tauto.
  - constructor.
  - reflexivity.
Qed.

Lemma matches_void ic s : ~ matches ic Re.Void s.
Proof. intros H. inversion H. Qed.

Lemma seq_eps_matches ic b s :
  matches ic (Re.Seq Re.Eps b) s <-> matches ic b s.
Proof.
  split; intros H.
  - inv_matches H.
    match goal with H1 : matches _ Re.Eps _ |- _ => inv_matches H1 end.
    assumption.
  - change s with ([] ++ s). constructor; [constructor | exact H].
Qed.

Lemma seq_void_l ic b s : ~ matches ic (Re.Seq Re.Void b) s.
Proof. intros H. inv_matches H. eapply matches_void; eauto. Qed.

Lemma seq_void_r ic a s : ~ matches ic (Re.Seq a Re.Void) s.
Proof. intros H. inv_matches H. eapply matches_void; eauto. Qed.

Lemma seq_matches ic a b s :
  matches ic (Re.seq a b) s <-> matches ic (Re.Seq a b) s.
Proof.
  destruct a, b; cbn [Re.seq]; try reflexivity;
    try (symmetry; apply seq_eps_matches);
    split; intros H; exfalso;
    first [ exact (matches_void _ _ H) | exact (seq_void_l _ _ _ H)
          | exact (seq_void_r _ _ _ H) ].
Qed.

Lemma alt_void_l ic b s : matches ic (Re.Alt Re.Void b) s <-> matches ic b s.
Proof.
  split; intros H; [|apply MAltR, H].
  inv_matches H; [exfalso; eapply matches_void; eauto | assumption].
Qed.

Lemma alt_void_r ic a s : matches ic (Re.Alt a Re.Void) s <-> matches ic a s.
Proof.
  split; intros H; [|apply MAltL, H].
  inv_matches H; [assumption | exfalso; eapply matches_void; eauto].
Qed.

Lemma alt_matches ic a b s :
  matches ic (Re.alt a b) s <-> matches ic (Re.Alt a b) s.
Proof.
  destruct a, b; cbn [Re.alt]; try reflexivity;
    first [ symmetry; apply alt_void_l | symmetry; apply alt_void_r ].
Qed.

Lemma seq_inv ic a b s :
  matches ic (Re.Seq a b) s <->
  exists s1 s2, s = s1 ++ s2 /\ matches ic a s1 /\ matches ic b s2.
Proof.
  split.
  - intros H. inv_matches H. eauto.
  - intros (s1 & s2 & -> & H1 & H2). constructor; assumption.
Qed.

Lemma alt_inv ic a b s :
  matches ic (Re.Alt a b) s <-> matches ic a s \/ matches ic b s.
Proof.
  split.
  - intros H. inv_matches H; auto.
  - intros [H|H]; [apply MAltL | apply MAltR]; exact H.
Qed.

Lemma star_cons ic a c s :
  matches ic (Re.Star a) (c :: s) ->
  exists s1 s2, s = s1 ++ s2 /\ matches ic a (c :: s1) /\ matches ic (Re.Star a) s2.
Proof.
  intros H. remember (Re.Star a) as r eqn:Er. remember (c :: s) as t eqn:Et.
  revert s Et.
  induction H as [| | | | | |a' s1 s2 H1 _ H2 IH2]; intros s0 Et;
    try discriminate.
  injection Er as ->. destruct s1 as [|c' s1].
  - cbn [app] in Et. apply IH2; [reflexivity | exact Et].
  - cbn [app] in Et. injection Et as -> <-. eauto.
Qed.

(** The derivative reads one character. *)
Lemma deriv_matches ic c r s :
  matches ic (Re.deriv ic c r) s <-> matches ic r (c :: s).
Proof.
  revert s. induction r as [| |k|a IHa b IHb|a IHa b IHb|a IHa]; intros s;
    cbn [Re.deriv].
  - split; intros H; inversion H.
  - split; intros H; inversion H.
  - destruct (Re.cset_match ic k c) eqn:E; split; intros H.
    + inv_matches H. constructor. exact E.
    + inv_matches H. constructor.
    + inversion H.
    + inv_matches H. congruence.
  - assert (Hseq : matches ic (Re.seq (Re.deriv ic c a) b) s
                   <-> exists s1 s2, s = s1 ++ s2 /\ matches ic a (c :: s1)
                                     /\ matches ic b s2).
    { rewrite seq_matches, seq_inv. split.
      - intros (s1 & s2 & -> & H1 & H2). exists s1, s2. rewrite <- IHa. auto.
      - intros (s1 & s2 & -> & H1 & H2). exists s1, s2. rewrite IHa. auto. }
    assert (Hcons : matches ic (Re.Seq a b) (c :: s)
                    <-> (matches ic a [] /\ matches ic b (c :: s))
                        \/ exists s1 s2, s = s1 ++ s2 /\ matches ic a (c :: s1)
                                         /\ matches ic b s2).
    { rewrite seq_inv. split.
      - intros (s1 & s2 & E & H1 & H2). destruct s1 as [|c' s1]; cbn [app] in E.
        + subst s2. left. auto.
        + injection E as <- ->. right. eauto.
      - intros [[H1 H2]|(s1 & s2 & -> & H1 & H2)].
        + exists [], (c :: s). auto.
        + exists (c :: s1), s2. auto. }
    rewrite Hcons. destruct (Re.nullable a) eqn:En.
    + rewrite alt_matches, alt_inv, Hseq, IHb, <- nullable_matches, En. tauto.
    + rewrite Hseq, <- nullable_matches, En. split; [auto|].
      intros [[H _]|H]; [discriminate | exact H].
  - rewrite alt_matches, !alt_inv, IHa, IHb. reflexivity.
  - rewrite seq_matches, seq_inv. split.
    + intros (s1 & s2 & -> & H1 & H2).
      change (c :: s1 ++ s2) with ((c :: s1) ++ s2).
      apply MStarS; [apply IHa, H1 | exact H2].
    + intros H. apply star_cons in H. destruct H as (s1 & s2 & -> & H1 & H2).
      exists s1, s2. rewrite IHa. auto.
Qed.

(** [match_prefix] finds a prefix in the language of the pattern. *)
Lemma match_prefix_spec ic r s :
  Re.match_prefix ic r s = true
  <-> exists p q, s = p ++ q /\ matches ic r p.
Proof.
  revert r. induction s as [|c s IH]; intros r.
  - split.
    + intros H. apply match_prefix_nil in H. destruct H as [H _].
      exists [], []. split; [reflexivity | apply nullable_matches, H].
    + intros (p & q & E & H). symmetry in E. apply app_eq_nil in E.
      destruct E; subst.
      destruct (Re_void_dec r) as [->|Hv]; [destruct (matches_void _ _ H)|].
      rewrite match_prefix_unfold by exact Hv.
      apply nullable_matches in H. rewrite H. reflexivity.
  - destruct (Re_void_dec r) as [->|Hv].
    { rewrite match_prefix_void. split; [discriminate|].
      intros (p & q & _ & H). destruct (matches_void _ _ H). }
    rewrite match_prefix_unfold by exact Hv. rewrite orb_true_iff, IH. split.
    + intros [H|(p & q & -> & H)].
      * exists [], (c :: s). split; [reflexivity | apply nullable_matches, H].
      * exists (c :: p), q. split; [reflexivity | apply deriv_matches, H].
    + intros (p & q & E & H). destruct p as [|c' p]; cbn [app] in E.
      * left. apply nullable_matches in H. exact H.
      * injection E as <- ->. right. exists p, q.
        split; [reflexivity | apply deriv_matches, H].
Qed.

(** [search] answers [true] exactly when some substring of the text is in
    the language of the pattern. *)
Lemma search_spec ic r s : Re.search ic r s = true <-> found_in ic r s.
Proof.
  unfold found_in. induction s as [|c s IH]; cbn [Re.search].
  - rewrite orb_false_r, match_prefix_spec. split.
    + intros (p & q & E & H). exists [], p, q. auto.
    + intros (b & m & a & E & H). symmetry in E.
      apply app_eq_nil in E. destruct E as [-> E].
      apply app_eq_nil in E. destruct E as [-> ->]. exists [], []. auto.
  - rewrite orb_true_iff, match_prefix_spec, IH. split.
    + intros [(p & q & E & H)|(b & m & a & -> & H)].
      * exists [], p, q. auto.
      * exists (c :: b), m, a. auto.
    + intros (b & m & a & E & H). destruct b as [|c' b]; cbn [app] in E.
      * left. exists m, a. auto.
      * injection E as <- ->. right. exists b, m, a. auto.
Qed.

End Language.

Lemma existsb_found {rt : PyRuntime} ic pats text :
  existsb (fun p => Re.search ic p text) pats = true
  <-> List.Exists (fun p => found_in ic p text) pats.
Proof.
  rewrite existsb_exists, List.Exists_exists.
  split; intros (p & Hp & H); exists p; (split; [exact Hp|]);
    apply search_spec; exact H.
Qed.

Lemma existsb_not_found {rt : PyRuntime} ic pats text :
  existsb (fun p => Re.search ic p text) pats = false
  <-> List.Forall (fun p => ~ found_in ic p text) pats.
Proof.
  rewrite <- not_true_iff_false, existsb_found, List.Forall_Exists_neg.
  reflexivity.
Qed.

(** C9. [detect_content_type] is a function of the text. If some pattern of
    [code_indicators] is found in the text the class is code, whatever else
    the text holds; otherwise, if the text has more than 1000 characters and
    some pattern of [summarization_indicators] is found in it, case being
    ignored, the class is summary; otherwise it is general. A text that
    contains [def foo():] is code, and the short sentence is general. *)
Theorem detect_content_type_rules {rt : PyRuntime} (text : str) :
  (List.Exists (fun p => found_in false p text) code_indicators ->
   detect_content_type text = CONTENT_TYPE_CODE)
  /\ (List.Forall (fun p => ~ found_in false p text) code_indicators ->
      (1000 < length text)%nat ->
      List.Exists (fun p => found_in true p text) summarization_indicators ->
      detect_content_type text = CONTENT_TYPE_SUMMARY)
  /\ (List.Forall (fun p => ~ found_in false p text) code_indicators ->
      (length text <= 1000)%nat
      \/ List.Forall (fun p => ~ found_in true p text) summarization_indicators ->
      detect_content_type text = CONTENT_TYPE_GENERAL)
  /\ (forall before after,
        detect_content_type (before ++ lit "def foo():" ++ after)
        = CONTENT_TYPE_CODE)
  /\ detect_content_type (lit "The cat sat on the mat.") = CONTENT_TYPE_GENERAL.
Proof.
  unfold detect_content_type. rewrite !for_patterns_existsb.
  split; [|split; [|split; [|split]]].
  - intros H. apply existsb_found in H. rewrite H. reflexivity.
  - intros Hc Hlen Hs. apply existsb_not_found in Hc. apply existsb_found in Hs.
    apply Nat.ltb_lt in Hlen. rewrite Hc, Hlen, Hs. reflexivity.
  - intros Hc Hs. apply existsb_not_found in Hc. rewrite Hc.
    destruct Hs as [Hlen|Hs].
    + apply Nat.ltb_ge in Hlen. rewrite Hlen. reflexivity.
    + apply existsb_not_found in Hs. rewrite Hs.
      destruct (1000 <? length text)%nat; reflexivity.
  - intros before after. rewrite !for_patterns_existsb.
    replace (existsb _ code_indicators) with true; [reflexivity|].
    symmetry. apply existsb_Exists. apply List.Exists_cons_hd.
    apply search_app_l, search_app_r. vm_compute. reflexivity.
  - vm_compute. reflexivity.
Qed.

Ltac decide_found :=
  lazymatch goal with
  | |- found_in _ _ _ => apply search_spec; vm_compute; reflexivity
  | |- ~ found_in _ _ _ =>
      let H := fresh in
      intros H; apply search_spec in H; vm_compute in H; discriminate H
  end.

Lemma detect_content_type_rules_witness :
  @detect_content_type rt_no_float (lit "x = 1; if (x) { return; }")
  = CONTENT_TYPE_CODE
  /\ @detect_content_type rt_no_float (lit "tl;dr " ++ repeat 97%N 1000)
     = CONTENT_TYPE_SUMMARY
  /\ @detect_content_type rt_no_float (lit "tl;dr and nothing more")
     = CONTENT_TYPE_GENERAL.
Proof.
  destruct (@detect_content_type_rules rt_no_float (lit "x = 1; if (x) { return; }"))
    as (H1 & _).
  destruct (@detect_content_type_rules rt_no_float (lit "tl;dr " ++ repeat 97%N 1000))
    as (_ & H2 & _).
  destruct (@detect_content_type_rules rt_no_float (lit "tl;dr and nothing more"))
    as (_ & _ & H3 & _).
  split; [|split].
  - apply H1. apply List.Exists_cons_tl, List.Exists_cons_hd. decide_found.
  - apply H2.
    + repeat constructor; decide_found.
    + vm_compute. apply Nat.leb_le. vm_compute. reflexivity.
    + apply List.Exists_cons_tl, List.Exists_cons_hd. decide_found.
  - apply H3.
    + repeat constructor; decide_found.
    + left. vm_compute. apply Nat.leb_le. vm_compute. reflexivity.
Defined.

(* ================================================================== *)
(** * Part III: further properties of the code *)
(* ================================================================== *)

(** ** The session: [connect], [disconnect], [_execute_command] *)

Lemma prefix_nonempty (p m : str) : p <> [] -> p ++ m <> [].
Proof. destruct p; [congruence | discriminate]. Qed.

Lemma connect_outcome_wp (w : World) s :
  wp (connect w) s
    (fun c s' =>
       (c = true -> is_connected (mon s') = true /\ client (mon s') = true)
       /\ (c = false -> is_connected (mon s') = true -> is_connected (mon s) = true)
       /\ (truthy (ssh_host (mon s)) && truthy (ssh_user (mon s)) = false ->
           c = false /\ mon s' = mon s /\ tick s' = tick s)
       /\ (session_ok (mon s) -> session_ok (mon s'))
       /\ (tick s <= tick s')%nat
       /\ (c = true <->
           credentials w s = true /\ ssh_connect w (S (tick s)) = None)
       /\ (credentials w s = true -> ssh_connect w (S (tick s)) <> None ->
           is_connected (mon s') = false))
    no_exn.
Proof.
  unfold connect, credentials. wp_run.
  all: unfold session_ok; cbn [mon tick trace logged with_client with_is_connected
         is_connected client ssh_host ssh_user ssh_key_path ssh_password].
  all: try contradiction.
  all: cmp_facts;
       repeat match goal with
       | H : negb _ = true |- _ => apply negb_true_iff in H
       | H : negb _ = false |- _ => apply negb_false_iff in H
       end.
  all: repeat match goal with
       | H : ?x = _ |- context [?x] => rewrite H
       end; cbn [andb orb].
  all: repeat split; try congruence; try reflexivity; auto; try lia.
  all: try solve [intros; repeat match goal with H : _ /\ _ |- _ => destruct H end;
                  congruence].
  all: try solve [rewrite ?andb_false_r; intros;
                  repeat match goal with H : _ /\ _ |- _ => destruct H end;
                  congruence].
Qed.

(** X1. [connect] never raises. It answers [True] exactly when host, user
    and a credential (a key file that exists, or a password) are configured
    and the SSH library's [connect] returns; the session is then marked
    open on a client that exists. A call that answers [False] never marks
    the session open, and when the library raises the session is marked
    closed. With host or user missing nothing is asked of the outside world
    and no attribute changes. *)
Theorem connect_outcome (w : World) (s : St) :
  exists c s',
    connect w s = (Ok c, s')
    /\ (c = true <->
        credentials w s = true /\ ssh_connect w (S (tick s)) = None)
    /\ (c = true -> is_connected (mon s') = true /\ client (mon s') = true)
    /\ (c = false -> is_connected (mon s') = true -> is_connected (mon s) = true)
    /\ (credentials w s = true -> ssh_connect w (S (tick s)) <> None ->
        is_connected (mon s') = false)
    /\ (truthy (ssh_host (mon s)) && truthy (ssh_user (mon s)) = false ->
        c = false /\ mon s' = mon s /\ tick s' = tick s).
Proof.
  destruct (proj1 (wp_returns _ _ _) (connect_outcome_wp w s))
    as (c & s' & H & H1 & H2 & H3 & _ & _ & H6 & H7).
  exists c, s'. auto 10.
Qed.

Lemma connect_outcome_witness :
  (exists s', connect steady_world fresh_state = (Ok true, s')
              /\ is_connected (mon s') = true)
  /\ (exists s', connect (dead_world false) connected_state = (Ok false, s')
                 /\ is_connected (mon s') = false).
Proof.
  split.
  - destruct (connect_outcome steady_world fresh_state)
      as (c & s' & H & Hiff & Ht & _).
    assert (Hc : c = true) by (apply Hiff; split; reflexivity).
    subst c. exists s'. split; [exact H | apply Ht; reflexivity].
  - destruct (connect_outcome (dead_world false) connected_state)
      as (c & s' & H & Hiff & _ & _ & Hf & _).
    assert (Hc : c = false).
    { destruct c; [|reflexivity]. destruct Hiff as [Hiff _].
      destruct (Hiff eq_refl) as [_ Hn]. discriminate Hn. }
    subst c. exists s'. split; [exact H|].
    apply Hf; [reflexivity | discriminate].
Defined.

Lemma latin1_nil data : decode_latin1_replace data = [] -> data = [].
Proof. destruct data; [reflexivity | discriminate]. Qed.

Lemma decode_output_nil data : decode_output data = [] -> data = [].
Proof.
  rewrite decode_output_chain. destruct data as [|b data]; [reflexivity|].
  destruct (decode Utf8 (b :: data)) as [t|] eqn:E1.
  { intros ->. exfalso. apply (utf8_nonempty _ _ E1); [discriminate | reflexivity]. }
  destruct (decode Cp1251 (b :: data)) as [t|] eqn:E2.
  { intros ->. exfalso. apply (cp1251_nonempty _ _ E2); [discriminate | reflexivity]. }
  discriminate.
Qed.

Lemma decode_after_reconnect_nil data : decode_after_reconnect data = [] -> data = [].
Proof. destruct data; [reflexivity | discriminate]. Qed.

Ltac nonempty_message :=
  lazymatch goal with
  | |- _ ++ _ <> [] => apply prefix_nonempty; vm_compute; discriminate
  | |- _ <> [] => vm_compute; discriminate
  end.

Ltac stderr_leaf :=
  cbn [fst snd mon tick trace logged];
  split;
  [ intros Herr;
    lazymatch type of Herr with
    | decode_output _ = [] =>
        apply decode_output_nil in Herr; subst;
        do 2 eexists; split; [|split; [eassumption | left; reflexivity]]; lia
    | decode_after_reconnect _ = [] =>
        apply decode_after_reconnect_nil in Herr; subst;
        do 2 eexists; split; [|split; [eassumption | right; reflexivity]]; lia
    | ?x = [] =>
        exfalso; cut (x <> []); [intros Hne; exact (Hne Herr) | nonempty_message]
    end
  | intros Hnone;
    first [ split; [reflexivity | nonempty_message]
          | exfalso;
            match goal with
            | H : ssh_exec _ ?n _ = inl _ |- _ =>
                eapply (Hnone n); [|exact H]; lia
            end ] ].

Lemma execute_command_contract_wp (w : World) command s :
  wp (_execute_command w command) s
    (fun r s' =>
       ran_on_server w command s s' (fst r) (snd r)
       /\ (session_ok (mon s) -> session_ok (mon s')))
    no_exn.
Proof.
  unfold _execute_command, execute_attempt, recover_from, exec_command,
    get_transport_active.
  repeat (first [ wp_catch | wp_step
                | lazymatch goal with
                  | |- wp (connect _) _ _ _ => wp_call connect_outcome_wp
                  end ];
          cbn [mon tick trace logged]).
  all: try contradiction.
  all: cbv beta in *.
  all: repeat match goal with H : _ /\ _ |- _ => destruct H end.
  all: cbn [mon tick trace logged with_is_connected] in *.
  all: (split; [unfold ran_on_server; stderr_leaf|]).
  all: unfold session_ok in *; cbn [is_connected client with_is_connected] in *.
  all: try solve [intuition congruence].
Qed.

Lemma disconnect_run s :
  disconnect s
  = (Ok tt,
     if client (mon s) && is_connected (mon s)
     then logged EvLogResult
            {| mon := with_is_connected false (mon (logged EvLogAction s));
               tick := tick s; trace := trace (logged EvLogAction s) |}
     else s).
Proof.
  unfold disconnect, bind, get_mon.
  destruct (client (mon s) && is_connected (mon s)); reflexivity.
Qed.

(** What [_execute_command] does in a session that is marked open, on a
    client that exists, when the SSH library raises [e]. *)
Lemma execute_command_library_error (w : World) command s e :
  is_connected (mon s) = true -> client (mon s) = true ->
  ssh_exec w (tick s) command = inr e ->
  wp (_execute_command w command) s
    (fun r s' =>
       (exists evs,
          trace s' = trace s ++ EvExec command :: EvLogError :: EvTransport :: evs)
       /\ (r = ([], u8 "Ошибка: " ++ exn_msg e)
           \/ exists n,
                (tick s < n)%nat
                /\ match ssh_exec w n command with
                   | inl (o, er) =>
                       r = (decode_after_reconnect o, decode_after_reconnect er)
                   | inr e2 =>
                       r = ([], u8 "Ошибка после переподключения: "
                                ++ exn_msg e2)
                   end))
    no_exn.
Proof.
  intros Hc Hcl He.
  assert (Hentry : reaches_try w s s) by (unfold reaches_try; rewrite Hc; reflexivity).
  assert (Hex : exec_command w command s
                = (Raised e, {| mon := mon s; tick := S (tick s);
                                trace := trace s ++ [EvExec command] |})).
  { unfold exec_command, bind, get_mon, ask, or_raise. rewrite Hcl.
    cbn [mon tick trace]. rewrite He. reflexivity. }
  unfold wp at 1.
  rewrite (execute_command_enters w command s s Hentry),
    (execute_attempt_raised w command s e _ Hex).
  match goal with
  | |- match ?m ?st with _ => _ end =>
      change (wp m st
                (fun r s' =>
                   (exists evs,
                      trace s' = trace s ++ EvExec command :: EvLogError
                                   :: EvTransport :: evs)
                   /\ (r = ([], u8 "Ошибка: " ++ exn_msg e)
                       \/ exists n,
                            (tick s < n)%nat
                            /\ match ssh_exec w n command with
                               | inl (o, er) =>
                                   r = (decode_after_reconnect o,
                                        decode_after_reconnect er)
                               | inr e2 =>
                                   r = ([], u8 "Ошибка после переподключения: "
                                            ++ exn_msg e2)
                               end))
                no_exn)
  end.
  unfold recover_from, exec_command, get_transport_active, connect.
  wp_run.
  all: cbn [mon tick trace logged with_client with_is_connected
            is_connected client] in *.
  all: try congruence.
  all: try contradiction.
  all: split;
       [ eexists; repeat rewrite <- app_assoc; cbn [app]; reflexivity |].
  all: first
       [ left; reflexivity
       | right;
         match goal with
         | H : ssh_exec _ ?n _ = _ |- _ =>
             exists n; split; [lia | rewrite H; reflexivity]
         end ].
Qed.

(** X2. From a monitor as [__init__] builds it, [connect], [disconnect]
    and [_execute_command] keep this true: [is_connected] is only set when
    [self.client] exists. So when the session is marked open the command of
    [_execute_command] reaches the SSH library. If the library answers,
    [_execute_command] returns the answer decoded, and the execution is its
    only event. If the library raises, [_execute_command] logs the error
    and asks the transport, and what it returns is that error as a string,
    or, after a reconnect, what the library then answers or raises: never
    the [AttributeError] of a missing client. *)
Theorem session_invariant (w : World) (command : str) (s : St) :
  session_ok (mon s) ->
  (exists c s', connect w s = (Ok c, s') /\ session_ok (mon s'))
  /\ (exists s', disconnect s = (Ok tt, s') /\ session_ok (mon s'))
  /\ (exists r s', _execute_command w command s = (Ok r, s')
                   /\ session_ok (mon s'))
  /\ (is_connected (mon s) = true ->
      match ssh_exec w (tick s) command with
      | inl (o, er) =>
          _execute_command w command s
          = (Ok (decode_output o, decode_output er),
             {| mon := mon s; tick := S (tick s);
                trace := trace s ++ [EvExec command] |})
      | inr e =>
          exists r s' evs,
            _execute_command w command s = (Ok r, s')
            /\ trace s'
               = trace s ++ EvExec command :: EvLogError :: EvTransport :: evs
            /\ (r = ([], u8 "Ошибка: " ++ exn_msg e)
                \/ exists n,
                     (tick s < n)%nat
                     /\ match ssh_exec w n command with
                        | inl (o, er) =>
                            r = (decode_after_reconnect o,
                                 decode_after_reconnect er)
                        | inr e2 =>
                            r = ([], u8 "Ошибка после переподключения: "
                                     ++ exn_msg e2)
                        end)
      end).
Proof.
  intros Hok. split; [|split; [|split]].
  - destruct (proj1 (wp_returns _ _ _) (connect_outcome_wp w s))
      as (c & s' & H & _ & _ & _ & H4 & _).
    exists c, s'. auto.
  - eexists. split; [apply disconnect_run|].
    destruct (client (mon s) && is_connected (mon s)); [|exact Hok].
    unfold session_ok. cbn. discriminate.
  - destruct (proj1 (wp_returns _ _ _) (execute_command_contract_wp w command s))
      as (r & s' & H & _ & H2).
    exists r, s'. auto.
  - intros Hc. pose proof (Hok Hc) as Hcl.
    destruct (ssh_exec w (tick s) command) as [[o er]|e] eqn:He.
    + assert (Hentry : reaches_try w s s)
        by (unfold reaches_try; rewrite Hc; reflexivity).
      rewrite (execute_command_enters w command s s Hentry).
      unfold execute_attempt, try_except, bind at 1.
      unfold exec_command, bind, get_mon, ask, or_raise. rewrite Hcl.
      cbn [mon tick trace]. rewrite He. reflexivity.
    + destruct (proj1 (wp_returns _ _ _)
                  (execute_command_library_error w command s e Hc Hcl He))
        as (r & s' & Hrun & (evs & Htr) & Hr).
      exists r, s', evs. auto.
Qed.

Lemma session_invariant_witness :
  session_ok (mon connected_state)
  /\ (exists s',
        _execute_command steady_world (lit "uptime") connected_state
        = (Ok ([1055%N], []), s')
        /\ trace s' = [EvExec (lit "uptime")])
  /\ (exists r s' evs,
        _execute_command dropped_world (lit "uptime") connected_state
        = (Ok r, s')
        /\ trace s'
           = EvExec (lit "uptime") :: EvLogError :: EvTransport :: evs
        /\ r = ([208; 159]%N, [])).
Proof.
  assert (H : session_ok (mon connected_state)) by (intros _; reflexivity).
  split; [exact H|]. split.
  - destruct (session_invariant steady_world (lit "uptime") connected_state H)
      as (_ & _ & _ & H4).
    specialize (H4 eq_refl).
    change (ssh_exec steady_world (tick connected_state) (lit "uptime"))
      with (@inl (bytes * bytes) Exn ([xd0; x9f]%byte, [])) in H4.
    cbv iota beta in H4. eexists. split.
    + rewrite H4. vm_compute. reflexivity.
    + reflexivity.
  - destruct (session_invariant dropped_world (lit "uptime") connected_state H)
      as (_ & _ & _ & H4).
    specialize (H4 eq_refl).
    change (ssh_exec dropped_world (tick connected_state) (lit "uptime"))
      with (@inr (bytes * bytes) Exn (mkExn OtherError (lit "Socket is closed")))
      in H4.
    cbv iota beta in H4.
    destruct H4 as (r & s' & evs & Hrun & Htr & Hr).
    exists r, s', evs. split; [exact Hrun|]. split; [exact Htr|].
    vm_compute in Hrun. congruence.
Defined.

(** ** The fallback of the readers *)



(** *** Pieces of a text *)

















Section Provenance.

Context {rt : PyRuntime} (w : World).


















End Provenance.

Section ReaderFallback.

Context {rt : PyRuntime} (w : World).



End ReaderFallback.





(** X3. [disconnect] marks the session closed, keeps the client and the
    attributes of the governor, asks nothing of the outside world, and a
    second [disconnect] does nothing at all. The next [_execute_command]
    starts with [connect]: when that fails the answer is the fixed error
    text and the command is not executed, when it succeeds the command is
    executed in the new session. *)
Theorem disconnect_then_execute (w : World) (command : str) (s : St) :
  session_ok (mon s) ->
  exists s1,
    disconnect s = (Ok tt, s1)
    /\ is_connected (mon s1) = false
    /\ client (mon s1) = client (mon s)
    /\ same_governor s s1
    /\ tick s1 = tick s
    /\ disconnect s1 = (Ok tt, s1)
    /\ exists c s2,
         connect w s1 = (Ok c, s2)
         /\ _execute_command w command s1
            = if c then execute_attempt w command s2
              else (Ok ([], u8 "Нет подключения к серверу"), s2).
Proof.
  intros Hok. eexists. split; [apply disconnect_run|].
  set (s1 := if client (mon s) && is_connected (mon s) then _ else s).
  assert (Hd : is_connected (mon s1) = false).
  { subst s1. destruct (client (mon s)) eqn:Ec, (is_connected (mon s)) eqn:Ei;
      cbn; try reflexivity; try assumption.
    specialize (Hok Ei). congruence. }
  split; [exact Hd|].
  split; [subst s1; destruct (client (mon s) && is_connected (mon s)); reflexivity|].
  split; [subst s1; destruct (client (mon s) && is_connected (mon s));
          repeat split|].
  split; [subst s1; destruct (client (mon s) && is_connected (mon s)); reflexivity|].
  split.
  { rewrite disconnect_run, Hd, andb_false_r. reflexivity. }
  destruct (proj1 (wp_returns _ _ _) (connect_outcome_wp w s1))
    as (c & s2 & Hc & _).
  exists c, s2. split; [exact Hc|].
  unfold _execute_command. erewrite bind_ok by reflexivity.
  rewrite Hd. cbn [negb].
  unfold bind at 1. unfold bind at 1. rewrite Hc.
  destruct c; reflexivity.
Qed.

Lemma disconnect_then_execute_witness :
  exists s1 s2,
    disconnect connected_state = (Ok tt, s1)
    /\ is_connected (mon s1) = false
    /\ _execute_command (dead_world false) (lit "uptime") s1
       = (Ok ([], u8 "Нет подключения к серверу"), s2).
Proof.
  destruct (disconnect_then_execute (dead_world false) (lit "uptime")
              connected_state) as (s1 & H1 & H2 & _ & _ & _ & _ & c & s2 & Hc & He).
  { intros _. reflexivity. }
  exists s1, s2. split; [exact H1|]. split; [exact H2|].
  rewrite He.
  assert (Hs1 : s1 = snd (disconnect connected_state)) by (rewrite H1; reflexivity).
  subst s1. vm_compute in Hc. injection Hc as <- <-. reflexivity.
Defined.

(** X4. [_execute_command] never raises and leaves the attributes of the
    governor alone. The error text it returns is empty only if one of the
    executions it made on the server returned with nothing on stderr, and
    the output is then the decoded stdout of that execution. If no
    execution returned, because there is no connection or because the
    library raised, the output is empty and the error text is not: the
    test [if stderr] of the callers sees every failure. *)
Theorem execute_command_error_contract (w : World) (command : str) (s : St) :
  exists out err s',
    _execute_command w command s = (Ok (out, err), s')
    /\ same_governor s s'
    /\ (err = [] ->
        exists n o,
          (tick s <= n < tick s')%nat
          /\ ssh_exec w n command = inl (o, [])
          /\ (out = decode_output o \/ out = decode_after_reconnect o))
    /\ ((forall n o e, (tick s <= n < tick s')%nat ->
                       ssh_exec w n command <> inl (o, e)) ->
        out = [] /\ err <> []).
Proof.
  destruct (proj1 (wp_returns _ _ _) (execute_command_contract_wp w command s))
    as ([out err] & s' & H & [H1 H2] & _).
  destruct (proj1 (wp_returns _ _ _) (execute_command_frame w command s))
    as (r & s'' & H' & Hs).
  rewrite H in H'. injection H' as <- <-.
  exists out, err, s'. auto.
Qed.

Lemma execute_command_error_contract_witness :
  exists err s',
    _execute_command (dead_world false) (lit "uptime") fresh_state
    = (Ok ([], err), s')
    /\ err <> [].
Proof.
  destruct (execute_command_error_contract (dead_world false) (lit "uptime")
              fresh_state) as (out & err & s' & H & _ & _ & H2).
  destruct H2 as [-> Hne]; [intros n o e _; discriminate|].
  exists err, s'. split; assumption.
Defined.

(** X5. [_execute_local_command] never raises, starts exactly one
    subprocess and changes no attribute. When the subprocess returns, the
    pair is its two outputs decoded; when starting it or waiting for it
    raises, the output is empty and the error text is not, the text of a
    timeout being fixed. An empty error text therefore means that the
    subprocess ran and wrote nothing to stderr. *)
Theorem execute_local_command_contract (w : World) (command : str) (s : St) :
  exists out err s',
    _execute_local_command w command s = (Ok (out, err), s')
    /\ mon s' = mon s
    /\ tick s' = S (tick s)
    /\ (forall o e, popen w (tick s) command = inl (o, e) ->
                    out = decode_output o /\ err = decode_output e)
    /\ (forall ex, popen w (tick s) command = inr ex ->
                   out = [] /\ err <> []
                   /\ (is_TimeoutExpired ex = true ->
                       err = u8 "Превышен таймаут выполнения команды"))
    /\ (err = [] ->
        exists o, popen w (tick s) command = inl (o, [])
                  /\ out = decode_output o).
Proof.
  unfold _execute_local_command, try_except, bind, ask, or_raise.
  cbn [mon tick trace].
  destruct (popen w (tick s) command) as [[o e]|ex] eqn:Hp.
  - cbn. do 3 eexists. split; [reflexivity|]. cbn [mon tick].
    split; [reflexivity|]. split; [reflexivity|].
    split; [intros o' e' H; injection H as <- <-; auto|].
    split; [discriminate|].
    intros He. apply decode_output_nil in He. subst e. eauto.
  - unfold raise. cbv beta iota.
    destruct (is_TimeoutExpired ex) eqn:Et; cbv beta iota;
      unfold ret, bind, log_error, emit; cbn [mon tick trace any_exception];
      do 3 eexists; (split; [reflexivity|]); cbn [mon tick];
      (split; [reflexivity|]); (split; [reflexivity|]);
      (split; [discriminate|]).
    + split.
      * intros ex' H. injection H as <-. split; [reflexivity|].
        split; [vm_compute; discriminate | reflexivity].
      * intros H. exfalso. vm_compute in H. discriminate H.
    + split.
      * intros ex' H. injection H as <-. split; [reflexivity|].
        split; [apply prefix_nonempty; vm_compute; discriminate|].
        congruence.
      * intros H. exfalso. revert H. apply prefix_nonempty.
        vm_compute. discriminate.
Qed.

Lemma execute_local_command_contract_witness :
  exists err s',
    _execute_local_command (dead_world true) (lit "ver") fresh_state
    = (Ok ([], err), s')
    /\ err <> [].
Proof.
  destruct (execute_local_command_contract (dead_world true) (lit "ver")
              fresh_state) as (out & err & s' & H & _ & _ & _ & H2 & _).
  destruct (H2 _ eq_refl) as (-> & Hne & _).
  exists err, s'. split; assumption.
Defined.

(** ** Decoding *)

Lemma utf8_length_le n :
  forall bs t, (length bs <= n)%nat -> Codec.utf8 bs = Some t ->
               (length t <= length bs)%nat.
Proof.
  induction n as [|n IH]; intros bs t Hn H.
  - destruct bs; [|cbn in Hn; lia]. cbn in H. injection H as <-. cbn. lia.
  - destruct bs as [|b0 r0]; [cbn in H; injection H as <-; cbn; lia|].
    cbn [Codec.utf8] in H. cbn [length] in *.
    repeat match type of H with
    | (if ?b then _ else _) = _ => destruct b
    | match ?l with [] => _ | _ :: _ => _ end = _ => destruct l; cbn [length] in *
    | option_map _ ?o = _ =>
        let E := fresh "E" in
        destruct o eqn:E; cbn [option_map] in H;
        [apply IH in E; [|lia] |]
    | None = Some _ => discriminate H
    | Some _ = Some _ => injection H as <-; cbn [length] in *; lia
    end.
Qed.

Lemma utf8_ascii bs :
  forallb (fun b => (b <? 128)%N) bs = true -> Codec.utf8 bs = Some bs.
Proof.
  induction bs as [|b bs IH]; [reflexivity|]. cbn [forallb Codec.utf8].
  intros H. apply andb_true_iff in H. destruct H as [Hb Hr].
  rewrite Hb, (IH Hr). reflexivity.
Qed.

Lemma forallb_map_comp {A B} (f : B -> bool) (g : A -> B) l :
  forallb f (map g l) = forallb (fun x => f (g x)) l.
Proof.
  induction l as [|x l IH]; [reflexivity|]. cbn [map forallb].
  rewrite IH. reflexivity.
Qed.

Lemma cp1251_length bs t : Codec.cp1251 bs = Some t -> length t = length bs.
Proof.
  revert t. induction bs as [|b bs IH]; intros t H; cbn [Codec.cp1251] in H.
  - injection H as <-. reflexivity.
  - destruct (cp1251_char b); [|discriminate].
    destruct (Codec.cp1251 bs) as [t'|]; cbn [option_map] in H; [|discriminate].
    injection H as <-. cbn [length]. rewrite (IH t' eq_refl). reflexivity.
Qed.

(** X6. The text that [_execute_command] and [_execute_local_command] make
    of the bytes of a command is empty exactly when the bytes are. Bytes
    that are valid UTF-8 are decoded as UTF-8, so ASCII output comes out
    character for character. The text never has more characters than
    there are bytes, and bytes that are not valid UTF-8 give one character
    per byte. *)
Theorem decode_output_faithful (data : bytes) :
  (decode_output data = [] <-> data = [])
  /\ (forall t, decode Utf8 data = Some t -> decode_output data = t)
  /\ (forallb (fun b => (Byte.to_N b <? 128)%N) data = true ->
      decode_output data = map Byte.to_N data)
  /\ (length (decode_output data) <= length data)%nat
  /\ (decode Utf8 data = None ->
      length (decode_output data) = length data).
Proof.
  assert (Hu : forall t, decode Utf8 data = Some t -> decode_output data = t).
  { intros t H. rewrite decode_output_chain, H.
    destruct data; [|reflexivity]. cbn in H. congruence. }
  split; [|split; [|split; [|split]]].
  - split; [apply decode_output_nil | intros ->; reflexivity].
  - exact Hu.
  - intros H. apply Hu. unfold decode. apply utf8_ascii.
    rewrite forallb_map_comp. exact H.
  - rewrite decode_output_chain. destruct data as [|b data]; [cbn; lia|].
    destruct (decode Utf8 (b :: data)) as [t|] eqn:E1.
    { unfold decode in E1. apply (utf8_length_le _ _ _ (le_n _)) in E1.
      rewrite length_map in E1. exact E1. }
    destruct (decode Cp1251 (b :: data)) as [t|] eqn:E2.
    { unfold decode in E2. apply cp1251_length in E2.
      rewrite length_map in E2. lia. }
    unfold decode_latin1_replace, latin1. rewrite length_map. lia.
  - intros E1. rewrite decode_output_chain, E1.
    destruct data as [|b data]; [reflexivity|].
    destruct (decode Cp1251 (b :: data)) as [t|] eqn:E2.
    { unfold decode in E2. apply cp1251_length in E2.
      rewrite length_map in E2. exact E2. }
    unfold decode_latin1_replace, latin1. apply length_map.
Qed.

Lemma decode_output_faithful_witness :
  decode_output [x75; x70]%byte = [117; 112]%N
  /\ length (decode_output [xd0; x9f]%byte) = 1%nat
  /\ length (decode_output [xff; xfe]%byte) = 2%nat.
Proof.
  destruct (decode_output_faithful [x75; x70]%byte) as (_ & _ & H3 & _).
  destruct (decode_output_faithful [xff; xfe]%byte) as (_ & _ & _ & _ & H5).
  split; [apply H3; reflexivity|].
  split; [reflexivity|].
  apply H5. reflexivity.
Defined.

(** ** The readers *)

Section WindowsReaders.

Context {rt : PyRuntime} (w : World).

Ltac wp_reader :=
  repeat (first
    [ wp_catch | wp_kind | wp_prim | wp_step
    | lazymatch goal with
      | |- wp (_execute_command _ _) _ _ _ => wp_call execute_command_frame
      | |- wp (_execute_local_command _ _) _ _ _ =>
          wp_call execute_local_command_frame
      end ];
    cbn [mon tick trace logged]).

Ltac value_leaf :=
  try contradiction;
  unfold gpu_value_ok, cpu_value_ok, same_governor in *;
  cbn [mon tick trace logged with_last_cpu_temp with_last_gpu_temp
       last_check_time check_interval last_cpu_temp last_gpu_temp] in *;
  cmp_facts;
  repeat match goal with H : _ /\ _ |- _ => destruct H end;
  repeat match goal with
         | H : last_gpu_temp (mon ?a) = last_gpu_temp (mon ?b) |- _ =>
             rewrite H in *; clear H
         | H : last_cpu_temp (mon ?a) = last_cpu_temp (mon ?b) |- _ =>
             rewrite H in *; clear H
         end;
  repeat match goal with |- _ /\ _ => split end;
  try reflexivity; try assumption; try lra;
  first [ left; first [assumption | lra] | right; reflexivity ].

Lemma amdgpu_utility_lines_value lines s0 s :
  same_governor s0 s ->
  wp (amdgpu_utility_lines lines) s
     (fun r s' => match r with
                  | Some v => gpu_value_ok s0 v s'
                  | None => same_governor s0 s'
                  end)
     (fun e s' => same_governor s0 s'
                  /\ (exn_kind e = IndexError \/ exn_kind e = ValueError)).
Proof.
  intros Hs. induction lines as [|line rest IH]; cbn [amdgpu_utility_lines].
  - wp_reader. exact Hs.
  - wp_reader; try exact IH.
    all: try solve [value_leaf].
    all: split; [exact Hs | auto].
Qed.

Lemma windows_gpu_value s :
  wp (_get_windows_gpu_temperature w) s (gpu_value_ok s) no_exn.
Proof.
  unfold _get_windows_gpu_temperature, value_lines.
  repeat (first
    [ lazymatch goal with
      | |- wp (amdgpu_utility_lines _) _ _ _ =>
          eapply wp_mono;
          [ apply amdgpu_utility_lines_value with (s0 := s)
          | intros [?|] ? ?
          | intros ? ? [? [?|?]] ]
      end
    | wp_reader ]).
  all: try solve [value_leaf].
  all: try match goal with
    | H : Some _ = Some _ |- _ => injection H as <-
    end.
  all: try solve [value_leaf].
  all: frame_leaf.
Qed.

Lemma windows_cpu_value s :
  wp (_get_windows_cpu_temperature w) s (cpu_value_ok s) no_exn.
Proof.
  unfold _get_windows_cpu_temperature, value_lines.
  wp_reader; value_leaf.
Qed.

End WindowsReaders.

(** X7. On Windows the GPU reader always returns a positive value: a
    parsed reading strictly between 0 and 150, the value stored before when
    that is positive, or the placeholder. The CPU reader returns a positive
    value or the value stored before. Each leaves what it returns in
    store. *)
Theorem windows_readers_positive {rt : PyRuntime} (w : World) (s : St) :
  is_windows w = true ->
  exists cpu s1 gpu s2,
    get_cpu_temperature w s = (Ok cpu, s1)
    /\ get_gpu_temperature w s = (Ok gpu, s2)
    /\ last_cpu_temp (mon s1) = cpu
    /\ last_gpu_temp (mon s2) = gpu
    /\ (0 < gpu)%Q
    /\ ((gpu < 150)%Q \/ gpu = last_gpu_temp (mon s))
    /\ ((0 < cpu)%Q \/ cpu = last_cpu_temp (mon s)).
Proof.
  intros Hw. unfold get_cpu_temperature, get_gpu_temperature. rewrite Hw.
  destruct (proj1 (wp_returns _ _ _) (windows_cpu_value w s))
    as (cpu & s1 & Hc & C1 & _ & C3).
  destruct (proj1 (wp_returns _ _ _) (windows_gpu_value w s))
    as (gpu & s2 & Hg & G1 & _ & G3 & G4).
  exists cpu, s1, gpu, s2. auto 10.
Qed.

Lemma windows_readers_positive_witness :
  exists cpu s1 gpu s2,
    @get_cpu_temperature rt_no_float (dead_world true) fresh_state = (Ok cpu, s1)
    /\ @get_gpu_temperature rt_no_float (dead_world true) fresh_state = (Ok gpu, s2)
    /\ (0 < gpu)%Q.
Proof.
  destruct (@windows_readers_positive rt_no_float (dead_world true) fresh_state
              eq_refl) as (cpu & s1 & gpu & s2 & H1 & H2 & _ & _ & H5 & _).
  exists cpu, s1, gpu, s2. auto.
Defined.

(** X8. On Windows a call of [check_temperature] that went through the
    readers reports a positive GPU temperature, so its status is [Error]
    exactly when the CPU temperature it reports is not positive. *)
Theorem windows_check_gpu_never_error {rt : PyRuntime} (w : World) (s : St)
    (r : TempInfo) (s' : St) :
  is_windows w = true ->
  check_temperature w s = (Ok r, s') ->
  cached r = false ->
  (0 < gpu_temp r)%Q
  /\ (status r = Error <-> (cpu_temp r <= 0)%Q).
Proof.
  intros Hw Heq Hc.
  destruct (Qltb (clock w (tick s) - last_check_time (mon s))
                 (check_interval (mon s))) eqn:Hwin.
  { destruct (check_temperature_cached w s Hwin) as (s0 & Heq0 & _).
    rewrite Heq0 in Heq. injection Heq as <- _. discriminate Hc. }
  destruct (check_temperature_fresh w s Hwin)
    as (cpu & gpu & s1 & s2 & s0 & H1 & H2 & Heq0 & _).
  rewrite Heq0 in Heq. injection Heq as <- _.
  cbn [gpu_temp cpu_temp status].
  unfold get_gpu_temperature in H2. rewrite Hw in H2.
  destruct (proj1 (wp_returns _ _ _) (windows_gpu_value w s1))
    as (gpu' & s2' & Hg & _ & _ & G3 & _).
  rewrite Hg in H2. injection H2 as -> _.
  split; [exact G3|].
  rewrite status_error_iff. split; [|auto].
  intros [H|H]; [exact H|]. exfalso. lra.
Qed.

Lemma windows_check_gpu_never_error_witness :
  exists r s',
    @check_temperature rt_no_float (dead_world true) fresh_state = (Ok r, s')
    /\ (0 < gpu_temp r)%Q.
Proof.
  destruct (@check_temperature_returns rt_no_float (dead_world true) fresh_state)
    as (r & s' & Heq & _).
  exists r, s'. split; [exact Heq|].
  refine (proj1 (@windows_check_gpu_never_error rt_no_float (dead_world true)
                   fresh_state r s' eq_refl Heq _)).
  vm_compute in Heq. injection Heq as <- _. reflexivity.
Defined.




(** ** The governor *)

(** X10. After every call of [check_temperature], cached or not, the
    readings in store are the readings the call returned. A cached call
    changes no attribute; a call that went through sets the time of the
    check and the interval that belongs to the status of what is now in
    store. So on a monitor whose interval fits its stored readings, as it
    does after [__init__], it still does after the call, and it is the
    interval of the status returned. *)
Theorem check_temperature_keeps_governor {rt : PyRuntime} (w : World) (s : St) :
  exists r s',
    check_temperature w s = (Ok r, s')
    /\ last_cpu_temp (mon s') = cpu_temp r
    /\ last_gpu_temp (mon s') = gpu_temp r
    /\ (cached r = true -> mon s' = mon s)
    /\ (cached r = false ->
        last_check_time (mon s') = clock w (tick s) /\ governor_ok (mon s'))
    /\ (governor_ok (mon s) ->
        governor_ok (mon s')
        /\ check_interval (mon s') = interval_for (status r)).
Proof.
  destruct (Qltb (clock w (tick s) - last_check_time (mon s))
                 (check_interval (mon s))) eqn:Hc.
  - destruct (check_temperature_cached w s Hc) as (s' & Heq & Hm & _).
    eexists; exists s'. split; [exact Heq|].
    cbn [cpu_temp gpu_temp status cached]. rewrite Hm.
    repeat split; auto; discriminate.
  - destruct (check_temperature_fresh w s Hc)
      as (cpu & gpu & s1 & s2 & s' & _ & _ & Heq & Ht & Hi & Hcpu & Hgpu).
    eexists; exists s'. split; [exact Heq|].
    cbn [cpu_temp gpu_temp status cached]. unfold governor_ok.
    rewrite Hcpu, Hgpu, Hi. repeat split; auto; discriminate.
Qed.

Lemma check_temperature_keeps_governor_witness :
  governor_ok (mon fresh_state)
  /\ exists r s',
       @check_temperature rt_no_float (dead_world false) fresh_state = (Ok r, s')
       /\ governor_ok (mon s')
       /\ check_interval (mon s') = interval_for (status r).
Proof.
  assert (H : governor_ok (mon fresh_state)) by reflexivity.
  split; [exact H|].
  destruct (@check_temperature_keeps_governor rt_no_float (dead_world false)
              fresh_state) as (r & s' & Heq & _ & _ & _ & _ & Hg).
  exists r, s'. split; [exact Heq | exact (Hg H)].
Defined.

Lemma factor_linear reading warning critical :
  (warning < critical)%Q ->
  (1 + 4 * (reading - warning) / (critical - warning)
   == 1 + (4 / (critical - warning)) * (reading - warning))%Q.
Proof. intros H. field. lra. Qed.

Lemma spec_factor_mono warning critical r1 r2 :
  (warning < critical)%Q -> (r1 <= r2)%Q ->
  (spec_factor r1 warning critical <= spec_factor r2 warning critical)%Q.
Proof.
  intros Hwc H. unfold spec_factor.
  assert (Hk : (0 < 4 / (critical - warning))%Q).
  { apply Qlt_shift_div_l; lra. }
  destruct (Qlt_le_dec warning r1), (Qlt_le_dec warning r2); cbv beta iota;
    rewrite ?factor_linear by exact Hwc;
    set (k := (4 / (critical - warning))%Q) in *; clearbody k.
  - assert ((0 <= k * (r2 - r1))%Q) by (apply Qmult_le_0_compat; lra). lra.
  - lra.
  - assert ((0 <= k * (r2 - warning))%Q) by (apply Qmult_le_0_compat; lra). lra.
  - lra.
Qed.

Lemma spec_factor_bands warning critical r :
  (warning < critical)%Q ->
  let f := spec_factor r warning critical in
  ((r <= warning)%Q -> f = 1%Q)
  /\ ((r < critical)%Q -> (f < 5)%Q)
  /\ ((critical <= r)%Q -> (5 <= f)%Q)
  /\ (1 <= f)%Q.
Proof.
  intros Hwc. cbv zeta. unfold spec_factor.
  assert (Hk : (0 < 4 / (critical - warning))%Q).
  { apply Qlt_shift_div_l; lra. }
  assert (Hk4 : (4 / (critical - warning) * (critical - warning) == 4)%Q).
  { field. lra. }
  destruct (Qlt_le_dec warning r) as [H|H]; cbv beta iota.
  - split; [intros; exfalso; lra|].
    split; [intros Hr|split; [intros Hr|]]; rewrite factor_linear by exact Hwc;
      set (k := (4 / (critical - warning))%Q) in *; clearbody k.
    + assert ((0 < k * (critical - r))%Q) by (apply Qmult_lt_0_compat; lra).
      lra.
    + assert ((0 <= k * (r - critical))%Q) by (apply Qmult_le_0_compat; lra).
      lra.
    + assert ((0 <= k * (r - warning))%Q) by (apply Qmult_le_0_compat; lra).
      lra.
  - split; [reflexivity|]. repeat split; intros; lra.
Qed.

(** The value [calculate_adaptive_delay] returns. *)
Lemma adaptive_delay_value {rt : PyRuntime} (w : World) (s : St) info s1 :
  check_temperature w s = (Ok info, s1) ->
  exists d s2,
    calculate_adaptive_delay w s = (Ok d, s2)
    /\ d = if Status_eqb (status info) Error then ((1 # 2) * 2)%Q
           else ((1 # 2)
                 * py_max (spec_factor (cpu_temp info) CPU_TEMP_WARNING CPU_TEMP_CRITICAL)
                          (spec_factor (gpu_temp info) GPU_TEMP_WARNING GPU_TEMP_CRITICAL))%Q.
Proof.
  intros Heq. unfold calculate_adaptive_delay, bind. rewrite Heq.
  cbv beta iota zeta. rewrite !code_factor_spec.
  destruct (Status_eqb (status info) Error); cbv beta iota;
    unfold bind, ret, log_action, emit; cbv beta iota;
    do 2 eexists; (split; reflexivity).
Qed.

(** X11. The delay of [calculate_adaptive_delay] follows the status of the
    same sample: exactly 0.5 s when it is [Normal], from 0.5 s to less than
    2.5 s when it is [Warning], at least 2.5 s when it is [Critical], 1 s
    when it is [Error], and never less than 0.5 s. Whenever
    [should_pause_processing], called in the same state, asks for a pause,
    the delay is at least 2.5 s. *)
Theorem adaptive_delay_bands {rt : PyRuntime} (w : World) (s : St) :
  exists info s1 d s2 pause reason s3,
    check_temperature w s = (Ok info, s1)
    /\ calculate_adaptive_delay w s = (Ok d, s2)
    /\ should_pause_processing w s = (Ok (pause, reason), s3)
    /\ (status info = Normal -> (d == 1 # 2)%Q)
    /\ (status info = Warning -> (1 # 2 <= d)%Q /\ (d < 5 # 2)%Q)
    /\ (status info = Critical -> (5 # 2 <= d)%Q)
    /\ (status info = Error -> (d == 1)%Q)
    /\ (1 # 2 <= d)%Q
    /\ (pause = true -> (5 # 2 <= d)%Q).
Proof.
  destruct (check_temperature_returns w s) as (info & s1 & Heq & Hst).
  destruct (adaptive_delay_value w s info s1 Heq) as (d & s2 & Hd & Hv).
  assert (Hp : exists pause reason s3,
             should_pause_processing w s = (Ok (pause, reason), s3)
             /\ (pause = true -> status info = Critical)).
  { unfold should_pause_processing, bind. rewrite Heq. cbv beta iota.
    destruct (status info); cbv beta iota zeta;
      unfold bind, ret, log_error, emit; cbv beta iota;
      do 3 eexists; (split; [reflexivity|]); congruence. }
  destruct Hp as (pause & reason & s3 & Hp & Hpc).
  exists info, s1, d, s2, pause, reason, s3.
  split; [exact Heq|]. split; [exact Hd|]. split; [exact Hp|].
  assert (HC : (CPU_TEMP_WARNING < CPU_TEMP_CRITICAL)%Q) by reflexivity.
  assert (HG : (GPU_TEMP_WARNING < GPU_TEMP_CRITICAL)%Q) by reflexivity.
  destruct (spec_factor_bands _ _ (cpu_temp info) HC) as (C1 & C2 & C3 & C4).
  destruct (spec_factor_bands _ _ (gpu_temp info) HG) as (G1 & G2 & G3 & G4).
  cbv zeta in *.
  set (fc := spec_factor (cpu_temp info) CPU_TEMP_WARNING CPU_TEMP_CRITICAL) in *.
  set (fg := spec_factor (gpu_temp info) GPU_TEMP_WARNING GPU_TEMP_CRITICAL) in *.
  assert (Hmax : (py_max fc fg == Qmax fc fg)%Q) by apply py_max_Qmax.
  assert (Hcrit : status info = Critical -> (5 # 2 <= d)%Q).
  { intros E. rewrite E in Hv. cbn [Status_eqb] in Hv. subst d.
    rewrite Hmax. rewrite Hst in E. apply status_critical_iff in E.
    destruct E as (_ & _ & [E|E]).
    - assert ((5 <= Qmax fc fg)%Q)
        by (apply Q.max_le_iff; left; apply C3, E).
      lra.
    - assert ((5 <= Qmax fc fg)%Q)
        by (apply Q.max_le_iff; right; apply G3, E).
      lra. }
  assert (Hlow : (1 <= Qmax fc fg)%Q) by (apply Q.max_le_iff; left; exact C4).
  split; [|split; [|split; [exact Hcrit|split; [|split]]]].
  - intros E. rewrite E in Hv. cbn [Status_eqb] in Hv. subst d.
    rewrite Hst in E. apply status_normal_iff in E.
    destruct E as (_ & _ & E1 & E2).
    rewrite Hmax, (C1 (Qlt_le_weak _ _ E1)), (G1 (Qlt_le_weak _ _ E2)).
    reflexivity.
  - intros E. rewrite E in Hv. cbn [Status_eqb] in Hv. subst d.
    rewrite Hst in E. apply status_warning_iff in E.
    destruct E as (_ & _ & E1 & E2 & _).
    rewrite Hmax.
    assert ((Qmax fc fg < 5)%Q) by (apply Q.max_lub_lt; auto).
    split; lra.
  - intros E. rewrite E in Hv. cbn [Status_eqb] in Hv. subst d. reflexivity.
  - subst d. destruct (Status_eqb (status info) Error); [lra|].
    rewrite Hmax. lra.
  - intros E. apply Hcrit, Hpc, E.
Qed.

Lemma adaptive_delay_bands_witness :
  exists d s2 reason s3,
    @calculate_adaptive_delay rt_no_float still_world hot_state = (Ok d, s2)
    /\ @should_pause_processing rt_no_float still_world hot_state
       = (Ok (true, reason), s3)
    /\ (5 # 2 <= d)%Q.
Proof.
  destruct (@adaptive_delay_bands rt_no_float still_world hot_state)
    as (info & s1 & d & s2 & pause & reason & s3 & H1 & H2 & H3 & _ & _ & _ & _ & _ & H9).
  assert (Hp : pause = true).
  { vm_compute in H3. injection H3 as <- _. reflexivity. }
  subst pause. exists d, s2, reason, s3.
  split; [exact H2|]. split; [exact H3|]. apply H9. reflexivity.
Defined.

(** X12. Between two samples whose status is not [Error], the one with the
    higher CPU reading and the higher GPU reading never gets the shorter
    delay: [calculate_adaptive_delay] is monotone in both readings. *)
Theorem adaptive_delay_monotone {rt : PyRuntime} (w1 w2 : World) (s1 s2 : St)
    info1 s1' info2 s2' :
  check_temperature w1 s1 = (Ok info1, s1') ->
  check_temperature w2 s2 = (Ok info2, s2') ->
  status info1 <> Error -> status info2 <> Error ->
  (cpu_temp info1 <= cpu_temp info2)%Q ->
  (gpu_temp info1 <= gpu_temp info2)%Q ->
  exists d1 t1 d2 t2,
    calculate_adaptive_delay w1 s1 = (Ok d1, t1)
    /\ calculate_adaptive_delay w2 s2 = (Ok d2, t2)
    /\ (d1 <= d2)%Q.
Proof.
  intros H1 H2 E1 E2 Hc Hg.
  destruct (adaptive_delay_value w1 s1 info1 s1' H1) as (d1 & t1 & Hd1 & Hv1).
  destruct (adaptive_delay_value w2 s2 info2 s2' H2) as (d2 & t2 & Hd2 & Hv2).
  exists d1, t1, d2, t2. split; [exact Hd1|]. split; [exact Hd2|].
  replace (Status_eqb (status info1) Error) with false in Hv1
    by (destruct (status info1); first [reflexivity | congruence]).
  replace (Status_eqb (status info2) Error) with false in Hv2
    by (destruct (status info2); first [reflexivity | congruence]).
  subst d1 d2. rewrite !py_max_Qmax.
  assert (HC : (CPU_TEMP_WARNING < CPU_TEMP_CRITICAL)%Q) by reflexivity.
  assert (HG : (GPU_TEMP_WARNING < GPU_TEMP_CRITICAL)%Q) by reflexivity.
  pose proof (spec_factor_mono _ _ _ _ HC Hc) as Mc.
  pose proof (spec_factor_mono _ _ _ _ HG Hg) as Mg.
  pose proof (Q.max_le_compat _ _ _ _ Mc Mg). lra.
Qed.

Lemma adaptive_delay_monotone_witness :
  exists d1 t1 d2 t2,
    @calculate_adaptive_delay rt_no_float still_world warm_state = (Ok d1, t1)
    /\ @calculate_adaptive_delay rt_no_float still_world hot_state = (Ok d2, t2)
    /\ (d1 <= d2)%Q.
Proof.
  eapply (@adaptive_delay_monotone rt_no_float still_world still_world
            warm_state hot_state).
  - vm_compute. reflexivity.
  - vm_compute. reflexivity.
  - discriminate.
  - discriminate.
  - vm_compute. discriminate.
  - vm_compute. discriminate.
Defined.

(** ** Load, memory and the full report *)

Section MemoryRounding.

Local Open Scope Q_scope.

Lemma ilog2_ge_0 x : 1 <= x -> (0 <= ilog2 x)%Z.
Proof.
  intros H. replace 0%Z with (ilog2 1) by reflexivity.
  apply ilog2_le; [reflexivity | exact H].
Qed.

(** Among the integers, rounding commutes with the division by a power of
    two. *)
Lemma round64_div_pow2 x z k :
  x == inject_Z z -> (0 <= k <= 1000)%Z ->
  round64 (x / pow2 k) == round64 x / pow2 k.
Proof.
  intros E Hk. pose proof (pow2_pos k) as Pk.
  assert (Ek : pow2 (- k) == / pow2 k).
  { apply Qmult_inj_r with (z := pow2 k); [lra|].
    rewrite <- pow2_plus. replace (- k + k)%Z with 0%Z by lia.
    change (pow2 0) with 1. field. lra. }
  assert (Ed : x / pow2 k == x * pow2 (- k)) by (rewrite Ek; reflexivity).
  rewrite (round64_comp _ _ Ed).
  destruct (Qeq_dec x 0) as [Z|N].
  { rewrite (round64_zero (x * pow2 (- k))) by (rewrite Z; ring).
    rewrite (round64_zero x Z). field. lra. }
  assert (Nz : z <> 0%Z) by (intros ->; apply N; exact E).
  assert (A : 1 <= Qabs x).
  { rewrite E, Qabs_inject_Z. change 1 with (inject_Z 1).
    rewrite <- Zle_Qle. lia. }
  pose proof (ilog2_ge_0 _ A) as L.
  rewrite round64_scale by (try exact N; lia).
  rewrite Ek. reflexivity.
Qed.

(** In the first Windows branch the three sizes in megabytes are exact
    quotients, and the used part is the rounded difference of the other
    two. *)
Lemma cim_parts v0 v1 :
  let total_kb := round64 (inject_Z v0) in
  let free_kb := round64 (inject_Z v1) in
  fdiv (fsub total_kb free_kb) 1024
  == fsub (fdiv total_kb 1024) (fdiv free_kb 1024).
Proof.
  cbv zeta.
  destruct (round64_integer v0) as [z0 E0].
  destruct (round64_integer v1) as [z1 E1].
  set (t := round64 (inject_Z v0)) in *. set (f := round64 (inject_Z v1)) in *.
  assert (Bt : round64 t == t) by apply round64_binary64.
  assert (Bf : round64 f == f) by apply round64_binary64.
  change 1024 with (pow2 10). unfold fdiv, fsub.
  assert (Ed : t - f == inject_Z (z0 - z1)).
  { rewrite E0, E1. unfold Z.sub. rewrite inject_Z_plus, inject_Z_opp. ring. }
  destruct (round64_integer (z0 - z1)) as [z2 E2].
  rewrite <- (round64_comp _ _ Ed) in E2.
  pose proof (pow2_pos 10) as P.
  rewrite (round64_div_pow2 _ z2 10 E2) by lia.
  assert (Bd : round64 (round64 (t - f)) == round64 (t - f))
    by apply round64_binary64.
  rewrite Bd.
  assert (Et : round64 (t / pow2 10) == t / pow2 10).
  { rewrite (round64_div_pow2 t z0 10 E0) by lia. rewrite Bt. reflexivity. }
  assert (Ef : round64 (f / pow2 10) == f / pow2 10).
  { rewrite (round64_div_pow2 f z1 10 E1) by lia. rewrite Bf. reflexivity. }
  assert (Es : round64 (t / pow2 10) - round64 (f / pow2 10)
               == (t - f) / pow2 10).
  { rewrite Et, Ef. field. lra. }
  rewrite (round64_comp _ _ Es).
  rewrite (round64_div_pow2 _ _ 10 Ed) by lia. reflexivity.
Qed.

(** The percentage of a used part between nothing and the total. *)
Lemma percent_of_range used total :
  0 <= used -> used <= total ->
  0 <= percent_of used total /\ percent_of used total <= 100.
Proof.
  intros H0 H1. unfold percent_of.
  destruct (Qgtb total 0) eqn:E; cmp_facts; [|split; lra].
  assert (Hq0 : 0 <= used / total) by (apply Qle_shift_div_l; lra).
  assert (Hq1 : used / total <= 1) by (apply Qle_shift_div_r; lra).
  unfold fmul, fdiv.
  pose proof (round64_nonneg _ Hq0) as R0.
  pose proof (round64_mono _ _ Hq1) as R1.
  change (round64 1) with 1 in R1.
  set (q := round64 (used / total)) in *. clearbody q.
  split.
  - apply round64_nonneg. lra.
  - assert (H : q * 100 <= 100) by lra.
    apply round64_mono in H. exact H.
Qed.

End MemoryRounding.

Section SystemStatusFacts.

Context {rt : PyRuntime} {ri : PyInt} (w : World).

Ltac wp_reader :=
  repeat (first
    [ wp_catch | wp_kind | wp_prim | wp_step
    | lazymatch goal with
      | |- wp (_execute_command _ _) _ _ _ => wp_call execute_command_frame
      | |- wp (_execute_local_command _ _) _ _ _ =>
          wp_call execute_local_command_frame
      end ];
    cbn [mon tick trace logged]).

Lemma get_system_load_wp s :
  wp (get_system_load w) s
     (fun r s' =>
        same_governor s s'
        /\ (is_windows w = true ->
            load_1min r = load_5min r /\ load_5min r = load_15min r))
     no_exn.
Proof.
  unfold get_system_load, value_lines. wp_reader.
  all: try contradiction.
  all: split; [frame_leaf|].
  all: try solve [intros; split; reflexivity].
  all: try solve [intros; congruence].
Qed.

Lemma memory_dict_run total used free (s : St) :
  memory_dict total used free s
  = (Ok {| total_mb := total; used_mb := used; free_mb := free;
           used_percent := percent_of used total |}, s).
Proof.
  unfold memory_dict, percent_of, bind, truediv, ret.
  destruct (Qgtb total 0) eqn:E; [|reflexivity].
  apply Qgtb_true in E.
  destruct (Qeq_bool total 0) eqn:E0; [|reflexivity].
  apply Qeq_bool_iff in E0. exfalso. lra.
Qed.

Lemma wp_memory_dict total used free s (Q : MemInfo -> St -> Prop) E :
  Q {| total_mb := total; used_mb := used; free_mb := free;
       used_percent := percent_of used total |} s ->
  wp (memory_dict total used free) s Q E.
Proof. intros H. unfold wp. rewrite memory_dict_run. exact H. Qed.

Lemma wp_float_of_int n s (Q : Q -> St -> Prop) (E : Exn -> St -> Prop) :
  Q (round64 (inject_Z n)) s -> (forall e, E e s) ->
  wp (float_of_int n) s Q E.
Proof.
  intros HQ HE. unfold float_of_int. cbv zeta.
  destruct (Qle_bool _ _); [apply wp_raise, HE | apply wp_ret, HQ].
Qed.

Lemma digit_words_pure words s :
  wp (digit_words words) s (fun _ s' => s' = s) (fun _ s' => s' = s).
Proof.
  revert s. induction words as [|x rest IH]; intros s; cbn [digit_words].
  - apply wp_ret. reflexivity.
  - destruct (isdigit x); [|apply IH].
    apply wp_bind. unfold int_. destruct (py_int x).
    + apply wp_ret. apply wp_bind. eapply wp_mono; [apply IH | |]; cbv beta.
      * intros a s' ->. apply wp_ret. reflexivity.
      * auto.
    + apply wp_raise. reflexivity.
Qed.

Lemma memory_from_cim_wp s :
  wp (memory_from_cim w) s
     (fun r s' => same_governor s s'
                  /\ match r with
                     | Some d => memory_ok true d
                     | None => True
                     end)
     (fun _ s' => same_governor s s').
Proof.
  unfold memory_from_cim.
  repeat (first
    [ lazymatch goal with
      | |- wp (digit_words _) _ _ _ =>
          eapply wp_mono;
          [ apply digit_words_pure | intros ? ? -> | intros ? ? -> ]
      | |- wp (memory_dict _ _ _) _ _ _ => apply wp_memory_dict
      | |- wp (float_of_int _) _ _ _ => apply wp_float_of_int; [|intros ?]
      end
    | wp_reader ]).
  all: try solve [frame_leaf].
  all: try solve [split; [frame_leaf | exact I]].
  all: split; [frame_leaf|].
  all: unfold memory_ok, percent_ok; cbn [total_mb used_mb free_mb used_percent].
  all: split; [reflexivity | intros _].
  all: split; [apply cim_parts | intros _; apply round64_binary64].
Qed.

Lemma memory_from_systeminfo_wp s :
  wp (memory_from_systeminfo w) s
     (fun r s' => same_governor s s'
                  /\ match r with
                     | Some d => memory_ok true d
                     | None => True
                     end)
     (fun _ s' => same_governor s s').
Proof.
  unfold memory_from_systeminfo, number_after_colon.
  repeat (first
    [ lazymatch goal with
      | |- wp (memory_dict _ _ _) _ _ _ => apply wp_memory_dict
      end
    | wp_reader ]).
  all: try solve [frame_leaf].
  all: try solve [split; [frame_leaf | exact I]].
  all: split; [frame_leaf|].
  all: unfold memory_ok, percent_ok; cbn [total_mb used_mb free_mb used_percent].
  all: split; [reflexivity | intros _].
  all: split; [reflexivity | intros Hf; eapply Hf; eassumption].
Qed.

Lemma default_memory_ok windows : memory_ok windows default_memory.
Proof.
  split; [vm_compute; reflexivity|]. intros _.
  split; [vm_compute; reflexivity | intros _; vm_compute; reflexivity].
Qed.

Lemma get_memory_usage_wp s :
  wp (get_memory_usage w) s
     (fun r s' => same_governor s s' /\ memory_ok (is_windows w) r)
     no_exn.
Proof.
  unfold get_memory_usage. fold default_memory.
  destruct (is_windows w) eqn:Hw.
  - apply wp_bind, wp_try.
    eapply wp_mono; [apply memory_from_cim_wp | |]; cbv beta.
    + intros [d|] s1 [Hs1 Hd].
      * apply wp_ret. split; assumption.
      * apply wp_bind, wp_try.
        eapply wp_mono; [apply memory_from_systeminfo_wp | |]; cbv beta.
        -- intros [d|] s2 [Hs2 Hd2].
           ++ apply wp_ret. split; [|assumption].
              eapply same_governor_trans; eassumption.
           ++ apply wp_ret. split; [eapply same_governor_trans; eassumption|].
              apply default_memory_ok.
        -- intros e s2 Hs2. wp_catch. wp_run.
           split; [eapply same_governor_trans; [exact Hs1|]; frame_leaf|].
           apply default_memory_ok.
    + intros e s1 Hs1. wp_catch. wp_run.
      eapply wp_mono; [apply memory_from_systeminfo_wp | |]; cbv beta.
      * intros [d|] s2 [Hs2 Hd2].
        -- apply wp_ret. split; [|assumption]. frame_leaf.
        -- apply wp_ret. split; [frame_leaf|]. apply default_memory_ok.
      * intros e2 s2 Hs2. wp_catch. wp_run.
        split; [frame_leaf|]. apply default_memory_ok.
  - repeat (first
      [ lazymatch goal with
        | |- wp (memory_dict _ _ _) _ _ _ => apply wp_memory_dict
        end
      | wp_reader ]).
    all: try contradiction.
    all: split; [frame_leaf|].
    all: unfold memory_ok, percent_ok; cbn [total_mb used_mb free_mb used_percent].
    all: split; [reflexivity | discriminate].
Qed.

End SystemStatusFacts.

(** X13. [get_system_load] never raises and leaves the attributes of the
    governor alone. On Windows its three loads are one and the same number:
    a hundredth, rounded, of what [float] reads in the first line of values
    under the header [Average], and 0.5 when the command reports on stderr,
    prints no such header or no such line, or [float] rejects the line. On
    Linux the answer is all or nothing: three zeros when the command
    reports on stderr, prints fewer than three fields or one of its first
    three fields is rejected by [float], and otherwise those three fields,
    each as [float] reads it. *)
Theorem get_system_load_contract {rt : PyRuntime} (w : World) (s : St) :
  exists r s',
    get_system_load w s = (Ok r, s')
    /\ same_governor s s'
    /\ (is_windows w = true ->
        load_1min r = load_5min r /\ load_5min r = load_15min r
        /\ exists out err s1,
             _execute_local_command w AVERAGE_COMMAND s = (Ok (out, err), s1)
             /\ (err <> [] \/ contains (lit "Average") out = false ->
                 r = half_load)
             /\ (err = [] -> contains (lit "Average") out = true ->
                 match value_lines (lit "Average") out with
                 | [] => r = half_load
                 | line0 :: _ =>
                     match py_float (strip line0) with
                     | Some x => load_1min r = fdiv x 100
                     | None => r = half_load
                     end
                 end))
    /\ (is_windows w = false ->
        exists out err,
          _execute_command w LOADAVG_COMMAND s = (Ok (out, err), s')
          /\ (err <> [] -> r = zero_load)
          /\ (err = [] ->
              (forall a b c rest x y z,
                 split_ws (strip out) = a :: b :: c :: rest ->
                 py_float a = Some x -> py_float b = Some y ->
                 py_float c = Some z ->
                 r = {| load_1min := x; load_5min := y; load_15min := z |})
              /\ ((length (split_ws (strip out)) < 3)%nat -> r = zero_load)
              /\ (forall t, In t (firstn 3 (split_ws (strip out))) ->
                            py_float t = None -> r = zero_load))).
Proof.
  destruct (proj1 (wp_returns _ _ _) (get_system_load_wp w s))
    as (r & s' & Hrun & Hs & Hwin).
  exists r, s'. split; [exact Hrun|]. split; [exact Hs|]. split.
  - intros Hw. destruct (Hwin Hw) as [E1 E2].
    split; [exact E1|]. split; [exact E2|].
    destruct (execute_local_command_total w AVERAGE_COMMAND s)
      as ([out err] & s1 & H1).
    exists out, err, s1. split; [exact H1|].
    unfold get_system_load in Hrun. rewrite Hw in Hrun. cbv zeta in Hrun.
    fold AVERAGE_COMMAND in Hrun.
    unfold bind at 1, try_except in Hrun. erewrite bind_ok in Hrun by exact H1.
    destruct err as [|c0 err]; cbn [truthy negb andb] in Hrun.
    2: { injection Hrun as <- <-. split; [reflexivity|]. discriminate. }
    destruct (contains (lit "Average") out) eqn:Ec.
    2: { injection Hrun as <- <-. split; [reflexivity|]. discriminate. }
    split; [intros [H|H]; congruence|]. intros _ _.
    destruct (value_lines (lit "Average") out) as [|line0 lines].
    { injection Hrun as <- <-. reflexivity. }
    unfold bind, float_, ret, raise in Hrun.
    destruct (py_float (strip line0)) as [x|].
    + injection Hrun as <- <-. reflexivity.
    + cbn in Hrun. injection Hrun as <- <-. reflexivity.
  - intros Hw.
    destruct (execute_command_total w LOADAVG_COMMAND s) as ([out err] & s1 & H1).
    exists out, err.
    unfold get_system_load in Hrun. rewrite Hw in Hrun. cbv zeta in Hrun.
    fold LOADAVG_COMMAND in Hrun. erewrite bind_ok in Hrun by exact H1.
    destruct err as [|c0 err]; cbn [truthy] in Hrun.
    2: { injection Hrun as <- <-. split; [exact H1|]. split; [reflexivity|].
         discriminate. }
    unfold try_except, bind, index, float_, ret, raise in Hrun.
    fold zero_load in Hrun.
    destruct (split_ws (strip out)) as [|a [|b [|c rest]]];
      cbn [firstn nth_error] in Hrun.
    1: { injection Hrun as <- <-. split; [exact H1|].
         split; [congruence|]. intros _.
         split; [discriminate|]. split; [reflexivity|]. intros t []. }
    all: destruct (py_float a) as [x|] eqn:Ea.
    all: try (destruct (py_float b) as [y|] eqn:Eb).
    all: try (destruct (py_float c) as [z|] eqn:Ec).
    all: cbn in Hrun; injection Hrun as <- <-.
    all: split; [exact H1|]; split; [congruence|]; intros _.
    all: split; [intros ? ? ? ? ? ? ? [= <- <- <- <-] ? ? ?; congruence|].
    all: split; [cbn [length]; try reflexivity; intros; exfalso; lia|].
    all: intros t Ht Hn; cbn in Ht; rewrite ?take_0 in Ht; cbn in Ht;
         first [ reflexivity
               | exfalso;
                 repeat match type of Ht with
                        | _ \/ _ => destruct Ht as [Ht|Ht]
                        | False => destruct Ht
                        | _ = ?v => subst v
                        end; congruence ].
Qed.

Lemma get_system_load_contract_witness :
  (exists s',
     @get_system_load rt_float64 loadavg_world connected_state
     = (Ok {| load_1min := round64 (52 # 100); load_5min := round64 (58 # 100);
              load_15min := round64 (59 # 100) |}, s'))
  /\ (exists s',
        @get_system_load rt_float64 average_world fresh_state
        = (Ok {| load_1min := round64 (37 # 100); load_5min := round64 (37 # 100);
                 load_15min := round64 (37 # 100) |}, s')).
Proof.
  split.
  - destruct (@get_system_load_contract rt_float64 loadavg_world connected_state)
      as (r & s' & Hrun & _ & _ & H).
    destruct (H eq_refl) as (out & err & Hex & _ & Hparse).
    assert (Ho : out = lit "0.52 0.58 0.59 1/257 12345" ++ [10%N] /\ err = []).
    { vm_compute in Hex. injection Hex as <- <- _. split; reflexivity. }
    destruct Ho as [-> ->].
    destruct (Hparse eq_refl) as (Hthree & _).
    exists s'. rewrite Hrun. f_equal. f_equal.
    apply (Hthree (lit "0.52") (lit "0.58") (lit "0.59")
             [lit "1/257"; lit "12345"]); vm_compute; reflexivity.
  - destruct (@get_system_load_contract rt_float64 average_world fresh_state)
      as (r & s' & Hrun & _ & H & _).
    destruct (H eq_refl) as (E1 & E2 & out & err & s1 & Hex & _ & Hv).
    assert (Ho : out = lit "Average" ++ [10%N] ++ lit "     37" ++ [10%N]
                 /\ err = []).
    { vm_compute in Hex. injection Hex as <- <- _. split; reflexivity. }
    destruct Ho as [-> ->].
    specialize (Hv eq_refl). 
    assert (Hc : contains (lit "Average")
                   (lit "Average" ++ [10%N] ++ lit "     37" ++ [10%N]) = true)
      by (vm_compute; reflexivity).
    specialize (Hv Hc). vm_compute in Hv.
    exists s'. rewrite Hrun. clear Hrun Hex Hc. destruct r as [l1 l5 l15].
    cbn in E1, E2, Hv. subst l5 l15 l1. vm_compute. reflexivity.
Defined.

(** X14. [get_memory_usage] never raises (in particular it never divides by
    zero) and leaves the attributes of the governor alone. In every branch,
    the defaults included, [used_percent] is the quotient of [used_mb] by
    [total_mb], rounded, times 100, rounded, when the total is positive, and
    0 otherwise. On Windows [used_mb] is [total_mb - free_mb], rounded; so
    when [float] returns doubles, a free amount between 0 and the total
    gives a used amount between 0 and the total and a percentage between 0
    and 100. On Linux an error text of the command gives four zeros, and
    when fields 1 to 3 of the output are accepted by [float] the three
    amounts are those readings divided by 2^20. *)
Theorem get_memory_usage_contract {rt : PyRuntime} {ri : PyInt}
    (w : World) (s : St) :
  exists r s',
    get_memory_usage w s = (Ok r, s')
    /\ same_governor s s'
    /\ percent_ok r
    /\ (is_windows w = true ->
        (used_mb r == fsub (total_mb r) (free_mb r))%Q
        /\ (float_returns_doubles ->
            (0 <= free_mb r)%Q -> (free_mb r <= total_mb r)%Q ->
            (0 <= used_mb r)%Q /\ (used_mb r <= total_mb r)%Q
            /\ (0 <= used_percent r)%Q /\ (used_percent r <= 100)%Q))
    /\ (is_windows w = false ->
        exists out err,
          _execute_command w FREE_COMMAND s = (Ok (out, err), s')
          /\ (err <> [] -> r = zero_memory)
          /\ (err = [] ->
              forall f0 f1 f2 f3 rest x1 x2 x3,
                split_ws (strip out) = f0 :: f1 :: f2 :: f3 :: rest ->
                py_float f1 = Some x1 -> py_float f2 = Some x2 ->
                py_float f3 = Some x3 ->
                total_mb r = fdiv x1 (1024 * 1024)
                /\ used_mb r = fdiv x2 (1024 * 1024)
                /\ free_mb r = fdiv x3 (1024 * 1024))).
Proof.
  destruct (proj1 (wp_returns _ _ _) (get_memory_usage_wp w s))
    as (r & s' & Hrun & Hs & Hp & Hsum).
  exists r, s'. split; [exact Hrun|]. split; [exact Hs|]. split; [exact Hp|].
  split.
  - intros Hw. destruct (Hsum Hw) as [Hu Hb]. split; [exact Hu|].
    intros Hf H0 H1. specialize (Hb Hf). unfold binary64 in Hb.
    assert (U0 : (0 <= used_mb r)%Q).
    { rewrite Hu. apply round64_nonneg. lra. }
    assert (U1 : (used_mb r <= total_mb r)%Q).
    { rewrite Hu. unfold fsub.
      assert (M : (round64 (total_mb r - free_mb r) <= round64 (total_mb r))%Q)
        by (apply round64_mono; lra).
      lra. }
    split; [exact U0|]. split; [exact U1|].
    unfold percent_ok in Hp. rewrite Hp.
    apply percent_of_range; assumption.
  - intros Hw.
    destruct (execute_command_total w FREE_COMMAND s) as ([out err] & s1 & H1).
    exists out, err.
    unfold get_memory_usage in Hrun. rewrite Hw in Hrun. cbv zeta in Hrun.
    fold FREE_COMMAND in Hrun. erewrite bind_ok in Hrun by exact H1.
    destruct err as [|c0 err]; cbn [truthy] in Hrun.
    2: { injection Hrun as <- <-. split; [exact H1|]. split; [reflexivity|].
         discriminate. }
    assert (Hs1 : s' = s1).
    { revert Hrun. unfold try_except, bind, index, float_, ret, raise.
      repeat (match goal with
              | |- context [nth_error ?l ?i] => destruct (nth_error l i)
              | |- context [py_float ?t] => destruct (py_float t)
              end; cbv beta iota);
        rewrite ?memory_dict_run; cbn; congruence. }
    subst s1. split; [exact H1|]. split; [congruence|]. intros _.
    intros f0 f1 f2 f3 rest x1 x2 x3 Hsplit E1 E2 E3.
    revert Hrun. unfold try_except, bind, index, float_, ret.
    rewrite Hsplit. cbn [nth_error]. rewrite E1, E2, E3, memory_dict_run.
    intros [= <-]. repeat split.
Qed.

Lemma rt_no_float_doubles : @float_returns_doubles rt_no_float.
Proof. intros t x H. discriminate H. Qed.

Lemma get_memory_usage_contract_witness :
  (exists r s',
     @get_memory_usage rt_no_float ri_decimal
       (cim_world (cim_table (list_byte_of_string "16315000")
                             (list_byte_of_string "4200000")))
       fresh_state = (Ok r, s')
     /\ (total_mb r == 2039375 # 128)%Q
     /\ (free_mb r == 65625 # 16)%Q
     /\ (used_mb r == 1514375 # 128)%Q
     /\ (0 <= used_percent r)%Q /\ (used_percent r <= 100)%Q)
  /\ (exists s',
        @get_memory_usage rt_no_float ri_decimal
          (cim_world (cim_table (x31 :: repeat x30 400)%byte
                                (list_byte_of_string "4200000")))
          fresh_state = (Ok default_memory, s'))
  /\ (exists r s',
        @get_memory_usage rt_float64 ri_decimal free_world connected_state
        = (Ok r, s')
        /\ total_mb r = 3072%Q /\ used_mb r = 1024%Q /\ free_mb r = 2048%Q
        /\ (used_percent r == 2345624805922133 # 70368744177664)%Q
        /\ ~ (used_percent r == 100 # 3)%Q).
Proof.
  split; [|split].
  - destruct (@get_memory_usage_contract rt_no_float ri_decimal
                (cim_world (cim_table (list_byte_of_string "16315000")
                                      (list_byte_of_string "4200000")))
                fresh_state) as (r & s' & Hrun & _ & _ & H & _).
    destruct (H eq_refl) as [_ Hrange].
    assert (Hr : total_mb r = (2039375 # 128)%Q
                 /\ free_mb r = (65625 # 16)%Q
                 /\ used_mb r = (1514375 # 128)%Q).
    { vm_compute in Hrun. injection Hrun as <- _. repeat split. }
    destruct Hr as (Et & Ef & Eu).
    destruct (Hrange rt_no_float_doubles) as (_ & _ & P0 & P1).
    { rewrite Ef. vm_compute. discriminate. }
    { rewrite Ef, Et. vm_compute. discriminate. }
    exists r, s'. split; [exact Hrun|].
    rewrite Et, Ef, Eu. repeat split; try reflexivity; assumption.
  - eexists. vm_compute. reflexivity.
  - destruct (@get_memory_usage_contract rt_float64 ri_decimal free_world
                connected_state) as (r & s' & Hrun & _ & Hp & _ & H).
    destruct (H eq_refl) as (out & err & Hex & _ & Hparse).
    assert (Ho : out = lit "Mem: 3221225472 1073741824 2147483648" ++ [10%N]
                 /\ err = []).
    { vm_compute in Hex. injection Hex as <- <- _. split; reflexivity. }
    destruct Ho as [-> ->].
    destruct (Hparse eq_refl (lit "Mem:") (lit "3221225472") (lit "1073741824")
                (lit "2147483648") [] 3221225472%Q 1073741824%Q 2147483648%Q)
      as (Et & Eu & Ef); try (vm_compute; reflexivity).
    exists r, s'. split; [exact Hrun|].
    assert (Et' : total_mb r = 3072%Q) by (rewrite Et; vm_compute; reflexivity).
    assert (Eu' : used_mb r = 1024%Q) by (rewrite Eu; vm_compute; reflexivity).
    assert (Ef' : free_mb r = 2048%Q) by (rewrite Ef; vm_compute; reflexivity).
    split; [exact Et'|]. split; [exact Eu'|]. split; [exact Ef'|].
    unfold percent_ok in Hp. rewrite Hp, Et', Eu'.
    split; [vm_compute; reflexivity | vm_compute; discriminate].
Defined.

(** X15. [get_full_system_status] never raises. Its thermal part is what
    [check_temperature] returns in the same state, with the status of its
    own two temperatures, and the probes for load and memory that follow
    do not disturb it: the temperatures of the report are those left in
    store. The percentage of its memory part is the rounded quotient of the
    used amount by the total, times 100, rounded. The time stamp is the
    last reading of the clock. *)
Theorem get_full_system_status_contract {rt : PyRuntime} {ri : PyInt}
    (w : World) (s : St) :
  exists r s',
    get_full_system_status w s = (Ok r, s')
    /\ (exists s1, check_temperature w s = (Ok (temperature r), s1))
    /\ status (temperature r)
       = status_of (cpu_temp (temperature r)) (gpu_temp (temperature r))
    /\ last_cpu_temp (mon s') = cpu_temp (temperature r)
    /\ last_gpu_temp (mon s') = gpu_temp (temperature r)
    /\ percent_ok (memory r)
    /\ (exists n, tick s' = S n /\ timestamp r = clock w n).
Proof.
  destruct (check_temperature_returns w s) as (t & s1 & Ht & Hst).
  assert (Hlast : last_cpu_temp (mon s1) = cpu_temp t
                  /\ last_gpu_temp (mon s1) = gpu_temp t).
  { destruct (Qltb (clock w (tick s) - last_check_time (mon s))
                   (check_interval (mon s))) eqn:Hc.
    - destruct (check_temperature_cached w s Hc) as (s0 & Heq & Hm & _).
      rewrite Heq in Ht. injection Ht as <- <-. rewrite Hm. split; reflexivity.
    - destruct (check_temperature_fresh w s Hc)
        as (cpu & gpu & sa & sb & s0 & _ & _ & Heq & _ & _ & Hcpu & Hgpu).
      rewrite Heq in Ht. injection Ht as <- <-. split; assumption. }
  destruct (proj1 (wp_returns _ _ _) (get_system_load_wp w s1))
    as (l & s2 & Hl & Hs2 & _).
  destruct (proj1 (wp_returns _ _ _) (get_memory_usage_wp w s2))
    as (m & s3 & Hm & Hs3 & Hp & _).
  unfold get_full_system_status.
  erewrite bind_ok by exact Ht.
  erewrite bind_ok by exact Hl.
  erewrite bind_ok by exact Hm.
  unfold bind, ask, ret. cbn [mon tick trace].
  do 2 eexists. split; [reflexivity|].
  cbn [temperature load memory timestamp mon tick].
  split; [exists s1; exact Ht|]. split; [exact Hst|].
  destruct Hlast as [Hc Hg]. destruct Hs2 as (_ & _ & A1 & A2).
  destruct Hs3 as (_ & _ & B1 & B2).
  split; [congruence|]. split; [congruence|]. split; [exact Hp|].
  eexists. split; reflexivity.
Qed.

(** ** The selector: what the cache remembers *)

Section SelectorMemo.

Context {rt : PyRuntime} (cfg : Settings) (http : nat -> str -> Z + Exn).

(** What the first probe of a backend answers. *)
Lemma check_api_availability_answer api_type s :
  api_availability_cache s !! api_type = None ->
  exists b s',
    check_api_availability cfg http api_type s = (Ok b, s')
    /\ (b = true <->
        known_api api_type = true /\ http (requests s) api_type = inl 200%Z)
    /\ requests s' = (if known_api api_type then S (requests s) else requests s).
Proof.
  intros H. unfold check_api_availability. erewrite bind_ok by reflexivity.
  rewrite H. unfold known_api.
  destruct (known_api_base_url cfg API_TYPE_OLLAMA eq_refl) as [u1 Hu1].
  destruct (known_api_base_url cfg API_TYPE_LLAMACPP eq_refl) as [u2 Hu2].
  destruct (known_api_base_url cfg API_TYPE_YANDEXGPT eq_refl) as [u3 Hu3].
  unfold getitem.
  destruct (str_eqb api_type API_TYPE_OLLAMA) eqn:E1;
    [apply str_eqb_eq in E1; subst api_type; rewrite Hu1|].
  2: destruct (str_eqb api_type API_TYPE_LLAMACPP) eqn:E2;
    [apply str_eqb_eq in E2; subst api_type; rewrite Hu2|].
  3: destruct (str_eqb api_type API_TYPE_YANDEXGPT) eqn:E3;
    [apply str_eqb_eq in E3; subst api_type; rewrite Hu3|].
  all: unfold bind, try_except, sel_emit, request_ok, bind, or_raise, ret,
         raise, set_cache;
       cbn [api_availability_cache requests sel_trace fst snd orb];
       try match goal with
           | |- context [http ?n ?a] => destruct (http n a) as [code|e] eqn:Hh
           end;
       cbn [api_availability_cache requests sel_trace fst snd any_exception];
       try match goal with
           | |- context [(?code =? 200)%Z] => destruct (code =? 200)%Z eqn:Hcode
           end;
       cbn [api_availability_cache requests sel_trace fst snd any_exception];
       do 2 eexists; (split; [reflexivity|]);
       cbn [api_availability_cache requests sel_trace];
       (split; [|reflexivity]).
  all: try (apply Z.eqb_eq in Hcode; subst code).
  all: try (apply Z.eqb_neq in Hcode).
  all: split; try discriminate; try tauto; try (intros [_ Hx]; congruence).
Qed.

End SelectorMemo.

(** X16. [check_api_availability] never raises and asks at most one HTTP
    request. Its answer is in the cache afterwards, the answers of the
    other backends stay as they were, and asking again returns the same
    answer without any request or log line: the state does not change at
    all. Only a backend that can be probed is ever cached as available. *)
Theorem check_api_availability_memo (cfg : Settings)
    (http : nat -> str -> Z + Exn) (api_type : str) (s : Selector) :
  exists b s1,
    check_api_availability cfg http api_type s = (Ok b, s1)
    /\ api_availability_cache s1 !! api_type = Some b
    /\ (forall a, a <> api_type ->
                  api_availability_cache s1 !! a = api_availability_cache s !! a)
    /\ (forall a b0, api_availability_cache s !! a = Some b0 ->
                     api_availability_cache s1 !! a = Some b0)
    /\ check_api_availability cfg http api_type s1 = (Ok b, s1)
    /\ (length (http_requests (sel_trace s1))
        <= S (length (http_requests (sel_trace s))))%nat
    /\ (cache_ok (api_availability_cache s) ->
        cache_ok (api_availability_cache s1)).
Proof.
  destruct (api_availability_cache s !! api_type) as [b|] eqn:Hc.
  - exists b, s.
    split; [apply check_api_availability_cached; exact Hc|].
    split; [exact Hc|]. split; [reflexivity|]. split; [auto|].
    split; [apply check_api_availability_cached; exact Hc|].
    split; [lia | auto].
  - destruct (check_api_availability_probe cfg http api_type s Hc)
      as (b & s1 & Hrun & Hcache & Hreq & Hknown).
    exists b, s1. split; [exact Hrun|].
    assert (Hb : api_availability_cache s1 !! api_type = Some b).
    { rewrite Hcache. apply lookup_insert_eq. }
    split; [exact Hb|]. split.
    { intros a Ha. rewrite Hcache. apply lookup_insert_ne. congruence. }
    split.
    { intros a b0 Ha. rewrite Hcache, lookup_insert_ne; [exact Ha|].
      intros ->. congruence. }
    split; [apply check_api_availability_cached; exact Hb|].
    split.
    { rewrite Hreq, length_app. destruct (known_api api_type); cbn; lia. }
    intros Hok. rewrite Hcache. apply cache_ok_insert; assumption.
Qed.

Lemma check_api_availability_memo_witness :
  exists s1,
    check_api_availability sample_settings no_http (lit "mistral") sample_selector
    = (Ok false, s1)
    /\ check_api_availability sample_settings no_http (lit "mistral") s1
       = (Ok false, s1)
    /\ cache_ok (api_availability_cache s1).
Proof.
  destruct (check_api_availability_memo sample_settings no_http (lit "mistral")
              sample_selector) as (b & s1 & H1 & _ & _ & _ & H2 & _ & Hok).
  assert (Hb : b = false).
  { vm_compute in H1. injection H1 as <- _. reflexivity. }
  subst b. exists s1. split; [exact H1|]. split; [exact H2|].
  apply Hok, sample_cache_ok.
Defined.

(** X17. The first probe of a backend answers [True] exactly when the
    backend is one of the three and the HTTP request returns status 200. An
    exception of the HTTP library, any other status and a name that is none
    of the three all answer [False], the last without any request; the
    answer is what is cached. *)
Theorem check_api_availability_first_probe (cfg : Settings)
    (http : nat -> str -> Z + Exn) (api_type : str) (s : Selector) :
  api_availability_cache s !! api_type = None ->
  exists b s',
    check_api_availability cfg http api_type s = (Ok b, s')
    /\ (b = true <->
        known_api api_type = true /\ http (requests s) api_type = inl 200%Z)
    /\ api_availability_cache s' = <[api_type := b]> (api_availability_cache s)
    /\ http_requests (sel_trace s')
       = http_requests (sel_trace s)
         ++ (if known_api api_type then [api_type] else [])
    /\ requests s' = (if known_api api_type then S (requests s) else requests s).
Proof.
  intros Hc.
  destruct (check_api_availability_answer cfg http api_type s Hc)
    as (b & s' & Hrun & Hiff & Hn).
  destruct (check_api_availability_probe cfg http api_type s Hc)
    as (b' & s'' & Hrun' & Hcache & Hreq & _).
  rewrite Hrun in Hrun'. injection Hrun' as <- <-.
  exists b, s'. auto.
Qed.

Lemma check_api_availability_first_probe_witness :
  exists s',
    check_api_availability sample_settings no_http API_TYPE_YANDEXGPT
      sample_selector = (Ok false, s')
    /\ http_requests (sel_trace s') = [API_TYPE_YANDEXGPT]
    /\ api_availability_cache s' !! API_TYPE_YANDEXGPT = Some false.
Proof.
  destruct (check_api_availability_first_probe sample_settings no_http
              API_TYPE_YANDEXGPT sample_selector)
    as (b & s' & Hrun & Hiff & Hcache & Hreq & _).
  { vm_compute. reflexivity. }
  assert (Hb : b = false).
  { destruct b; [|reflexivity]. destruct Hiff as [Hiff _].
    destruct (Hiff eq_refl) as [_ Hx]. discriminate Hx. }
  subst b. exists s'. split; [exact Hrun|]. split; [exact Hreq|].
  rewrite Hcache. apply lookup_insert_eq.
Defined.

Section SelectTwice.

Context {rt : PyRuntime} (cfg : Settings) (http : nat -> str -> Z + Exn).

Lemma select_loop_all_down content_type preferred_model api_priority s :
  Forall (fun a => api_availability_cache s !! a = Some false) api_priority ->
  select_loop cfg http content_type preferred_model api_priority s = (Ok None, s).
Proof.
  induction 1 as [|a rest Ha _ IH]; [reflexivity|].
  cbn [select_loop].
  erewrite bind_ok by (apply check_api_availability_cached; exact Ha).
  exact IH.
Qed.

Lemma select_loop_settled content_type preferred_model before api_type after s
    model_name api_url :
  Forall (fun a => api_availability_cache s !! a = Some false) before ->
  api_availability_cache s !! api_type = Some true ->
  (if given preferred_model
   then Some model_name = preferred_model
   else exists models,
          default_models cfg !! api_type = Some models
          /\ model_name = models content_type) ->
  api_base_urls cfg !! api_type = Some api_url ->
  exists s',
    select_loop cfg http content_type preferred_model
      (before ++ api_type :: after) s
    = (Ok (Some (api_type, model_name, api_url)), s')
    /\ api_availability_cache s' = api_availability_cache s
    /\ http_requests (sel_trace s') = http_requests (sel_trace s).
Proof.
  intros Hb Ha Hm Hu. induction Hb as [|a rest Hfa _ IH]; cbn [app select_loop].
  - erewrite bind_ok by (apply check_api_availability_cached; exact Ha).
    unfold getitem. rewrite Hu.
    destruct (given preferred_model) eqn:Hg.
    + subst preferred_model. cbn [default].
      unfold bind, ret, sel_emit.
      cbn [api_availability_cache requests sel_trace].
      eexists. split; [reflexivity|].
      cbn [api_availability_cache sel_trace].
      rewrite !http_requests_app. cbn [http_requests]. rewrite !app_nil_r. auto.
    + destruct Hm as (models & Hmod & ->). rewrite Hmod.
      unfold bind, ret, sel_emit.
      cbn [api_availability_cache requests sel_trace].
      eexists. split; [reflexivity|].
      cbn [api_availability_cache sel_trace].
      rewrite !http_requests_app. cbn [http_requests]. rewrite !app_nil_r. auto.
  - erewrite bind_ok by (apply check_api_availability_cached; exact Hfa).
    exact IH.
Qed.

End SelectTwice.

(** X18. A second call of [select_optimal_api_and_model] with the same
    arguments returns what the first returned, makes no HTTP request and
    leaves the cache as it is: after one walk every backend the walk needs
    is cached. *)
Theorem select_optimal_api_and_model_settles {rt : PyRuntime}
    (cfg : Settings) (http : nat -> str -> Z + Exn) (text : str)
    (preferred_api preferred_model : option str) (s : Selector) :
  cache_ok (api_availability_cache s) ->
  exists r s1 s2,
    select_optimal_api_and_model cfg http text preferred_api preferred_model s
    = (Ok r, s1)
    /\ select_optimal_api_and_model cfg http text preferred_api preferred_model s1
       = (Ok r, s2)
    /\ api_availability_cache s2 = api_availability_cache s1
    /\ http_requests (sel_trace s2) = http_requests (sel_trace s1).
Proof.
  intros Hok. unfold select_optimal_api_and_model.
  destruct (given preferred_api && given preferred_model) eqn:Hg.
  - unfold bind, sel_emit, ret. cbn [api_availability_cache requests sel_trace].
    do 3 eexists. split; [reflexivity|]. split; [reflexivity|].
    cbn [api_availability_cache sel_trace].
    rewrite !http_requests_app. cbn [http_requests]. rewrite !app_nil_r. auto.
  - cbv zeta. rewrite walk_order_code.
    set (ct := detect_content_type text).
    set (order := walk_order cfg ct preferred_api).
    erewrite bind_ok by reflexivity.
    set (s0 := {| api_availability_cache := api_availability_cache s;
                  requests := requests s;
                  sel_trace := sel_trace s ++ [SelLogAction] |}).
    destruct (select_loop_spec cfg http ct preferred_model order s0 Hok)
      as (found & s1 & Hrun & _ & _ & _ & Hfound).
    erewrite bind_ok by exact Hrun.
    destruct found as [[[api model] url]|].
    + destruct Hfound as ((before & after & Horder & Hb) & Ha & Hm & Hu).
      set (s0' := {| api_availability_cache := api_availability_cache s1;
                     requests := requests s1;
                     sel_trace := sel_trace s1 ++ [SelLogAction] |}).
      destruct (select_loop_settled cfg http ct preferred_model before api after
                  s0' model url Hb Ha Hm Hu) as (s2 & Hrun2 & Hc2 & Hr2).
      rewrite <- Horder in Hrun2.
      exists (Some api, Some model, Some url), s1, s2.
      split; [reflexivity|].
      erewrite bind_ok by reflexivity. fold s0'.
      erewrite bind_ok by exact Hrun2. unfold ret.
      split; [reflexivity|]. split; [exact Hc2|].
      rewrite Hr2. unfold s0'. cbn [sel_trace].
      rewrite http_requests_app. apply app_nil_r.
    + unfold bind at 1, sel_emit at 1, ret at 1.
      do 3 eexists. split; [reflexivity|].
      erewrite bind_ok by reflexivity.
      cbn [api_availability_cache requests sel_trace].
      erewrite bind_ok
        by (apply select_loop_all_down; cbn [api_availability_cache]; exact Hfound).
      unfold bind, sel_emit, ret. cbn [api_availability_cache requests sel_trace].
      split; [reflexivity|]. split; [reflexivity|].
      cbn [api_availability_cache sel_trace].
      rewrite !http_requests_app. cbn [http_requests]. rewrite !app_nil_r.
      reflexivity.
Qed.

Lemma select_optimal_api_and_model_settles_witness :
  exists r s1 s2,
    @select_optimal_api_and_model rt_no_float sample_settings no_http
      (lit "The cat sat on the mat.") None None sample_selector = (Ok r, s1)
    /\ @select_optimal_api_and_model rt_no_float sample_settings no_http
         (lit "The cat sat on the mat.") None None s1 = (Ok r, s2)
    /\ http_requests (sel_trace s2) = [].
Proof.
  destruct (@select_optimal_api_and_model_settles rt_no_float sample_settings
              no_http (lit "The cat sat on the mat.") None None sample_selector
              sample_cache_ok) as (r & s1 & s2 & H1 & H2 & _ & H4).
  exists r, s1, s2. split; [exact H1|]. split; [exact H2|].
  rewrite H4. vm_compute in H1. injection H1 as _ <-. reflexivity.
Defined.

(** ** The classifier: what code needs *)

Section Classifier.

Context {rt : PyRuntime}.

Lemma requires_sound c r s :
  requires c r = true -> matches false r s -> In c s.
Proof.
  intros Hr Hm. induction Hm as [|k x Hk|a b s1 s2 _ IH1 _ IH2|a b s0 _ IH
                                 |a b s0 _ IH| |a s1 s2 _ _ _ _];
    cbn [requires] in Hr; try discriminate.
  - unfold Re.cset_match in Hk. apply existsb_exists in Hk.
    destruct Hk as (at_ & Hin & Hat).
    rewrite forallb_forall in Hr. specialize (Hr at_ Hin).
    destruct at_; try discriminate. apply N.eqb_eq in Hr. subst c0.
    cbn [Re.atom_match] in Hat. apply N.eqb_eq in Hat. subst x.
    left. reflexivity.
  - apply orb_true_iff in Hr. apply in_or_app.
    destruct Hr as [Hr|Hr]; [left; apply IH1, Hr | right; apply IH2, Hr].
  - apply andb_true_iff in Hr. apply IH, Hr.
  - apply andb_true_iff in Hr. apply IH, Hr.
Qed.

Lemma has_char_In c s : has_char c s = true <-> In c s.
Proof.
  unfold has_char. rewrite existsb_exists. split.
  - intros (x & Hx & E). apply N.eqb_eq in E. subst x. exact Hx.
  - intros H. exists c. split; [exact H | apply N.eqb_refl].
Qed.

Lemma requires_not_found c r text :
  requires c r = true -> has_char c text = false -> ~ found_in false r text.
Proof.
  intros Hr Hc (before & mid & after & -> & Hm).
  apply (requires_sound c r mid Hr) in Hm.
  apply not_true_iff_false in Hc. apply Hc, has_char_In.
  apply in_or_app. right. apply in_or_app. left. exact Hm.
Qed.

Lemma Str_matches w s : matches false (Re.Str w) s -> s = w.
Proof.
  revert s. induction w as [|c w IH]; intros s H; cbn [Re.Str] in H.
  - inversion H. reflexivity.
  - destruct w as [|c' w].
    + inversion H as [|k x Hk| | | | |]; subst.
      unfold Re.cset_match in Hk. cbn [existsb Re.atom_match] in Hk.
      rewrite orb_false_r in Hk. apply N.eqb_eq in Hk. subst. reflexivity.
    + apply seq_inv in H. destruct H as (s1 & s2 & -> & H1 & H2).
      apply IH in H2. subst s2.
      inversion H1 as [|k x Hk| | | | |]; subst.
      unfold Re.cset_match in Hk. cbn [existsb Re.atom_match] in Hk.
      rewrite orb_false_r in Hk. apply N.eqb_eq in Hk. subst. reflexivity.
Qed.

Lemma startswith_app p s : startswith p (p ++ s) = true.
Proof.
  induction p as [|c p IH]; [destruct s; reflexivity|].
  cbn [app startswith]. rewrite N.eqb_refl, IH. reflexivity.
Qed.

Lemma contains_app p before after : contains p (before ++ p ++ after) = true.
Proof.
  induction before as [|c before IH]; cbn [app].
  - destruct (p ++ after) eqn:E; cbn [contains]; rewrite <- ?E;
      rewrite startswith_app; reflexivity.
  - cbn [contains]. rewrite IH. apply orb_true_r.
Qed.

Lemma literal_prefix_not_found w rest text :
  contains w text = false -> ~ found_in false (Re.Seq (Re.Str w) rest) text.
Proof.
  intros Hc (before & mid & after & -> & Hm).
  apply seq_inv in Hm. destruct Hm as (s1 & s2 & -> & H1 & _).
  apply Str_matches in H1. subst s1.
  rewrite <- app_assoc, contains_app in Hc. discriminate.
Qed.

Lemma detect_code_iff text :
  detect_content_type text = CONTENT_TYPE_CODE
  <-> existsb (fun p => Re.search false p text) code_indicators = true.
Proof.
  unfold detect_content_type. rewrite !for_patterns_existsb.
  destruct (existsb _ code_indicators); [tauto|].
  destruct (1000 <? length text)%nat; [|split; discriminate].
  destruct (existsb _ summarization_indicators); split; discriminate.
Qed.

End Classifier.

(** X19. A text classified as code stays code whatever is written before
    and after it. *)
Theorem code_survives_context {rt : PyRuntime} (text before after : str) :
  detect_content_type text = CONTENT_TYPE_CODE ->
  detect_content_type (before ++ text ++ after) = CONTENT_TYPE_CODE.
Proof.
  rewrite !detect_code_iff, !existsb_exists.
  intros (p & Hp & Hs). exists p. split; [exact Hp|].
  apply search_app_l, search_app_r, Hs.
Qed.

Lemma code_survives_context_witness :
  @detect_content_type rt_no_float
    (lit "Please review: " ++ lit "int total = 0;" ++ lit " Thanks.")
  = CONTENT_TYPE_CODE.
Proof.
  apply (@code_survives_context rt_no_float). vm_compute. reflexivity.
Defined.

(** X20. A text without the characters [(], [=], [#] and [<] and without
    the words [import] and [public] is never classified as code, whatever
    keywords it holds; with at most 1000 characters it is general. *)
Theorem plain_text_is_not_code {rt : PyRuntime} (text : str) :
  has_char 40 text = false ->
  has_char 61 text = false ->
  has_char 35 text = false ->
  has_char 60 text = false ->
  contains (lit "import") text = false ->
  contains (lit "public") text = false ->
  detect_content_type text <> CONTENT_TYPE_CODE
  /\ ((length text <= 1000)%nat ->
      detect_content_type text = CONTENT_TYPE_GENERAL).
Proof.
  intros Hparen Heq Hhash Hlt Himport Hpublic.
  assert (Hno : existsb (fun p => Re.search false p text) code_indicators = false).
  { apply existsb_not_found. unfold code_indicators.
    repeat apply List.Forall_cons; try apply List.Forall_nil.
    - apply (requires_not_found 40); [reflexivity | exact Hparen].
    - apply (requires_not_found 40); [reflexivity | exact Hparen].
    - apply (requires_not_found 61); [reflexivity | exact Heq].
    - apply (literal_prefix_not_found (lit "import")). exact Himport.
    - apply (requires_not_found 35); [reflexivity | exact Hhash].
    - apply (literal_prefix_not_found (lit "public")). exact Hpublic.
    - apply (requires_not_found 60); [reflexivity | exact Hlt]. }
  split.
  - rewrite detect_code_iff, Hno. discriminate.
  - intros Hlen. unfold detect_content_type. rewrite !for_patterns_existsb, Hno.
    apply Nat.ltb_ge in Hlen. rewrite Hlen. reflexivity.
Qed.

Lemma plain_text_is_not_code_witness :
  @detect_content_type rt_no_float (lit "def class function if for while var")
  = CONTENT_TYPE_GENERAL.
Proof.
  apply (@plain_text_is_not_code rt_no_float); try reflexivity.
  vm_compute. apply Nat.leb_le. vm_compute. reflexivity.
Defined.

(** ** [utils.py]: the environment *)

Lemma lstrip_idem s : lstrip (lstrip s) = lstrip s.
Proof.
  induction s as [|c s IH]; [reflexivity|]. cbn [lstrip].
  destruct (isspace c) eqn:E; [exact IH|]. cbn [lstrip]. rewrite E. reflexivity.
Qed.

Lemma lstrip_In x s : In x (lstrip s) -> In x s.
Proof.
  induction s as [|c s IH]; [auto|]. cbn [lstrip].
  destruct (isspace c); [right; auto | auto].
Qed.

Lemma lstrip_app_nonspace a c :
  isspace c = false -> lstrip (a ++ [c]) = lstrip a ++ [c].
Proof.
  intros Hc. induction a as [|x a IH]; cbn [app lstrip].
  - rewrite Hc. reflexivity.
  - destruct (isspace x); [exact IH | reflexivity].
Qed.

Lemma rstrip_cons_nonspace c t :
  isspace c = false -> rstrip (c :: t) = c :: rstrip t.
Proof.
  intros Hc. unfold rstrip. cbn [rev].
  rewrite (lstrip_app_nonspace _ _ Hc), rev_app_distr. reflexivity.
Qed.

Lemma rstrip_In x s : In x (rstrip s) -> In x s.
Proof.
  unfold rstrip. intros H. apply in_rev in H. apply lstrip_In in H.
  apply in_rev in H. exact H.
Qed.

Lemma strip_In x s : In x (strip s) -> In x s.
Proof. unfold strip. intros H. apply rstrip_In, lstrip_In in H. exact H. Qed.

Lemma lstrip_head s : lstrip s = [] \/ exists c t, lstrip s = c :: t /\ isspace c = false.
Proof.
  induction s as [|c s IH]; [left; reflexivity|]. cbn [lstrip].
  destruct (isspace c) eqn:E; [exact IH|]. right. eauto.
Qed.

Lemma rstrip_nil : rstrip [] = [].
Proof. reflexivity. Qed.

(** A stripped text starts and ends with a character that is not white
    space. *)
Lemma lstrip_strip s : lstrip (strip s) = strip s.
Proof.
  unfold strip. destruct (lstrip_head s) as [E|(c & t & E & Hc)]; rewrite E.
  - reflexivity.
  - rewrite (rstrip_cons_nonspace _ _ Hc). cbn [lstrip]. rewrite Hc. reflexivity.
Qed.

Lemma lstrip_rev_strip s : lstrip (rev (strip s)) = rev (strip s).
Proof.
  unfold strip, rstrip. rewrite rev_involutive. apply lstrip_idem.
Qed.

Lemma strip_clean s :
  lstrip s = s -> lstrip (rev s) = rev s -> strip s = s.
Proof.
  intros H1 H2. unfold strip, rstrip. rewrite H1, H2. apply rev_involutive.
Qed.

Lemma strip_idem s : strip (strip s) = strip s.
Proof. apply strip_clean; [apply lstrip_strip | apply lstrip_rev_strip]. Qed.

Lemma strip_fixed s : strip s = s -> lstrip s = s /\ lstrip (rev s) = rev s.
Proof.
  intros H. split.
  - rewrite <- H. apply lstrip_strip.
  - rewrite <- H. apply lstrip_rev_strip.
Qed.

Lemma lstrip_fixed_app s t : lstrip s = s -> s <> [] -> lstrip (s ++ t) = s ++ t.
Proof.
  destruct s as [|c s]; [congruence|]. intros H _. cbn [lstrip app] in *.
  destruct (isspace c) eqn:E; [|reflexivity].
  exfalso. assert (Hl : (length (lstrip s) <= length s)%nat).
  { clear. induction s as [|x s IH]; [cbn; lia|]. cbn [lstrip].
    destruct (isspace x); cbn [length]; lia. }
  rewrite H in Hl. cbn [length] in Hl. lia.
Qed.

Lemma strip_cons_nonspace c t :
  isspace c = false -> strip (c :: t) = c :: rstrip t.
Proof.
  intros Hc. unfold strip. cbn [lstrip]. rewrite Hc.
  apply rstrip_cons_nonspace, Hc.
Qed.

Lemma partition_at_spec c s before after :
  partition_at c s = Some (before, after) ->
  s = before ++ c :: after /\ ~ In c before.
Proof.
  revert before. induction s as [|x s IH]; intros before H; [discriminate|].
  cbn [partition_at] in H. destruct (x =? c)%N eqn:E.
  - apply N.eqb_eq in E. subst x. injection H as <- <-. split; [reflexivity | auto].
  - destruct (partition_at c s) as [[b a]|]; [|discriminate].
    injection H as <- <-. destruct (IH b eq_refl) as [-> Hn].
    split; [reflexivity|]. intros [Hx|Hx]; [|auto].
    apply N.eqb_neq in E. congruence.
Qed.

Lemma partition_at_app c before after :
  ~ In c before -> partition_at c (before ++ c :: after) = Some (before, after).
Proof.
  induction before as [|x before IH]; intros Hn; cbn [app partition_at].
  - rewrite N.eqb_refl. reflexivity.
  - destruct (x =? c)%N eqn:E.
    + apply N.eqb_eq in E. exfalso. apply Hn. left. exact E.
    + rewrite IH; [reflexivity|]. intros H. apply Hn. right. exact H.
Qed.

Lemma until_newline_id s : ~ In NL s -> until_newline s = s.
Proof.
  induction s as [|c s IH]; intros Hn; [reflexivity|]. cbn [until_newline].
  destruct (c =? NL)%N eqn:E.
  - apply N.eqb_eq in E. exfalso. apply Hn. left. exact E.
  - rewrite IH; [reflexivity|]. intros H. apply Hn. right. exact H.
Qed.

Lemma line_entry_stored line key value :
  line_entry line = Some (key, value) ->
  stored_key key /\ strip value = value.
Proof.
  unfold line_entry. cbv zeta.
  destruct (negb (truthy (strip line)) || startswith (lit "//") (strip line)
            || startswith (lit "#") (strip line)) eqn:Hskip; [discriminate|].
  apply orb_false_iff in Hskip. destruct Hskip as [Hskip Hhash].
  apply orb_false_iff in Hskip. destruct Hskip as [Hempty _].
  unfold match_key_value.
  destruct (partition_at EQUALS (strip line)) as [[[|c k] rest]|] eqn:Hp;
    try discriminate.
  intros H. injection H as <- <-.
  destruct (partition_at_spec _ _ _ _ Hp) as [Hline Hno].
  assert (Hc : isspace c = false).
  { pose proof (lstrip_strip line) as Hl. rewrite Hline in Hl.
    cbn [app lstrip] in Hl. destruct (isspace c) eqn:E; [|reflexivity].
    exfalso. assert (Hlen : (length (lstrip (k ++ EQUALS :: rest))
                             <= length (k ++ EQUALS :: rest))%nat).
    { generalize (k ++ EQUALS :: rest). clear.
      induction l as [|x s IH]; [cbn; lia|]. cbn [lstrip].
      destruct (isspace x); cbn [length]; lia. }
    rewrite Hl in Hlen. cbn [length] in Hlen. lia. }
  split; [|apply strip_idem].
  rewrite (strip_cons_nonspace _ _ Hc).
  split; [discriminate|]. split.
  { rewrite <- (strip_cons_nonspace _ _ Hc). apply strip_idem. }
  split.
  { intros Hin. apply Hno. rewrite <- (strip_cons_nonspace _ _ Hc) in Hin.
    apply strip_In in Hin. exact Hin. }
  rewrite Hline in Hhash. change (lit "#") with [35%N] in Hhash |- *.
  cbn [app startswith] in Hhash |- *. exact Hhash.
Qed.

Lemma load_lines_stored lines vars :
  (forall k v, vars !! k = Some v -> stored_key k /\ strip v = v) ->
  forall k v, load_lines lines vars !! k = Some v ->
              stored_key k /\ strip v = v.
Proof.
  revert vars. induction lines as [|line rest IH]; intros vars Hv; [exact Hv|].
  cbn [load_lines]. destruct (line_entry line) as [[key value]|] eqn:E.
  - apply IH. intros k v. destruct (decide (key = k)) as [<-|Hne].
    + rewrite lookup_insert_eq. intros H. injection H as <-.
      apply (line_entry_stored line). exact E.
    + rewrite lookup_insert_ne by exact Hne. apply Hv.
  - apply IH, Hv.
Qed.

(** X21. Every entry [load_env_vars] returns has a key that is not empty,
    holds no [=], has no white space around it and does not start with
    [#], and a value without white space around it. *)
Theorem load_env_vars_keys (e : Environment) (env_vars : gmap str str)
    (k v : str) :
  load_env_vars e = Ok env_vars ->
  env_vars !! k = Some v ->
  stored_key k /\ strip v = v.
Proof.
  unfold load_env_vars. destruct (dotenv e) as [|lines|ex]; intros H Hk.
  - injection H as <-. rewrite lookup_empty in Hk. discriminate.
  - injection H as <-. revert Hk. apply load_lines_stored.
    intros k0 v0 H0. rewrite lookup_empty in H0. discriminate.
  - discriminate.
Qed.

Lemma load_env_vars_keys_witness :
  stored_key (lit "ssh_host") /\ strip (lit "10.0.0.1") = lit "10.0.0.1".
Proof.
  apply (load_env_vars_keys
           (env_of_lines [lit "# server"; lit " ssh_host = 10.0.0.1 "] ∅)
           (<[lit "ssh_host" := lit "10.0.0.1"]> ∅)).
  - reflexivity.
  - apply lookup_insert_eq.
Defined.

Lemma load_lines_last before line after key value vars :
  line_entry line = Some (key, value) ->
  (forall l v, In l after -> line_entry l <> Some (key, v)) ->
  load_lines (before ++ line :: after) vars !! key = Some value.
Proof.
  intros Hl Hafter. revert vars.
  induction before as [|b before IH]; intros vars; cbn [app load_lines].
  - rewrite Hl.
    assert (H : forall vars0, vars0 !! key = Some value ->
                              load_lines after vars0 !! key = Some value).
    { induction after as [|a after IHa]; intros vars0 H0; [exact H0|].
      cbn [load_lines]. destruct (line_entry a) as [[k v]|] eqn:Ea.
      - apply IHa; [intros l v0 Hin; apply Hafter; right; exact Hin|].
        rewrite lookup_insert_ne; [exact H0|].
        intros ->. apply (Hafter a v); [left; reflexivity | exact Ea].
      - apply IHa; [intros l v0 Hin; apply Hafter; right; exact Hin | exact H0]. }
    apply H, lookup_insert_eq.
  - destruct (line_entry b) as [[k v]|]; apply IH.
Qed.

Lemma load_lines_none lines key vars :
  (forall l v, In l lines -> line_entry l <> Some (key, v)) ->
  load_lines lines vars !! key = vars !! key.
Proof.
  revert vars. induction lines as [|a lines IH]; intros vars H; [reflexivity|].
  cbn [load_lines]. destruct (line_entry a) as [[k v]|] eqn:Ea.
  - rewrite IH by (intros l v0 Hin; apply H; right; exact Hin).
    apply lookup_insert_ne. intros ->. apply (H a v); [left; reflexivity | exact Ea].
  - apply IH. intros l v0 Hin. apply H. right. exact Hin.
Qed.

(** X22. [get_env] answers with the value of the last line of [.env] that
    defines the key; when no line does, or there is no file, with the
    value of [os.environ]; and only then with the default. A file that
    cannot be read makes it raise. *)
Theorem get_env_precedence (e : Environment) (key : str)
    (default : option str) :
  (forall before line after value,
     dotenv e = Lines (before ++ line :: after) ->
     line_entry line = Some (key, value) ->
     (forall l v, In l after -> line_entry l <> Some (key, v)) ->
     get_env e key default = Ok (Some value))
  /\ (forall lines,
        dotenv e = NoFile \/ dotenv e = Lines lines ->
        (forall l v, In l lines -> line_entry l <> Some (key, v)) ->
        get_env e key default
        = Ok (match environ e !! key with
              | Some value => Some value
              | None => default
              end))
  /\ (forall ex, dotenv e = Unreadable ex ->
                 get_env e key default = Raised ex).
Proof.
  unfold get_env, load_env_vars. split; [|split].
  - intros before line after value Hd Hl Hafter. rewrite Hd.
    rewrite (load_lines_last _ _ _ _ _ _ Hl Hafter). reflexivity.
  - intros lines [Hd|Hd] Hnone; rewrite Hd.
    + rewrite lookup_empty. reflexivity.
    + rewrite (load_lines_none _ _ _ Hnone), lookup_empty. reflexivity.
  - intros ex Hd. rewrite Hd. reflexivity.
Qed.

Lemma get_env_precedence_witness :
  get_env (env_of_lines [lit "ssh_port=22"; lit "ssh_port = 2222"]
             (<[lit "ssh_port" := lit "8022"]> ∅))
          (lit "ssh_port") (Some (lit "22"))
  = Ok (Some (lit "2222")).
Proof.
  destruct (get_env_precedence
              (env_of_lines [lit "ssh_port=22"; lit "ssh_port = 2222"]
                 (<[lit "ssh_port" := lit "8022"]> ∅))
              (lit "ssh_port") (Some (lit "22"))) as (H & _).
  apply (H [lit "ssh_port=22"] (lit "ssh_port = 2222") []).
  - reflexivity.
  - vm_compute. reflexivity.
  - intros l v [].
Defined.

(** X23. A line [key=value] is read back as that key and that value when
    the key is one [load_env_vars] could store and does not start with
    [/], and the value has no white space around it and no newline; the
    value may hold [=] and [#]. *)
Theorem line_entry_round_trip (key value : str) :
  stored_key key ->
  startswith (lit "/") key = false ->
  strip value = value ->
  ~ In NL value ->
  line_entry (key ++ EQUALS :: value ++ [NL]) = Some (key, value).
Proof.
  intros (Hne & Hk & Hno & Hhash) Hslash Hv Hnl.
  destruct (strip_fixed _ Hk) as [Hk1 Hk2].
  destruct (strip_fixed _ Hv) as [Hv1 Hv2].
  assert (Hline : strip (key ++ EQUALS :: value ++ [NL]) = key ++ EQUALS :: value).
  { unfold strip. rewrite (lstrip_fixed_app _ _ Hk1 Hne).
    unfold rstrip.
    replace (rev (key ++ EQUALS :: value ++ [NL]))
      with (NL :: rev value ++ EQUALS :: rev key).
    2: { rewrite rev_app_distr. cbn [rev]. rewrite rev_app_distr. cbn [rev app].
         rewrite <- app_assoc. reflexivity. }
    cbn [lstrip]. change (isspace NL) with true. cbv iota.
    destruct value as [|c value].
    - cbn [rev app lstrip]. change (isspace EQUALS) with false. cbv iota.
      cbn [rev]. rewrite rev_involutive. reflexivity.
    - rewrite (lstrip_fixed_app _ _ Hv2).
      + rewrite rev_app_distr. cbn [rev]. rewrite !rev_involutive.
        rewrite <- app_assoc.
        change (rev (rev value ++ [c])) with (rev (rev (c :: value))).
        rewrite rev_involutive. reflexivity.
      + intros H. apply (f_equal (@length N)) in H.
        rewrite length_rev in H. discriminate H. }
  unfold line_entry. cbv zeta. rewrite Hline.
  destruct key as [|c key]; [congruence|].
  cbn [app truthy negb orb].
  assert (Hs1 : startswith (lit "//") ((c :: key) ++ EQUALS :: value) = false).
  { change (lit "/") with [47%N] in Hslash.
    change (lit "//") with [47%N; 47%N].
    cbn [startswith app] in Hslash |- *.
    destruct ((47 =? c)%N); [discriminate Hslash | reflexivity]. }
  assert (Hs2 : startswith (lit "#") ((c :: key) ++ EQUALS :: value) = false).
  { change (lit "#") with [35%N] in Hhash |- *.
    cbn [startswith app] in Hhash |- *. exact Hhash. }
  cbn [app] in Hs1, Hs2. rewrite Hs1, Hs2. cbn [orb].
  unfold match_key_value.
  change (c :: key ++ EQUALS :: value) with ((c :: key) ++ EQUALS :: value).
  rewrite (partition_at_app _ _ _ Hno), (until_newline_id _ Hnl), Hk, Hv.
  reflexivity.
Qed.

Lemma line_entry_round_trip_witness :
  line_entry (lit "ollama_api_base" ++ EQUALS
                :: lit "http://host:11434/?a=b" ++ [NL])
  = Some (lit "ollama_api_base", lit "http://host:11434/?a=b").
Proof.
  apply line_entry_round_trip.
  - split; [discriminate|]. split; [reflexivity|]. split; [|reflexivity].
    intros H. vm_compute in H. intuition discriminate.
  - reflexivity.
  - reflexivity.
  - intros H. vm_compute in H. intuition discriminate.
Defined.

(** ** The second cache: [get_model_capabilities] *)

Section CapabilitiesRun.

Context {rt : PyRuntime} {ri : PyInt} {ru : PyUnicode} (cfg : Settings)
        (post : nat -> str -> str -> Response + Exn).

Lemma get_model_capabilities_cached api_type model_name c s :
  model_capabilities_cache s !! cache_key api_type model_name = Some c ->
  get_model_capabilities cfg post api_type model_name s = (Ok c, s).
Proof.
  intros H. unfold get_model_capabilities. cbv zeta.
  unfold cache_key in H. rewrite H. reflexivity.
Qed.

(** Past the cache, the call returns the dictionary as the chain on
    [api_type] left it, stored under the key, whether the chain raised or
    not. *)
Lemma get_model_capabilities_miss api_type model_name s :
  model_capabilities_cache s !! cache_key api_type model_name = None ->
  exists r fr,
    capabilities_by_api cfg post api_type model_name
      (first_frame api_type model_name s) = (r, fr)
    /\ get_model_capabilities cfg post api_type model_name s
       = (Ok (capabilities fr),
          {| selector :=
               sel_logged (match r with
                           | Ok _ => SelLogResult
                           | Raised _ => SelLogError
                           end) (selector (self fr));
             model_capabilities_cache :=
               <[cache_key api_type model_name := capabilities fr]>
                 (model_capabilities_cache (self fr)) |}).
Proof.
  intros H. unfold get_model_capabilities. cbv zeta.
  unfold cache_key in H. rewrite H.
  destruct (capabilities_by_api cfg post api_type model_name
              (first_frame api_type model_name s)) as [r fr] eqn:Hrun.
  exists r, fr. split; [reflexivity|].
  unfold bind at 1. unfold caps_log at 1, on_self, on_selector, sel_emit.
  cbn [self selector capabilities model_capabilities_cache
       api_availability_cache requests sel_trace].
  unfold try_except, bind at 1.
  unfold first_frame, sel_logged in Hrun. rewrite Hrun.
  destruct r as [[]|e]; reflexivity.
Qed.

Lemma wp_assign f fr (Q : unit -> CapFrame -> Prop) E :
  Q tt {| self := self fr; capabilities := f (capabilities fr) |} ->
  wp (assign f) fr Q E.
Proof. exact (fun H => H). Qed.

Lemma wp_post_request api_type model_name fr
    (Q : Response -> CapFrame -> Prop) E :
  match post (requests (selector (self fr))) api_type model_name with
  | inl response =>
      Q response {| self := requested api_type (self fr);
                    capabilities := capabilities fr |}
  | inr e =>
      E e {| self := requested api_type (self fr);
             capabilities := capabilities fr |}
  end ->
  wp (post_request post api_type model_name) fr Q E.
Proof.
  unfold wp, post_request, bind, on_self, on_selector, or_raise, requested,
    sel_requested.
  cbn [self selector capabilities model_capabilities_cache
       api_availability_cache requests sel_trace].
  destruct (post _ _ _); exact (fun H => H).
Qed.

Lemma int_is_fun x n n' : int_is x n -> int_is x n' -> n = n'.
Proof. unfold int_is. intros H H'. congruence. Qed.

Lemma wp_py_int_of {S : Type} x (s : S) (Q : Z -> S -> Prop) E :
  (forall n, int_is x n -> Q n s) ->
  (forall e, (forall n, ~ int_is x n) -> E e s) ->
  wp (py_int_of x) s Q E.
Proof.
  intros HQ HE. unfold wp, int_is in *.
  destruct x as [|b|q| | |t|l|d]; cbn [py_int_of] in *;
    try (apply HE; intros n; discriminate); try (apply HQ; reflexivity).
  destruct (py_int t); [apply HQ; reflexivity | apply HE; discriminate].
Qed.

(** One step through a branch of the chain. *)
Ltac caps_step :=
  cbv beta iota;
  lazymatch goal with
  | |- wp (bind _ _) _ _ _ => apply wp_bind
  | |- wp (ret _) _ _ _ => apply wp_ret
  | |- wp (raise _) _ _ _ => apply wp_raise
  | |- wp (assign _) _ _ _ => apply wp_assign
  | |- wp (post_request _ _ _) _ _ _ => apply wp_post_request
  | |- wp (or_raise _) _ _ _ => apply wp_or_raise
  | |- wp (and_then _ _) _ _ _ => unfold and_then
  | |- wp (py_in _ _) _ _ _ => unfold py_in
  | |- wp (py_item _ _) _ _ _ => unfold py_item
  | |- wp (py_first _) _ _ _ => unfold py_first
  | |- wp (py_len _) _ _ _ => unfold py_len
  | |- wp (py_get _ _ _) _ _ _ => unfold py_get
  | |- wp (py_int_of _) _ _ _ =>
      apply wp_py_int_of; [intros ? ?| intros ? ?]
  | |- wp (py_lower _) _ _ _ => unfold py_lower
  | |- wp (re_subject _) _ _ _ => unfold re_subject
  | |- wp (if ?b then _ else _) _ _ _ => destruct b eqn:?
  | |- wp (match ?x with _ => _ end) _ _ _ => destruct x eqn:?
  | |- match ?x with _ => _ end => destruct x eqn:?
  end.

Lemma ollama_base_url :
  api_base_urls cfg !! API_TYPE_OLLAMA = Some (ollama_api_base cfg).
Proof. reflexivity. Qed.

Lemma yandexgpt_base_url :
  api_base_urls cfg !! API_TYPE_YANDEXGPT = Some (yandexgpt_url cfg).
Proof. reflexivity. Qed.

(** The Ollama branch: one request, and then all or nothing. *)
Lemma ollama_capabilities_wp model_name s :
  let fr := first_frame API_TYPE_OLLAMA model_name s in
  let named := named_capabilities API_TYPE_OLLAMA model_name in
  let good fr' :=
    fr' = {| self := requested API_TYPE_OLLAMA (self fr);
             capabilities := capabilities fr' |}
    /\ name (capabilities fr') = model_name
    /\ api (capabilities fr') = API_TYPE_OLLAMA
    /\ match post (requests (selector (self fr))) API_TYPE_OLLAMA
               model_name with
       | inl response =>
           if (status_code response =? 200)%Z then
             match json response with
             | inl body =>
                 (capabilities fr' = capabilities fr
                  \/ ollama_reading API_TYPE_OLLAMA model_name body
                       (capabilities fr'))
                 /\ (forall d, body = JDict d ->
                       (forall p, d !! lit "parameters" <> Some (JDict p)) ->
                       capabilities fr' = named)
                 /\ (forall d p, body = JDict d ->
                       d !! lit "parameters" = Some (JDict p) ->
                       match p !! lit "num_ctx" with
                       | None => capabilities fr' = named
                       | Some v =>
                           (forall n, int_is v n ->
                              capabilities fr' = with_max_tokens n named)
                           /\ ((forall n, ~ int_is v n) ->
                               capabilities fr' = capabilities fr)
                       end)
             | inr _ => capabilities fr' = capabilities fr
             end
           else capabilities fr' = capabilities fr
       | inr _ => capabilities fr' = capabilities fr
       end in
  wp (ollama_capabilities cfg post API_TYPE_OLLAMA model_name) fr
     (fun _ fr' => good fr') (fun _ fr' => good fr').
Proof.
  intros fr named good. unfold ollama_capabilities.
  unfold getitem. rewrite ollama_base_url.
  do 4 caps_step. subst good. cbv beta.
  destruct (post _ _ _) as [response|e] eqn:Hpost; [|repeat split].
  caps_step; [|repeat split].
  do 2 caps_step.
  destruct (json response) as [body|e] eqn:Hbody; [|repeat split].
  repeat caps_step.
  all: cbn [self capabilities].
  all: repeat match goal with
              | H : match ?x with Some _ => true | None => false end = _
                |- _ => destruct x eqn:?; try discriminate H; clear H
              end.
  all: (split; [reflexivity|]; split; [reflexivity|]; split; [reflexivity|]).
  all: split;
    [ first [ left; reflexivity
            | right; left; reflexivity
            | right; right; do 4 eexists;
              split; [reflexivity|]; split; [eassumption|];
              split; [eassumption|]; split; [eassumption | reflexivity] ]
    | split;
      [ intros d' Hd Hnone; simplify_eq;
        first [ reflexivity
              | match goal with
                | E : _ !! lit "parameters" = Some (JDict ?p) |- _ =>
                    destruct (Hnone p E)
                end ]
      | intros d' p' Hd Hp; simplify_eq; try congruence;
        repeat match goal with
               | E : ?m !! ?k = _ |- context [?m !! ?k] => rewrite E
               end;
        try reflexivity;
        (split; [intros n' Hn' | intros Hno]);
        first [ reflexivity
              | match goal with
                | Hn : int_is ?v ?n |- _ =>
                    first [ rewrite (int_is_fun v n' n Hn' Hn); reflexivity
                          | destruct (Hno n Hn) ]
                end
              | match goal with
                | Hnever : forall n, ~ int_is _ n |- _ =>
                    destruct (Hnever n' Hn')
                end ] ] ].
Qed.

(** The YandexGPT branch: one request; the record says no more than the
    answer of the model does. *)
Lemma yandexgpt_capabilities_wp model_name s :
  let fr := first_frame API_TYPE_YANDEXGPT model_name s in
  let after c := {| self := requested API_TYPE_YANDEXGPT (self fr);
                    capabilities := c |} in
  let good fr' :=
    fr' = after (capabilities fr')
    /\ name (capabilities fr') = model_name
    /\ api (capabilities fr') = API_TYPE_YANDEXGPT
    /\ described (capabilities fr')
    /\ match post (requests (selector (self fr))) API_TYPE_YANDEXGPT
               model_name with
       | inl response =>
           if (status_code response =? 200)%Z then
             match json response with
             | inl body =>
                 forall d r a rest msg t,
                   body = JDict d ->
                   d !! lit "result" = Some (JDict r) ->
                   r !! lit "alternatives" = Some (JList (JDict a :: rest)) ->
                   a !! lit "message" = Some (JDict msg) ->
                   msg !! lit "text" = Some (JStr t) ->
                   capabilities fr'
                   = answer_capabilities API_TYPE_YANDEXGPT model_name t
                       (default (JStr (u8 "Неизвестно"))
                                (r !! lit "modelVersion"))
             | inr _ => capabilities fr' = capabilities fr
             end
           else capabilities fr' = capabilities fr
       | inr _ => capabilities fr' = capabilities fr
       end in
  wp (yandexgpt_capabilities cfg post API_TYPE_YANDEXGPT model_name) fr
     (fun _ fr' => good fr') (fun _ fr' => good fr').
Proof.
  intros fr after good. unfold yandexgpt_capabilities.
  unfold getitem. rewrite yandexgpt_base_url.
  do 4 caps_step. subst good. cbv beta.
  destruct (post _ _ _) as [response|e] eqn:Hpost.
  2: { repeat split; try reflexivity; try discriminate; left; reflexivity. }
  caps_step.
  2: { repeat split; try reflexivity; try discriminate; left; reflexivity. }
  do 2 caps_step. destruct (json response) as [body|e] eqn:Hbody.
  2: { repeat split; try reflexivity; try discriminate; left; reflexivity. }
  repeat caps_step.
  all: cbn [self capabilities].
  all: split; [reflexivity|]; split; [reflexivity|]; split; [reflexivity|].
  all: split;
    [ unfold described, mentions_code, mentions_summaries;
      cbn [capabilities first_frame default_capabilities
           with_supports_code with_supports_summarization with_max_tokens
           with_description with_version
           supports_code supports_summarization max_tokens description
           version];
      split; [first [discriminate | intros Hc; eexists; split; [reflexivity | exact Hc]]|];
      split; [first [discriminate | intros Hc; eexists; split; [reflexivity | exact Hc]]|];
      split;
      [ first [ left; reflexivity
              | right; do 2 eexists; split; [reflexivity|]; split;
                [eassumption | reflexivity] ]
      | first [ left; reflexivity | right; eexists; reflexivity ] ]
    | intros d' r' a' rest' msg' t' Hd Hr Ha Hm Ht; simplify_eq ].
  all: repeat (match goal with
               | E : ?m !! ?k = Some _, H : context [?m !! ?k] |- _ =>
                   lazymatch H with
                   | E => fail
                   | _ => rewrite E in H
                   end
               end; cbn [from_option id] in *; simplify_eq).
  all: unfold answer_capabilities, mentions_code, mentions_summaries;
    rewrite Heqo2; reflexivity.
Qed.

(** What every call past the cache does to the selector, whatever the
    branch. *)
Lemma get_model_capabilities_fresh api_type model_name s :
  model_capabilities_cache s !! cache_key api_type model_name = None ->
  exists r fr c s1,
    capabilities_by_api cfg post api_type model_name
      (first_frame api_type model_name s) = (r, fr)
    /\ c = capabilities fr
    /\ get_model_capabilities cfg post api_type model_name s = (Ok c, s1)
    /\ model_capabilities_cache s1
       = <[cache_key api_type model_name := c]> (model_capabilities_cache s)
    /\ name c = model_name
    /\ api c = api_type
    /\ api_availability_cache (selector s1)
       = api_availability_cache (selector s)
    /\ http_requests (sel_trace (selector s1))
       = http_requests (sel_trace (selector s))
         ++ (if str_eqb api_type API_TYPE_OLLAMA
                || str_eqb api_type API_TYPE_YANDEXGPT
             then [api_type] else [])
    /\ requests (selector s1)
       = (if str_eqb api_type API_TYPE_OLLAMA
             || str_eqb api_type API_TYPE_YANDEXGPT
          then Datatypes.S (requests (selector s))
          else requests (selector s)).
Proof.
  intros Hmiss.
  destruct (get_model_capabilities_miss api_type model_name s Hmiss)
    as (r & fr & Hrun & Hcall).
  exists r, fr, (capabilities fr). eexists.
  split; [exact Hrun|]. split; [reflexivity|]. split; [exact Hcall|].
  cbn [model_capabilities_cache selector].
  assert (Hfr : self fr
                = (if str_eqb api_type API_TYPE_OLLAMA
                      || str_eqb api_type API_TYPE_YANDEXGPT
                   then requested api_type
                          (self (first_frame api_type model_name s))
                   else self (first_frame api_type model_name s))
                /\ name (capabilities fr) = model_name
                /\ api (capabilities fr) = api_type).
  { unfold capabilities_by_api in Hrun.
    destruct (str_eqb api_type API_TYPE_OLLAMA) eqn:E1.
    { apply str_eqb_eq in E1. subst api_type.
      pose proof (ollama_capabilities_wp model_name s) as H.
      cbv zeta in H. unfold wp in H. rewrite Hrun in H.
      cbn [orb].
      destruct r; destruct H as (Hfr & Hn & Ha & _);
        (split; [rewrite Hfr; reflexivity | split; assumption]). }
    destruct (str_eqb api_type API_TYPE_LLAMACPP) eqn:E2.
    { assert (E3 : str_eqb api_type API_TYPE_YANDEXGPT = false).
      { apply str_eqb_eq in E2. subst api_type. reflexivity. }
      rewrite E3. cbn [orb]. injection Hrun as <- <-.
      repeat split. }
    destruct (str_eqb api_type API_TYPE_YANDEXGPT) eqn:E3.
    { apply str_eqb_eq in E3. subst api_type.
      pose proof (yandexgpt_capabilities_wp model_name s) as H.
      cbv zeta in H. unfold wp in H. rewrite Hrun in H.
      cbn [orb].
      destruct r; destruct H as (Hfr & Hn & Ha & _);
        (split; [rewrite Hfr; reflexivity | split; assumption]). }
    cbn [orb]. injection Hrun as <- <-. repeat split. }
  destruct Hfr as (Hself & Hn & Ha). rewrite Hself.
  split.
  { destruct (_ || _); reflexivity. }
  split; [exact Hn|]. split; [exact Ha|].
  destruct (str_eqb api_type API_TYPE_OLLAMA
            || str_eqb api_type API_TYPE_YANDEXGPT);
    cbn [requested first_frame self selector sel_requested sel_logged
         api_availability_cache requests sel_trace];
    rewrite !http_requests_app; cbn [http_requests];
    rewrite ?app_nil_r; destruct r; cbn [http_requests];
    rewrite ?app_nil_r; auto.
Qed.

End CapabilitiesRun.

(** X24. [get_model_capabilities] never raises and makes at most one HTTP
    request. What it returns is in the cache under the key of its
    arguments afterwards, the other keys and the availability cache are as
    they were, and the same call made again returns the same record without
    any request or log line, whatever the backend would answer by then: a
    record made after a failed request is kept like any other. *)
Theorem get_model_capabilities_memo {rt : PyRuntime} {ri : PyInt}
    {ru : PyUnicode} (cfg : Settings)
    (post post' : nat -> str -> str -> Response + Exn)
    (api_type model_name : str) (s : SelectorCaps) :
  exists c s1,
    get_model_capabilities cfg post api_type model_name s = (Ok c, s1)
    /\ model_capabilities_cache s1 !! cache_key api_type model_name = Some c
    /\ (forall k, k <> cache_key api_type model_name ->
                  model_capabilities_cache s1 !! k
                  = model_capabilities_cache s !! k)
    /\ get_model_capabilities cfg post' api_type model_name s1 = (Ok c, s1)
    /\ api_availability_cache (selector s1)
       = api_availability_cache (selector s)
    /\ (length (http_requests (sel_trace (selector s1)))
        <= Datatypes.S (length (http_requests (sel_trace (selector s)))))%nat.
Proof.
  destruct (model_capabilities_cache s !! cache_key api_type model_name)
    as [c|] eqn:Hc.
  - exists c, s.
    split; [apply get_model_capabilities_cached; exact Hc|].
    split; [exact Hc|]. split; [reflexivity|].
    split; [apply get_model_capabilities_cached; exact Hc|].
    split; [reflexivity | lia].
  - destruct (get_model_capabilities_fresh cfg post api_type model_name s Hc)
      as (r & fr & c & s1 & _ & _ & Hcall & Hcache & _ & _ & Hav & Hreq & _).
    exists c, s1. split; [exact Hcall|].
    assert (Hin : model_capabilities_cache s1 !! cache_key api_type model_name
                  = Some c).
    { rewrite Hcache. apply lookup_insert_eq. }
    split; [exact Hin|]. split.
    { intros k Hk. rewrite Hcache. apply lookup_insert_ne. congruence. }
    split; [apply get_model_capabilities_cached; exact Hin|].
    split; [exact Hav|].
    rewrite Hreq, length_app. destruct (_ || _); cbn [length]; lia.
Qed.

Lemma cache_key_inj a m a' m' :
  has_char COLON a = false -> has_char COLON a' = false ->
  cache_key a m = cache_key a' m' -> a = a' /\ m = m'.
Proof.
  unfold cache_key, has_char, COLON.
  change (lit ":") with [58%N].
  revert a'. induction a as [|x a IH]; intros [|y a'] Ha Ha' E;
    cbn [app existsb] in *.
  - injection E as ->. auto.
  - injection E as <-. rewrite N.eqb_refl in Ha'. discriminate.
  - injection E as ->. rewrite N.eqb_refl in Ha. discriminate.
  - injection E as -> E. apply orb_false_iff in Ha, Ha'.
    destruct (IH a' (proj2 Ha) (proj2 Ha') E) as [-> ->]. auto.
Qed.

(** X25. As long as the names of the backends asked for have no colon (the
    three constants have none), every record [get_model_capabilities]
    returns, fresh or cached, carries the [api] and the [name] it was
    asked for: the keys of the cache do not collide, and this is kept from
    call to call. *)
Theorem get_model_capabilities_named {rt : PyRuntime} {ri : PyInt}
    {ru : PyUnicode} (cfg : Settings)
    (post : nat -> str -> str -> Response + Exn)
    (api_type model_name : str) (s : SelectorCaps) :
  cache_named (model_capabilities_cache s) ->
  has_char COLON api_type = false ->
  exists c s1,
    get_model_capabilities cfg post api_type model_name s = (Ok c, s1)
    /\ api c = api_type
    /\ name c = model_name
    /\ cache_named (model_capabilities_cache s1).
Proof.
  intros Hinv Hcolon.
  destruct (model_capabilities_cache s !! cache_key api_type model_name)
    as [c|] eqn:Hc.
  - exists c, s.
    split; [apply get_model_capabilities_cached; exact Hc|].
    destruct (Hinv _ _ Hc) as [Hk Hno].
    destruct (cache_key_inj _ _ _ _ Hcolon Hno Hk) as [-> ->]. auto.
  - destruct (get_model_capabilities_fresh cfg post api_type model_name s Hc)
      as (r & fr & c & s1 & _ & _ & Hcall & Hcache & Hn & Ha & _).
    exists c, s1. split; [exact Hcall|]. split; [exact Ha|].
    split; [exact Hn|].
    intros k c' Hk. rewrite Hcache in Hk.
    destruct (decide (k = cache_key api_type model_name)) as [->|Hne].
    + rewrite lookup_insert_eq in Hk. injection Hk as <-.
      rewrite Ha, Hn. auto.
    + rewrite lookup_insert_ne in Hk by congruence. exact (Hinv _ _ Hk).
Qed.

Lemma get_model_capabilities_named_witness :
  exists c s1,
    get_model_capabilities (rt := rt_no_float) (ri := ri_no_int)
      (ru := ru_ascii) sample_settings no_post API_TYPE_LLAMACPP
      (lit "mistral:7b") sample_caps = (Ok c, s1)
    /\ api c = API_TYPE_LLAMACPP
    /\ name c = lit "mistral:7b".
Proof.
  destruct (get_model_capabilities_named (rt := rt_no_float)
              (ri := ri_no_int) (ru := ru_ascii) sample_settings no_post
              API_TYPE_LLAMACPP (lit "mistral:7b") sample_caps)
    as (c & s1 & Hrun & Ha & Hn & _).
  - intros k c Hk. cbn [sample_caps model_capabilities_cache] in Hk.
    rewrite lookup_empty in Hk. discriminate.
  - reflexivity.
  - exists c, s1. auto.
Defined.

Lemma startswith_spec p s : startswith p s = true <-> exists b, s = p ++ b.
Proof.
  revert s. induction p as [|x p IH]; intros s.
  - split; [intros _; exists s; reflexivity | intros _; destruct s; reflexivity].
  - destruct s as [|y s]; cbn [startswith].
    + split; [discriminate | intros (b & E); discriminate E].
    + rewrite andb_true_iff, N.eqb_eq, IH. split.
      * intros (-> & b & ->). exists b. reflexivity.
      * intros (b & E). injection E as -> ->. eauto.
Qed.

Lemma contains_spec p s :
  contains p s = true <-> exists a b, s = a ++ p ++ b.
Proof.
  induction s as [|y s IH].
  - cbn [contains]. rewrite orb_false_r, startswith_spec. split.
    + intros (b & E). exists [], b. exact E.
    + intros (a & b & E). symmetry in E. apply app_eq_nil in E.
      destruct E as [-> E]. exists b. symmetry. exact E.
  - cbn [contains]. rewrite orb_true_iff, startswith_spec, IH. split.
    + intros [(b & E)|(a & b & ->)].
      * exists [], b. exact E.
      * exists (y :: a), b. reflexivity.
    + intros (a & b & E). destruct a as [|x a]; cbn [app] in E.
      * left. exists b. exact E.
      * injection E as <- ->. right. exists a, b. reflexivity.
Qed.

(** A text that contains a phrase contains every part of the phrase. *)
Lemma contains_part before p after s :
  contains (before ++ p ++ after) s = true -> contains p s = true.
Proof.
  rewrite !contains_spec. intros (a & b & ->).
  exists (a ++ before), (after ++ b). rewrite <- !app_assoc. reflexivity.
Qed.

(** Of the four indicators two decide: [coder] and [starcoder] contain
    [code]. *)
Lemma code_by_name_two {ru : PyUnicode} model_name :
  code_by_name model_name
  = contains (lit "code") (lower model_name)
    || contains (lit "wizard") (lower model_name).
Proof.
  unfold code_by_name. cbn [existsb]. rewrite orb_false_r.
  destruct (contains (lit "code") (lower model_name)) eqn:E1;
    [reflexivity|]. cbn [orb].
  destruct (contains (lit "coder") (lower model_name)) eqn:E2.
  { rewrite (contains_part [] (lit "code") (lit "r")) in E1;
      [discriminate | exact E2]. }
  destruct (contains (lit "starcoder") (lower model_name)) eqn:E3.
  { rewrite (contains_part (lit "star") (lit "code") (lit "r")) in E1;
      [discriminate | exact E3]. }
  reflexivity.
Qed.

(** X26. For [llamacpp], and for a name that is none of the three
    backends, [get_model_capabilities] makes no HTTP request. For
    [llamacpp] the record is the default one with [supports_summarization]
    set and [supports_code] decided by the lower-cased model name, which
    supports code exactly when it contains [code] or [wizard]; for an
    unknown backend it is the default record, which supports nothing. *)
Theorem capabilities_by_name {rt : PyRuntime} {ri : PyInt}
    {ru : PyUnicode} (cfg : Settings)
    (post : nat -> str -> str -> Response + Exn)
    (api_type model_name : str) (s : SelectorCaps) :
  model_capabilities_cache s !! cache_key api_type model_name = None ->
  api_type <> API_TYPE_OLLAMA ->
  api_type <> API_TYPE_YANDEXGPT ->
  exists s1,
    get_model_capabilities cfg post api_type model_name s
    = (Ok (if str_eqb api_type API_TYPE_LLAMACPP
           then named_capabilities api_type model_name
           else default_capabilities api_type model_name), s1)
    /\ http_requests (sel_trace (selector s1))
       = http_requests (sel_trace (selector s))
    /\ requests (selector s1) = requests (selector s)
    /\ supports_code (named_capabilities api_type model_name)
       = contains (lit "code") (lower model_name)
         || contains (lit "wizard") (lower model_name).
Proof.
  intros Hmiss H1 H2.
  assert (E1 : str_eqb api_type API_TYPE_OLLAMA = false).
  { apply not_true_iff_false. rewrite str_eqb_eq. exact H1. }
  assert (E3 : str_eqb api_type API_TYPE_YANDEXGPT = false).
  { apply not_true_iff_false. rewrite str_eqb_eq. exact H2. }
  destruct (get_model_capabilities_fresh cfg post api_type model_name s Hmiss)
    as (r & fr & c & s1 & Hrun & -> & Hcall & _ & _ & _ & _ & Hreq & Hn).
  rewrite E1, E3 in Hreq, Hn. cbn [orb] in Hreq, Hn.
  rewrite app_nil_r in Hreq.
  exists s1. split; [|split; [exact Hreq | split; [exact Hn|]]].
  - rewrite Hcall. f_equal. f_equal.
    unfold capabilities_by_api in Hrun. rewrite E1, E3 in Hrun.
    destruct (str_eqb api_type API_TYPE_LLAMACPP);
      injection Hrun as <- <-; reflexivity.
  - apply code_by_name_two.
Qed.

Lemma capabilities_by_name_witness :
  exists s1,
    get_model_capabilities (rt := rt_no_float) (ri := ri_no_int)
      (ru := ru_ascii) sample_settings no_post API_TYPE_LLAMACPP
      (lit "WizardLM") sample_caps
    = (Ok (named_capabilities (ru := ru_ascii) API_TYPE_LLAMACPP
             (lit "WizardLM")), s1)
    /\ supports_code (named_capabilities (ru := ru_ascii) API_TYPE_LLAMACPP
                        (lit "WizardLM")) = true
    /\ requests (selector s1) = 0%nat.
Proof.
  destruct (capabilities_by_name (rt := rt_no_float) (ri := ri_no_int)
              (ru := ru_ascii) sample_settings no_post API_TYPE_LLAMACPP
              (lit "WizardLM") sample_caps)
    as (s1 & Hrun & _ & Hn & Hcode).
  - reflexivity.
  - discriminate.
  - discriminate.
  - exists s1. split; [exact Hrun|]. split; [|exact Hn].
    rewrite Hcode. vm_compute. reflexivity.
Defined.

(** X27. For [ollama] a call past the cache makes exactly one request, and
    its record is all or nothing: either the default record, or the
    default record with [supports_summarization] set, [supports_code]
    decided by the model name and [max_tokens] either 2048 or [num_ctx];
    the second needs status 200 and a JSON body. For a body that is an
    object: without a [parameters] object, or without [num_ctx] in it, the
    limit stays 2048; with a [num_ctx] that [int] accepts the limit is its
    value; with one that [int] rejects the record is the default one, the
    flags included. *)
Theorem ollama_capabilities_all_or_nothing {rt : PyRuntime} {ri : PyInt}
    {ru : PyUnicode} (cfg : Settings)
    (post : nat -> str -> str -> Response + Exn)
    (model_name : str) (s : SelectorCaps) :
  model_capabilities_cache s !! cache_key API_TYPE_OLLAMA model_name = None ->
  exists c s1,
    get_model_capabilities cfg post API_TYPE_OLLAMA model_name s = (Ok c, s1)
    /\ http_requests (sel_trace (selector s1))
       = http_requests (sel_trace (selector s)) ++ [API_TYPE_OLLAMA]
    /\ (c = default_capabilities API_TYPE_OLLAMA model_name
        \/ exists response body,
             post (requests (selector s)) API_TYPE_OLLAMA model_name
             = inl response
             /\ status_code response = 200%Z
             /\ json response = inl body
             /\ ollama_reading API_TYPE_OLLAMA model_name body c)
    /\ (forall response d,
          post (requests (selector s)) API_TYPE_OLLAMA model_name
          = inl response ->
          status_code response = 200%Z ->
          json response = inl (JDict d) ->
          match d !! lit "parameters" with
          | Some (JDict p) =>
              match p !! lit "num_ctx" with
              | None => c = named_capabilities API_TYPE_OLLAMA model_name
              | Some v =>
                  (forall n, int_is v n ->
                     c = with_max_tokens n
                           (named_capabilities API_TYPE_OLLAMA model_name))
                  /\ ((forall n, ~ int_is v n) ->
                      c = default_capabilities API_TYPE_OLLAMA model_name)
              end
          | _ => c = named_capabilities API_TYPE_OLLAMA model_name
          end).
Proof.
  intros Hmiss.
  destruct (get_model_capabilities_fresh cfg post API_TYPE_OLLAMA model_name
              s Hmiss)
    as (r & fr & c & s1 & Hrun & -> & Hcall & _ & _ & _ & _ & Hreq & _).
  exists (capabilities fr), s1. split; [exact Hcall|].
  split; [exact Hreq|].
  assert (Hrun' := Hrun). unfold capabilities_by_api in Hrun'.
  change (str_eqb API_TYPE_OLLAMA API_TYPE_OLLAMA) with true in Hrun'.
  cbv iota in Hrun'.
  pose proof (ollama_capabilities_wp cfg post model_name s) as H.
  cbv zeta in H. unfold wp in H. rewrite Hrun' in H.
  lazymatch type of H with
  | match r with Ok _ => ?P | Raised _ => _ end =>
      assert (Hgood : P) by (destruct r; exact H)
  end.
  clear H. destruct Hgood as (_ & _ & _ & Hgood).
  change (requests (selector (self (first_frame API_TYPE_OLLAMA model_name s))))
    with (requests (selector s)) in Hgood.
  change (capabilities (first_frame API_TYPE_OLLAMA model_name s))
    with (default_capabilities API_TYPE_OLLAMA model_name) in Hgood.
  destruct (post (requests (selector s)) API_TYPE_OLLAMA model_name)
    as [response|e] eqn:Hpost.
  2: { split; [left; exact Hgood | intros ? ? [=]]. }
  destruct (status_code response =? 200)%Z eqn:Hst.
  2: { split; [left; exact Hgood|]. intros ? ? [= <-] Hs.
       rewrite Hs in Hst. discriminate. }
  apply Z.eqb_eq in Hst.
  destruct (json response) as [body|e] eqn:Hbody.
  2: { split; [left; exact Hgood|]. intros ? ? [= <-] _ Hj. congruence. }
  destruct Hgood as (Hor & Hnodict & Hdict). split.
  - destruct Hor as [Hd|Hr]; [left; exact Hd|].
    right. exists response, body. auto.
  - intros response' d [= <-] _ Hj. rewrite Hbody in Hj. injection Hj as ->.
    destruct (d !! lit "parameters") as [[| | | | | | |p]|] eqn:Hp;
      try (apply (Hnodict d eq_refl); intros p'; congruence).
    exact (Hdict d p eq_refl Hp).
Qed.

Lemma ollama_capabilities_all_or_nothing_witness :
  exists s1,
    get_model_capabilities (rt := rt_no_float) (ri := ri_no_int)
      (ru := ru_ascii) sample_settings
      (post_answers (JDict (<[lit "parameters" := JStr (lit "num_ctx 4096")]> ∅)))
      API_TYPE_OLLAMA (lit "codellama") sample_caps
    = (Ok (named_capabilities (ru := ru_ascii) API_TYPE_OLLAMA
             (lit "codellama")), s1)
    /\ max_tokens (named_capabilities (ru := ru_ascii) API_TYPE_OLLAMA
                     (lit "codellama")) = 2048%Z.
Proof.
  destruct (ollama_capabilities_all_or_nothing (rt := rt_no_float)
              (ri := ri_no_int) (ru := ru_ascii) sample_settings
              (post_answers
                 (JDict (<[lit "parameters" := JStr (lit "num_ctx 4096")]> ∅)))
              (lit "codellama") sample_caps)
    as (c & s1 & Hrun & _ & _ & Hbody).
  - reflexivity.
  - specialize (Hbody _ _ eq_refl eq_refl eq_refl).
    change ((<[lit "parameters" := JStr (lit "num_ctx 4096")]> ∅ : gmap str Json)
              !! lit "parameters")
      with (Some (JStr (lit "num_ctx 4096"))) in Hbody.
    cbv iota in Hbody. subst c. exists s1. split; [exact Hrun | reflexivity].
Defined.

Section TokenFacts.

Context {rt : PyRuntime} {ru : PyUnicode}.

Lemma decimal_digit c d : decimal c = Some d -> (0 <= d <= 9)%Z.
Proof.
  unfold decimal. destruct (c <? 128)%N.
  - destruct ((48 <=? c) && (c <=? 57))%N eqn:E; [|discriminate].
    intros [= <-]. apply andb_true_iff in E. destruct E as [E1 E2].
    apply N.leb_le in E1, E2. lia.
  - apply uni_decimal_digit.
Qed.

Lemma fold_digits_bound g acc :
  (0 <= acc)%Z -> forallb is_decimal g = true ->
  (0 <= fold_left (fun n c => 10 * n + default 0 (decimal c)) g acc
   < (acc + 1) * 10 ^ Z.of_nat (length g))%Z.
Proof.
  revert acc. induction g as [|c g IH]; intros acc Hacc Hg.
  - cbn [fold_left length]. change (10 ^ Z.of_nat 0)%Z with 1%Z. lia.
  - cbn [forallb] in Hg. apply andb_true_iff in Hg. destruct Hg as [Hc Hg].
    unfold is_decimal in Hc. destruct (decimal c) as [d|] eqn:Hd;
      [|discriminate].
    cbn [fold_left length]. rewrite Hd. cbn [from_option id].
    apply decimal_digit in Hd.
    rewrite Nat2Z.inj_succ, Z.pow_succ_r by lia.
    specialize (IH (10 * acc + d)%Z ltac:(lia) Hg).
    assert (0 < 10 ^ Z.of_nat (length g))%Z by (apply Z.pow_pos_nonneg; lia).
    assert ((10 * acc + d + 1) * 10 ^ Z.of_nat (length g)
            <= (10 * (acc + 1)) * 10 ^ Z.of_nat (length g))%Z
      by (apply Z.mul_le_mono_nonneg_r; lia).
    lia.
Qed.

Lemma int_of_digits_bound g :
  forallb is_decimal g = true -> (length g <= 6)%nat ->
  (0 <= int_of_digits g <= 999999)%Z.
Proof.
  intros Hg Hlen. unfold int_of_digits.
  pose proof (fold_digits_bound g 0%Z ltac:(lia) Hg) as H.
  assert (10 ^ Z.of_nat (length g) <= 10 ^ 6)%Z.
  { apply Z.pow_le_mono_r; lia. }
  change (10 ^ 6)%Z with 1000000%Z in *. lia.
Qed.

Lemma group_1_spec k s g :
  group_1 k s = Some g ->
  (1 <= length g <= k)%nat /\ forallb is_decimal g = true
  /\ exists rest, s = g ++ rest
                  /\ Re.match_prefix true after_digits rest = true.
Proof.
  induction k as [|k IH]; [discriminate|].
  cbn [group_1]. cbv zeta.
  destruct ((length (firstn (Datatypes.S k) s) =? Datatypes.S k)%nat
            && forallb is_decimal (firstn (Datatypes.S k) s)
            && Re.match_prefix true after_digits (skipn (Datatypes.S k) s))
    eqn:E.
  - intros [= <-]. apply andb_true_iff in E. destruct E as [E E3].
    apply andb_true_iff in E. destruct E as [E1 E2].
    apply Nat.eqb_eq in E1. rewrite E1.
    split; [lia|]. split; [exact E2|].
    exists (skipn (Datatypes.S k) s). split; [|exact E3].
    symmetry. apply firstn_skipn.
  - intros H. destruct (IH H) as (Hl & Hd & Hr). split; [lia | auto].
Qed.

(** What [re.search] finds is a run of one to six digits in the text that
    the rest of the pattern follows. *)
Lemma token_matches_spec s g :
  token_matches s = Some g ->
  (1 <= length g <= 6)%nat /\ forallb is_decimal g = true
  /\ exists before rest,
       s = before ++ g ++ rest
       /\ Re.match_prefix true after_digits rest = true.
Proof.
  induction s as [|c s IH]; cbn [token_matches].
  - destruct (group_1 6 []) eqn:E; [|discriminate].
    intros [= <-]. destruct (group_1_spec _ _ _ E) as (Hl & Hd & r & Hs & Hm).
    split; [exact Hl|]. split; [exact Hd|]. exists [], r. auto.
  - destruct (group_1 6 (c :: s)) eqn:E.
    + intros [= <-].
      destruct (group_1_spec _ _ _ E) as (Hl & Hd & r & Hs & Hm).
      split; [exact Hl|]. split; [exact Hd|]. exists [], r. auto.
    + intros H. destruct (IH H) as (Hl & Hd & b & r & -> & Hm).
      split; [exact Hl|]. split; [exact Hd|]. exists (c :: b), r. auto.
Qed.

End TokenFacts.

(** X28. For [yandexgpt] a call past the cache makes exactly one request.
    Its record claims nothing the stored description does not bear out:
    a flag is set only if the description is a string that mentions it, a
    limit other than 2048 is the number the pattern finds in it, and a
    version is only recorded with such a description. The limit is always
    between 0 and 999999. Unless the request returns status 200 with a
    JSON body the record is the default one; for a well-formed answer it is
    determined by the answer's text and [modelVersion]. *)
Theorem yandexgpt_capabilities_described {rt : PyRuntime} {ri : PyInt}
    {ru : PyUnicode} (cfg : Settings)
    (post : nat -> str -> str -> Response + Exn)
    (model_name : str) (s : SelectorCaps) :
  model_capabilities_cache s !! cache_key API_TYPE_YANDEXGPT model_name
  = None ->
  exists c s1,
    get_model_capabilities cfg post API_TYPE_YANDEXGPT model_name s
    = (Ok c, s1)
    /\ http_requests (sel_trace (selector s1))
       = http_requests (sel_trace (selector s)) ++ [API_TYPE_YANDEXGPT]
    /\ described c
    /\ (0 <= max_tokens c <= 999999)%Z
    /\ (c = default_capabilities API_TYPE_YANDEXGPT model_name
        \/ exists response body,
             post (requests (selector s)) API_TYPE_YANDEXGPT model_name
             = inl response
             /\ status_code response = 200%Z
             /\ json response = inl body)
    /\ (forall response d r a rest msg t,
          post (requests (selector s)) API_TYPE_YANDEXGPT model_name
          = inl response ->
          status_code response = 200%Z ->
          json response = inl (JDict d) ->
          d !! lit "result" = Some (JDict r) ->
          r !! lit "alternatives" = Some (JList (JDict a :: rest)) ->
          a !! lit "message" = Some (JDict msg) ->
          msg !! lit "text" = Some (JStr t) ->
          c = answer_capabilities API_TYPE_YANDEXGPT model_name t
                (default (JStr (u8 "Неизвестно")) (r !! lit "modelVersion"))).
Proof.
  intros Hmiss.
  destruct (get_model_capabilities_fresh cfg post API_TYPE_YANDEXGPT
              model_name s Hmiss)
    as (r & fr & c & s1 & Hrun & -> & Hcall & _ & _ & _ & _ & Hreq & _).
  exists (capabilities fr), s1. split; [exact Hcall|].
  split; [exact Hreq|].
  assert (Hrun' := Hrun). unfold capabilities_by_api in Hrun'.
  change (str_eqb API_TYPE_YANDEXGPT API_TYPE_OLLAMA) with false in Hrun'.
  change (str_eqb API_TYPE_YANDEXGPT API_TYPE_LLAMACPP) with false in Hrun'.
  change (str_eqb API_TYPE_YANDEXGPT API_TYPE_YANDEXGPT) with true in Hrun'.
  cbv iota in Hrun'.
  pose proof (yandexgpt_capabilities_wp cfg post model_name s) as H.
  cbv zeta in H. unfold wp in H. rewrite Hrun' in H.
  lazymatch type of H with
  | match r with Ok _ => ?P | Raised _ => _ end =>
      assert (Hgood : P) by (destruct r; exact H)
  end.
  clear H. destruct Hgood as (_ & _ & _ & Hdesc & Hgood).
  change (requests (selector (self (first_frame API_TYPE_YANDEXGPT model_name s))))
    with (requests (selector s)) in Hgood.
  change (capabilities (first_frame API_TYPE_YANDEXGPT model_name s))
    with (default_capabilities API_TYPE_YANDEXGPT model_name) in Hgood.
  split; [exact Hdesc|]. split.
  { destruct Hdesc as (_ & _ & [H2048|(t & g & _ & Hg & Hmax)] & _).
    - rewrite H2048. lia.
    - rewrite Hmax. destruct (token_matches_spec _ _ Hg) as (Hl & Hd & _).
      apply int_of_digits_bound; [exact Hd | lia]. }
  destruct (post (requests (selector s)) API_TYPE_YANDEXGPT model_name)
    as [response|e] eqn:Hpost.
  2: { split; [left; exact Hgood | intros; discriminate]. }
  destruct (status_code response =? 200)%Z eqn:Hst.
  2: { split; [left; exact Hgood|]. intros ? ? ? ? ? ? ? [= <-] Hs.
       rewrite Hs in Hst. discriminate. }
  apply Z.eqb_eq in Hst.
  destruct (json response) as [body|e] eqn:Hbody.
  2: { split; [left; exact Hgood|]. intros ? ? ? ? ? ? ? [= <-] _ Hj.
       congruence. }
  split.
  - right. exists response, body. auto.
  - intros response' d r' a rest msg t [= <-] _ Hj.
    rewrite Hbody in Hj. injection Hj as ->.
    apply Hgood. reflexivity.
Qed.

Lemma yandexgpt_capabilities_described_witness :
  exists c s1,
    get_model_capabilities (rt := rt_no_float) (ri := ri_no_int)
      (ru := ru_ascii) sample_settings
      (post_answers (completion (lit "I can read 8192 tokens of code")))
      API_TYPE_YANDEXGPT (lit "yandexgpt") sample_caps
    = (Ok c, s1)
    /\ max_tokens c = 8192%Z
    /\ supports_code c = false
    /\ description c = JStr (lit "I can read 8192 tokens of code").
Proof.
  destruct (yandexgpt_capabilities_described (rt := rt_no_float)
              (ri := ri_no_int) (ru := ru_ascii) sample_settings
              (post_answers (completion (lit "I can read 8192 tokens of code")))
              (lit "yandexgpt") sample_caps)
    as (c & s1 & Hrun & _ & _ & _ & _ & Hanswer).
  - reflexivity.
  - exists c, s1. split; [exact Hrun|].
    rewrite (Hanswer _ _ _ _ _ _ _ eq_refl eq_refl eq_refl
               (lookup_insert_eq _ _ _) (lookup_insert_eq _ _ _)
               (lookup_insert_eq _ _ _) (lookup_insert_eq _ _ _)).
    vm_compute. auto.
Defined.

Section TokenReading.

Context {rt : PyRuntime} {ru : PyUnicode}.

Lemma ascii_digit_cases c :
  ascii_digit c = true ->
  In c [48; 49; 50; 51; 52; 53; 54; 55; 56; 57]%N.
Proof.
  unfold ascii_digit. intros H. apply andb_true_iff in H.
  destruct H as [H1 H2]. apply N.leb_le in H1, H2. cbn [In].
  assert (c = 48 \/ c = 49 \/ c = 50 \/ c = 51 \/ c = 52 \/ c = 53
          \/ c = 54 \/ c = 55 \/ c = 56 \/ c = 57)%N by lia.
  intuition auto.
Qed.

Lemma ascii_digit_decimal c : ascii_digit c = true -> is_decimal c = true.
Proof.
  intros H. apply ascii_digit_cases in H. cbn [In] in H.
  repeat (destruct H as [<-|H]; [reflexivity|]). destruct H.
Qed.

(** After a digit the rest of the pattern cannot start. *)
Lemma after_digits_not_at_digit c s :
  ascii_digit (uni_fold CYRILLIC_TE) = false ->
  ascii_digit c = true ->
  Re.match_prefix true after_digits (c :: s) = false.
Proof.
  intros Hte Hc.
  assert (Hd : Re.deriv true c after_digits = Re.Void).
  { assert (Hne : (c =? uni_fold CYRILLIC_TE)%N = false).
    { apply N.eqb_neq. intros ->. congruence. }
    unfold after_digits, ch.
    change (u8 "токенов")
      with [1090; 1086; 1082; 1077; 1085; 1086; 1074]%N.
    change (lit "tokens") with [116; 111; 107; 101; 110; 115]%N.
    unfold CYRILLIC_TE in Hne.
    apply ascii_digit_cases in Hc. cbn [In] in Hc.
    repeat (destruct Hc as [<-|Hc];
            [ cbn [Re.deriv Re.Str Re.nullable ws Re.cset_match existsb
                   Re.atom_match andb orb];
              change (Re.fold 1090) with (uni_fold 1090);
              match goal with
              | |- context [(Re.fold ?x =? uni_fold 1090)%N] =>
                  change (Re.fold x) with x
              end;
              rewrite Hne; reflexivity |]).
    destruct Hc. }
  change (Re.match_prefix true after_digits (c :: s))
    with (Re.nullable after_digits
          || Re.match_prefix true (Re.deriv true c after_digits) s).
  rewrite Hd, match_prefix_void. reflexivity.
Qed.

Lemma group_1_not_at c s k : is_decimal c = false -> group_1 k (c :: s) = None.
Proof.
  intros Hc. induction k as [|k IH]; [reflexivity|].
  cbn [group_1 firstn forallb]. cbv zeta. rewrite Hc.
  rewrite andb_false_r. exact IH.
Qed.

(** No match starts in a text without digits. *)
Lemma token_matches_skip before s :
  forallb (fun c => negb (is_decimal c)) before = true ->
  token_matches (before ++ s) = token_matches s.
Proof.
  induction before as [|c before IH]; [reflexivity|].
  cbn [forallb app]. intros H. apply andb_true_iff in H.
  destruct H as [Hc H]. apply negb_true_iff in Hc.
  cbn [token_matches]. rewrite (group_1_not_at _ _ _ Hc). exact (IH H).
Qed.

(** Inside a longer run of digits no match of at most [k] digits starts. *)
Lemma group_1_inside k d tail :
  ascii_digit (uni_fold CYRILLIC_TE) = false ->
  forallb ascii_digit d = true ->
  (k < length d)%nat ->
  group_1 k (d ++ tail) = None.
Proof.
  intros Hte Hd. induction k as [|k IH]; [reflexivity|]. intros Hk.
  cbn [group_1]. cbv zeta.
  assert (Hskip : exists c rest,
             skipn (Datatypes.S k) (d ++ tail) = c :: rest
             /\ ascii_digit c = true).
  { rewrite skipn_app.
    destruct (skipn (Datatypes.S k) d) as [|c rest] eqn:E.
    - apply (f_equal (@length N)) in E. rewrite length_skipn in E.
      cbn [length] in E. lia.
    - exists c, (rest ++ skipn (Datatypes.S k - length d) tail).
      split; [reflexivity|].
      rewrite forallb_forall in Hd. apply Hd.
      rewrite <- (firstn_skipn (Datatypes.S k) d), E.
      apply in_or_app. right. left. reflexivity. }
  destruct Hskip as (c & rest & -> & Hc).
  rewrite (after_digits_not_at_digit c rest Hte Hc), andb_false_r.
  apply IH. lia.
Qed.

Lemma matches_spaces gap : matches true (Re.Star ws) (repeat 32%N gap).
Proof.
  induction gap as [|gap IH]; [apply MStar0|].
  change (repeat 32%N (Datatypes.S gap)) with ([32%N] ++ repeat 32%N gap).
  apply MStarS; [|exact IH]. apply MChr. reflexivity.
Qed.

Lemma matches_literal ic w : matches ic (Re.Str w) w.
Proof.
  assert (Hchr : forall c, matches ic (Re.Chr [Re.CChar c]) [c]).
  { intros c. apply MChr. unfold Re.cset_match. cbn [existsb Re.atom_match].
    destruct ic; rewrite N.eqb_refl; reflexivity. }
  induction w as [|c w IH]; [apply MEps|].
  destruct w as [|c' w]; [apply Hchr|].
  change (Re.Str (c :: c' :: w))
    with (Re.Seq (Re.Chr [Re.CChar c]) (Re.Str (c' :: w))).
  change (c :: c' :: w) with ([c] ++ c' :: w).
  apply MSeq; [apply Hchr | exact IH].
Qed.

Lemma after_digits_at_word gap after :
  Re.match_prefix true after_digits (repeat 32%N gap ++ lit "tokens" ++ after)
  = true.
Proof.
  apply match_prefix_spec.
  exists (repeat 32%N gap ++ lit "tokens"), after.
  split; [rewrite <- app_assoc; reflexivity|].
  apply MSeq; [apply matches_spaces|].
  apply MAltR. apply matches_literal.
Qed.

(** A run of at most [k] digits before the word is group 1 as a whole. *)
Lemma group_1_run k d gap after :
  forallb ascii_digit d = true ->
  d <> [] ->
  (length d <= k)%nat ->
  group_1 k (d ++ repeat 32%N gap ++ lit "tokens" ++ after) = Some d.
Proof.
  intros Hd Hne. induction k as [|k IH]; intros Hk.
  { destruct d; [congruence | cbn [length] in Hk; lia]. }
  set (tail := repeat 32%N gap ++ lit "tokens" ++ after) in *.
  assert (Hdec : forallb is_decimal d = true).
  { rewrite forallb_forall in *. intros c Hc.
    apply ascii_digit_decimal, Hd, Hc. }
  cbn [group_1]. cbv zeta.
  destruct (Nat.eq_dec (length d) (Datatypes.S k)) as [E|E].
  - assert (Hfirst : firstn (Datatypes.S k) (d ++ tail) = d).
    { rewrite <- E, firstn_app, Nat.sub_diag, firstn_all.
      cbn [firstn]. apply app_nil_r. }
    assert (Hrest : skipn (Datatypes.S k) (d ++ tail) = tail).
    { rewrite <- E, skipn_app, Nat.sub_diag, skipn_all.
      reflexivity. }
    rewrite Hfirst, Hrest, E, Nat.eqb_refl, Hdec.
    unfold tail. rewrite after_digits_at_word. reflexivity.
  - assert (Hfirst : exists c rest,
               firstn (Datatypes.S k) (d ++ tail) = d ++ c :: rest
               /\ is_decimal c = false).
    { rewrite firstn_app, firstn_all2 by lia.
      destruct (Datatypes.S k - length d)%nat as [|j] eqn:Ej; [lia|].
      unfold tail. destruct gap as [|gap].
      - exists 116%N. eexists. split; reflexivity.
      - exists 32%N. eexists. split; reflexivity. }
    destruct Hfirst as (c & rest & -> & Hc).
    rewrite forallb_app. cbn [forallb]. rewrite Hc.
    rewrite andb_false_r, andb_false_r. cbn [andb].
    apply IH. lia.
Qed.

(** The digits next to the word are what counts, and of more than six
    the last six. *)
Lemma token_matches_run d gap after :
  ascii_digit (uni_fold CYRILLIC_TE) = false ->
  forallb ascii_digit d = true ->
  d <> [] ->
  token_matches (d ++ repeat 32%N gap ++ lit "tokens" ++ after)
  = Some (skipn (length d - 6) d).
Proof.
  intros Hte. induction d as [|c d IH]; [congruence|].
  intros Hd _.
  destruct (le_lt_dec (length (c :: d)) 6) as [Hle|Hgt].
  - replace (length (c :: d) - 6)%nat with 0%nat by lia.
    cbn [skipn app token_matches].
    change (c :: d ++ repeat 32%N gap ++ lit "tokens" ++ after)
      with ((c :: d) ++ repeat 32%N gap ++ lit "tokens" ++ after).
    rewrite (group_1_run 6 (c :: d) gap after Hd ltac:(discriminate) Hle).
    reflexivity.
  - cbn [app token_matches].
    change (c :: d ++ repeat 32%N gap ++ lit "tokens" ++ after)
      with ((c :: d) ++ repeat 32%N gap ++ lit "tokens" ++ after).
    rewrite (group_1_inside 6 (c :: d) _ Hte Hd Hgt).
    cbn [length] in Hgt.
    cbn [forallb] in Hd. apply andb_true_iff in Hd. destruct Hd as [_ Hd].
    rewrite IH; [|exact Hd | destruct d; [cbn [length] in Hgt; lia
                                         | discriminate]].
    f_equal. cbn [length].
    replace (Datatypes.S (length d) - 6)%nat
      with (Datatypes.S (length d - 6)) by lia.
    reflexivity.
Qed.

End TokenReading.

(** X29. The token limit is read from the digits immediately before the
    word: in a text with no digit before the number, a number of ASCII
    digits followed by any number of spaces and the word [tokens] is found
    by the pattern, and its group 1 is the number when it has at most six
    digits and the last six digits of it otherwise, so that a limit of
    1000000 tokens is read as 0. (The runtime's case folding must not map
    the Cyrillic letter of the other word to a digit.) *)
Theorem token_limit_last_six_digits {rt : PyRuntime} {ru : PyUnicode}
    (before digits after : str) (gap : nat) :
  ascii_digit (uni_fold CYRILLIC_TE) = false ->
  forallb (fun c => negb (is_decimal c)) before = true ->
  forallb ascii_digit digits = true ->
  digits <> [] ->
  token_matches (before ++ digits ++ repeat 32%N gap ++ lit "tokens" ++ after)
  = Some (skipn (length digits - 6) digits).
Proof.
  intros Hte Hbefore Hd Hne.
  rewrite token_matches_skip by exact Hbefore.
  apply token_matches_run; assumption.
Qed.

Lemma token_limit_last_six_digits_witness :
  token_matches (rt := rt_no_float) (ru := ru_ascii)
    (lit "up to 1000000 tokens.") = Some (lit "000000")
  /\ int_of_digits (ru := ru_ascii) (lit "000000") = 0%Z.
Proof.
  split; [|reflexivity].
  exact (token_limit_last_six_digits (rt := rt_no_float) (ru := ru_ascii)
           (lit "up to ") (lit "1000000") (lit ".") 1
           eq_refl eq_refl eq_refl ltac:(discriminate)).
Defined.
